(* ===== verification/_CoqProject ===== *)
-Q . S2P
Prelude.v
File.v
Fd.v
X86.v
Memory.v
AddressSpace.v
PageTables.v
Spaces.v
SpaceOps.v
UserMemory.v
Process.v
Context.v
Serial.v
Vga.v
Task.v
Syscall.v
User.v
Elf.v
Build.v
Fixtures.v
Loading.v
Scheduler.v
SchedulerCalls.v
Interrupts.v
Boot.v
RoundRobin.v
Invariant.v
Switching.v
Exit.v
Calls.v
Spawn.v
System.v
Fairness.v
ProcessTree.v
Isolation.v
Confinement.v
KernelHeap.v
KernelMain.v
Handlers.v
Stubs.v
UserCode.v
Execution.v
Startup.v
X86Model.v
IntegrationTests.v
Properties.v
MemoryProperties.v
Examples.v
MemoryExamples.v
