(* ===== verification/Prelude.v ===== *)
(** * vladOS: a verification development

    vladOS is a small x86-64 kernel in Rust: a preemptive scheduler, processes
    with private address spaces, an ELF loader, nine system calls on [int 0x80],
    embedded read-only files, and the boot code. This library models the kernel,
    the build script that writes its test programs, and the integration tests,
    and proves what makes them correct. Paths are relative to the repository;
    [x.rs] means src/src/x.rs.

    ** The model

    Rust code that changes state is a function of a state-and-panic monad,
    [ST S A := S -> exec (A * S)]: an operation returns [Done (a, s')] or
    [Panic msg]. [Result] is [result], [?] is [let?]. Integers are [Z], with
    wrap-around, saturation and checked operations written out where the code
    has them. [wp op Q s] says that [op] returns from [s] and its result
    satisfies [Q]; it is total, so every theorem of this form is also a proof
    that the operation does not panic and that its loops end. Loops that are not
    structural take fuel that the caller computes from the length of the data;
    the lemmas show it is enough.

    The machine ([Machine], Scheduler.v) has the scheduler state, physical
    memory as a function from addresses to bytes with CR3 and the memory state,
    the words of kernel stacks, the processor's segment registers and TSS.rsp0,
    and the serial port. The scheduler's lock and disabled interrupts make its
    operations atomic on the one processor.

    ** Code outside the repository

    The x86_64 crate is the class [X86_64] (X86.v), its documented behaviour
    [X86_64_Spec] and [X86_64_Paging]: canonical addresses, table indices,
    entries, and what [map_to] and [unmap] do to the tables. The descriptor
    table of the crate is [Segments] (Boot.v). X86Model.v implements both and
    proves the laws, so that no theorem is vacuous. Memory allocation by the
    kernel's collections is taken to succeed, and the stack of a new task to be
    apart from those in use ([unused_stack]).

    ** The files, and the code they model

    Data: File (file.rs), Fd (fd.rs), Process (process.rs), Task (task.rs),
    Serial (serial.rs), Vga (vga_buffer.rs), Syscall (numbers and errors of
    syscall.rs).
    Memory: X86, Memory (memory.rs), AddressSpace (address_space.rs),
    UserMemory (user_memory.rs), User (user.rs), Elf (elf.rs).
    Switching: Context (trap frames of context.rs), Stubs (its assembly, with
    an interpreter for the instructions it uses), Scheduler and SchedulerCalls
    (scheduler.rs), Interrupts ([dispatch] of syscall.rs, the handlers of
    interrupts.rs).
    Boot: Boot (gdt.rs, the IDT, PIC and PIT of interrupts.rs, the UART, qemu.rs),
    KernelHeap (allocator.rs), KernelMain (main.rs).
    Programs: Build (build.rs), UserCode (the assembly of user.rs, the encoding
    of its instructions, and a ring-3 processor that fetches and executes them
    through the page tables), IntegrationTests (src/tests).

    ** The theorems

    The claims are in Properties and MemoryProperties; Examples and
    MemoryExamples apply each of them to concrete machines.

    - The machine invariant [ok] (Invariant): tasks, processes, open files and
      the loaded address space agree. Switching, Exit, Calls, Spawn and Handlers
      show for every operation that it returns, keeps [ok], and what it does on
      every branch; System puts them together: [reachable] is what boot, events
      and arbitrary user execution lead to. A reachable machine handles every
      event to the end, except that a system call with a pointer that is not an
      address panics, and tasks do not deadlock.
    - Fairness (RoundRobin, Fairness): along every [trace] of events, of
      whatever kinds, that keeps preemption on, a ready task runs after at most
      as many timer interrupts as there are tasks.
    - ProcessTree: child lists and parents agree in every reachable machine; in
      an [orderly] one, where children are spawned under running parents only,
      every parent is in the table and running.
    - Address spaces (PageTables, Spaces, SpaceOps): page tables form a forest
      of distinct allocated frames; creating, mapping, unmapping, copying and
      zeroing are described by what they do to the [view] of a space, and leave
      other spaces alone. Loading: a loaded program sees its image.
    - Isolation (Isolation, Confinement): [confined] machines start from
      [booted_memory] and let user code store only through its page tables.
      Their processes share no memory, cannot reach page tables, and an event
      changes only the memory of the processes it involves; copies, statuses
      and heap pages arrive as specified. UserCode proves that executing
      instructions of any program is such a run.
    - KernelHeap shows that the boot code establishes [booted_memory].
    - Stubs: the entry stubs build the frames that the handlers read, and a
      switch saves and restores all registers.
    - Execution (Execution, Startup): [executed] is what the boot code and then
      any number of instructions and timer interrupts lead to, through stubs,
      kernel and restore path. Every task has a kernel stack of its own, and the
      handlers write only return values into the frames saved there. So every
      modelled instruction and every timer interrupt is handled to the end, with
      the same exception of rejected pointers, and a program that is preempted
      resumes with its registers and its memory unchanged, whatever the other
      programs did.
    - Vga: what is printed determines every cell of the screen.
    - Images: what build.rs writes is what the loader accepts (Fixtures), and
      decoding inverts encoding (UserCode).
    - IntegrationTests evaluates the tests: the images of build.rs run on the
      model instruction by instruction, the test functions of a test kernel one
      after the other on one machine, and all assertions hold, those on the
      timer's ticks included.

    ** Bounds

    Copies and range checks take one more step of fuel than there are bytes or
    pages. [disassemble 64] covers the programs, of at most eight instructions.
    The tests give [yield_now] more instructions than the programs need; running
    out would be a panic, and the tests would fail. [run_kernel_tasks] with fuel 10 covers
    the two demo tasks, which make ten steps.

    ** Where the code departs from its intent

    [dispatch] panics on a pointer that is not a canonical address instead of
    returning EFAULT ([bad_pointer_panics]); [accepted] and [pointer_accepted]
    say that a call has no such pointer, and the theorems about all events and
    about execution state the panic as their other case. [ProcessTable::create] accepts a parent that has
    exited ([zombie_parent_accepted]). kernel_main does not call
    [memory::init_global], so that the shipped kernel runs kernel tasks only;
    the test kernels call it.

    ** Not modelled

    The formatting machinery behind print! and serial_print! (core::fmt);
    pointers through the direct map, which are reads and writes of the memory
    function; the panic handlers, [hlt_loop] and handlers
    that only print and halt; the part of a kernel stack that a handler's own
    Rust code uses below the trap frame, and its overflow; [syscall_yield] and [syscall_exit] of user.rs,
    which nothing calls; the allocator crate. Instructions that no program of the
    repository uses are outside [decode]; [modelled] names that restriction, and
    nothing is said about what the kernel does when a program executes one. Physical devices are the writes sent to their ports. The
    tests of kernel tasks, of the allocator and of ring-0 exceptions are not
    run. *)

From Stdlib Require Export ZArith Lia.
From stdpp Require Export base tactics list strings.

#[global] Open Scope Z_scope.

Declare Scope kernel_scope.
Delimit Scope kernel_scope with kernel.
#[global] Open Scope kernel_scope.

(** ** Machine integers

    A [u64], [usize] or [VirtAddr] is an integer [Z] in [0, 2^64); every
    operation of the source that can leave that range is written out. *)

Definition U64_MAX : Z := 2 ^ 64 - 1.

Definition is_u64 (z : Z) : Prop := 0 <= z < 2 ^ 64.

Definition not64 (x : Z) : Z := Z.lxor x U64_MAX.

(** [u64::checked_add] *)
Definition checked_add (a b : Z) : option Z :=
  if a + b <? 2 ^ 64 then Some (a + b) else None.

(** [usize::checked_mul] *)
Definition checked_mul (a b : Z) : option Z :=
  if a * b <? 2 ^ 64 then Some (a * b) else None.

(** [usize::saturating_sub] *)
Definition saturating_sub (a b : Z) : Z := Z.max 0 (a - b).

(** Reading an unsigned [w]-bit value as a signed one ([as i32], [as i64]). *)
Definition to_signed (w z : Z) : Z :=
  let r := z mod 2 ^ w in if r <? 2 ^ (w - 1) then r else r - 2 ^ w.

Definition PAGE_SIZE : Z := 4096.

(** The three identical private copies of [align_down] and the four of
    [align_up]. *)
Definition align_down (value align : Z) : Z := Z.land value (not64 (align - 1)).

Definition align_up (value align : Z) : option Z :=
  match checked_add value (align - 1) with
  | Some v => Some (Z.land v (not64 (align - 1)))
  | None => None
  end.

(** ** Results, panics and the state monad

    [result E T] is Rust's [Result<T, E>]. [exec A] is a computation that
    returns or panics, the panic carrying the message of its [expect].
    [ST S A] threads a state [S]; fallible stateful code returns
    [ST S (result E A)]. *)

Inductive result (E T : Type) : Type :=
| Ok (t : T)
| Err (e : E).
Arguments Ok {E T} t.
Arguments Err {E T} e.

Inductive exec (A : Type) : Type :=
| Done (a : A)
| Panic (msg : string).
Arguments Done {A} a.
Arguments Panic {A} msg.

Definition ST (S A : Type) : Type := S -> exec (A * S).

Definition ok_or {E T} (o : option T) (e : E) : result E T :=
  match o with Some t => Ok t | None => Err e end.

Definition map_err {E F T} (f : E -> F) (r : result E T) : result F T :=
  match r with Ok t => Ok t | Err e => Err (f e) end.

Definition result_map {E T U} (f : T -> U) (r : result E T) : result E U :=
  match r with Ok t => Ok (f t) | Err e => Err e end.

Definition is_err {E T} (r : result E T) : bool :=
  match r with Ok _ => false | Err _ => true end.

(** The [?] operator in pure code. *)
Definition result_bind {E A B} (r : result E A) (k : A -> result E B) : result E B :=
  match r with Ok a => k a | Err e => Err e end.

Definition st_ret {S A} (a : A) : ST S A := fun s => Done (a, s).

Definition st_bind {S A B} (m : ST S A) (k : A -> ST S B) : ST S B :=
  fun s => match m s with
           | Done (a, s') => k a s'
           | Panic msg => Panic msg
           end.

(** The [?] operator: an [Err] leaves the enclosing function. *)
Definition st_try {S E A B} (m : ST S (result E A)) (k : A -> ST S (result E B)) :
    ST S (result E B) :=
  st_bind m (fun r => match r with Ok a => k a | Err e => st_ret (Err e) end).

Definition st_get {S} : ST S S := fun s => Done (s, s).
Definition st_put {S} (s' : S) : ST S unit := fun _ => Done (tt, s').
Definition st_modify {S} (f : S -> S) : ST S unit := fun s => Done (tt, f s).
Definition st_gets {S A} (f : S -> A) : ST S A := fun s => Done (f s, s).
Definition st_panic {S A} (msg : string) : ST S A := fun _ => Panic msg.

(** [Option::expect], and an indexing [v[i]] whose bounds check can fail. *)
Definition st_expect {S A} (o : option A) (msg : string) : ST S A :=
  match o with Some a => st_ret a | None => st_panic msg end.

(** Running an operation of a component on its part of a larger state. *)
Definition st_zoom {S T A} (get : S -> T) (set : T -> S -> S) (m : ST T A) : ST S A :=
  fun s => match m (get s) with
           | Done (a, t) => Done (a, set t s)
           | Panic msg => Panic msg
           end.

Notation "'let*' x ':=' m 'in' k" := (st_bind m (fun x => k))
  (at level 10, x name, m at level 100, k at level 200) : kernel_scope.
Notation "'let*' ' x ':=' m 'in' k" := (st_bind m (fun x => k))
  (at level 10, x strict pattern, m at level 100, k at level 200) : kernel_scope.
Notation "'let?' x ':=' m 'in' k" := (st_try m (fun x => k))
  (at level 10, x name, m at level 100, k at level 200) : kernel_scope.
Notation "'let!' x ':=' m 'in' k" := (result_bind m (fun x => k))
  (at level 10, x name, m at level 100, k at level 200) : kernel_scope.
Notation "m ;;; k" := (st_bind m (fun _ => k))
  (at level 199, right associativity) : kernel_scope.

(** ** Weakest preconditions

    [wp m Q s]: from [s], [m] returns without a panic, and [Q] holds of the
    value and state it returns. *)
Definition wp {S A} (m : ST S A) (Q : A -> S -> Prop) (s : S) : Prop :=
  match m s with
  | Done (a, s') => Q a s'
  | Panic _ => False
  end.

(** ** Vectors

    Rust's [Vec] and arrays are lists indexed by a machine integer;
    [vget] is [get], [vset] the assignment [v[i] = x] (which the callers
    guard: out of range it leaves the list unchanged). *)
Definition vlen {A} (l : list A) : Z := Z.of_nat (length l).

Definition in_range {A} (l : list A) (i : Z) : bool :=
  if 0 <=? i then i <? vlen l else false.

Definition vget {A} (l : list A) (i : Z) : option A :=
  if in_range l i then l !! Z.to_nat i else None.

Definition vset {A} (l : list A) (i : Z) (x : A) : list A :=
  if in_range l i then <[Z.to_nat i := x]> l else l.

(** [Iterator::position] *)
Fixpoint position {A} (p : A -> bool) (l : list A) : option Z :=
  match l with
  | [] => None
  | x :: l' => if p x then Some 0
               else match position p l' with Some i => Some (i + 1) | None => None end
  end.

Fixpoint zsum {A} (f : A -> Z) (l : list A) : Z :=
  match l with [] => 0 | x :: l' => f x + zsum f l' end.

(** [iter().filter(p).count()] *)
Definition countb {A} (p : A -> bool) (l : list A) : Z :=
  zsum (fun x => if p x then 1 else 0) l.

(** The sub-slice [l[start .. start + len]], when it is in bounds. *)
Definition slice {A} (l : list A) (start len : Z) : list A :=
  take (Z.to_nat len) (drop (Z.to_nat start) l).

(** ** Bytes *)

(** [to_le_bytes] of an [n]-byte integer, and [from_le_bytes]. *)
Fixpoint to_le_bytes (n : nat) (z : Z) : list Z :=
  match n with
  | O => []
  | S n' => z mod 256 :: to_le_bytes n' (z / 256)
  end.

Fixpoint from_le_bytes (l : list Z) : Z :=
  match l with [] => 0 | b :: l' => b + 256 * from_le_bytes l' end.

Definition is_byte (b : Z) : Prop := 0 <= b < 256.

(** A byte-string literal [b"..."]. *)
Fixpoint bytes_of (s : string) : list Z :=
  match s with
  | EmptyString => []
  | String c s' => Z.of_N (Ascii.N_of_ascii c) :: bytes_of s'
  end.

Fixpoint eq_bytes (a b : list Z) : bool :=
  match a, b with
  | [], [] => true
  | x :: a', y :: b' => (x =? y) && eq_bytes a' b'
  | _, _ => false
  end.

(** * Lemmas *)

Create HintDb kernel.
Create Rewrite HintDb kernel_rw.

(** Case analysis on the boolean tests of the source. *)
Ltac bool_cases :=
  repeat match goal with
  | H : context [if ?b then _ else _] |- _ => let E := fresh "E" in destruct b eqn:E
  | |- context [if ?b then _ else _] => let E := fresh "E" in destruct b eqn:E
  end.

Ltac bool_to_prop :=
  repeat match goal with
  | H : (_ && _)%bool = true |- _ => apply andb_prop in H; destruct H
  | H : (_ && _)%bool = false |- _ => apply andb_false_iff in H
  | H : (_ || _)%bool = true |- _ => apply orb_prop in H
  | H : (_ || _)%bool = false |- _ => apply orb_false_elim in H; destruct H
  | H : negb _ = true |- _ => apply negb_true_iff in H
  | H : negb _ = false |- _ => apply negb_false_iff in H
  | H : (_ <=? _) = true |- _ => apply Z.leb_le in H
  | H : (_ <=? _) = false |- _ => apply Z.leb_gt in H
  | H : (_ <? _) = true |- _ => apply Z.ltb_lt in H
  | H : (_ <? _) = false |- _ => apply Z.ltb_ge in H
  | H : (_ =? _) = true |- _ => apply Z.eqb_eq in H
  | H : (_ =? _) = false |- _ => apply Z.eqb_neq in H
  end.

Ltac decide_lia := repeat case_decide; try congruence; lia.

Lemma if_eqb {A} (a b : Z) (x y : A) :
  (if a =? b then x else y) = if decide (b = a) then x else y.
Proof. destruct (Z.eqb_spec a b); case_decide; congruence. Qed.

(** ** The weakest-precondition rules *)

Section wp.
Context {S : Type}.
Implicit Types s : S.

Lemma wp_ret {A} (a : A) (Q : A -> S -> Prop) s : Q a s -> wp (st_ret a) Q s.
Proof. done. Qed.

Lemma wp_bind {A B} (m : ST S A) (k : A -> ST S B) (Q : B -> S -> Prop) s :
  wp m (fun a s' => wp (k a) Q s') s -> wp (st_bind m k) Q s.
Proof. unfold wp, st_bind. by destruct (m s) as [[a s']|]. Qed.

Lemma wp_bind_inv {A B} (m : ST S A) (k : A -> ST S B) (Q : B -> S -> Prop) s :
  wp (st_bind m k) Q s -> wp m (fun a s' => wp (k a) Q s') s.
Proof. unfold wp, st_bind. by destruct (m s) as [[a s']|]. Qed.

Lemma wp_mono {A} (m : ST S A) (Q R : A -> S -> Prop) s :
  wp m Q s -> (forall a s', Q a s' -> R a s') -> wp m R s.
Proof. unfold wp. destruct (m s) as [[a s']|]; eauto. Qed.

Lemma wp_and {A} (m : ST S A) (Q R : A -> S -> Prop) s :
  wp m Q s -> wp m R s -> wp m (fun a s' => Q a s' /\ R a s') s.
Proof. unfold wp. destruct (m s) as [[a s']|]; eauto. Qed.

Lemma wp_try {E A B} (m : ST S (result E A)) (k : A -> ST S (result E B)) Q s :
  wp m (fun r s' => match r with
                    | Ok a => wp (k a) Q s'
                    | Err e => Q (Err e) s'
                    end) s ->
  wp (st_try m k) Q s.
Proof.
  intros H. apply wp_bind. eapply wp_mono; [exact H|]. by intros [a|e] s'.
Qed.

Lemma wp_get (Q : S -> S -> Prop) s : Q s s -> wp st_get Q s.
Proof. done. Qed.

Lemma wp_put (Q : unit -> S -> Prop) s s' : Q tt s' -> wp (st_put s') Q s.
Proof. done. Qed.

Lemma wp_modify f (Q : unit -> S -> Prop) s : Q tt (f s) -> wp (st_modify f) Q s.
Proof. done. Qed.

Lemma wp_gets {A} (f : S -> A) (Q : A -> S -> Prop) s : Q (f s) s -> wp (st_gets f) Q s.
Proof. done. Qed.

Lemma wp_expect {A} (o : option A) msg (Q : A -> S -> Prop) s a :
  o = Some a -> Q a s -> wp (st_expect o msg) Q s.
Proof. by intros ->. Qed.

Lemma wp_zoom {T A} (get : S -> T) (set : T -> S -> S) (m : ST T A) (Q : A -> S -> Prop) s :
  wp m (fun a t => Q a (set t s)) (get s) -> wp (st_zoom get set m) Q s.
Proof. unfold wp, st_zoom. by destruct (m (get s)) as [[a t]|]. Qed.

(** A computation that does not panic has a result. *)
Lemma wp_done {A} (m : ST S A) (Q : A -> S -> Prop) s :
  wp m Q s -> exists a s', m s = Done (a, s') /\ Q a s'.
Proof. unfold wp. destruct (m s) as [[a s']|]; eauto. done. Qed.

Lemma wp_intro {A} (m : ST S A) (Q : A -> S -> Prop) s a s' :
  m s = Done (a, s') -> Q a s' -> wp m Q s.
Proof. unfold wp. by intros ->. Qed.
End wp.

(** One step of symbolic execution. *)
Ltac wp_step :=
  lazymatch goal with
  | |- wp (st_ret _) _ _ => apply wp_ret
  | |- wp (st_bind _ _) _ _ => apply wp_bind
  | |- wp (st_try _ _) _ _ => apply wp_try
  | |- wp st_get _ _ => apply wp_get
  | |- wp (st_put _) _ _ => apply wp_put
  | |- wp (st_modify _) _ _ => apply wp_modify
  | |- wp (st_gets _) _ _ => apply wp_gets
  | |- wp (st_zoom _ _ _) _ _ => apply wp_zoom
  end.
Ltac wp_steps := repeat (wp_step; cbv beta).

(** ** Vectors *)

Section vectors.
Context {A : Type}.
Implicit Types l : list A.

Lemma vlen_nonneg l : 0 <= vlen l.
Proof. unfold vlen. lia. Qed.

Lemma in_range_true l i : in_range l i = true <-> 0 <= i < vlen l.
Proof. unfold in_range. destruct (Z.leb_spec 0 i); [rewrite Z.ltb_lt|]; lia. Qed.

Lemma in_range_false l i : in_range l i = false <-> ~ (0 <= i < vlen l).
Proof. rewrite <- in_range_true. by destruct (in_range l i). Qed.

Lemma vget_nat l (n : nat) : vget l (Z.of_nat n) = l !! n.
Proof.
  unfold vget. destruct (in_range l (Z.of_nat n)) eqn:E.
  - by rewrite Nat2Z.id.
  - apply in_range_false in E. symmetry. apply lookup_ge_None. unfold vlen in E. lia.
Qed.

Lemma vget_range l i x : vget l i = Some x -> 0 <= i < vlen l.
Proof. unfold vget. destruct (in_range l i) eqn:E; [|done]. by apply in_range_true in E. Qed.

Lemma vget_is_Some l i : 0 <= i < vlen l -> exists x, vget l i = Some x.
Proof.
  intros H. unfold vget. rewrite (proj2 (in_range_true l i) H).
  apply lookup_lt_is_Some. unfold vlen in H. lia.
Qed.

Lemma vget_None l i : vget l i = None <-> ~ (0 <= i < vlen l).
Proof.
  split.
  - intros H Hr. destruct (vget_is_Some _ _ Hr). congruence.
  - intros H. unfold vget. by rewrite (proj2 (in_range_false l i) H).
Qed.

Lemma vlen_vset l i x : vlen (vset l i x) = vlen l.
Proof. unfold vset, vlen. destruct (in_range l i); [by rewrite length_insert|done]. Qed.

Lemma in_range_vset l i x j : in_range (vset l i x) j = in_range l j.
Proof. unfold in_range. by rewrite vlen_vset. Qed.

Lemma vget_vset_eq l i x : 0 <= i < vlen l -> vget (vset l i x) i = Some x.
Proof.
  intros H. unfold vget. rewrite in_range_vset, (proj2 (in_range_true l i) H).
  unfold vset. rewrite (proj2 (in_range_true l i) H).
  apply list_lookup_insert_eq. unfold vlen in H. lia.
Qed.

Lemma vget_vset_ne l i j x : i <> j -> vget (vset l i x) j = vget l j.
Proof.
  intros H. unfold vget. rewrite in_range_vset.
  destruct (in_range l j) eqn:Ej; [|done].
  unfold vset. destruct (in_range l i) eqn:Ei; [|done].
  apply in_range_true in Ei. apply in_range_true in Ej.
  apply list_lookup_insert_ne. lia.
Qed.

Lemma vset_vset l i x y : vset (vset l i x) i y = vset l i y.
Proof.
  unfold vset. destruct (in_range l i) eqn:E; [|by rewrite E].
  unfold in_range, vlen in *. rewrite length_insert, E. by rewrite list_insert_insert_eq.
Qed.

Lemma vget_vset l i j x :
  vget (vset l i x) j = if decide (i = j /\ 0 <= j < vlen l) then Some x else vget l j.
Proof.
  destruct (decide _) as [[-> H]|H].
  - by apply vget_vset_eq.
  - destruct (decide (i = j)) as [->|]; [|by apply vget_vset_ne].
    assert (Hn : ~ (0 <= j < vlen l)) by (intros ?; by apply H).
    rewrite !(proj2 (vget_None _ j)); [done|done|by rewrite vlen_vset].
Qed.

Lemma vset_id l i x : vget l i = Some x -> vset l i x = l.
Proof.
  unfold vget, vset. destruct (in_range l i); [|done]. apply list_insert_id.
Qed.

Lemma vget_app_l l k i : i < vlen l -> vget (l ++ k) i = vget l i.
Proof.
  intros H. destruct (decide (0 <= i)) as [Hi|Hi].
  - rewrite <- (Z2Nat.id i), !vget_nat by lia.
    apply lookup_app_l. unfold vlen in H. lia.
  - rewrite !(proj2 (vget_None _ i)); [done|lia|lia].
Qed.

Lemma vget_app_r l k i : vlen l <= i -> vget (l ++ k) i = vget k (i - vlen l).
Proof.
  intros H. unfold vlen in *. replace i with (Z.of_nat (Z.to_nat i)) at 1 by lia.
  replace (i - Z.of_nat (length l)) with (Z.of_nat (Z.to_nat i - length l)) by lia.
  rewrite !vget_nat. apply lookup_app_r. lia.
Qed.

Lemma vget_take l n i : i < n -> vget (take (Z.to_nat n) l) i = vget l i.
Proof.
  intros H. destruct (decide (0 <= i)) as [Hi|Hi].
  - rewrite <- (Z2Nat.id i), !vget_nat by lia. apply lookup_take_lt. lia.
  - rewrite !(proj2 (vget_None _ i)); [done|lia|lia].
Qed.

Lemma vget_drop l n i : 0 <= n -> 0 <= i -> vget (drop (Z.to_nat n) l) i = vget l (n + i).
Proof.
  intros Hn Hi. replace i with (Z.of_nat (Z.to_nat i)) at 1 by lia.
  replace (n + i) with (Z.of_nat (Z.to_nat n + Z.to_nat i)) by lia.
  rewrite !vget_nat. apply lookup_drop.
Qed.

Lemma vlen_take l n : 0 <= n <= vlen l -> vlen (take (Z.to_nat n) l) = n.
Proof. unfold vlen. rewrite length_take. lia. Qed.

Lemma vget_eq l k : vlen l = vlen k -> (forall i, 0 <= i < vlen l -> vget l i = vget k i) -> l = k.
Proof.
  intros Hl H. apply list_eq. intros n. rewrite <- !vget_nat.
  destruct (decide (Z.of_nat n < vlen l)); [apply H; lia|].
  rewrite !(proj2 (vget_None _ (Z.of_nat n))) by lia. done.
Qed.

Lemma vget_nil i : vget (@nil A) i = None.
Proof. unfold vget. by destruct (in_range _ i). Qed.

Lemma vget_app_snoc l x : vget (l ++ [x]) (vlen l) = Some x.
Proof. unfold vlen at 1. rewrite vget_nat. by apply list_lookup_middle. Qed.

Lemma vget_snoc_inv l x i y : vget (l ++ [x]) i = Some y -> vget l i = Some y \/ i = vlen l /\ y = x.
Proof.
  intros H. pose proof (vget_range _ _ _ H) as Hr. unfold vlen in *. rewrite length_app in Hr. cbn in Hr.
  destruct (decide (i < vlen l)) as [Hi|Hi]; unfold vlen in *.
  - left. by rewrite vget_app_l in H.
  - right. assert (i = vlen l) as -> by (unfold vlen; lia). rewrite vget_app_snoc in H. by injection H.
Qed.

Lemma vlen_app l k : vlen (l ++ k) = vlen l + vlen k.
Proof. unfold vlen. rewrite length_app. lia. Qed.

Lemma vget_elem_of l i x : vget l i = Some x -> x ∈ l.
Proof.
  intros H. pose proof (vget_range _ _ _ H).
  rewrite <- (Z2Nat.id i), vget_nat in H by lia.
  by eapply list_elem_of_lookup_2.
Qed.

Lemma elem_of_vget l x : x ∈ l -> exists i, vget l i = Some x.
Proof.
  intros [n H]%list_elem_of_lookup. exists (Z.of_nat n). by rewrite vget_nat.
Qed.

Lemma vget_cons_0 x l : vget (x :: l) 0 = Some x.
Proof. change 0 with (Z.of_nat 0). by rewrite vget_nat. Qed.

Lemma vget_cons_pos x l i : 0 < i -> vget (x :: l) i = vget l (i - 1).
Proof.
  intros H. replace i with (Z.of_nat (S (Z.to_nat (i - 1)))) at 1 by lia.
  rewrite vget_nat. cbn.
  rewrite <- vget_nat. f_equal. lia.
Qed.
End vectors.

Section searching.
Context {A : Type}.
Implicit Types (l : list A) (p : A -> bool).

Lemma position_Some p l i :
  position p l = Some i ->
  exists x, vget l i = Some x /\ p x = true /\
            forall j y, 0 <= j < i -> vget l j = Some y -> p y = false.
Proof.
  revert i. induction l as [|x l IH]; intros i H; [done|]. cbn in H.
  destruct (p x) eqn:Hx.
  - injection H as <-. exists x. split; [apply vget_cons_0|]. split; [done|]. lia.
  - destruct (position p l) as [k|] eqn:Hk; [|done]. injection H as <-.
    destruct (IH k eq_refl) as (y & Hy & Hp & Hbefore).
    pose proof (vget_range _ _ _ Hy).
    exists y. rewrite vget_cons_pos by lia. replace (k + 1 - 1) with k by lia.
    split; [done|]. split; [done|]. intros j z Hj Hz.
    destruct (decide (j = 0)) as [->|].
    + rewrite vget_cons_0 in Hz. by injection Hz as <-.
    + rewrite vget_cons_pos in Hz by lia. apply (Hbefore (j - 1)); [lia|done].
Qed.

Lemma position_None p l : position p l = None -> forall i x, vget l i = Some x -> p x = false.
Proof.
  intros H i x Hi%vget_elem_of. revert H.
  induction l as [|y l IH]; cbn; [by apply elem_of_nil in Hi|].
  apply elem_of_cons in Hi as [->|Hi].
  - by destruct (p y).
  - destruct (p y); [done|]. destruct (position p l); [done|]. eauto.
Qed.

Lemma position_is_Some p l i x :
  vget l i = Some x -> p x = true -> exists j, position p l = Some j.
Proof.
  intros Hi Hp. destruct (position p l) eqn:E; [eauto|].
  pose proof (position_None _ _ E _ _ Hi). congruence.
Qed.
End searching.

Section sums.
Context {A : Type}.
Implicit Types (l : list A) (f g : A -> Z).

Lemma zsum_app f l k : zsum f (l ++ k) = zsum f l + zsum f k.
Proof. induction l; cbn; lia. Qed.

Lemma zsum_nonneg f l : (forall x, x ∈ l -> 0 <= f x) -> 0 <= zsum f l.
Proof.
  induction l as [|x l IH]; cbn; [lia|]. intros H.
  pose proof (H x (list_elem_of_here _ _)). pose proof (IH (fun y Hy => H y (list_elem_of_further _ _ _ Hy))). lia.
Qed.

Lemma zsum_vset f l i x y :
  vget l i = Some x -> zsum f (vset l i y) = zsum f l - f x + f y.
Proof.
  intros H. pose proof (vget_range _ _ _ H) as Hr.
  unfold vset. rewrite (proj2 (in_range_true l i) Hr).
  rewrite <- (Z2Nat.id i), vget_nat in H by lia.
  rewrite <- (take_drop_middle _ _ _ H) at 2.
  rewrite insert_take_drop by (unfold vlen in Hr; lia).
  rewrite !zsum_app. cbn. lia.
Qed.

Lemma zsum_le_elem f l x :
  (forall y, y ∈ l -> 0 <= f y) -> x ∈ l -> f x <= zsum f l.
Proof.
  induction l as [|y l IH]; [by intros _ ?%elem_of_nil|].
  intros Hpos [->|Hx]%elem_of_cons; cbn.
  - pose proof (zsum_nonneg f l (fun z Hz => Hpos z (list_elem_of_further _ _ _ Hz))). lia.
  - pose proof (Hpos y (list_elem_of_here _ _)).
    pose proof (IH (fun z Hz => Hpos z (list_elem_of_further _ _ _ Hz)) Hx). lia.
Qed.

Lemma zsum_zero f l : (forall x, x ∈ l -> f x = 0) -> zsum f l = 0.
Proof.
  induction l as [|x l IH]; cbn; [done|]. intros H.
  rewrite (H x) by apply list_elem_of_here.
  rewrite IH; [done|]. intros y Hy. apply H. by apply list_elem_of_further.
Qed.

Lemma zsum_ext f g l : (forall x, x ∈ l -> f x = g x) -> zsum f l = zsum g l.
Proof.
  induction l as [|x l IH]; cbn; [done|]. intros H.
  rewrite (H x) by apply list_elem_of_here.
  rewrite IH; [done|]. intros y Hy. apply H. by apply list_elem_of_further.
Qed.

Lemma zsum_add f g l : zsum (fun x => f x + g x) l = zsum f l + zsum g l.
Proof. induction l; cbn; lia. Qed.

Lemma zsum_replicate f n x : zsum f (replicate n x) = Z.of_nat n * f x.
Proof. induction n; cbn; lia. Qed.

Lemma countb_bounds (p : A -> bool) l : 0 <= countb p l <= vlen l.
Proof.
  unfold countb, vlen. induction l as [|x l IH]; cbn; [lia|]. destruct (p x); lia.
Qed.

(** Some element satisfies [p] exactly when the count is not zero. *)
Lemma countb_pos (p : A -> bool) l : 0 < countb p l <-> exists x, x ∈ l /\ p x = true.
Proof.
  unfold countb. split.
  - induction l as [|x l IH]; cbn; [lia|]. destruct (p x) eqn:E.
    + intros _. exists x. split; [apply list_elem_of_here|done].
    + intros H. destruct IH as (y & ? & ?); [lia|]. exists y. split; [by apply list_elem_of_further|done].
  - intros (x & Hx & Hp).
    pose proof (zsum_le_elem (fun x => if p x then 1 else 0) l x) as H. cbn in H.
    rewrite Hp in H. specialize (H ltac:(intros y _; destruct (p y); lia) Hx). lia.
Qed.
End sums.

(** ** Alignment *)

(** Masking the low [n] bits of a [u64] away rounds it down. *)
Lemma land_high n v :
  0 <= n <= 64 -> is_u64 v -> Z.land v (Z.shiftl (Z.ones (64 - n)) n) = v - v mod 2 ^ n.
Proof.
  intros Hn Hv.
  assert (Z.land v (Z.shiftl (Z.ones (64 - n)) n) = Z.shiftl (Z.shiftr v n) n) as ->.
  { apply Z.bits_inj'. intros i Hi.
    rewrite Z.land_spec, !Z.shiftl_spec by lia.
    destruct (decide (i < n)).
    - rewrite !(Z.testbit_neg_r _ (i - n)) by lia. by rewrite andb_false_r.
    - rewrite Z.shiftr_spec by lia. replace (i - n + n) with i by lia.
      destruct (decide (i < 64)).
      + rewrite Z.ones_spec_low by lia. by rewrite andb_true_r.
      + rewrite (Z.bits_above_log2 v i); [done| |]; unfold is_u64 in Hv.
        * lia.
        * destruct (decide (v = 0)) as [->|]; [cbn; lia|].
          apply Z.log2_lt_pow2; [lia|]. apply Z.lt_le_trans with (2 ^ 64); [lia|].
          apply Z.pow_le_mono_r; lia. }
  rewrite Z.shiftl_mul_pow2, Z.shiftr_div_pow2 by lia.
  pose proof (Z.div_mod v (2 ^ n)). pose proof (Z.pow_pos_nonneg 2 n). lia.
Qed.

Lemma align_down_spec v : is_u64 v -> align_down v 4096 = v - v mod 4096.
Proof. intros Hv. by apply (land_high 12 v). Qed.

Lemma align_up_spec v :
  is_u64 v ->
  align_up v 4096 = if v + 4095 <? 2 ^ 64 then Some (4096 * ((v + 4095) / 4096)) else None.
Proof.
  intros Hv. unfold align_up, checked_add. change (4096 - 1) with 4095.
  destruct (v + 4095 <? 2 ^ 64) eqn:E; [|done]. apply Z.ltb_lt in E.
  f_equal. change (not64 4095) with (not64 (4096 - 1)).
  change (align_down (v + 4095) 4096 = 4096 * ((v + 4095) / 4096)).
  rewrite align_down_spec by (unfold is_u64 in *; lia).
  pose proof (Z.div_mod (v + 4095) 4096). lia.
Qed.

(** [align_up] returns the least multiple of the page size not below [v]. *)
Lemma align_up_Some v e :
  is_u64 v -> align_up v 4096 = Some e -> v <= e < v + 4096 /\ e mod 4096 = 0 /\ is_u64 e.
Proof.
  intros Hv. rewrite align_up_spec by done. destruct (v + 4095 <? 2 ^ 64) eqn:E; [|done].
  apply Z.ltb_lt in E. intros [= <-]. unfold is_u64 in *.
  pose proof (Z.div_mod (v + 4095) 4096). pose proof (Z.mod_pos_bound (v + 4095) 4096).
  rewrite Z.mul_comm, Z_mod_mult. lia.
Qed.

Lemma align_up_aligned v : is_u64 v -> v mod 4096 = 0 -> align_up v 4096 = Some v.
Proof.
  intros Hv Hm. rewrite align_up_spec by done. unfold is_u64 in Hv.
  pose proof (Z.div_mod v 4096 ltac:(lia)) as Hd.
  assert (v <= 2 ^ 64 - 4096).
  { change (2 ^ 64) with (4096 * 2 ^ 52) in *. rewrite Hm in Hd.
    assert (v / 4096 < 2 ^ 52) by (apply Z.div_lt_upper_bound; lia). lia. }
  rewrite (proj2 (Z.ltb_lt _ _)) by lia. f_equal.
  replace (v + 4095) with (4095 + (v / 4096) * 4096) by lia.
  rewrite Z.div_add by lia. change (4095 / 4096) with 0. lia.
Qed.

(** The first page boundary at or above an address is monotone, and below any
    page boundary that the address is below. *)
Lemma page_end_mono a b ea eb :
  a <= b -> a <= ea < a + 4096 -> b <= eb < b + 4096 -> ea mod 4096 = 0 -> eb mod 4096 = 0 -> ea <= eb.
Proof. intros. pose proof (Z.div_mod ea 4096). pose proof (Z.div_mod eb 4096). lia. Qed.

Lemma page_end_below a ea limit :
  a <= limit -> a <= ea < a + 4096 -> ea mod 4096 = 0 -> limit mod 4096 = 0 -> ea <= limit.
Proof. intros. pose proof (Z.div_mod ea 4096). pose proof (Z.div_mod limit 4096). lia. Qed.

(** The page-alignment test [address & 0xfff == 0]. *)
Lemma land_fff v : Z.land v 0xfff = v mod 4096.
Proof. change 0xfff with (Z.ones 12). by rewrite Z.land_ones by lia. Qed.

Lemma vget_slice {A} (l : list A) start len i :
  0 <= start -> 0 <= len -> start + len <= vlen l ->
  vget (slice l start len) i = if decide (0 <= i < len) then vget l (start + i) else None.
Proof.
  intros H0 H1 H2. unfold slice. unfold vlen in H2.
  assert (vlen (take (Z.to_nat len) (drop (Z.to_nat start) l)) = len) as Hl.
  { unfold vlen. rewrite length_take, length_drop. lia. }
  case_decide as Hi.
  - rewrite <- (Z2Nat.id i), vget_nat by lia. rewrite lookup_take_lt by lia.
    rewrite lookup_drop. replace (start + Z.of_nat (Z.to_nat i)) with
      (Z.of_nat (Z.to_nat start + Z.to_nat i)) by lia. by rewrite vget_nat.
  - apply vget_None. rewrite Hl. lia.
Qed.

Lemma vlen_slice {A} (l : list A) start len :
  0 <= start -> 0 <= len -> start + len <= vlen l -> vlen (slice l start len) = len.
Proof. intros. unfold slice, vlen in *. rewrite length_take, length_drop. lia. Qed.

(** ** Bytes *)

Lemma eq_bytes_spec a b : eq_bytes a b = true <-> a = b.
Proof.
  revert b. induction a as [|x a IH]; intros [|y b]; cbn; try done.
  rewrite andb_true_iff, Z.eqb_eq, IH. split; [by intros [-> ->]|by intros [= -> ->]].
Qed.

Lemma length_to_le_bytes n z : length (to_le_bytes n z) = n.
Proof. revert z. induction n; cbn; auto. Qed.

Lemma to_le_bytes_byte n z : Forall is_byte (to_le_bytes n z).
Proof.
  revert z. induction n; intros z; cbn; constructor; [|done].
  unfold is_byte. pose proof (Z.mod_pos_bound z 256). lia.
Qed.

(** Decoding the little-endian encoding gives the integer back, modulo its width. *)
Lemma from_to_le_bytes n z : from_le_bytes (to_le_bytes n z) = z mod 256 ^ Z.of_nat n.
Proof.
  revert z. induction n as [|n IH]; intros z; cbn [from_le_bytes to_le_bytes].
  - by rewrite Z.mod_1_r.
  - rewrite IH, Nat2Z.inj_succ, Z.pow_succ_r by lia.
    rewrite Z.rem_mul_r by (try apply Z.pow_nonzero; lia). lia.
Qed.

Lemma from_le_bytes_range l :
  Forall is_byte l -> 0 <= from_le_bytes l < 256 ^ Z.of_nat (length l).
Proof.
  induction 1 as [|b l Hb _ IH]; cbn [from_le_bytes length]; [cbn; lia|].
  rewrite Nat2Z.inj_succ, Z.pow_succ_r by lia. unfold is_byte in Hb. lia.
Qed.

Lemma to_from_le_bytes l :
  Forall is_byte l -> to_le_bytes (length l) (from_le_bytes l) = l.
Proof.
  induction 1 as [|b l Hb _ IH]; cbn; [done|]. unfold is_byte in Hb.
  rewrite Z.mul_comm, Z_mod_plus_full, Z.mod_small by lia.
  rewrite Z.div_add, Z.div_small by lia. by rewrite Z.add_0_l, IH.
Qed.

#[export] Hint Rewrite @vlen_vset @in_range_vset @vlen_app : kernel_rw.
#[export] Hint Resolve vlen_nonneg : kernel.
