(* ===== verification/File.v ===== *)
(** * The kernel open-file table and the embedded file registry (src/src/file.rs)

    [OpenFileTable] is the vector of optional open-file objects, each with a
    reference count; the registry is the constant list of embedded files.
    The lemmas give the behaviour of each operation on every branch, as the
    effect on the lookup function [get]. *)

From S2P Require Import Prelude.

Definition MAX_OPEN_FILES : Z := 32.
Definition MAX_PATH_LEN : Z := 128.

(** [OpenFileId(pub usize)] and [EmbeddedFileId(pub usize)] *)
Definition OpenFileId : Type := Z.
Definition EmbeddedFileId : Type := Z.

Inductive AccessMode : Type := ReadOnly | WriteOnly.

Inductive OpenFileKind : Type :=
| NullInput
| ConsoleStdout
| ConsoleStderr
| EmbeddedFileKind (id : EmbeddedFileId).

Inductive FileError : Type :=
| FileBadFd
| FileNoEntry
| TooManySystemFiles
| TooManyProcessFiles
| FileNameTooLong
| FileInvalid
| FileFault.

#[global] Instance AccessMode_eq_dec : EqDecision AccessMode.
Proof. solve_decision. Defined.
#[global] Instance OpenFileKind_eq_dec : EqDecision OpenFileKind.
Proof. solve_decision. Defined.
#[global] Instance FileError_eq_dec : EqDecision FileError.
Proof. solve_decision. Defined.

Record OpenFile : Type := mkOpenFile {
  of_kind : OpenFileKind;
  of_access : AccessMode;
  of_offset : Z;
  of_ref_count : Z
}.

Definition set_offset (f : OpenFile) (offset : Z) : OpenFile :=
  mkOpenFile (of_kind f) (of_access f) offset (of_ref_count f).

Definition set_ref_count (f : OpenFile) (n : Z) : OpenFile :=
  mkOpenFile (of_kind f) (of_access f) (of_offset f) n.

(** [OpenFileTable { files: Vec<Option<OpenFile>> }] *)
Definition OpenFileTable : Type := list (option OpenFile).

Module OpenFileTable.

Definition new : OpenFileTable := [].

(** [resize_with(MAX_OPEN_FILES, || None)] on the empty vector. *)
Definition ensure_slots (files : OpenFileTable) : OpenFileTable :=
  match files with
  | [] => replicate (Z.to_nat MAX_OPEN_FILES) None
  | _ => files
  end.

Definition is_none {A} (o : option A) : bool :=
  match o with None => true | Some _ => false end.

Definition alloc (files : OpenFileTable) (kind : OpenFileKind) (access : AccessMode) :
    result FileError OpenFileId * OpenFileTable :=
  let files := ensure_slots files in
  match position is_none files with
  | Some index => (Ok index, vset files index (Some (mkOpenFile kind access 0 1)))
  | None => (Err TooManySystemFiles, files)
  end.

Definition get (files : OpenFileTable) (id : OpenFileId) : option OpenFile :=
  match vget files id with Some (Some f) => Some f | _ => None end.

(** Writing through the reference [get_mut] returns. *)
Definition update (files : OpenFileTable) (id : OpenFileId) (f : OpenFile) : OpenFileTable :=
  vset files id (Some f).

Definition inc_ref (files : OpenFileTable) (id : OpenFileId) : OpenFileTable :=
  match get files id with
  | Some f => update files id (set_ref_count f (of_ref_count f + 1))
  | None => files
  end.

Definition dec_ref (files : OpenFileTable) (id : OpenFileId) : OpenFileTable :=
  match vget files id with
  | None => files
  | Some None => files
  | Some (Some f) =>
      let f := set_ref_count f (saturating_sub (of_ref_count f) 1) in
      if of_ref_count f =? 0 then vset files id None else vset files id (Some f)
  end.

Definition active_count (files : OpenFileTable) : Z :=
  countb (fun f => negb (is_none f)) files.

(** ** Lemmas *)

(** The table is either not yet allocated or has its fixed size. *)
Definition sized (files : OpenFileTable) : Prop := files = [] \/ vlen files = MAX_OPEN_FILES.

Lemma file_get_vget files id f : get files id = Some f <-> vget files id = Some (Some f).
Proof. unfold get. destruct (vget files id) as [[]|]; naive_solver. Qed.

Lemma ensure_slots_sized files : sized files -> vlen (ensure_slots files) = MAX_OPEN_FILES.
Proof. intros [->|H]; [done|]. destruct files; done. Qed.

Lemma get_ensure_slots files id : get (ensure_slots files) id = get files id.
Proof.
  destruct files as [|f files]; [|done]. unfold ensure_slots, get.
  rewrite (proj2 (vget_None [] id)) by (unfold vlen; cbn; lia).
  destruct (vget _ id) as [o|] eqn:E; [|done].
  apply vget_elem_of, elem_of_replicate in E as [-> _]. done.
Qed.

(** A successful allocation takes the lowest free slot and makes its file
    the only change. *)
Lemma alloc_Ok files kind access id files' :
  sized files ->
  alloc files kind access = (Ok id, files') ->
  0 <= id < MAX_OPEN_FILES /\ sized files' /\ get files id = None /\
  get files' id = Some (mkOpenFile kind access 0 1) /\
  (forall j, j <> id -> get files' j = get files j) /\
  (forall j, 0 <= j < id -> get files j <> None).
Proof.
  intros Hs. unfold alloc. pose proof (ensure_slots_sized _ Hs) as Hlen.
  destruct (position is_none (ensure_slots files)) as [i|] eqn:Hpos; [|done].
  intros [= -> <-]. apply position_Some in Hpos as (o & Ho & Hnone & Hbefore).
  destruct o; [done|]. pose proof (vget_range _ _ _ Ho) as Hr.
  split; [lia|]. split; [right; by rewrite vlen_vset|].
  split. { rewrite <- get_ensure_slots. unfold get. by rewrite Ho. }
  split. { apply file_get_vget. by apply vget_vset_eq. }
  split.
  { intros j Hj. rewrite <- (get_ensure_slots files j). unfold get. by rewrite vget_vset_ne. }
  intros j Hj. destruct (vget_is_Some (ensure_slots files) j) as [o' Ho']; [lia|].
  pose proof (Hbefore j o' Hj Ho'). destruct o' as [f|]; [|done].
  rewrite <- get_ensure_slots. unfold get. by rewrite Ho'.
Qed.

(** Allocation fails only when all 32 slots are in use, and changes no slot. *)
Lemma alloc_Err files kind access e files' :
  sized files ->
  alloc files kind access = (Err e, files') ->
  e = TooManySystemFiles /\ sized files' /\ (forall j, get files' j = get files j) /\
  (forall j, 0 <= j < MAX_OPEN_FILES -> get files j <> None).
Proof.
  intros Hs. unfold alloc. pose proof (ensure_slots_sized _ Hs) as Hlen.
  destruct (position is_none (ensure_slots files)) eqn:Hpos; [done|].
  intros [= <- <-]. split; [done|]. split; [by right|]. split; [apply get_ensure_slots|].
  intros j Hj. destruct (vget_is_Some (ensure_slots files) j) as [o Ho]; [lia|].
  pose proof (position_None _ _ Hpos _ _ Ho). destruct o; [|done].
  rewrite <- get_ensure_slots. unfold get. by rewrite Ho.
Qed.

Lemma update_sized files id f : sized files -> sized (update files id f).
Proof.
  intros [->|H]; [|right; unfold update; by rewrite vlen_vset].
  left. unfold update, vset. destruct (in_range [] id) eqn:E; [|done].
  apply in_range_true in E. unfold vlen in E. cbn in E. lia.
Qed.

Lemma file_get_update files id f f' j :
  get files id = Some f ->
  get (update files id f') j = if decide (j = id) then Some f' else get files j.
Proof.
  intros H%file_get_vget. pose proof (vget_range _ _ _ H). unfold update.
  destruct (decide (j = id)) as [->|Hj].
  - apply file_get_vget. by apply vget_vset_eq.
  - unfold get. by rewrite vget_vset_ne.
Qed.

Lemma dec_ref_sized files id : sized files -> sized (dec_ref files id).
Proof.
  intros [->|H].
  - left. unfold dec_ref. rewrite (proj2 (vget_None [] id)); [done|]. unfold vlen. cbn. lia.
  - right. unfold dec_ref.
    destruct (vget files id) as [[f|]|]; [|done..]. destruct (_ =? 0); by rewrite vlen_vset.
Qed.

(** [dec_ref] lowers the count of its own file, and frees the slot at zero. *)
Lemma get_dec_ref files id j :
  get (dec_ref files id) j =
    if decide (j = id) then
      match get files id with
      | Some f => if of_ref_count f <=? 1 then None
                  else Some (set_ref_count f (of_ref_count f - 1))
      | None => None
      end
    else get files j.
Proof.
  unfold dec_ref. destruct (vget files id) as [[f|]|] eqn:E.
  - pose proof (vget_range _ _ _ E).
    rewrite (proj2 (file_get_vget files id f) E). unfold saturating_sub. cbn.
    destruct (decide (j = id)) as [->|Hj].
    + destruct (Z.max 0 _ =? 0) eqn:E0; unfold get;
        rewrite vget_vset_eq by done; bool_to_prop; destruct (Z.leb_spec (of_ref_count f) 1).
      all: try lia; try done. by rewrite Z.max_r by lia.
    + destruct (Z.max 0 _ =? 0); unfold get; by rewrite vget_vset_ne.
  - destruct (decide (j = id)) as [->|]; [|done]. unfold get. by rewrite E.
  - destruct (decide (j = id)) as [->|]; [|done]. unfold get. by rewrite E.
Qed.

(** The reference count of a slot, zero when it is free; [positive] says no
    occupied slot has count zero. *)
Definition rc (files : OpenFileTable) (id : OpenFileId) : Z :=
  match get files id with Some f => of_ref_count f | None => 0 end.

Definition positive (files : OpenFileTable) : Prop :=
  forall id f, get files id = Some f -> 0 < of_ref_count f.

Definition table_ok (files : OpenFileTable) : Prop := sized files /\ positive files.

Lemma new_ok : table_ok new.
Proof.
  split; [by left|]. intros id f H%file_get_vget%vget_range. unfold vlen in H. cbn in H. lia.
Qed.

Lemma rc_nonneg files id : positive files -> 0 <= rc files id.
Proof.
  intros Hp. unfold rc. destruct (get files id) eqn:E; [|lia]. apply Hp in E. lia.
Qed.

Lemma rc_pos files id : positive files -> 0 < rc files id <-> is_Some (get files id).
Proof.
  intros Hp. unfold rc. destruct (get files id) eqn:E.
  - apply Hp in E. split; [by eexists|done].
  - split; [lia|]. by intros [? ?].
Qed.

Lemma dec_ref_ok files id : table_ok files -> table_ok (dec_ref files id).
Proof.
  intros [Hs Hp]. split; [by apply dec_ref_sized|].
  intros j f. rewrite get_dec_ref. destruct (decide (j = id)) as [->|]; [|apply Hp].
  destruct (get files id) as [g|] eqn:E; [|done].
  destruct (Z.leb_spec (of_ref_count g) 1); [done|]. intros [= <-]. cbn. lia.
Qed.

Lemma rc_dec_ref files id j :
  positive files ->
  rc (dec_ref files id) j = if decide (j = id) then Z.max 0 (rc files j - 1) else rc files j.
Proof.
  intros Hp. unfold rc at 1. rewrite get_dec_ref. destruct (decide (j = id)) as [->|]; [|done].
  unfold rc. destruct (get files id) as [g|] eqn:E; [|done]. pose proof (Hp _ _ E).
  destruct (Z.leb_spec (of_ref_count g) 1); cbn; lia.
Qed.

(** Allocation as the clients see it: one new reference, or no change. *)
Lemma alloc_rc files kind access r files' :
  table_ok files ->
  alloc files kind access = (r, files') ->
  table_ok files' /\
  match r with
  | Ok id => get files id = None /\ get files' id = Some (mkOpenFile kind access 0 1) /\
             (forall j, j <> id -> get files' j = get files j) /\
             (forall j, rc files' j = rc files j + if decide (j = id) then 1 else 0)
  | Err e => e = TooManySystemFiles /\ forall j, get files' j = get files j
  end.
Proof.
  intros [Hs Hp] H. destruct r as [id|e].
  - apply alloc_Ok in H as (_ & Hs' & Hnone & Hnew & Hother & _); [|done].
    split.
    { split; [done|]. intros j f Hj. destruct (decide (j = id)) as [->|Hne].
      - rewrite Hnew in Hj. injection Hj as <-. cbn. lia.
      - rewrite Hother in Hj by done. eauto. }
    split; [done|]. split; [done|]. split; [done|]. intros j. unfold rc.
    destruct (decide (j = id)) as [->|Hne].
    + rewrite Hnew, Hnone. cbn. lia.
    + rewrite Hother by done. lia.
  - apply alloc_Err in H as (-> & Hs' & Hsame & _); [|done].
    split; [|done]. split; [done|]. intros j f. rewrite Hsame. apply Hp.
Qed.

Lemma set_offset_ok files id f offset :
  table_ok files -> get files id = Some f ->
  table_ok (update files id (set_offset f offset)) /\
  forall j, rc (update files id (set_offset f offset)) j = rc files j.
Proof.
  intros [Hs Hp] Hf. split; [split; [by apply update_sized|]|].
  - intros j g. rewrite (file_get_update _ _ _ _ _ Hf).
    destruct (decide (j = id)) as [->|]; [|apply Hp]. intros [= <-]. cbn. eauto.
  - intros j. unfold rc. rewrite (file_get_update _ _ _ _ _ Hf).
    destruct (decide (j = id)) as [->|]; [|done]. by rewrite Hf.
Qed.

End OpenFileTable.

(** ** The embedded registry *)

Record EmbeddedFile : Type := mkEmbeddedFile {
  path : list Z;
  bytes : list Z
}.

Definition newline : list Z := [10].

Definition EMBEDDED_FILES : list EmbeddedFile :=
  [ mkEmbeddedFile (bytes_of "/hello.txt") (bytes_of "hello from embedded file" ++ newline);
    mkEmbeddedFile (bytes_of "/motd") (bytes_of "tiny kernel says hello" ++ newline) ].

Definition find_embedded_file (p : list Z) : option EmbeddedFileId :=
  position (fun file => eq_bytes (path file) p) EMBEDDED_FILES.

Definition embedded_file (id : EmbeddedFileId) : option EmbeddedFile :=
  vget EMBEDDED_FILES id.

(** A path that is found names a file of the registry with exactly that path. *)
Lemma find_embedded_file_Some p id :
  find_embedded_file p = Some id ->
  exists file, embedded_file id = Some file /\ path file = p.
Proof.
  unfold find_embedded_file. intros (file & Hf & Hp & _)%position_Some.
  exists file. split; [done|]. by apply eq_bytes_spec.
Qed.
