(* ===== verification/Fd.v ===== *)
(** * Per-process file descriptor tables (src/src/fd.rs)

    A descriptor table is an array of 16 optional entries, each naming an
    open file. [refs t id] counts the entries of [t] that name [id]: the
    contract of this component is how each operation moves [refs] and the
    reference counts of the open-file table together. *)

From S2P Require Import Prelude File.

Definition STDIN_FILENO : Z := 0.
Definition STDOUT_FILENO : Z := 1.
Definition STDERR_FILENO : Z := 2.
Definition MAX_FDS_PER_PROCESS : Z := 16.

(** [FileDescriptor(pub usize)] *)
Definition FileDescriptor : Type := Z.

Record FdEntry : Type := mkFdEntry { open_file : OpenFileId }.

(** [FdTable { entries: [Option<FdEntry>; MAX_FDS_PER_PROCESS] }] *)
Definition FdTable : Type := list (option FdEntry).

Module FdTable.

Definition empty : FdTable := replicate (Z.to_nat MAX_FDS_PER_PROCESS) None.

(** [for entry in &mut self.entries], taking each entry. *)
Fixpoint close_all (entries : FdTable) (open_files : OpenFileTable) :
    FdTable * OpenFileTable :=
  match entries with
  | [] => ([], open_files)
  | Some entry :: rest =>
      let open_files := OpenFileTable.dec_ref open_files (open_file entry) in
      let '(rest', open_files) := close_all rest open_files in
      (None :: rest', open_files)
  | None :: rest =>
      let '(rest', open_files) := close_all rest open_files in
      (None :: rest', open_files)
  end.

Definition new_with_stdio (open_files : OpenFileTable) :
    result FileError FdTable * OpenFileTable :=
  let table := empty in
  match OpenFileTable.alloc open_files NullInput ReadOnly with
  | (Err error, open_files) => (Err error, open_files)
  | (Ok stdin, open_files) =>
    let table := vset table STDIN_FILENO (Some (mkFdEntry stdin)) in
    match OpenFileTable.alloc open_files ConsoleStdout WriteOnly with
    | (Err error, open_files) =>
        let '(_, open_files) := close_all table open_files in (Err error, open_files)
    | (Ok stdout, open_files) =>
      let table := vset table STDOUT_FILENO (Some (mkFdEntry stdout)) in
      match OpenFileTable.alloc open_files ConsoleStderr WriteOnly with
      | (Err error, open_files) =>
          let '(_, open_files) := close_all table open_files in (Err error, open_files)
      | (Ok stderr, open_files) =>
          let table := vset table STDERR_FILENO (Some (mkFdEntry stderr)) in
          (Ok table, open_files)
      end
    end
  end.

Definition allocate_lowest (entries : FdTable) (file : OpenFileId) :
    result FileError FileDescriptor * FdTable :=
  match position OpenFileTable.is_none entries with
  | None => (Err TooManyProcessFiles, entries)
  | Some index => (Ok index, vset entries index (Some (mkFdEntry file)))
  end.

Definition get (entries : FdTable) (fd : Z) : option FdEntry :=
  match vget entries fd with Some (Some e) => Some e | _ => None end.

Definition is_open (entries : FdTable) (fd : Z) : bool :=
  negb (OpenFileTable.is_none (get entries fd)).

Definition open_count (entries : FdTable) : Z :=
  countb (fun e => negb (OpenFileTable.is_none e)) entries.

Definition close (entries : FdTable) (fd : Z) (open_files : OpenFileTable) :
    result FileError unit * FdTable * OpenFileTable :=
  match vget entries fd with
  | None => (Err FileBadFd, entries, open_files)
  | Some None => (Err FileBadFd, entries, open_files)
  | Some (Some entry) =>
      (Ok tt, vset entries fd None, OpenFileTable.dec_ref open_files (open_file entry))
  end.

(** ** Lemmas *)

Definition names (id : OpenFileId) (e : option FdEntry) : bool :=
  match e with Some e => open_file e =? id | None => false end.

Definition refs (t : FdTable) (id : OpenFileId) : Z := countb (names id) t.

Definition sized (t : FdTable) : Prop := vlen t = MAX_FDS_PER_PROCESS.

Lemma empty_sized : sized empty.
Proof. reflexivity. Qed.

Lemma refs_empty id : refs empty id = 0.
Proof. unfold refs, countb, empty. rewrite zsum_replicate. cbn. lia. Qed.

Lemma refs_nonneg t id : 0 <= refs t id.
Proof. apply countb_bounds. Qed.

Lemma refs_vset t fd old new id :
  vget t fd = Some old ->
  refs (vset t fd new) id = refs t id - (if names id old then 1 else 0)
                            + (if names id new then 1 else 0).
Proof. intros H. unfold refs, countb. by rewrite (zsum_vset _ _ _ _ _ H). Qed.

Lemma names_mk id file : names id (Some (mkFdEntry file)) = (file =? id).
Proof. done. Qed.

Lemma refs_cons e t id :
  refs (Some e :: t) id = (if decide (open_file e = id) then 1 else 0) + refs t id.
Proof.
  unfold refs, countb. cbn [zsum]. change (names id (Some e)) with (open_file e =? id).
  destruct (Z.eqb_spec (open_file e) id); by case_decide.
Qed.

Lemma get_refs t fd e : get t fd = Some e -> 0 < refs t (open_file e).
Proof.
  unfold get. destruct (vget t fd) as [[e'|]|] eqn:E; [|done..]. intros [= ->].
  apply countb_pos. exists (Some e). split; [by eapply vget_elem_of|]. cbn. apply Z.eqb_refl.
Qed.

(** The open files once [n id] references to each file [id] are given back:
    a file without references left is gone, the others keep everything but
    the count. *)
Definition released (files : OpenFileTable) (n : OpenFileId -> Z) (files' : OpenFileTable) : Prop :=
  forall id, OpenFileTable.get files' id =
    match OpenFileTable.get files id with
    | Some f => if of_ref_count f <=? n id then None
                else Some (set_ref_count f (of_ref_count f - n id))
    | None => None
    end.

Lemma released_rc files n files' :
  released files n files' -> (forall id, 0 <= n id) -> OpenFileTable.positive files ->
  forall id, OpenFileTable.rc files' id = Z.max 0 (OpenFileTable.rc files id - n id).
Proof.
  intros R Hn Hp id. unfold OpenFileTable.rc. rewrite R. specialize (Hn id).
  destruct (OpenFileTable.get files id) as [f|] eqn:E; [|lia]. apply Hp in E.
  destruct (Z.leb_spec (of_ref_count f) (n id)); cbn; lia.
Qed.

(** [close_all] empties the table and gives back exactly its references. *)
Lemma close_all_spec t files :
  OpenFileTable.table_ok files ->
  let '(t', files') := close_all t files in
  t' = replicate (length t) None /\ OpenFileTable.table_ok files' /\ released files (refs t) files'.
Proof.
  revert files. induction t as [|o t IH]; intros files Hok; cbn.
  - split; [done|]. split; [done|]. intros id. change (refs [] id) with 0.
    destruct (OpenFileTable.get files id) as [f|] eqn:E; [|done]. apply (proj2 Hok) in E.
    destruct (Z.leb_spec (of_ref_count f) 0); [lia|]. destruct f. cbn. by rewrite Z.sub_0_r.
  - destruct o as [e|].
    + specialize (IH _ (OpenFileTable.dec_ref_ok _ (open_file e) Hok)).
      destruct (close_all t _) as [t' files']. destruct IH as (-> & Hok' & R).
      split; [done|]. split; [done|]. intros id. rewrite R, OpenFileTable.get_dec_ref.
      pose proof (refs_nonneg t id). rewrite refs_cons. case_decide as D.
      * subst id. destruct (OpenFileTable.get files (open_file e)) as [f|]; [|done].
        rewrite decide_True by done. destruct (Z.leb_spec (of_ref_count f) 1).
        { by rewrite (proj2 (Z.leb_le _ _)) by lia. }
        cbn [of_ref_count set_ref_count].
        destruct (Z.leb_spec (of_ref_count f - 1) (refs t (open_file e)));
          destruct (Z.leb_spec (of_ref_count f) (1 + refs t (open_file e))); try lia; [done|].
        by rewrite <- Z.sub_add_distr.
      * destruct (OpenFileTable.get files id); [|done]. by rewrite decide_False by congruence.
    + specialize (IH _ Hok). destruct (close_all t _) as [t' files'].
      destruct IH as (-> & Hok' & R). split; [done|]. split; [done|].
      intros id. rewrite R. by destruct (OpenFileTable.get files id).
Qed.

(** [allocate_lowest] takes the lowest free descriptor, and adds one
    reference; it fails exactly on a full table. *)
Lemma allocate_lowest_spec t file r t' :
  sized t -> allocate_lowest t file = (r, t') ->
  sized t' /\
  match r with
  | Ok fd => 0 <= fd < MAX_FDS_PER_PROCESS /\ get t fd = None /\
             get t' fd = Some (mkFdEntry file) /\
             (forall j, j <> fd -> get t' j = get t j) /\
             (forall j, 0 <= j < fd -> get t j <> None) /\
             (forall id, refs t' id = refs t id + if decide (id = file) then 1 else 0)
  | Err e => e = TooManyProcessFiles /\ t' = t /\
             forall j, 0 <= j < MAX_FDS_PER_PROCESS -> get t j <> None
  end.
Proof.
  intros Hs. unfold allocate_lowest. destruct (position _ t) as [i|] eqn:Hpos.
  - intros [= <- <-]. apply position_Some in Hpos as (o & Ho & Hnone & Hbefore).
    destruct o; [done|]. pose proof (vget_range _ _ _ Ho) as Hr. unfold sized in *.
    rewrite vlen_vset, Hs in *. split; [done|]. split; [done|].
    split; [unfold get; by rewrite Ho|].
    split; [unfold get; rewrite vget_vset_eq by lia; done|].
    split; [intros j Hj; unfold get; by rewrite vget_vset_ne|].
    split.
    + intros j Hj. destruct (vget_is_Some t j) as [o Hj']; [lia|].
      pose proof (Hbefore j o Hj Hj'). unfold get. rewrite Hj'. by destruct o.
    + intros id. rewrite (refs_vset _ _ _ _ _ Ho), names_mk. cbn.
      rewrite if_eqb. decide_lia.
  - intros [= <- <-]. split; [done|]. split; [done|]. split; [done|].
    intros j Hj. destruct (vget_is_Some t j) as [o Hj']; [unfold sized in Hs; lia|].
    pose proof (position_None _ _ Hpos _ _ Hj'). unfold get. rewrite Hj'. by destruct o.
Qed.

(** Closing an open descriptor frees it and drops one reference of its
    file; closing anything else is [BadFd] and changes nothing. *)
Lemma close_spec t fd files r t' files' :
  sized t -> OpenFileTable.table_ok files -> close t fd files = (r, t', files') ->
  match get t fd with
  | Some e =>
      r = Ok tt /\ sized t' /\ OpenFileTable.table_ok files' /\
      files' = OpenFileTable.dec_ref files (open_file e) /\
      get t' fd = None /\ (forall j, j <> fd -> get t' j = get t j) /\
      (forall id, refs t' id = refs t id - if decide (id = open_file e) then 1 else 0)
  | None => r = Err FileBadFd /\ t' = t /\ files' = files
  end.
Proof.
  intros Hs Hok. unfold close, get.
  destruct (vget t fd) as [[e|]|] eqn:E; intros [= <- <- <-]; [|done..].
  pose proof (vget_range _ _ _ E). unfold sized in *. rewrite vlen_vset.
  split; [done|]. split; [done|]. split; [by apply OpenFileTable.dec_ref_ok|].
  split; [done|]. split; [by rewrite vget_vset_eq|].
  split; [intros j Hj; by rewrite vget_vset_ne|].
  intros id. rewrite (refs_vset _ _ _ _ _ E). cbn. rewrite if_eqb. decide_lia.
Qed.

(** Undoing an allocation restores every slot. *)
Lemma dec_ref_undo files files' id kind access j :
  OpenFileTable.get files id = None ->
  OpenFileTable.get files' id = Some (mkOpenFile kind access 0 1) ->
  (forall j, j <> id -> OpenFileTable.get files' j = OpenFileTable.get files j) ->
  OpenFileTable.get (OpenFileTable.dec_ref files' id) j = OpenFileTable.get files j.
Proof.
  intros Hnone Hnew Hother. rewrite OpenFileTable.get_dec_ref.
  destruct (decide (j = id)) as [->|]; [by rewrite Hnew, Hnone|by apply Hother].
Qed.

Definition stdio (stdin stdout stderr : OpenFileId) : FdTable :=
  Some (mkFdEntry stdin) :: Some (mkFdEntry stdout) :: Some (mkFdEntry stderr)
  :: replicate 13 None.

Lemma refs_stdio a b c id :
  refs (stdio a b c) id =
    (if decide (id = a) then 1 else 0) + (if decide (id = b) then 1 else 0)
    + (if decide (id = c) then 1 else 0).
Proof.
  unfold refs, countb, stdio. cbn -[replicate]. rewrite zsum_replicate. cbn.
  rewrite !if_eqb. decide_lia.
Qed.

(** A new table holds the three standard files and nothing else, each
    freshly allocated; when the system table is full, what was allocated
    is given back. *)
Lemma new_with_stdio_spec files r files' :
  OpenFileTable.table_ok files -> new_with_stdio files = (r, files') ->
  OpenFileTable.table_ok files' /\
  match r with
  | Ok t =>
      sized t /\
      (forall id, OpenFileTable.rc files' id = OpenFileTable.rc files id + refs t id) /\
      exists stdin stdout stderr, t = stdio stdin stdout stderr /\
        OpenFileTable.get files' stdin = Some (mkOpenFile NullInput ReadOnly 0 1) /\
        OpenFileTable.get files' stdout = Some (mkOpenFile ConsoleStdout WriteOnly 0 1) /\
        OpenFileTable.get files' stderr = Some (mkOpenFile ConsoleStderr WriteOnly 0 1)
  | Err e => e = TooManySystemFiles /\
             forall id, OpenFileTable.get files' id = OpenFileTable.get files id
  end.
Proof.
  intros Hok. unfold new_with_stdio.
  destruct (OpenFileTable.alloc files _ _) as [[a|e] f1] eqn:E1;
    pose proof (OpenFileTable.alloc_rc _ _ _ _ _ Hok E1) as (Hok1 & H1).
  2: { intros [= <- <-]. done. }
  destruct H1 as (Hn1 & Hg1 & Ho1 & Hr1).
  destruct (OpenFileTable.alloc f1 _ _) as [[b|e] f2] eqn:E2;
    pose proof (OpenFileTable.alloc_rc _ _ _ _ _ Hok1 E2) as (Hok2 & H2).
  2: { destruct H2 as (-> & H2). cbn. intros [= <- <-].
       split; [by apply OpenFileTable.dec_ref_ok|]. split; [done|]. intros id.
       eapply dec_ref_undo; [done|by rewrite H2|]. intros j Hj. rewrite H2. by apply Ho1. }
  destruct H2 as (Hn2 & Hg2 & Ho2 & Hr2).
  assert (b <> a) by congruence.
  destruct (OpenFileTable.alloc f2 _ _) as [[c|e] f3] eqn:E3;
    pose proof (OpenFileTable.alloc_rc _ _ _ _ _ Hok2 E3) as (Hok3 & H3).
  - destruct H3 as (Hn3 & Hg3 & Ho3 & Hr3). intros [= <- <-].
    assert (c <> b) by congruence. assert (c <> a) by (intros ->; rewrite Ho2 in Hn3; congruence).
    split; [done|]. split; [reflexivity|].
    split.
    { intros id. change (vset _ _ _) with (stdio a b c). rewrite refs_stdio, Hr3, Hr2, Hr1. decide_lia. }
    exists a, b, c. split; [reflexivity|].
    rewrite (Ho3 a), (Ho3 b), (Ho2 a) by congruence. done.
  - destruct H3 as (-> & H3). cbn. intros [= <- <-].
    split; [by repeat apply OpenFileTable.dec_ref_ok|]. split; [done|]. intros id.
    rewrite !OpenFileTable.get_dec_ref, !H3.
    destruct (decide (id = b)) as [->|].
    + rewrite decide_False by congruence. rewrite Hg2. cbn. rewrite <- Hn2. by apply Ho1.
    + destruct (decide (id = a)) as [->|].
      * by rewrite Ho2, Hg1, Hn1 by congruence.
      * rewrite Ho2 by done. by apply Ho1.
Qed.

#[global] Arguments refs : simpl never.

End FdTable.
