(* ===== verification/X86.v ===== *)
(** * Interface to the [x86_64] crate

    The kernel calls the [x86_64] crate (0.14.7) for addresses, page-table
    entries and the mapper. That crate is not part of the repository, so its
    functions are the fields of the class [X86_64], over which every client is
    written. [X86_64_Spec] states the documented behaviour that the theorems
    rely on. Only the architecture itself is fixed here: the flag bits of a
    page-table entry and the layout of physical memory. *)

From S2P Require Import Prelude.

(** ** Page-table flags (the architecture's bits) *)

Definition PRESENT : Z := 1.
Definition WRITABLE : Z := 2.
Definition USER_ACCESSIBLE : Z := 4.
Definition HUGE_PAGE : Z := 128.

(** [PageTableFlags::contains], [remove] *)
Definition contains (flags other : Z) : bool := Z.land flags other =? other.
Definition remove (flags other : Z) : Z := Z.ldiff flags other.

(** ** Physical memory

    The contents of RAM, a byte for every physical address. The kernel reads
    and writes it through the bootloader's direct map, at
    [physical_memory_offset + phys]. *)
Definition Ram : Type := Z -> Z.

Definition read_bytes (ram : Ram) (addr : Z) (n : nat) : list Z :=
  map (fun i => ram (addr + Z.of_nat i)) (seq 0 n).

Definition write_bytes (ram : Ram) (addr : Z) (l : list Z) : Ram :=
  let stop := addr + vlen l in
  fun x => if (addr <=? x) && (x <? stop) then nth (Z.to_nat (x - addr)) l 0 else ram x.

Lemma write_bytes_at ram addr l x :
  write_bytes ram addr l x = match vget l (x - addr) with Some b => b | None => ram x end.
Proof.
  unfold write_bytes. destruct (Z.leb_spec addr x), (Z.ltb_spec x (addr + vlen l)); cbn [andb];
    try (by rewrite (proj2 (vget_None _ _)) by lia).
  destruct (vget_is_Some l (x - addr)) as [b Hb]; [lia|]. rewrite Hb.
  rewrite <- (Z2Nat.id (x - addr)), vget_nat in Hb by lia. by apply nth_lookup_Some.
Qed.

Definition fill_bytes (ram : Ram) (addr len byte : Z) : Ram :=
  fun x => if (addr <=? x) && (x <? addr + len) then byte else ram x.

(** A page table is 512 little-endian 64-bit entries. *)
Definition read_entry (ram : Ram) (frame index : Z) : Z :=
  from_le_bytes (read_bytes ram (frame + 8 * index) 8).

(** Storing the value that is already there changes nothing; keeping the
    function then keeps memory small where a table is copied entry by entry. *)
Definition write_entry (ram : Ram) (frame index entry : Z) : Ram :=
  let a := frame + 8 * index in
  let bytes := to_le_bytes 8 entry in
  if bool_decide (read_bytes ram a 8 = bytes) then ram else write_bytes ram a bytes.

Lemma vget_read_bytes ram addr n i :
  vget (read_bytes ram addr n) i = if decide (0 <= i < Z.of_nat n) then Some (ram (addr + i)) else None.
Proof.
  unfold read_bytes. case_decide as D.
  - rewrite <- (Z2Nat.id i), vget_nat, list_lookup_fmap, lookup_seq_lt by lia. done.
  - apply vget_None. unfold vlen. rewrite length_map, length_seq. lia.
Qed.

Lemma write_entry_at ram frame index entry x :
  write_entry ram frame index entry x =
  match vget (to_le_bytes 8 entry) (x - (frame + 8 * index)) with Some b => b | None => ram x end.
Proof.
  unfold write_entry. case_bool_decide as E; [|apply write_bytes_at]. rewrite <- E, vget_read_bytes. case_decide; [|done].
  f_equal. lia.
Qed.

(** ** The crate *)

Inductive MapToError : Type :=
| MapFrameAllocationFailed
| MapParentEntryHugePage
| MapPageAlreadyMapped (frame : Z).

Inductive UnmapError : Type :=
| UnmapParentEntryHugePage
| UnmapPageNotMapped
| UnmapInvalidFrameAddress (addr : Z).

Class X86_64 : Type := {
  (** [VirtAddr::new]; [None] is its panic. *)
  VirtAddr_new : Z -> option Z;
  (** The start address of [PhysFrame::containing_address]. *)
  PhysFrame_containing_address : Z -> Z;
  (** The start address of [Page::<Size4KiB>::containing_address], and the
      table indices of a page. *)
  Page_containing_address : Z -> Z;
  p4_index : Z -> Z;
  p3_index : Z -> Z;
  p2_index : Z -> Z;
  p1_index : Z -> Z;
  (** [PageTableEntry]: [flags], [frame().ok()], [is_unused], [set_flags]. *)
  entry_flags : Z -> Z;
  entry_frame : Z -> option Z;
  entry_is_unused : Z -> bool;
  entry_set_flags : Z -> Z -> Z;
  (** [SegmentSelector::set_rpl] *)
  SegmentSelector_set_rpl : Z -> Z -> Z;
  (** [Mapper::map_to] and [unmap] of an [OffsetPageTable] on the level-4
      table in [l4], with the client's frame allocator. *)
  map_to : forall {A : Type} (allocate_frame : A -> option Z * A),
    Ram -> A -> forall (l4 page frame flags : Z), result MapToError unit * Ram * A;
  unmap : Ram -> forall (l4 page : Z), result UnmapError unit * Ram
}.

(** An address is canonical when bits 48 to 63 are copies of bit 47. *)
Definition canonical (a : Z) : Prop := 0 <= a < 2 ^ 47 \/ 2 ^ 64 - 2 ^ 47 <= a < 2 ^ 64.

Class X86_64_Spec (X : X86_64) : Prop := {
  (** A canonical address is kept. *)
  VirtAddr_new_canonical a : canonical a -> VirtAddr_new a = Some a;
  (** What it returns is canonical. *)
  VirtAddr_new_result a b : is_u64 a -> VirtAddr_new a = Some b -> canonical b;
  (** Data in bits 48 to 63 that is not a sign extension is a panic. *)
  VirtAddr_new_panics a : is_u64 a -> 2 ^ 48 <= a < 2 ^ 64 - 2 ^ 47 -> VirtAddr_new a = None;
  containing_address_spec a :
    0 <= a -> PhysFrame_containing_address a = a - a mod 4096;
  page_containing_address_spec a :
    0 <= a -> Page_containing_address a = a - a mod 4096;
  (** A [PageTableIndex] is below 512. *)
  index_range page : 0 <= p4_index page < 512 /\ 0 <= p3_index page < 512 /\
                     0 <= p2_index page < 512 /\ 0 <= p1_index page < 512;
  (** A frame is 4096-byte aligned. *)
  entry_frame_aligned e f : entry_frame e = Some f -> 0 <= f /\ f mod 4096 = 0;
  (** The requested privilege level is the low two bits of a selector. *)
  set_rpl_spec s rpl : 0 <= rpl < 4 -> SegmentSelector_set_rpl s rpl = s - s mod 4 + rpl
}.

(** ** Page tables

    What the documentation of [Mapper] says of the tables, as relations on the
    contents of memory. [ram_eq]: two memories with the same bytes. *)

Definition ram_eq (r r' : Ram) : Prop := forall x, r x = r' x.

(** A physical frame: page aligned, below the 52-bit limit of [PhysAddr]. *)
Definition phys_frame (f : Z) : Prop := f mod 4096 = 0 /\ 0 <= f < 2 ^ 52.

(** A frame allocator that only returns physical frames, in the states [P]. *)
Definition allocates_frames {A} (allocate_frame : A -> option Z * A) (P : A -> Prop) : Prop :=
  forall a, P a -> let '(frame, a') := allocate_frame a in
                   P a' /\ match frame with Some f => phys_frame f | None => True end.

Section paging.
Context {X : X86_64}.

(** The entry that [set_frame f fl] writes. *)
Record maps_frame (e f fl : Z) : Prop := mkMapsFrame {
  mf_u64 : is_u64 e;
  mf_frame : entry_frame e = Some f;
  mf_flags : entry_flags e = fl
}.

(** [map_to] goes from [table] to the table [next] below its entry [i]. An
    unused entry gets a zeroed table from the allocator, with the parent
    flags [pf]; a used entry gains those flags. *)
Definition next_table {A} (allocate_frame : A -> option Z * A) (pf : Z)
    (r : Ram) (a : A) (table i next : Z) (r' : Ram) (a' : A) : Prop :=
  let e := read_entry r table i in
  if entry_is_unused e then
    allocate_frame a = (Some next, a') /\
    exists e', maps_frame e' next pf /\
      ram_eq r' (fill_bytes (write_entry r table i e') next 4096 0)
  else
    a' = a /\ (forall f, entry_frame e = Some f -> f = next) /\
    ((entry_frame e = Some next /\ ram_eq r' r) \/
     exists e', maps_frame e' next (Z.lor (entry_flags e) pf) /\
       ram_eq r' (write_entry r table i e')).

Inductive descend {A} (allocate_frame : A -> option Z * A) (pf : Z) :
    list Z -> Ram -> A -> Z -> Ram -> A -> Z -> Prop :=
| descend_nil r a table : descend allocate_frame pf [] r a table r a table
| descend_cons i indices r a table next r1 a1 r' a' table' :
    next_table allocate_frame pf r a table i next r1 a1 ->
    descend allocate_frame pf indices r1 a1 next r' a' table' ->
    descend allocate_frame pf (i :: indices) r a table r' a' table'.

(** [map_to] gives up at entry [i] of [table]: no frame is left, or the entry
    maps a huge page, whose flags may have been extended. *)
Definition gives_up {A} (allocate_frame : A -> option Z * A)
    (r : Ram) (a : A) (table i : Z) (r' : Ram) (a' : A) : Prop :=
  (allocate_frame a = (None, a') /\ ram_eq r' r) \/
  (a' = a /\ entry_is_unused (read_entry r table i) = false /\
   entry_frame (read_entry r table i) = None /\
   (ram_eq r' r \/
    exists e', is_u64 e' /\ entry_frame e' = None /\ ram_eq r' (write_entry r table i e'))).
End paging.

Class X86_64_Paging (X : X86_64) : Prop := {
  page_index_spec page : 0 <= page ->
    p4_index page = (page / 2 ^ 39) mod 512 /\ p3_index page = (page / 2 ^ 30) mod 512 /\
    p2_index page = (page / 2 ^ 21) mod 512 /\ p1_index page = (page / 2 ^ 12) mod 512;
  (** An entry is unused when it is zero; a zero entry has no flags and no
      frame. *)
  entry_unused_zero e : entry_is_unused e = (e =? 0);
  entry_flags_zero : entry_flags 0 = 0;
  entry_frame_zero : entry_frame 0 = None;
  set_flags_remove e fl : is_u64 e -> 0 <= fl < 4096 ->
    let e' := entry_set_flags e (remove (entry_flags e) fl) in
    is_u64 e' /\ entry_flags e' = remove (entry_flags e) fl;
  map_to_Ok {A} (allocate_frame : A -> option Z * A) (P : A -> Prop) r a l4 page frame flags r' a' :
    allocates_frames allocate_frame P -> P a -> phys_frame frame ->
    0 <= flags < 128 -> contains flags PRESENT = true ->
    map_to allocate_frame r a l4 page frame flags = (Ok tt, r', a') ->
    exists r1 l1 e,
      descend allocate_frame (Z.land flags (PRESENT + WRITABLE + USER_ACCESSIBLE))
        [p4_index page; p3_index page; p2_index page] r a l4 r1 a' l1 /\
      entry_is_unused (read_entry r1 l1 (p1_index page)) = true /\
      maps_frame e frame flags /\ ram_eq r' (write_entry r1 l1 (p1_index page) e);
  map_to_Err {A} (allocate_frame : A -> option Z * A) (P : A -> Prop) r a l4 page frame flags
      error r' a' :
    allocates_frames allocate_frame P -> P a -> phys_frame frame ->
    0 <= flags < 128 -> contains flags PRESENT = true ->
    map_to allocate_frame r a l4 page frame flags = (Err error, r', a') ->
    exists indices rest r1 a1 table,
      [p4_index page; p3_index page; p2_index page] = indices ++ rest /\
      descend allocate_frame (Z.land flags (PRESENT + WRITABLE + USER_ACCESSIBLE))
        indices r a l4 r1 a1 table /\
      match rest with
      | [] => a' = a1 /\ ram_eq r' r1
      | i :: _ => gives_up allocate_frame r1 a1 table i r' a'
      end;
  (** [unmap] clears the level-1 entry and frees no table. *)
  unmap_Ok r l4 page r' :
    unmap r l4 page = (Ok tt, r') ->
    exists l3 l2 l1,
      entry_frame (read_entry r l4 (p4_index page)) = Some l3 /\
      entry_frame (read_entry r l3 (p3_index page)) = Some l2 /\
      entry_frame (read_entry r l2 (p2_index page)) = Some l1 /\
      is_Some (entry_frame (read_entry r l1 (p1_index page))) /\
      ram_eq r' (write_entry r l1 (p1_index page) 0);
  unmap_Err r l4 page error r' : unmap r l4 page = (Err error, r') -> ram_eq r' r;
  (** A page that is mapped can be unmapped. *)
  unmap_present r l4 page l3 l2 l1 f :
    entry_frame (read_entry r l4 (p4_index page)) = Some l3 ->
    entry_frame (read_entry r l3 (p3_index page)) = Some l2 ->
    entry_frame (read_entry r l2 (p2_index page)) = Some l1 ->
    entry_frame (read_entry r l1 (p1_index page)) = Some f ->
    exists r', unmap r l4 page = (Ok tt, r')
}.
