(* ===== verification/Memory.v ===== *)
(** * Physical memory management (src/src/memory.rs)

    The global memory state, the monotonic frame allocator over the boot
    memory map, and the raw views of physical frames. The allocator hands
    out each frame of the usable regions once, in order. *)

From S2P Require Import Prelude X86.

(** A region of the bootloader's memory map: [range.start_addr()],
    [range.end_addr()] and whether [region_type] is [Usable]. *)
Record MemoryRegion : Type := mkRegion {
  start_addr : Z;
  end_addr : Z;
  usable : bool
}.

Definition MemoryMap : Type := list MemoryRegion.

Record BootInfoFrameAllocator : Type := mkAllocator {
  memory_map : MemoryMap;
  next : Z
}.

Record MemoryState : Type := mkMemoryState {
  physical_memory_offset : Z;
  ms_kernel_level_4_frame : Z;
  frame_allocator : BootInfoFrameAllocator
}.

(** The memory side of the machine: [MEMORY_STATE], the contents of RAM and
    the CR3 register. *)
Record Mem : Type := mkMem {
  memory_state : option MemoryState;
  ram : Ram;
  cr3 : Z
}.

Definition set_ram (r : Ram) (m : Mem) : Mem := mkMem (memory_state m) r (cr3 m).
Definition set_cr3 (c : Z) (m : Mem) : Mem := mkMem (memory_state m) (ram m) c.
Definition set_frame_allocator (a : BootInfoFrameAllocator) (s : MemoryState) : MemoryState :=
  mkMemoryState (physical_memory_offset s) (ms_kernel_level_4_frame s) a.

Section memory.
Context {X : X86_64}.

(** [BootInfoFrameAllocator::init] *)
Definition allocator_init (map : MemoryMap) : BootInfoFrameAllocator := mkAllocator map 0.

(** [(start..end).step_by(4096)] *)
Definition step_by_4096 (start stop : Z) : list Z :=
  map (fun i => start + 4096 * Z.of_nat i)
      (seq 0 (Z.to_nat ((stop - start + 4095) / 4096))).

Definition usable_frames (a : BootInfoFrameAllocator) : list Z :=
  let usable_regions := List.filter usable (memory_map a) in
  let frame_addresses :=
    flat_map (fun region => step_by_4096 (start_addr region) (end_addr region)) usable_regions in
  map PhysFrame_containing_address frame_addresses.

Definition allocate_frame (a : BootInfoFrameAllocator) : option Z * BootInfoFrameAllocator :=
  let frame := vget (usable_frames a) (next a) in
  (frame, mkAllocator (memory_map a) (next a + 1)).

Definition init_global (offset : Z) (a : BootInfoFrameAllocator) : ST Mem unit :=
  st_modify (fun m => mkMem (Some (mkMemoryState offset (cr3 m) a)) (ram m) (cr3 m)).

Definition kernel_level_4_frame (m : Mem) : Z :=
  match memory_state m with
  | Some state => ms_kernel_level_4_frame state
  | None => cr3 m
  end.

Definition with_state {R} (f : MemoryState -> ST Mem R) : ST Mem R :=
  let* m := st_get in
  match memory_state m with
  | Some state => f state
  | None => st_panic "global memory state was not initialized"
  end.

(** [MemoryState::allocate_frame], on the state the guard holds. *)
Definition state_allocate_frame : ST Mem (option Z) :=
  with_state (fun state =>
    let '(frame, a) := allocate_frame (frame_allocator state) in
    st_modify (fun m => mkMem (Some (set_frame_allocator a state)) (ram m) (cr3 m)) ;;;
    st_ret frame).
End memory.

(** ** Correctness of the frame allocator *)

(** What the bootloader guarantees of its map: usable regions are made of
    whole frames and do not overlap. *)
Definition regions_disjoint (r1 r2 : MemoryRegion) : Prop :=
  end_addr r1 <= start_addr r2 \/ end_addr r2 <= start_addr r1.

Definition region_aligned (r : MemoryRegion) : Prop :=
  0 <= start_addr r /\ start_addr r mod 4096 = 0.

Definition map_ok (m : MemoryMap) : Prop :=
  Forall region_aligned (List.filter usable m) /\
  ForallOrdPairs regions_disjoint (List.filter usable m).

(** The frame at [f] is one of a usable region. *)
Definition frame_usable (m : MemoryMap) (f : Z) : Prop :=
  f mod 4096 = 0 /\
  exists r, r ∈ m /\ usable r = true /\ start_addr r <= f < end_addr r.

Section allocator_facts.
Context {X : X86_64} {XS : X86_64_Spec X}.

Lemma elem_of_step_by start stop x :
  x ∈ step_by_4096 start stop ->
  exists i, 0 <= i /\ x = start + 4096 * i /\ start <= x < stop.
Proof.
  unfold step_by_4096. intros (n & -> & Hn)%list_elem_of_fmap.
  apply elem_of_seq in Hn. exists (Z.of_nat n). split; [lia|]. split; [done|].
  assert (Z.of_nat n < (stop - start + 4095) / 4096) by lia.
  pose proof (Z.mul_div_le (stop - start + 4095) 4096). lia.
Qed.

Lemma NoDup_step_by start stop : NoDup (step_by_4096 start stop).
Proof.
  unfold step_by_4096. apply NoDup_fmap_2_strong; [|apply NoDup_seq].
  intros i j _ _ H. lia.
Qed.

Lemma elem_of_addresses rs x :
  x ∈ flat_map (fun r => step_by_4096 (start_addr r) (end_addr r)) rs ->
  exists r, r ∈ rs /\ x ∈ step_by_4096 (start_addr r) (end_addr r).
Proof.
  rewrite list_elem_of_In, in_flat_map. intros (r & Hr & Hx).
  exists r. by rewrite !list_elem_of_In.
Qed.

Lemma NoDup_addresses rs :
  ForallOrdPairs regions_disjoint rs ->
  NoDup (flat_map (fun r => step_by_4096 (start_addr r) (end_addr r)) rs).
Proof.
  induction 1 as [|r rs Hr _ IH]; cbn; [constructor|].
  apply NoDup_app. split; [apply NoDup_step_by|]. split; [|done].
  intros x Hx1 Hx2. apply elem_of_step_by in Hx1 as (i & _ & _ & H1).
  apply elem_of_addresses in Hx2 as (r' & Hr' & Hx2).
  apply elem_of_step_by in Hx2 as (k & _ & _ & H2).
  rewrite Forall_forall in Hr. destruct (Hr r' Hr'); lia.
Qed.

(** Frame addresses are aligned, so [containing_address] keeps them. *)
Lemma usable_frames_addresses a :
  map_ok (memory_map a) ->
  usable_frames a =
    flat_map (fun r => step_by_4096 (start_addr r) (end_addr r))
             (List.filter usable (memory_map a)).
Proof.
  intros [Hal _]. unfold usable_frames.
  rewrite <- (map_id (flat_map _ _)) at 2. apply map_ext_in. intros x Hx.
  rewrite <- list_elem_of_In in Hx. apply elem_of_addresses in Hx as (r & Hr & Hx).
  rewrite Forall_forall in Hal. destruct (Hal r Hr) as [H0 Hm].
  apply elem_of_step_by in Hx as (i & Hi & -> & _).
  rewrite containing_address_spec by lia.
  replace (start_addr r + 4096 * i) with (start_addr r + i * 4096) by lia.
  rewrite Z_mod_plus_full, Hm. lia.
Qed.

Lemma usable_frames_NoDup a : map_ok (memory_map a) -> NoDup (usable_frames a).
Proof. intros H. rewrite usable_frames_addresses by done. apply NoDup_addresses, H. Qed.

Lemma usable_frames_usable a f :
  map_ok (memory_map a) -> f ∈ usable_frames a -> frame_usable (memory_map a) f.
Proof.
  intros H. rewrite usable_frames_addresses by done.
  intros (r & Hr & Hf)%elem_of_addresses. destruct H as [Hal _].
  rewrite Forall_forall in Hal. destruct (Hal r Hr) as [_ Hm].
  rewrite list_elem_of_In in Hr. apply filter_In in Hr as [Hr Hu]. apply elem_of_step_by in Hf as (i & _ & -> & Hf).
  split; [|exists r; by rewrite list_elem_of_In].
  replace (start_addr r + 4096 * i) with (start_addr r + i * 4096) by lia.
  by rewrite Z_mod_plus_full.
Qed.

(** [n] calls in a row. *)
Fixpoint allocate_many (n : nat) (a : BootInfoFrameAllocator) : list (option Z) :=
  match n with
  | O => []
  | S n' => let '(f, a') := allocate_frame a in f :: allocate_many n' a'
  end.

Lemma allocate_many_lookup n a i :
  (i < n)%nat ->
  allocate_many n a !! i = Some (vget (usable_frames a) (next a + Z.of_nat i)).
Proof.
  revert a i. induction n as [|n IH]; intros a i Hi; [lia|].
  cbn [allocate_many allocate_frame].
  destruct i as [|i]; [change (Z.of_nat 0) with 0; by rewrite Z.add_0_r|].
  change ((?x :: ?l) !! S ?k) with (l !! k). rewrite IH by lia.
  f_equal. change (usable_frames (mkAllocator _ _)) with (usable_frames a).
  f_equal. cbn [next]. lia.
Qed.

Lemma vget_NoDup (l : list Z) i j f :
  NoDup l -> vget l i = Some f -> vget l j = Some f -> i = j.
Proof.
  intros Hnd Hi Hj. pose proof (vget_range _ _ _ Hi). pose proof (vget_range _ _ _ Hj).
  rewrite <- (Z2Nat.id i), vget_nat in Hi by lia.
  rewrite <- (Z2Nat.id j), vget_nat in Hj by lia.
  pose proof (NoDup_lookup _ _ _ _ Hnd Hi Hj). lia.
Qed.

(** However many frames are requested, each one returned is a frame of a
    usable region and no frame is returned twice. *)
Lemma allocate_many_distinct n a i j f :
  map_ok (memory_map a) ->
  allocate_many n a !! i = Some (Some f) ->
  frame_usable (memory_map a) f /\ (allocate_many n a !! j = Some (Some f) -> i = j).
Proof.
  intros Hm Hi.
  assert (length (allocate_many n a) = n) as Hlen.
  { clear. revert a. induction n; intros a; cbn; [done|]. by rewrite IHn. }
  pose proof (lookup_lt_Some _ _ _ Hi) as Hin. rewrite Hlen in Hin.
  rewrite allocate_many_lookup in Hi by done. injection Hi as Hi.
  split; [by eapply usable_frames_usable, vget_elem_of|].
  intros Hj. pose proof (lookup_lt_Some _ _ _ Hj) as Hjn. rewrite Hlen in Hjn.
  rewrite allocate_many_lookup in Hj by done. injection Hj as Hj.
  pose proof (vget_NoDup _ _ _ _ (usable_frames_NoDup a Hm) Hi Hj). lia.
Qed.
End allocator_facts.

(** ** Operations that never panic

    [same_ctl]: the registers and the kernel's page table are those of [m].
    [Safe op]: once the memory state is initialised, [op] returns, and keeps
    them. *)

Definition mem_ok (m : Mem) : Prop := is_Some (memory_state m).

Record same_ctl (m m' : Mem) : Prop := mkSameCtl {
  sc_cr3 : cr3 m' = cr3 m;
  sc_kernel : kernel_level_4_frame m' = kernel_level_4_frame m;
  sc_ok : mem_ok m -> mem_ok m'
}.

#[global] Instance same_ctl_preorder : PreOrder same_ctl.
Proof.
  split; [by constructor|]. intros m1 m2 m3 [E1 F1 G1] [E2 F2 G2].
  constructor; [congruence|congruence|tauto].
Qed.

Lemma kernel_frame_cr3 m c : mem_ok m -> kernel_level_4_frame (set_cr3 c m) = kernel_level_4_frame m.
Proof. intros [s Hs]. unfold kernel_level_4_frame. cbn. by rewrite Hs. Qed.

Definition Safe {A} (op : ST Mem A) : Prop :=
  forall m, mem_ok m -> wp op (fun _ m' => same_ctl m m') m.

(** The same, with a property of the returned value. *)
Definition SafeR {A} (op : ST Mem A) (R : A -> Prop) : Prop :=
  forall m, mem_ok m -> wp op (fun a m' => same_ctl m m' /\ R a) m.

Section safe.
Lemma Safe_R {A} (op : ST Mem A) : Safe op <-> SafeR op (fun _ => True).
Proof.
  split; intros H m Hm; (eapply wp_mono; [exact (H m Hm)|]); cbn; tauto.
Qed.

Lemma SafeR_Safe {A} (op : ST Mem A) R : SafeR op R -> Safe op.
Proof. intros H m Hm. eapply wp_mono; [exact (H m Hm)|]. cbn. tauto. Qed.

Lemma SafeR_ret {A} (a : A) (R : A -> Prop) : R a -> SafeR (st_ret a) R.
Proof. by intros H m Hm. Qed.

(** Sequencing, with what the first step establishes. *)
Lemma SafeR_then {A B} (op : ST Mem A) R (k : A -> ST Mem B) R' :
  SafeR op R -> (forall a, R a -> SafeR (k a) R') -> SafeR (st_bind op k) R'.
Proof.
  intros H1 H2 m Hm. apply wp_bind. eapply wp_mono; [exact (H1 m Hm)|].
  intros a m1 [C1 Ha]. eapply wp_mono; [apply (H2 a Ha); by apply C1|].
  intros b m2 [C2 Hb]. split; [by transitivity m1|done].
Qed.

(** [?], for a property of the final [Ok] value. *)
Definition OnOk {E A} (R : A -> Prop) (r : result E A) : Prop :=
  match r with Ok a => R a | Err _ => True end.

Lemma SafeR_try_then {E A B} (op : ST Mem (result E A)) R (k : A -> ST Mem (result E B)) R' :
  SafeR op (OnOk R) -> (forall a, R a -> SafeR (k a) (OnOk R')) -> SafeR (st_try op k) (OnOk R').
Proof.
  intros H1 H2. eapply SafeR_then; [exact H1|]. intros [a|e] Ha; [by apply H2|by apply SafeR_ret].
Qed.

Lemma SafeR_bind {A B} (op : ST Mem A) R (k : A -> ST Mem B) :
  SafeR op R -> (forall a, R a -> Safe (k a)) -> Safe (st_bind op k).
Proof.
  intros H1 H2 m Hm. apply wp_bind. eapply wp_mono; [exact (H1 m Hm)|].
  intros a m1 [C1 Ha]. eapply wp_mono; [apply (H2 a Ha); by apply C1|].
  intros b m2 C2. by transitivity m1.
Qed.

Lemma Safe_ret {A} (a : A) : Safe (st_ret a).
Proof. by intros m Hm. Qed.

Lemma Safe_gets {A} (f : Mem -> A) : Safe (st_gets f).
Proof. by intros m Hm. Qed.

Lemma Safe_bind {A B} (op : ST Mem A) (k : A -> ST Mem B) :
  Safe op -> (forall a, Safe (k a)) -> Safe (st_bind op k).
Proof. intros H1%Safe_R H2. by eapply SafeR_bind. Qed.

Lemma SafeR_try {E A B} (op : ST Mem (result E A)) R (k : A -> ST Mem (result E B)) :
  SafeR op (fun r => match r with Ok a => R a | Err _ => True end) ->
  (forall a, R a -> Safe (k a)) -> Safe (st_try op k).
Proof.
  intros H1 H2. eapply SafeR_bind; [exact H1|]. intros [a|e] Ha; [by apply H2|apply Safe_ret].
Qed.

Lemma Safe_try {E A B} (op : ST Mem (result E A)) (k : A -> ST Mem (result E B)) :
  Safe op -> (forall a, Safe (k a)) -> Safe (st_try op k).
Proof. intros H1 H2. apply Safe_bind; [done|]. intros [a|e]; [by apply H2|apply Safe_ret]. Qed.

Lemma Safe_try_ret {E A B} (r : result E A) (k : A -> ST Mem (result E B)) :
  (forall a, r = Ok a -> Safe (k a)) -> Safe (st_try (st_ret r) k).
Proof. intros H. destruct r as [a|e]; [exact (H a eq_refl)|apply (Safe_ret (Err e))]. Qed.

Lemma Safe_set_ram (f : Mem -> Ram) : Safe (st_modify (fun m => set_ram (f m) m)).
Proof. intros m Hm. by apply wp_modify. Qed.

Lemma Safe_with_state {R} (f : MemoryState -> ST Mem R) :
  (forall s m, memory_state m = Some s -> wp (f s) (fun _ m' => same_ctl m m') m) ->
  Safe (with_state f).
Proof.
  intros H m [s Hs]. unfold with_state. apply wp_bind, wp_get. rewrite Hs. by apply H.
Qed.

Lemma Safe_with_state' {R} (f : MemoryState -> ST Mem R) :
  (forall s, Safe (f s)) -> Safe (with_state f).
Proof. intros H. apply Safe_with_state. intros s m Hs. apply H. by exists s. Qed.

Lemma with_state_run {R} (f : MemoryState -> ST Mem R) m s :
  memory_state m = Some s -> with_state f m = f s m.
Proof. intros Hs. unfold with_state, st_bind, st_get. by rewrite Hs. Qed.

Context {X : X86_64}.

Lemma Safe_allocate_frame : Safe state_allocate_frame.
Proof.
  apply Safe_with_state. intros s m Hs. destruct (allocate_frame _) as [frame a].
  apply wp_bind, wp_modify, wp_ret.
  constructor; unfold kernel_level_4_frame; cbn; [done|by rewrite Hs|by eexists].
Qed.
End safe.

#[export] Hint Resolve Safe_ret Safe_gets Safe_set_ram Safe_allocate_frame Safe_with_state' : kernel.
#[export] Hint Resolve Safe_bind Safe_try : kernel.
