(* ===== verification/AddressSpace.v ===== *)
(** * User address spaces (src/src/address_space.rs)

    An address space is the frame of its level-4 page table. Its operations
    run in [ST Mem]: they allocate frames, write page-table entries and page
    contents in RAM, and walk the four table levels. *)

From S2P Require Import Prelude X86 Memory.

Definition USER_P4_INDEX : Z := 1.

Inductive AddressSpaceError : Type :=
| FrameAllocationFailed
| KernelUserSlotInUse
| RangeOverflow
| MapTo (error : MapToError)
| Unmap (error : UnmapError).

Inductive UserCopyError : Type := CopyRangeOverflow | CopyNotMapped.

Record UserTranslation : Type := mkTranslation { phys : Z; flags : Z }.

Record UserMapFlags : Type := mkMapFlags {
  readable : bool;
  writable : bool;
  executable : bool
}.

Definition read_execute : UserMapFlags := mkMapFlags true false true.
Definition read_write : UserMapFlags := mkMapFlags true true false.

Definition page_table_flags (f : UserMapFlags) : Z :=
  let flags := Z.lor PRESENT USER_ACCESSIBLE in
  if writable f then Z.lor flags WRITABLE else flags.

Record AddressSpace : Type := mkAddressSpace { level_4_frame : Z }.

(** A loop whose fuel ran out; the theorems show it does not happen. *)
Definition out_of_fuel : string := "loop fuel exhausted".

Section address_space.
Context {X : X86_64}.

Definition virt_addr {S} (a : Z) : ST S Z :=
  st_expect (VirtAddr_new a) "address passed to VirtAddr::new must be canonical".

Definition entry_allows_user (flags : Z) : bool :=
  contains flags (Z.lor PRESENT USER_ACCESSIBLE).

Definition validate_page_range (start stop : Z) : result AddressSpaceError unit :=
  if (start >? stop) || negb (Z.land start (PAGE_SIZE - 1) =? 0)
     || negb (Z.land stop (PAGE_SIZE - 1) =? 0)
  then Err RangeOverflow
  else Ok tt.

(** The body of the copy loop of [new_user], over the kernel's entries. *)
Fixpoint copy_kernel_entries (kernel_l4 new_l4 : Z) (indices : list Z) :
    ST Mem (result AddressSpaceError unit) :=
  match indices with
  | [] => st_ret (Ok tt)
  | index :: rest =>
      let* source_entry := st_gets (fun m => read_entry (ram m) kernel_l4 index) in
      if index =? USER_P4_INDEX then
        if negb (entry_is_unused source_entry) then st_ret (Err KernelUserSlotInUse)
        else copy_kernel_entries kernel_l4 new_l4 rest
      else
        let entry :=
          if negb (entry_is_unused source_entry)
          then entry_set_flags source_entry (remove (entry_flags source_entry) USER_ACCESSIBLE)
          else source_entry in
        st_modify (fun m => set_ram (write_entry (ram m) new_l4 index entry) m) ;;;
        copy_kernel_entries kernel_l4 new_l4 rest
  end.

Definition table_indices : list Z := map Z.of_nat (seq 0 512).

Definition new_user : ST Mem (result AddressSpaceError AddressSpace) :=
  with_state (fun state =>
    let* frame := state_allocate_frame in
    match frame with
    | None => st_ret (Err FrameAllocationFailed)
    | Some l4 =>
        st_modify (fun m => set_ram (fill_bytes (ram m) l4 4096 0) m) ;;;
        let? _ := copy_kernel_entries (ms_kernel_level_4_frame state) l4 table_indices in
        st_ret (Ok (mkAddressSpace l4))
    end).

Definition kernel : ST Mem AddressSpace :=
  let* m := st_get in st_ret (mkAddressSpace (kernel_level_4_frame m)).

Definition load (self : AddressSpace) : ST Mem unit :=
  st_modify (set_cr3 (level_4_frame self)).

Definition map_frame (self : AddressSpace) (address frame flags : Z) :
    ST Mem (result AddressSpaceError unit) :=
  let page := Page_containing_address address in
  with_state (fun state =>
    let* m := st_get in
    let '(r, ram', a) :=
      map_to allocate_frame (ram m) (frame_allocator state) (level_4_frame self) page frame flags in
    st_put (mkMem (Some (set_frame_allocator a state)) ram' (cr3 m)) ;;;
    st_ret (map_err MapTo r)).

Definition unmap_page (self : AddressSpace) (address : Z) :
    ST Mem (result AddressSpaceError unit) :=
  let page := Page_containing_address address in
  with_state (fun state =>
    let* m := st_get in
    let '(r, ram') := unmap (ram m) (level_4_frame self) page in
    st_put (set_ram ram' m) ;;;
    st_ret (map_err Unmap r)).

Definition map_zeroed_user_page (self : AddressSpace) (address flags : Z) :
    ST Mem (result AddressSpaceError Z) :=
  let? frame :=
    with_state (fun _ =>
      let* frame := state_allocate_frame in
      match frame with
      | None => st_ret (Err FrameAllocationFailed)
      | Some frame =>
          st_modify (fun m => set_ram (fill_bytes (ram m) frame 4096 0) m) ;;;
          st_ret (Ok frame)
      end) in
  let? _ := map_frame self address frame flags in
  st_ret (Ok frame).

(** [while address < end] of [map_user_region]. *)
Fixpoint map_region_loop (fuel : nat) (self : AddressSpace) (address stop flags : Z) :
    ST Mem (result AddressSpaceError unit) :=
  match fuel with
  | O => st_panic out_of_fuel
  | S fuel' =>
      if address <? stop then
        let* va := virt_addr address in
        let? _ := map_zeroed_user_page self va flags in
        match checked_add address PAGE_SIZE with
        | None => st_ret (Err RangeOverflow)
        | Some address' => map_region_loop fuel' self address' stop flags
        end
      else st_ret (Ok tt)
  end.

Definition page_fuel (start stop : Z) : nat := Z.to_nat ((stop - start) / 4096 + 2).

Definition map_user_region (self : AddressSpace) (virt_start size : Z) (flags : UserMapFlags) :
    ST Mem (result AddressSpaceError unit) :=
  if size =? 0 then st_ret (Ok tt)
  else
    let start := align_down virt_start PAGE_SIZE in
    match checked_add virt_start size with
    | None => st_ret (Err RangeOverflow)
    | Some range_end =>
      match align_up range_end PAGE_SIZE with
      | None => st_ret (Err RangeOverflow)
      | Some stop => map_region_loop (page_fuel start stop) self start stop (page_table_flags flags)
      end
    end.

Fixpoint unmap_loop (fuel : nat) (self : AddressSpace) (address stop : Z) :
    ST Mem (result AddressSpaceError unit) :=
  match fuel with
  | O => st_panic out_of_fuel
  | S fuel' =>
      if address <? stop then
        let* va := virt_addr address in
        let? _ := unmap_page self va in
        match checked_add address PAGE_SIZE with
        | None => st_ret (Err RangeOverflow)
        | Some address' => unmap_loop fuel' self address' stop
        end
      else st_ret (Ok tt)
  end.

Definition unmap_user_heap_pages (self : AddressSpace) (start stop : Z) :
    ST Mem (result AddressSpaceError unit) :=
  let? _ := st_ret (validate_page_range start stop) in
  unmap_loop (page_fuel start stop) self start stop.

(** [while address < end] of [map_user_heap_pages]: a failed page undoes
    the pages mapped before it. *)
Fixpoint map_heap_loop (fuel : nat) (self : AddressSpace) (start address stop : Z) :
    ST Mem (result AddressSpaceError unit) :=
  match fuel with
  | O => st_panic out_of_fuel
  | S fuel' =>
      if address <? stop then
        let* va := virt_addr address in
        let* r := map_zeroed_user_page self va (page_table_flags read_write) in
        match r with
        | Err error =>
            let* va := virt_addr address in
            let* _ := unmap_user_heap_pages self start va in
            st_ret (Err error)
        | Ok _ =>
            match checked_add address PAGE_SIZE with
            | None => st_ret (Err RangeOverflow)
            | Some address' => map_heap_loop fuel' self start address' stop
            end
        end
      else st_ret (Ok tt)
  end.

Definition map_user_heap_pages (self : AddressSpace) (start stop : Z) :
    ST Mem (result AddressSpaceError unit) :=
  let? _ := st_ret (validate_page_range start stop) in
  map_heap_loop (page_fuel start stop) self start start stop.

(** The four-level walk of [translate_user], on the contents of RAM. *)
Definition translate (r : Ram) (l4 address : Z) : option UserTranslation :=
  let page := Page_containing_address address in
  let p4_entry := read_entry r l4 (p4_index page) in
  if negb (entry_allows_user (entry_flags p4_entry)) then None
  else match entry_frame p4_entry with
  | None => None
  | Some level_3 =>
    let p3_entry := read_entry r level_3 (p3_index page) in
    if negb (entry_allows_user (entry_flags p3_entry)) then None
    else match entry_frame p3_entry with
    | None => None
    | Some level_2 =>
      let p2_entry := read_entry r level_2 (p2_index page) in
      if negb (entry_allows_user (entry_flags p2_entry)) then None
      else match entry_frame p2_entry with
      | None => None
      | Some level_1 =>
        let p1_entry := read_entry r level_1 (p1_index page) in
        if negb (entry_allows_user (entry_flags p1_entry)) then None
        else match entry_frame p1_entry with
        | None => None
        | Some frame =>
            let page_offset := Z.land address 0xfff in
            Some (mkTranslation (frame + page_offset) (entry_flags p1_entry))
        end
      end
    end
  end.

Definition translate_user (self : AddressSpace) (address : Z) :
    ST Mem (option UserTranslation) :=
  with_state (fun _ => st_gets (fun m => translate (ram m) (level_4_frame self) address)).

Definition user_page_is_accessible (self : AddressSpace) (address : Z) : ST Mem bool :=
  let* t := translate_user self address in
  st_ret (match t with Some _ => true | None => false end).

(** [while copied < src.len()] of [copy_to_user]: one page per turn. *)
Fixpoint as_copy_loop (fuel : nat) (self : AddressSpace) (dst copied : Z) (src : list Z) :
    ST Mem (result UserCopyError unit) :=
  match fuel with
  | O => st_panic out_of_fuel
  | S fuel' =>
      if copied <? vlen src then
        match checked_add dst copied with
        | None => st_ret (Err CopyRangeOverflow)
        | Some dst_addr =>
            let* va := virt_addr dst_addr in
            let* t := translate_user self va in
            match t with
            | None => st_ret (Err CopyNotMapped)
            | Some t =>
                let page_offset := Z.land (phys t) (PAGE_SIZE - 1) in
                let count := Z.min (vlen src - copied) (PAGE_SIZE - page_offset) in
                with_state (fun _ => st_modify (fun m =>
                  set_ram (write_bytes (ram m) (phys t) (slice src copied count)) m)) ;;;
                as_copy_loop fuel' self dst (copied + count) src
            end
        end
      else st_ret (Ok tt)
  end.

Definition as_copy_to_user (self : AddressSpace) (dst : Z) (src : list Z) :
    ST Mem (result UserCopyError unit) :=
  as_copy_loop (S (length src)) self dst 0 src.

(** [while zeroed < len] of [zero_user_range]. *)
Fixpoint zero_loop (fuel : nat) (self : AddressSpace) (dst zeroed len : Z) :
    ST Mem (result UserCopyError unit) :=
  match fuel with
  | O => st_panic out_of_fuel
  | S fuel' =>
      if zeroed <? len then
        match checked_add dst zeroed with
        | None => st_ret (Err CopyRangeOverflow)
        | Some dst_addr =>
            let* va := virt_addr dst_addr in
            let* t := translate_user self va in
            match t with
            | None => st_ret (Err CopyNotMapped)
            | Some t =>
                let page_offset := Z.land (phys t) (PAGE_SIZE - 1) in
                let count := Z.min (len - zeroed) (PAGE_SIZE - page_offset) in
                with_state (fun _ => st_modify (fun m =>
                  set_ram (fill_bytes (ram m) (phys t) count 0) m)) ;;;
                zero_loop fuel' self dst (zeroed + count) len
            end
        end
      else st_ret (Ok tt)
  end.

(** Each turn clears at least a byte. *)
Definition zero_user_range (self : AddressSpace) (dst len : Z) :
    ST Mem (result UserCopyError unit) :=
  zero_loop (S (Z.to_nat len)) self dst 0 len.

Definition write_frame_bytes (self : AddressSpace) (frame : Z) (bytes : list Z) :
    ST Mem (result AddressSpaceError unit) :=
  if vlen bytes >? 4096 then st_ret (Err FrameAllocationFailed)
  else with_state (fun _ =>
    st_modify (fun m => set_ram (write_bytes (ram m) frame bytes) m) ;;;
    st_ret (Ok tt)).

Definition write_frame_u64 (self : AddressSpace) (frame value : Z) : ST Mem unit :=
  with_state (fun _ =>
    st_modify (fun m => set_ram (write_bytes (ram m) frame (to_le_bytes 8 value)) m)).

Definition read_user_u64 (self : AddressSpace) (address : Z) : ST Mem (option Z) :=
  let* t := translate_user self address in
  match t with
  | None => st_ret None
  | Some t =>
      let offset := Z.land (phys t) 0xfff in
      if offset >? 4096 - 8 then st_ret None
      else with_state (fun _ =>
        st_gets (fun m => Some (from_le_bytes (read_bytes (ram m) (phys t) 8))))
  end.
End address_space.

(** ** No panic

    The operations return whenever the addresses they are given are below
    [2^47]; in particular no loop runs out of fuel. *)

Section address_space_safe.
Context {X : X86_64} {XS : X86_64_Spec X}.

Lemma virt_addr_ok {S} a : canonical a -> @virt_addr X S a = st_ret a.
Proof. intros H. unfold virt_addr. by rewrite VirtAddr_new_canonical. Qed.

Lemma canonical_low a : 0 <= a < 2 ^ 47 -> canonical a.
Proof. by left. Qed.

Lemma checked_add_Some a b c : checked_add a b = Some c <-> a + b < 2 ^ 64 /\ c = a + b.
Proof.
  unfold checked_add. destruct (Z.ltb_spec (a + b) (2 ^ 64)); split; intros H1.
  - injection H1 as <-. done.
  - f_equal. lia.
  - done.
  - lia.
Qed.

Lemma Safe_virt_addr {A} a (k : Z -> ST Mem A) :
  canonical a -> Safe (k a) -> Safe (st_bind (virt_addr a) k).
Proof. intros Ha Hk. by rewrite virt_addr_ok. Qed.

Lemma Safe_map_frame self address frame flags : Safe (map_frame self address frame flags).
Proof.
  apply Safe_with_state. intros s m Hs. apply wp_bind, wp_get.
  destruct (map_to _ _ _ _ _ _ _) as [[r ram'] a]. apply wp_bind, wp_put, wp_ret.
  constructor; unfold kernel_level_4_frame; cbn; [done|by rewrite Hs|by eexists].
Qed.

Lemma Safe_unmap_page self address : Safe (unmap_page self address).
Proof.
  apply Safe_with_state. intros s m Hs. apply wp_bind, wp_get.
  destruct (unmap _ _ _) as [r ram']. by apply wp_bind, wp_put, wp_ret.
Qed.

Lemma Safe_map_zeroed self address flags : Safe (map_zeroed_user_page self address flags).
Proof.
  apply Safe_try; [|intros frame; apply Safe_try; [apply Safe_map_frame|auto with kernel]].
  apply Safe_with_state'. intros _. apply Safe_bind; [auto with kernel|].
  intros [frame|]; auto with kernel.
Qed.

Lemma Safe_translate self address : Safe (translate_user self address).
Proof. unfold translate_user. auto with kernel. Qed.

Lemma Safe_copy_kernel_entries k l4 indices : Safe (copy_kernel_entries k l4 indices).
Proof.
  induction indices as [|i rest IH]; cbn; [auto with kernel|].
  apply Safe_bind; [auto with kernel|]. intros e.
  destruct (i =? USER_P4_INDEX); [destruct (negb _)|]; auto with kernel.
Qed.

Lemma Safe_new_user : Safe new_user.
Proof.
  apply Safe_with_state'. intros s. apply Safe_bind; [auto with kernel|].
  intros [l4|]; [|auto with kernel]. apply Safe_bind; [auto with kernel|]. intros _.
  apply Safe_try; [apply Safe_copy_kernel_entries|auto with kernel].
Qed.

(** The page loops: [fuel] turns of 4096 bytes reach [stop]. *)
Lemma Safe_map_region_loop fuel self address stop flags :
  0 <= address <= stop + 4095 -> stop <= 2 ^ 47 ->
  stop <= address + 4096 * (Z.of_nat fuel - 1) ->
  Safe (map_region_loop fuel self address stop flags).
Proof.
  revert address. induction fuel as [|fuel IH]; intros address H0 Hs Hf; [lia|]. cbn.
  destruct (Z.ltb_spec address stop); [|auto with kernel].
  apply Safe_virt_addr; [apply canonical_low; lia|].
  apply Safe_try; [apply Safe_map_zeroed|]. intros _.
  destruct (checked_add address PAGE_SIZE) as [a'|] eqn:E; [|auto with kernel].
  apply checked_add_Some in E as [_ ->]. unfold PAGE_SIZE. apply IH; lia.
Qed.

Lemma Safe_unmap_loop fuel self address stop :
  0 <= address <= stop + 4095 -> stop <= 2 ^ 47 ->
  stop <= address + 4096 * (Z.of_nat fuel - 1) ->
  Safe (unmap_loop fuel self address stop).
Proof.
  revert address. induction fuel as [|fuel IH]; intros address H0 Hs Hf; [lia|]. cbn.
  destruct (Z.ltb_spec address stop); [|auto with kernel].
  apply Safe_virt_addr; [apply canonical_low; lia|].
  apply Safe_try; [apply Safe_unmap_page|]. intros _.
  destruct (checked_add address PAGE_SIZE) as [a'|] eqn:E; [|auto with kernel].
  apply checked_add_Some in E as [_ ->]. apply IH; unfold PAGE_SIZE; lia.
Qed.

Lemma page_fuel_enough start stop :
  start <= stop -> stop <= start + 4096 * (Z.of_nat (page_fuel start stop) - 1).
Proof.
  intros H. unfold page_fuel. pose proof (Z.div_mod (stop - start) 4096).
  pose proof (Z.mod_pos_bound (stop - start) 4096).
  pose proof (Z.div_pos (stop - start) 4096). lia.
Qed.

Lemma validate_page_range_Ok start stop :
  validate_page_range start stop = Ok tt <->
  start <= stop /\ start mod 4096 = 0 /\ stop mod 4096 = 0.
Proof.
  unfold validate_page_range. rewrite !(land_fff : forall x, Z.land x (PAGE_SIZE - 1) = _).
  rewrite Z.gtb_ltb.
  destruct (Z.ltb_spec stop start), (Z.eqb_spec (start mod 4096) 0),
    (Z.eqb_spec (stop mod 4096) 0); cbn; intuition (congruence || lia).
Qed.

Lemma Safe_unmap_user_heap_pages self start stop :
  0 <= start -> stop <= 2 ^ 47 -> Safe (unmap_user_heap_pages self start stop).
Proof.
  intros H0 Hs. apply Safe_try_ret. intros [] (Hle & _)%validate_page_range_Ok.
  apply Safe_unmap_loop; [lia|done|by apply page_fuel_enough].
Qed.

Lemma Safe_map_heap_loop fuel self start address stop :
  0 <= start <= address -> address <= stop + 4095 -> stop <= 2 ^ 47 ->
  stop <= address + 4096 * (Z.of_nat fuel - 1) ->
  Safe (map_heap_loop fuel self start address stop).
Proof.
  revert address. induction fuel as [|fuel IH]; intros address H0 H1 Hs Hf; [lia|]. cbn.
  destruct (Z.ltb_spec address stop); [|auto with kernel].
  apply Safe_virt_addr; [apply canonical_low; lia|].
  apply Safe_bind; [apply Safe_map_zeroed|]. intros [f|e].
  - destruct (checked_add address PAGE_SIZE) as [a'|] eqn:E; [|auto with kernel].
    apply checked_add_Some in E as [_ ->]. apply IH; unfold PAGE_SIZE; lia.
  - apply Safe_virt_addr; [apply canonical_low; lia|].
    apply Safe_bind; [apply Safe_unmap_user_heap_pages; lia|auto with kernel].
Qed.

Lemma Safe_map_user_heap_pages self start stop :
  0 <= start -> stop <= 2 ^ 47 -> Safe (map_user_heap_pages self start stop).
Proof.
  intros H0 Hs. apply Safe_try_ret. intros [] (Hle & _)%validate_page_range_Ok.
  apply Safe_map_heap_loop; [lia|lia|done|by apply page_fuel_enough].
Qed.

Lemma Safe_map_user_region self start size flags :
  0 <= start -> 0 <= size -> start + size <= 2 ^ 46 ->
  Safe (map_user_region self start size flags).
Proof.
  intros H0 H1 H2. unfold map_user_region. destruct (size =? 0); [auto with kernel|].
  destruct (checked_add start size) as [e|] eqn:E; [|auto with kernel].
  apply checked_add_Some in E as [_ ->].
  destruct (align_up (start + size) PAGE_SIZE) as [stop|] eqn:E; [|auto with kernel].
  apply align_up_Some in E as (E & _); [|unfold is_u64; lia].
  pose proof (Z.mod_pos_bound start 4096). pose proof (Z.mod_le start 4096).
  unfold PAGE_SIZE. rewrite align_down_spec by (unfold is_u64; lia).
  apply Safe_map_region_loop; [lia|lia|apply page_fuel_enough; lia].
Qed.

(** A copy turn advances by at least one byte. *)
Lemma chunk_pos rest p : 0 < rest -> 0 < Z.min rest (PAGE_SIZE - Z.land p (PAGE_SIZE - 1)).
Proof.
  intros H. change (PAGE_SIZE - 1) with 4095. rewrite land_fff. unfold PAGE_SIZE.
  pose proof (Z.mod_pos_bound p 4096). lia.
Qed.

Lemma Safe_as_copy_loop fuel self dst copied src :
  0 <= dst -> 0 <= copied <= vlen src -> dst + vlen src <= 2 ^ 47 ->
  vlen src - copied < Z.of_nat fuel ->
  Safe (as_copy_loop fuel self dst copied src).
Proof.
  intros Hd. revert copied. induction fuel as [|fuel IH]; intros copied Hc Hl Hf; [lia|]. cbn.
  destruct (Z.ltb_spec copied (vlen src)); [|auto with kernel].
  destruct (checked_add dst copied) as [a|] eqn:E; [|auto with kernel].
  apply checked_add_Some in E as [_ ->]. apply Safe_virt_addr; [apply canonical_low; lia|].
  apply Safe_bind; [apply Safe_translate|]. intros [t|]; [|auto with kernel].
  apply Safe_bind; [auto with kernel|]. intros _.
  pose proof (chunk_pos (vlen src - copied) (phys t)). apply IH; lia.
Qed.

Lemma Safe_as_copy_to_user self dst src :
  0 <= dst -> dst + vlen src <= 2 ^ 47 -> Safe (as_copy_to_user self dst src).
Proof.
  intros. pose proof (vlen_nonneg src). apply Safe_as_copy_loop; unfold vlen in *; lia.
Qed.

Lemma Safe_zero_loop fuel self dst zeroed len :
  0 <= dst -> 0 <= zeroed <= len -> dst + len <= 2 ^ 47 -> len - zeroed < Z.of_nat fuel ->
  Safe (zero_loop fuel self dst zeroed len).
Proof.
  intros Hd. revert zeroed. induction fuel as [|fuel IH]; intros z Hc Hl Hf; [lia|]. cbn.
  destruct (Z.ltb_spec z len); [|auto with kernel].
  destruct (checked_add dst z) as [a|] eqn:E; [|auto with kernel].
  apply checked_add_Some in E as [_ ->]. apply Safe_virt_addr; [apply canonical_low; lia|].
  apply Safe_bind; [apply Safe_translate|]. intros [t|]; [|auto with kernel].
  apply Safe_bind; [auto with kernel|]. intros _.
  pose proof (chunk_pos (len - z) (phys t)). apply IH; lia.
Qed.

Lemma Safe_zero_user_range self dst len :
  0 <= dst -> 0 <= len -> dst + len <= 2 ^ 47 -> Safe (zero_user_range self dst len).
Proof. intros. apply Safe_zero_loop; lia. Qed.
End address_space_safe.

#[export] Hint Resolve Safe_translate Safe_map_zeroed Safe_new_user : kernel.

(** ** Translation *)

Section translation.
Context {X : X86_64} {XS : X86_64_Spec X}.

(** The tables that the walk for [address] reads. *)
Definition tables (r : Ram) (l4 address : Z) : list Z :=
  let page := Page_containing_address address in
  let child (table index : Z) :=
    let e := read_entry r table index in
    if entry_allows_user (entry_flags e) then entry_frame e else None in
  l4 :: match child l4 (p4_index page) with
        | None => []
        | Some l3 =>
            l3 :: match child l3 (p3_index page) with
                  | None => []
                  | Some l2 =>
                      l2 :: match child l2 (p2_index page) with
                            | None => []
                            | Some l1 => [l1]
                            end
                  end
        end.

Lemma same_page_mod a k : 0 <= k -> a mod 4096 + k < 4096 -> (a + k) mod 4096 = a mod 4096 + k.
Proof.
  intros Hk H. pose proof (Z.mod_pos_bound a 4096). rewrite <- Zplus_mod_idemp_l.
  apply Z.mod_small. lia.
Qed.

Lemma page_start page a :
  page mod 4096 = 0 -> page <= a < page + 4096 -> a - a mod 4096 = page.
Proof.
  intros Hp Ha. pose proof (same_page_mod page (a - page)) as H.
  replace (page + (a - page)) with a in H by lia. lia.
Qed.

Lemma same_page a k :
  0 <= a -> 0 <= k -> a mod 4096 + k < 4096 ->
  Page_containing_address (a + k) = Page_containing_address a.
Proof.
  intros Ha Hk H. rewrite !page_containing_address_spec by lia.
  rewrite same_page_mod by done. lia.
Qed.

Definition shift (k : Z) (t : UserTranslation) : UserTranslation :=
  mkTranslation (phys t + k) (flags t).

(** Translation is linear within a page. *)
Lemma translate_same_page r l4 a k :
  0 <= a -> 0 <= k -> a mod 4096 + k < 4096 ->
  translate r l4 (a + k) = shift k <$> translate r l4 a.
Proof.
  intros Ha Hk H. unfold translate. rewrite same_page by done. rewrite !land_fff.
  rewrite same_page_mod by done.
  destruct (negb _); [done|]. destruct (entry_frame _) as [l3|]; [|done].
  destruct (negb _); [done|]. destruct (entry_frame _) as [l2|]; [|done].
  destruct (negb _); [done|]. destruct (entry_frame _) as [l1|]; [|done].
  destruct (negb _); [done|]. destruct (entry_frame _) as [f|]; [|done].
  cbn. unfold shift. cbn. do 2 f_equal. lia.
Qed.

Lemma translate_offset r l4 a t :
  0 <= a -> translate r l4 a = Some t -> phys t mod 4096 = a mod 4096 /\ a mod 4096 <= phys t.
Proof.
  intros Ha. unfold translate. rewrite land_fff.
  destruct (negb _); [done|]. destruct (entry_frame _) as [l3|]; [|done].
  destruct (negb _); [done|]. destruct (entry_frame _) as [l2|]; [|done].
  destruct (negb _); [done|]. destruct (entry_frame _) as [l1|]; [|done].
  destruct (negb _); [done|]. destruct (entry_frame _) as [f|] eqn:E; [|done].
  intros [= <-]. cbn. apply entry_frame_aligned in E as [H0 Hf].
  rewrite <- Zplus_mod_idemp_l, Hf, Z.add_0_l, Z.mod_mod by lia. lia.
Qed.

Lemma read_entry_agree r r' f i :
  0 <= i < 512 -> (forall x, f <= x < f + 4096 -> r' x = r x) ->
  read_entry r' f i = read_entry r f i.
Proof.
  intros Hi H. unfold read_entry, read_bytes. f_equal. apply map_ext_in. intros n Hn.
  apply in_seq in Hn. apply H. lia.
Qed.

(** The walk depends on the tables it reads and on nothing else. *)
Lemma translate_agree r r' l4 a :
  (forall f x, f ∈ tables r l4 a -> f <= x < f + 4096 -> r' x = r x) ->
  translate r' l4 a = translate r l4 a /\ tables r' l4 a = tables r l4 a.
Proof.
  intros H. set (p := Page_containing_address a). pose proof (index_range p) as (I4 & I3 & I2 & I1).
  unfold translate, tables in *. fold p in H. fold p.
  assert (E4 : read_entry r' l4 (p4_index p) = read_entry r l4 (p4_index p)).
  { apply read_entry_agree; [done|]. intros x. apply H, list_elem_of_here. }
  rewrite E4. destruct (entry_allows_user (entry_flags (read_entry r l4 (p4_index p)))); [|done].
  destruct (entry_frame (read_entry r l4 (p4_index p))) as [l3|]; [|done]. cbn [negb].
  assert (E3 : read_entry r' l3 (p3_index p) = read_entry r l3 (p3_index p)).
  { apply read_entry_agree; [done|]. intros x. apply H, list_elem_of_further, list_elem_of_here. }
  rewrite E3. destruct (entry_allows_user (entry_flags (read_entry r l3 (p3_index p)))); [|done].
  destruct (entry_frame (read_entry r l3 (p3_index p))) as [l2|]; [|done]. cbn [negb].
  assert (E2 : read_entry r' l2 (p2_index p) = read_entry r l2 (p2_index p)).
  { apply read_entry_agree; [done|]. intros x.
    apply H. do 2 apply list_elem_of_further. apply list_elem_of_here. }
  rewrite E2. destruct (entry_allows_user (entry_flags (read_entry r l2 (p2_index p)))); [|done].
  destruct (entry_frame (read_entry r l2 (p2_index p))) as [l1|]; [|done]. cbn [negb].
  assert (E1 : read_entry r' l1 (p1_index p) = read_entry r l1 (p1_index p)).
  { apply read_entry_agree; [done|]. intros x.
    apply H. do 3 apply list_elem_of_further. apply list_elem_of_here. }
  by rewrite E1.
Qed.

(** No page that user mode can reach is one of the tables. *)
Definition separated (r : Ram) (l4 : Z) : Prop :=
  forall a b t f, 0 <= a -> translate r l4 a = Some t -> f ∈ tables r l4 b ->
    ~ (f <= phys t < f + 4096).

(** Two memories that differ only in user-reachable bytes. *)
Definition user_update (r : Ram) (l4 : Z) (r' : Ram) : Prop :=
  forall x, r' x = r x \/ exists a t, 0 <= a /\ translate r l4 a = Some t /\ phys t = x.

Lemma user_update_tables r l4 r' a f x :
  separated r l4 -> user_update r l4 r' -> f ∈ tables r l4 a -> f <= x < f + 4096 -> r' x = r x.
Proof.
  intros Hs Hu Hf Hx. destruct (Hu x) as [E|(b & t & Hb & Ht & <-)]; [done|].
  by destruct (Hs b a t f Hb Ht Hf).
Qed.

Lemma user_update_translate r l4 r' a :
  separated r l4 -> user_update r l4 r' -> translate r' l4 a = translate r l4 a.
Proof. intros Hs Hu. apply translate_agree. eauto using user_update_tables. Qed.

Lemma user_update_separated r l4 r' :
  separated r l4 -> user_update r l4 r' -> separated r' l4.
Proof.
  intros Hs Hu a b t f Ha. rewrite (user_update_translate _ _ _ a Hs Hu).
  destruct (translate_agree r r' l4 b) as [_ ->]; [eauto using user_update_tables|]. by apply Hs.
Qed.
End translation.
