(* ===== verification/PageTables.v ===== *)
(** * Page tables as forests

    The invariant behind address-space isolation. The tables reachable from
    the level-4 frames [R] form a forest: every table and every user page is a
    frame of its own, at one path of one root. [map_to] adds a leaf and the
    tables above it, [unmap] removes a leaf, and neither changes any other
    translation. *)

From S2P Require Import Prelude X86 Memory AddressSpace.

(** ** Entries in memory *)

Section entries.
Lemma read_bytes_ext r r' addr n :
  (forall x, addr <= x < addr + Z.of_nat n -> r x = r' x) -> read_bytes r addr n = read_bytes r' addr n.
Proof.
  intros H. unfold read_bytes. apply map_ext_in. intros i Hi. apply in_seq in Hi. apply H. lia.
Qed.

#[export] Instance ram_eq_equivalence : Equivalence ram_eq.
Proof.
  split; [done|intros r r' H x; by rewrite H|intros r1 r2 r3 H1 H2 x; by rewrite H1].
Qed.

Lemma read_entry_ext r r' f i : ram_eq r r' -> read_entry r f i = read_entry r' f i.
Proof. intros H. unfold read_entry. f_equal. by apply read_bytes_ext. Qed.

Lemma vget_le n z i : 0 <= i < Z.of_nat n -> is_Some (vget (to_le_bytes n z) i).
Proof. intros H. apply vget_is_Some. unfold vlen. by rewrite length_to_le_bytes. Qed.

Lemma read_write_bytes r addr l : read_bytes (write_bytes r addr l) addr (length l) = l.
Proof.
  apply list_eq. intros i. unfold read_bytes. rewrite list_lookup_fmap.
  destruct (decide (i < length l)%nat) as [Hi|Hi].
  - rewrite lookup_seq_lt by done. cbn. rewrite write_bytes_at.
    replace (addr + Z.of_nat i - addr) with (Z.of_nat i) by lia. rewrite vget_nat.
    by destruct (lookup_lt_is_Some_2 l i Hi) as [x ->].
  - rewrite lookup_seq_ge by lia. symmetry. apply lookup_ge_None. lia.
Qed.

(** The entries of two tables are apart unless they are the same entry. *)
Lemma entry_apart t i h j :
  t mod 4096 = 0 -> h mod 4096 = 0 -> 0 <= i < 512 -> 0 <= j < 512 -> ~ (h = t /\ j = i) ->
  h + 8 * j + 8 <= t + 8 * i \/ t + 8 * i + 8 <= h + 8 * j.
Proof.
  intros Ht Hh Hi Hj Hne. pose proof (Z.div_mod t 4096). pose proof (Z.div_mod h 4096).
  destruct (Z.lt_trichotomy (t / 4096) (h / 4096)) as [|[|]]; lia.
Qed.

Lemma read_write_entry r t i e h j :
  is_u64 e -> t mod 4096 = 0 -> h mod 4096 = 0 -> 0 <= i < 512 -> 0 <= j < 512 ->
  read_entry (write_entry r t i e) h j = if decide (h = t /\ j = i) then e else read_entry r h j.
Proof.
  intros He Ht Hh Hi Hj. unfold read_entry. case_decide as D.
  - destruct D as [-> ->].
    rewrite (read_bytes_ext _ (write_bytes r (t + 8 * i) (to_le_bytes 8 e)))
      by (intros; by rewrite write_entry_at, write_bytes_at).
    pose proof (read_write_bytes r (t + 8 * i) (to_le_bytes 8 e)) as E.
    rewrite length_to_le_bytes in E. rewrite E, from_to_le_bytes. by apply Z.mod_small.
  - f_equal. apply read_bytes_ext. intros x Hx. rewrite write_entry_at.
    rewrite (proj2 (vget_None _ _)); [done|]. unfold vlen. rewrite length_to_le_bytes.
    destruct (entry_apart t i h j Ht Hh Hi Hj D); lia.
Qed.

Lemma from_le_zero n : from_le_bytes (replicate n 0) = 0.
Proof. induction n as [|n IH]; cbn [replicate from_le_bytes]; [done|]. by rewrite IH. Qed.

Lemma read_fill_entry r g h j :
  g mod 4096 = 0 -> h mod 4096 = 0 -> 0 <= j < 512 ->
  read_entry (fill_bytes r g 4096 0) h j = if decide (h = g) then 0 else read_entry r h j.
Proof.
  intros Hg Hh Hj. unfold read_entry. case_decide as D.
  - subst h. rewrite (read_bytes_ext _ (fun _ => 0)); [exact (from_le_zero 8)|]. intros x Hx.
    unfold fill_bytes. rewrite (proj2 (Z.leb_le _ _)), (proj2 (Z.ltb_lt _ _)) by lia. done.
  - f_equal. apply read_bytes_ext. intros x Hx. unfold fill_bytes.
    pose proof (Z.div_mod g 4096). pose proof (Z.div_mod h 4096).
    destruct (Z.leb_spec g x), (Z.ltb_spec x (g + 4096)); try done.
    destruct D. assert (g / 4096 = h / 4096) by lia. lia.
Qed.

(** Bytes of a frame other than the table. *)
Lemma write_entry_other r t i e x :
  0 <= i < 512 -> ~ (t <= x < t + 4096) -> write_entry r t i e x = r x.
Proof.
  intros Hi Hx. rewrite write_entry_at, (proj2 (vget_None _ _)); [done|].
  unfold vlen. rewrite length_to_le_bytes. lia.
Qed.

Lemma fill_other r g v x : ~ (g <= x < g + 4096) -> fill_bytes r g 4096 v x = r x.
Proof.
  intros Hx. unfold fill_bytes. destruct (Z.leb_spec g x), (Z.ltb_spec x (g + 4096)); try done. lia.
Qed.
End entries.

(** ** Walks *)

Section forest.
Context {X : X86_64}.

(** The frame behind entry [i] of [table], when user mode may pass. *)
Definition child (r : Ram) (table i : Z) : option Z :=
  let e := read_entry r table i in
  if entry_allows_user (entry_flags e) then entry_frame e else None.

Fixpoint walk (r : Ram) (table : Z) (p : list Z) : option Z :=
  match p with
  | [] => Some table
  | i :: p' => match child r table i with Some t => walk r t p' | None => None end
  end.

(** Table indices, at most one per level. *)
Definition path (p : list Z) : Prop := Forall (fun i => 0 <= i < 512) p /\ (length p <= 4)%nat.

(** The page at entry [i] of the level-1 table at path [p]: frame and flags. *)
Definition leaf (r : Ram) (l4 : Z) (p : list Z) (i : Z) : option (Z * Z) :=
  match walk r l4 p with
  | Some t => match child r t i with
              | Some f => Some (f, entry_flags (read_entry r t i))
              | None => None
              end
  | None => None
  end.

(** The forest below the roots [R], made of frames that are [owned]. Slot 1
    of a root is the user half; the rest are the kernel's entries, closed to
    user mode. *)
Record forest (r : Ram) (R owned : Z -> Prop) : Prop := mkForest {
  fo_node l p f : R l -> path p -> walk r l p = Some f -> phys_frame f /\ owned f;
  fo_inj l l' p p' f : R l -> R l' -> path p -> path p' ->
    walk r l p = Some f -> walk r l' p' = Some f -> l = l' /\ p = p';
  fo_entry l p t i : R l -> path (p ++ [i]) -> walk r l p = Some t -> (p = [] -> i = 1) ->
    child r t i = None -> read_entry r t i = 0;
  fo_kernel l i : R l -> 0 <= i < 512 -> i <> 1 -> child r l i = None
}.

Definition not_node (r : Ram) (R : Z -> Prop) (g : Z) : Prop :=
  forall l p, R l -> path p -> walk r l p <> Some g.

Lemma child_ext r r' t i : ram_eq r r' -> child r t i = child r' t i.
Proof. intros H. unfold child. by rewrite (read_entry_ext r r' t i H). Qed.

Lemma walk_ext r r' t p : ram_eq r r' -> walk r t p = walk r' t p.
Proof.
  intros H. revert t. induction p as [|i p IH]; intros t; cbn; [done|].
  rewrite (child_ext r r' t i H). by destruct (child r' t i).
Qed.

Lemma leaf_ext r r' l p i : ram_eq r r' -> leaf r l p i = leaf r' l p i.
Proof.
  intros H. unfold leaf. rewrite (walk_ext r r' l p H). destruct (walk r' l p) as [t|]; [|done].
  by rewrite (child_ext r r' t i H), (read_entry_ext r r' t i H).
Qed.

Lemma walk_app r t p q :
  walk r t (p ++ q) = match walk r t p with Some t' => walk r t' q | None => None end.
Proof. revert t. induction p as [|i p IH]; intros t; cbn; [done|]. by destruct (child r t i). Qed.

Lemma walk_snoc r t p i t' : walk r t p = Some t' -> walk r t (p ++ [i]) = child r t' i.
Proof. intros H. rewrite walk_app, H. cbn. by destruct (child r t' i). Qed.

Lemma path_prefix p q : path (p ++ q) -> path p.
Proof.
  intros [H L]. apply Forall_app in H as [H _]. rewrite length_app in L. split; [done|lia].
Qed.

Lemma path_last p i : path (p ++ [i]) -> 0 <= i < 512 /\ (length p < 4)%nat.
Proof.
  intros [H L]. apply Forall_app in H as [_ H]. rewrite Forall_singleton in H.
  rewrite length_app in L. cbn in L. split; [exact H|lia].
Qed.

Lemma path_nil : path [].
Proof. split; [constructor|cbn; lia]. Qed.

(** *** Changing one entry

    [r'] differs from [r], on the tables of the forest, in entry [i] of the
    table at path [p] of [l0] only; that entry now leads to [new]. *)
Record entry_changed (r r' : Ram) (R : Z -> Prop) (l0 : Z) (p : list Z) (i : Z) (new : option Z) :
    Prop := mkEntryChanged {
  ec_root : R l0;
  ec_path : path (p ++ [i]);
  ec_user : p = [] -> i = 1;
  ec_table : exists t, walk r l0 p = Some t /\ child r' t i = new /\
    (new = None -> read_entry r' t i = 0);
  ec_old : length p = 3%nat \/ walk r l0 (p ++ [i]) = None;
  ec_other l q h j : R l -> path (q ++ [j]) -> walk r l q = Some h ->
    ~ (l = l0 /\ q = p /\ j = i) -> read_entry r' h j = read_entry r h j;
  ec_empty g j : new = Some g -> (length p < 3)%nat -> 0 <= j < 512 -> read_entry r' g j = 0
}.

Lemma child_zero {XP : X86_64_Paging X} r t i : read_entry r t i = 0 -> child r t i = None.
Proof. intros H. unfold child. by rewrite H, entry_flags_zero. Qed.

Context {XP : X86_64_Paging X}.

Lemma walk_changed r r' R l0 p i new l q2 q1 h :
  entry_changed r r' R l0 p i new -> R l ->
  path (q1 ++ q2) -> walk r l q1 = Some h -> ~ (l = l0 /\ q1 = p ++ [i]) ->
  walk r' h q2 = if decide (l = l0 /\ q1 ++ q2 = p ++ [i]) then new else walk r h q2.
Proof.
  intros [HR Hp Hu (t & Ht & Hnew & _) Hold Hother Hempty] Hl.
  revert q1 h. induction q2 as [|j q2 IH]; intros q1 h Hq Hw Hne.
  { rewrite app_nil_r. by rewrite decide_False. }
  assert (path (q1 ++ [j])) as Hqj by (apply (path_prefix _ q2); by rewrite <- app_assoc).
  destruct (decide (l = l0 /\ q1 = p /\ j = i)) as [(-> & -> & ->)|Hd]; cbn [walk].
  - assert (h = t) as -> by congruence. rewrite Hnew.
    assert (q2 = [] \/ (q2 <> [] /\ child r t i = None /\ (length p < 3)%nat)) as [->|(Hq2 & Hc & Hlen)].
    { destruct q2 as [|j' q2]; [by left|right]. split; [done|].
      destruct Hq as [_ Hlen]. rewrite length_app in Hlen. cbn in Hlen.
      split; [|lia]. destruct Hold as [|Hold]; [lia|]. by rewrite (walk_snoc _ _ _ _ _ Ht) in Hold. }
    + rewrite decide_True by done. by destruct new.
    + rewrite decide_False, Hc by (intros [_ H%app_inj_1]; [by destruct H as [_ [= ->]]|done]).
      destruct new as [g|]; [|done]. destruct q2 as [|j' q2]; [done|]. cbn.
      rewrite child_zero; [done|]. apply Hempty; [done|done|].
      destruct Hq as [Hq _]. apply Forall_app in Hq as [_ Hq].
      apply Forall_cons in Hq as [_ Hq]. by apply Forall_cons in Hq as [Hq _].
  - assert (child r' h j = child r h j) as Hc by (unfold child; by rewrite (Hother l q1 h j)).
    rewrite Hc. destruct (child r h j) as [h'|] eqn:E.
    + assert (walk r l (q1 ++ [j]) = Some h') as Hw' by (by rewrite (walk_snoc _ _ _ _ _ Hw)).
      rewrite (IH (q1 ++ [j])).
      * by rewrite <- app_assoc.
      * by rewrite <- app_assoc.
      * done.
      * intros [-> [-> [= ->]]%app_inj_2]; [|done]. by destruct Hd.
    + destruct (decide (l = l0 /\ q1 ++ j :: q2 = p ++ [i])) as [[El D]|D]; [|done]. exfalso. subst l.
      assert (walk r l0 (q1 ++ [j]) = None) as Hnone by (by rewrite (walk_snoc _ _ _ _ _ Hw)).
      destruct q2 as [|k q2 _] using rev_ind.
      * apply app_inj_2 in D as [-> [= ->]]; [|done]. by destruct Hd.
      * rewrite app_comm_cons, app_assoc in D. apply app_inj_2 in D as [D _]; [|done].
        change (q1 ++ j :: q2) with (q1 ++ [j] ++ q2) in D. rewrite app_assoc in D.
        rewrite <- D, walk_app, Hnone in Ht. done.
Qed.

(** Every other path leads where it led. *)
Lemma walk_changed_root r r' R l0 p i new l q :
  entry_changed r r' R l0 p i new -> R l -> path q ->
  walk r' l q = if decide (l = l0 /\ q = p ++ [i]) then new else walk r l q.
Proof.
  intros EC Hl Hq. apply (walk_changed r r' R l0 p i new l q [] l EC Hl Hq); [done|].
  intros [_ H]. by destruct p.
Qed.

Lemma walk_len_ne (l l0 : Z) (q p : list Z) (i : Z) :
  length q <> S (length p) -> ~ (l = l0 /\ q = p ++ [i]).
Proof. intros H [_ ->]. rewrite length_app in H. cbn in H. lia. Qed.

(** A new leaf or table keeps the forest, if its frame is not yet part of it. *)
Lemma forest_changed r r' R (owned owned' : Z -> Prop) l0 p i new :
  forest r R owned -> entry_changed r r' R l0 p i new ->
  (forall f, owned f -> owned' f) ->
  (forall g, new = Some g -> phys_frame g /\ owned' g /\ not_node r R g) ->
  forest r' R owned'.
Proof.
  intros [Fn Fi Fe Fk] EC Ho Hg. pose proof (walk_changed_root r r' R l0 p i new) as W.
  constructor.
  - intros l q f Hl Hq. rewrite (W l q EC Hl Hq). case_decide as D.
    + intros E. destruct (Hg f E) as (? & ? & _). done.
    + intros E. destruct (Fn l q f Hl Hq E). auto.
  - intros l l' q q' f Hl Hl' Hq Hq'. rewrite (W l q EC Hl Hq), (W l' q' EC Hl' Hq').
    case_decide as D; case_decide as D'; intros E E'.
    + destruct D as [-> ->], D' as [-> ->]. done.
    + destruct (Hg f E) as (_ & _ & Hn). by destruct (Hn l' q' Hl' Hq').
    + destruct (Hg f E') as (_ & _ & Hn). by destruct (Hn l q Hl Hq).
    + by apply (Fi l l' q q' f).
  - intros l q h j Hl Hq. pose proof (path_prefix _ _ Hq) as Hq'. rewrite (W l q EC Hl Hq').
    pose proof EC as [HR Hp Hu (t & Ht & Hnew & Hzero) Hold Hother Hempty].
    case_decide as D.
    + intros E _ _. apply Hempty; [done| |by apply path_last in Hq as [? _]].
      destruct D as [_ ->]. apply path_last in Hq as [_ Hq]. rewrite length_app in Hq. cbn in Hq. lia.
    + intros E Hu'. destruct (decide (l = l0 /\ q = p /\ j = i)) as [(-> & -> & ->)|Hd].
      * assert (h = t) as -> by congruence. rewrite Hnew. done.
      * unfold child. rewrite (Hother l q h j) by done. intros Hc. by apply (Fe l q h j).
  - intros l j Hl Hj Hj1. pose proof EC as [HR Hp Hu (t & Ht & _ & _) Hold Hother Hempty].
    unfold child. rewrite (Hother l [] l j); [by apply Fk|done| |done|].
    + split; [by apply Forall_singleton|cbn; lia].
    + intros (_ & <- & ->). by apply Hj1, Hu.
Qed.

Lemma leaf_changed_table r r' R l0 p i new l q j :
  entry_changed r r' R l0 p i new -> (length p < 3)%nat -> R l -> path (q ++ [j]) -> length q = 3%nat ->
  leaf r' l q j = leaf r l q j.
Proof.
  intros EC Hlen Hl Hq Hq3. pose proof (path_prefix _ _ Hq) as Hq'. unfold leaf.
  rewrite (walk_changed_root r r' R l0 p i new l q EC Hl Hq').
  pose proof EC as [HR Hp Hu (t & Ht & Hnew & Hzero) Hold Hother Hempty]. case_decide as D.
  - destruct D as [-> ->]. destruct Hold as [|Hold]; [lia|]. rewrite Hold. destruct new as [g|]; [|done].
    rewrite child_zero; [done|]. apply Hempty; [done|done|]. by apply path_last in Hq as [? _].
  - destruct (walk r l q) as [h|] eqn:E; [|done]. unfold child.
    rewrite (Hother l q h j); [done|done|done|done|]. intros (_ & -> & _). lia.
Qed.

Lemma leaf_changed_page r r' R l0 p i new l q j t :
  entry_changed r r' R l0 p i new -> length p = 3%nat -> R l -> path (q ++ [j]) -> length q = 3%nat ->
  walk r l0 p = Some t ->
  leaf r' l q j = if decide (l = l0 /\ q = p /\ j = i)
                  then (fun g => (g, entry_flags (read_entry r' t i))) <$> new else leaf r l q j.
Proof.
  intros EC Hlen Hl Hq Hq3 Ht. pose proof (path_prefix _ _ Hq) as Hq'. unfold leaf.
  rewrite (walk_changed_root r r' R l0 p i new l q EC Hl Hq').
  rewrite decide_False by (apply walk_len_ne; lia).
  pose proof EC as [HR Hp Hu (t' & Ht' & Hnew & Hzero) Hold Hother Hempty].
  assert (t' = t) as -> by congruence. case_decide as D.
  - destruct D as (-> & -> & ->). rewrite Ht, Hnew. by destruct new.
  - destruct (walk r l q) as [h|] eqn:E; [|done]. unfold child. by rewrite (Hother l q h j).
Qed.

(** *** The writes that change an entry *)

(** Where user mode gets through the entry [e]. *)
Definition target (e : Z) : option Z :=
  if entry_allows_user (entry_flags e) then entry_frame e else None.

Section writes.
Context (r r' : Ram) (R owned : Z -> Prop) (l0 : Z) (p : list Z) (i t e : Z).
Context (Hforest : forest r R owned) (HR : R l0) (Hpath : path (p ++ [i])) (Huser : p = [] -> i = 1).
Context (Htable : walk r l0 p = Some t) (He : is_u64 e).

Lemma node_aligned l q f : R l -> path q -> walk r l q = Some f -> f mod 4096 = 0.
Proof. intros Hl Hq Hw. by destruct (fo_node _ _ _ Hforest l q f Hl Hq Hw) as [[? _] _]. Qed.

Lemma other_entry l q h j :
  R l -> path (q ++ [j]) -> walk r l q = Some h -> ~ (l = l0 /\ q = p /\ j = i) -> ~ (h = t /\ j = i).
Proof.
  intros Hl Hq Hw Hne [-> ->]. apply Hne.
  destruct (fo_inj _ _ _ Hforest l l0 q p t Hl HR) as [-> ->]; try done; by eapply path_prefix.
Qed.

Lemma page_written :
  length p = 3%nat -> (target e = None -> e = 0) -> ram_eq r' (write_entry r t i e) ->
  entry_changed r r' R l0 p i (target e) /\ read_entry r' t i = e.
Proof.
  intros Hlen Hz Hr. pose proof (path_last _ _ Hpath) as [Hi _]. pose proof (path_prefix _ _ Hpath) as Hpp.
  pose proof (node_aligned l0 p t HR Hpp Htable) as Hta.
  assert (read_entry r' t i = e) as Hre.
  { rewrite (read_entry_ext _ _ t i Hr), read_write_entry by done. by rewrite decide_True. }
  split; [|done]. constructor; try done.
  - exists t. split; [done|]. unfold child. rewrite Hre. split; [done|]. by intros ->%Hz.
  - by left.
  - intros l q h j Hl Hq Hw Hne. pose proof (path_last _ _ Hq) as [Hj _].
    pose proof (node_aligned l q h Hl (path_prefix _ _ Hq) Hw) as Hha.
    rewrite (read_entry_ext _ _ h j Hr), read_write_entry by done.
    rewrite decide_False; [done|]. by apply (other_entry l q).
  - intros g j _ Hl. lia.
Qed.

Lemma table_written g :
  (length p < 3)%nat -> walk r l0 (p ++ [i]) = None -> target e = Some g -> phys_frame g -> not_node r R g ->
  ram_eq r' (fill_bytes (write_entry r t i e) g 4096 0) ->
  entry_changed r r' R l0 p i (Some g).
Proof.
  intros Hlen Hold Hg [Hga _] Hn Hr.
  pose proof (path_last _ _ Hpath) as [Hi _]. pose proof (path_prefix _ _ Hpath) as Hpp.
  pose proof (node_aligned l0 p t HR Hpp Htable) as Hta.
  assert (forall l q h, R l -> path q -> walk r l q = Some h -> h <> g) as Hhg.
  { intros l q h Hl Hq Hw ->. by apply (Hn l q). }
  constructor; try done.
  - exists t. split; [done|]. unfold child.
    rewrite (read_entry_ext _ _ t i Hr), read_fill_entry, decide_False by (done || by apply (Hhg l0 p)).
    rewrite read_write_entry, decide_True by done. done.
  - by right.
  - intros l q h j Hl Hq Hw Hne. pose proof (path_last _ _ Hq) as [Hj _].
    pose proof (node_aligned l q h Hl (path_prefix _ _ Hq) Hw) as Hha.
    rewrite (read_entry_ext _ _ h j Hr), read_fill_entry by done.
    rewrite decide_False by (apply (Hhg l q); [done|by eapply path_prefix|done]).
    rewrite read_write_entry, decide_False by (done || by apply (other_entry l q)). done.
  - intros g' j [= <-] _ Hj. rewrite (read_entry_ext _ _ g j Hr), read_fill_entry by done.
    by rewrite decide_True.
Qed.
End writes.

(** *** Changes that keep every path *)

Lemma forest_same r r' R owned :
  forest r R owned ->
  (forall l q h j, R l -> path (q ++ [j]) -> walk r l q = Some h ->
     child r' h j = child r h j /\ (read_entry r h j = 0 -> read_entry r' h j = 0)) ->
  (forall l q, R l -> path q -> walk r' l q = walk r l q) /\ forest r' R owned.
Proof.
  intros [Fn Fi Fe Fk] H.
  assert (forall l q, R l -> path q -> walk r' l q = walk r l q) as W.
  { intros l q Hl. induction q as [|j q IH] using rev_ind; intros Hq; [done|].
    pose proof (path_prefix _ _ Hq) as Hq'. specialize (IH Hq'). rewrite !walk_app, IH.
    destruct (walk r l q) as [h|] eqn:E; [|done]. cbn. by rewrite (proj1 (H l q h j Hl Hq E)). }
  split; [done|]. constructor.
  - intros l q f Hl Hq. rewrite W by done. by apply Fn.
  - intros l l' q q' f Hl Hl' Hq Hq'. rewrite !W by done. by apply Fi.
  - intros l q h j Hl Hq. rewrite W by (done || by eapply path_prefix). intros Hw Hu.
    destruct (H l q h j Hl Hq Hw) as [-> Hz]. intros Hc. by apply Hz, (Fe l q h j).
  - intros l j Hl Hj Hj1. assert (path ([] ++ [j])) as Hp.
    { split; [by apply Forall_singleton|cbn; lia]. }
    rewrite (proj1 (H l [] l j Hl Hp eq_refl)). by apply Fk.
Qed.

(** [x] is outside the tables of [l]. *)
Definition outside_tables (r : Ram) (l x : Z) : Prop :=
  forall q h, path q -> (length q <= 3)%nat -> walk r l q = Some h -> ~ (h <= x < h + 4096).

(** Memory outside the tables can change freely. *)
Lemma forest_data r r' R owned :
  forest r R owned ->
  (forall l q h x, R l -> path q -> (length q <= 3)%nat -> walk r l q = Some h ->
     h <= x < h + 4096 -> r' x = r x) ->
  forest r' R owned /\
  (forall l q, R l -> path q -> walk r' l q = walk r l q) /\
  (forall l q j, R l -> path (q ++ [j]) -> leaf r' l q j = leaf r l q j).
Proof.
  intros F H.
  assert (forall l q h j, R l -> path (q ++ [j]) -> walk r l q = Some h ->
    read_entry r' h j = read_entry r h j) as E.
  { intros l q h j Hl Hq Hw. pose proof (path_last _ _ Hq) as [Hj Hlen].
    apply read_entry_agree; [done|]. intros x Hx.
    apply (H l q h); [done|by eapply path_prefix|lia|done|done]. }
  destruct (forest_same r r' R owned F) as [W F'].
  { intros l q h j Hl Hq Hw. unfold child. by rewrite (E l q h j). }
  split; [done|]. split; [done|]. intros l q j Hl Hq. unfold leaf.
  rewrite W by (done || by eapply path_prefix). destruct (walk r l q) as [h|] eqn:Hw; [|done].
  unfold child. by rewrite (E l q h j).
Qed.

Lemma forest_ext r r' R owned : ram_eq r' r -> forest r R owned -> forest r' R owned.
Proof. intros H F. apply (forest_data r r' R owned F). intros. apply H. Qed.

Lemma forest_weaken r (R R' owned owned' : Z -> Prop) :
  (forall l, R' l -> R l) -> (forall f, owned f -> owned' f) -> forest r R owned -> forest r R' owned'.
Proof.
  intros HR Ho [Fn Fi Fe Fk]. constructor; eauto. intros l p f Hl Hp Hw.
  destruct (Fn l p f (HR l Hl) Hp Hw). auto.
Qed.

(** *** Growing the tables of one root

    [r'] adds tables to the root [l4], made of fresh frames: no page appears
    or disappears, and only tables of [l4] are written. *)
Record grown (R : Z -> Prop) (l4 : Z) (r : Ram) (o : Z -> Prop) (r' : Ram) (o' : Z -> Prop) : Prop :=
  mkGrown {
    gr_forest : forest r' R o';
    gr_owned f : o f -> o' f;
    gr_walk l q f : R l -> path q -> walk r l q = Some f -> walk r' l q = Some f;
    gr_new l q f : R l -> path q -> walk r' l q = Some f -> walk r l q = Some f \/ ~ o f;
    gr_leaf l q j : R l -> path (q ++ [j]) -> length q = 3%nat -> leaf r' l q j = leaf r l q j;
    gr_bytes x : outside_tables r' l4 x -> r' x = r x
  }.

Lemma grown_refl R l4 r r' o : forest r R o -> ram_eq r' r -> grown R l4 r o r' o.
Proof.
  intros F H. constructor; [by apply (forest_ext r)|done| | | |auto].
  - intros l q f _ _. by rewrite (walk_ext _ _ l q H).
  - intros l q f _ _ E. left. by rewrite (walk_ext _ _ l q H) in E.
  - intros l q j _ _ _. by apply leaf_ext.
Qed.

Lemma grown_trans R l4 r1 o1 r2 o2 r3 o3 :
  R l4 -> grown R l4 r1 o1 r2 o2 -> grown R l4 r2 o2 r3 o3 -> grown R l4 r1 o1 r3 o3.
Proof.
  intros HR [F1 O1 W1 N1 L1 B1] [F2 O2 W2 N2 L2 B2]. constructor; auto.
  - intros l q f Hl Hq Hw. destruct (N2 l q f Hl Hq Hw); [by apply N1|auto].
  - intros l q j Hl Hq H3. rewrite L2 by done. by apply L1.
  - intros x Hx. rewrite B2 by done. apply B1. intros q h Hq H3 Hw. apply (Hx q h Hq H3). auto.
Qed.

Lemma grown_not_node R l4 r o r' o' g :
  grown R l4 r o r' o' -> o g -> not_node r R g -> not_node r' R g.
Proof.
  intros G Ho Hn l q Hl Hq Hw. destruct (gr_new _ _ _ _ _ _ G l q g Hl Hq Hw); [by apply (Hn l q)|done].
Qed.

(** ** Mapping and unmapping *)

(** An allocator, in the states [P], never returns a frame twice: [own a]
    are the frames it has returned. *)
Record frame_source {A} (alloc : A -> option Z * A) (P : A -> Prop) (own : A -> Z -> Prop) : Prop :=
  mkFrameSource {
    fs_some a f a' : P a -> alloc a = (Some f, a') ->
      P a' /\ phys_frame f /\ ~ own a f /\ (forall g, own a' g <-> own a g \/ g = f);
    fs_none a a' : P a -> alloc a = (None, a') -> P a' /\ (forall g, own a' g <-> own a g)
  }.

Lemma fs_allocates {A} (alloc : A -> option Z * A) P own :
  frame_source alloc P own -> allocates_frames alloc P.
Proof.
  intros [S N] a Ha. destruct (alloc a) as [[f|] a'] eqn:E.
  - by destruct (S a f a' Ha E) as (? & ? & _).
  - by destruct (N a a' Ha E).
Qed.

Lemma allows_lor fl pf : entry_allows_user fl = true -> entry_allows_user (Z.lor fl pf) = true.
Proof.
  unfold entry_allows_user, contains. rewrite !Z.eqb_eq. intros H.
  rewrite Z.land_lor_distr_l, H. apply Z.bits_inj'. intros n Hn.
  rewrite Z.lor_spec, Z.land_spec. by destruct (Z.testbit (Z.lor PRESENT USER_ACCESSIBLE) n), (Z.testbit pf n).
Qed.

Lemma child_target r t i : child r t i = target (read_entry r t i).
Proof. done. Qed.

Lemma target_maps e f fl : maps_frame e f fl -> entry_allows_user fl = true -> target e = Some f.
Proof. intros [_ Hf Hfl] Ha. unfold target. by rewrite Hfl, Ha. Qed.

Section mapping.
Context {A : Type} (alloc : A -> option Z * A) (P : A -> Prop) (own : A -> Z -> Prop).
Context (FS : frame_source alloc P own) (R : Z -> Prop) (l4 : Z) (HR : R l4).

Lemma table_grown r a r' next a' p i t e :
  P a -> forest r R (own a) -> path (p ++ [i]) -> (length p < 3)%nat -> (p = [] -> i = 1) ->
  walk r l4 p = Some t -> read_entry r t i = 0 -> alloc a = (Some next, a') ->
  is_u64 e -> target e = Some next -> ram_eq r' (fill_bytes (write_entry r t i e) next 4096 0) ->
  P a' /\ grown R l4 r (own a) r' (own a') /\ walk r' l4 (p ++ [i]) = Some next.
Proof.
  intros Ha F Hp Hlen Hu Ht Hz Hal He Htg Hr.
  destruct (fs_some _ _ _ FS a next a' Ha Hal) as (Ha' & Hphys & Hfresh & Hown).
  assert (not_node r R next) as Hn.
  { intros l q Hl Hq Hw. by destruct (fo_node _ _ _ F l q next Hl Hq Hw). }
  assert (walk r l4 (p ++ [i]) = None) as Hold by (rewrite (walk_snoc _ _ _ _ _ Ht); by apply child_zero).
  pose proof (table_written r r' R (own a) l4 p i t e F HR Hp Hu Ht He next Hlen Hold Htg Hphys Hn Hr) as EC.
  assert (forall l q, R l -> path q -> walk r' l q =
    if decide (l = l4 /\ q = p ++ [i]) then Some next else walk r l q) as W.
  { intros l q Hl Hq. by apply (walk_changed_root r r' R). }
  assert (walk r' l4 (p ++ [i]) = Some next) as Hnext by (rewrite W by done; by rewrite decide_True).
  split; [done|]. split; [|done]. pose proof (path_prefix _ _ Hp) as Hpp.
  constructor.
  - eapply (forest_changed r r' R (own a)); [done|exact EC| |].
    + intros f Hf. apply Hown. by left.
    + intros g [= <-]. split; [done|]. split; [apply Hown; by right|done].
  - intros f Hf. apply Hown. by left.
  - intros l q f Hl Hq Hw. rewrite W by done. case_decide as D; [|done].
    destruct D as [-> ->]. congruence.
  - intros l q f Hl Hq. rewrite W by done. case_decide as D; [intros [= <-]; by right|by left].
  - intros l q j Hl Hq H3. by apply (leaf_changed_table r r' R l4 p i (Some next)).
  - intros x Hx. rewrite Hr, fill_other.
    + apply write_entry_other; [by apply path_last in Hp as [? _]|]. apply (Hx p); [done|lia|].
      rewrite W by done. rewrite decide_False; [done|]. apply walk_len_ne. lia.
    + apply (Hx (p ++ [i])); [done| |done]. rewrite length_app. cbn. lia.
Qed.

Lemma next_table_grown pf r a t i next r' a' p :
  P a -> forest r R (own a) -> path (p ++ [i]) -> (length p < 3)%nat -> (p = [] -> i = 1) ->
  walk r l4 p = Some t -> entry_allows_user pf = true ->
  next_table alloc pf r a t i next r' a' ->
  P a' /\ grown R l4 r (own a) r' (own a') /\ walk r' l4 (p ++ [i]) = Some next.
Proof.
  intros Ha F Hp Hlen Hu Ht Hpf. unfold next_table. rewrite entry_unused_zero.
  destruct (Z.eqb_spec (read_entry r t i) 0) as [Hz|Hnz].
  - intros (Hal & e & [He Hef Hefl] & Hr). apply (table_grown r a r' next a' p i t e); try done.
    apply (target_maps e next pf); [by constructor|done].
  - intros (-> & Hnx & Hcase).
    destruct (child r t i) as [f|] eqn:Hc.
    2: { destruct Hnz. by apply (fo_entry _ _ _ F l4 p t i). }
    assert (entry_allows_user (entry_flags (read_entry r t i)) = true /\
            entry_frame (read_entry r t i) = Some f) as [Hau Hfr].
    { rewrite child_target in Hc. unfold target in Hc.
      destruct (entry_allows_user (entry_flags (read_entry r t i))); [by split|done]. }
    assert (next = f) as -> by (symmetry; by apply Hnx).
    assert (walk r l4 (p ++ [i]) = Some f) as Hw by (by rewrite (walk_snoc _ _ _ _ _ Ht)).
    split; [done|]. pose proof (path_prefix _ _ Hp) as Hpp. pose proof (path_last _ _ Hp) as [Hi _].
    destruct Hcase as [[_ Hr]|(e & [He Hef Hefl] & Hr)].
    { split; [by apply grown_refl|]. by rewrite (walk_ext _ _ _ _ Hr). }
    pose proof (node_aligned r R (own a) F l4 p t HR Hpp Ht) as Hta.
    assert (forall l q h j, R l -> path (q ++ [j]) -> walk r l q = Some h ->
      read_entry r' h j = if decide (l = l4 /\ q = p /\ j = i) then e else read_entry r h j) as E.
    { intros l q h j Hl Hq Hwq. pose proof (path_last _ _ Hq) as [Hj _].
      pose proof (node_aligned r R (own a) F l q h Hl (path_prefix _ _ Hq) Hwq) as Hha.
      rewrite (read_entry_ext _ _ h j Hr), read_write_entry by done. case_decide as D; case_decide as D'; try done.
      - exfalso. by apply (other_entry r R (own a) l4 p i t F HR Hp Ht l q h j).
      - destruct D' as (-> & -> & ->). assert (h = t) by congruence. tauto. }
    assert (forall l q h j, R l -> path (q ++ [j]) -> walk r l q = Some h -> child r' h j = child r h j) as C.
    { intros l q h j Hl Hq Hwq. rewrite !child_target, (E l q h j) by done. case_decide as D; [|done].
      destruct D as (-> & -> & ->). assert (h = t) as -> by congruence.
      rewrite <- !child_target, Hc. apply (target_maps e f (Z.lor (entry_flags (read_entry r t i)) pf));
        [by constructor|by apply allows_lor]. }
    destruct (forest_same r r' R (own a) F) as [W F'].
    { intros l q h j Hl Hq Hwq. split; [by apply (C l q)|]. rewrite (E l q h j) by done.
      case_decide as D; [|done]. destruct D as (-> & -> & ->). assert (h = t) as -> by congruence. done. }
    split; [|by rewrite W].
    constructor; [done|done|intros l q g Hl Hq; by rewrite W|intros l q g Hl Hq; rewrite W by done; by left| |].
    + intros l q j Hl Hq H3. unfold leaf. rewrite W by (done || by eapply path_prefix).
      destruct (walk r l q) as [h|] eqn:Hwq; [|done]. rewrite (C l q h j), (E l q h j) by done.
      rewrite decide_False; [done|]. intros (_ & -> & _). lia.
    + intros x Hx. rewrite Hr. apply write_entry_other; [done|]. apply (Hx p); [done|lia|]. by rewrite W.
Qed.

Lemma descend_grown pf indices r a t r' a' t' p :
  P a -> forest r R (own a) -> path (p ++ indices) -> (length (p ++ indices) <= 3)%nat ->
  (p = [] -> forall i, head indices = Some i -> i = 1) ->
  walk r l4 p = Some t -> entry_allows_user pf = true ->
  descend alloc pf indices r a t r' a' t' ->
  P a' /\ grown R l4 r (own a) r' (own a') /\ walk r' l4 (p ++ indices) = Some t'.
Proof.
  intros Ha F Hp Hlen Hu Ht Hpf D. revert p Ha F Hp Hlen Hu Ht.
  induction D as [r a t|i indices r a t next r1 a1 r' a' t' N D IH]; intros p Ha F Hp Hlen Hu Ht.
  - rewrite app_nil_r. split; [done|]. split; [by apply grown_refl|done].
  - rewrite length_app in Hlen. cbn in Hlen.
    assert (path (p ++ [i])) as Hpi by (apply (path_prefix _ indices); by rewrite <- app_assoc).
    destruct (next_table_grown pf r a t i next r1 a1 p) as (Ha1 & G1 & W1); try done; [lia|by intros; apply Hu|].
    destruct (IH (p ++ [i]) Ha1 (gr_forest _ _ _ _ _ _ G1)) as (Ha' & G' & W').
    + by rewrite <- app_assoc.
    + rewrite !length_app. cbn. lia.
    + intros H. by destruct p.
    + done.
    + split; [done|]. split; [by eapply grown_trans|]. by rewrite <- app_assoc in W'.
Qed.

(** The page at [pp], [i] of [l4] is new and maps [frame]; everything else is
    as before. *)
Record mapped (r : Ram) (o : Z -> Prop) (r' : Ram) (o' : Z -> Prop) (pp : list Z) (i frame flags : Z) :
    Prop := mkMapped {
  mp_forest : forest r' R o';
  mp_owned f : o f -> o' f;
  mp_before : leaf r l4 pp i = None;
  mp_leaf l q j : R l -> path (q ++ [j]) -> length q = 3%nat ->
    leaf r' l q j = if decide (l = l4 /\ q = pp /\ j = i) then Some (frame, flags) else leaf r l q j;
  mp_new l q f : R l -> path q -> walk r' l q = Some f -> walk r l q = Some f \/ ~ o f \/ f = frame;
  mp_bytes x : outside_tables r' l4 x -> r' x = r x
}.

Lemma page_mapped r a r1 a' r' pp i t e frame flags :
  forest r R (own a) -> grown R l4 r (own a) r1 (own a') -> path (pp ++ [i]) -> length pp = 3%nat ->
  walk r1 l4 pp = Some t -> read_entry r1 t i = 0 -> maps_frame e frame flags ->
  entry_allows_user flags = true -> phys_frame frame -> own a frame -> not_node r R frame ->
  ram_eq r' (write_entry r1 t i e) ->
  mapped r (own a) r' (own a') pp i frame flags.
Proof.
  intros F G Hp H3 Ht Hz M Hau Hphys Hof Hn Hr. pose proof (gr_forest _ _ _ _ _ _ G) as F1.
  assert (target e = Some frame) as Htg by (by apply (target_maps e frame flags)).
  assert (pp = [] -> i = 1) as Hu by (by intros ->).
  destruct (page_written r1 r' R (own a') l4 pp i t e F1 HR Hp Hu Ht (mf_u64 _ _ _ M) H3) as [EC Hre];
    [by rewrite Htg|done|]. rewrite Htg in EC.
  assert (leaf r1 l4 pp i = None) as Hl1 by (unfold leaf; by rewrite Ht, child_zero).
  pose proof (gr_leaf _ _ _ _ _ _ G) as GL. pose proof (path_prefix _ _ Hp) as Hpp.
  assert (forall l q, R l -> path q -> walk r' l q =
    if decide (l = l4 /\ q = pp ++ [i]) then Some frame else walk r1 l q) as W.
  { intros l q Hl Hq. by apply (walk_changed_root r1 r' R). }
  constructor.
  - eapply (forest_changed r1 r' R (own a')); [done|exact EC|done|]. intros g [= <-].
    split; [done|]. split; [by apply (gr_owned _ _ _ _ _ _ G)|by apply (grown_not_node R l4 r (own a) r1 (own a'))].
  - apply (gr_owned _ _ _ _ _ _ G).
  - by rewrite <- (GL l4 pp i).
  - intros l q j Hl Hq Hq3. rewrite (leaf_changed_page r1 r' R l4 pp i (Some frame) l q j t) by done.
    rewrite Hre, (mf_flags _ _ _ M). case_decide; [done|by apply GL].
  - intros l q f Hl Hq. rewrite W by done. case_decide; [intros [= <-]; auto|]. intros Hw.
    destruct (gr_new _ _ _ _ _ _ G l q f Hl Hq Hw); auto.
  - intros x Hx. rewrite Hr.
    assert (forall q, path q -> (length q <= 3)%nat -> walk r' l4 q = walk r1 l4 q) as Hsame.
    { intros q Hq Hlen. rewrite W by done. rewrite decide_False; [done|]. apply walk_len_ne. lia. }
    rewrite write_entry_other; [|by apply path_last in Hp as [? _]|].
    + apply (gr_bytes _ _ _ _ _ _ G). intros q h Hq Hlen Hw. apply (Hx q h Hq Hlen). by rewrite Hsame.
    + apply (Hx pp); [done|lia|]. by rewrite Hsame by (done || lia).
Qed.

Lemma allows_parent fl :
  entry_allows_user fl = true -> entry_allows_user (Z.land fl (PRESENT + WRITABLE + USER_ACCESSIBLE)) = true.
Proof.
  unfold entry_allows_user, contains. rewrite !Z.eqb_eq. intros H.
  rewrite <- Z.land_assoc. exact H.
Qed.

Definition page_path (page : Z) : list Z := [p4_index page; p3_index page; p2_index page].

Context {XS : X86_64_Spec X}.

Lemma page_path_ok page : path (page_path page ++ [p1_index page]) /\ length (page_path page) = 3%nat.
Proof.
  pose proof (index_range page) as (I4 & I3 & I2 & I1). split; [|done].
  split; [repeat (constructor; [done|]); constructor|cbn; lia].
Qed.

Lemma map_to_forest r a page frame flags :
  P a -> forest r R (own a) -> p4_index page = 1 -> phys_frame frame -> own a frame ->
  not_node r R frame -> 0 <= flags < 128 -> contains flags PRESENT = true ->
  entry_allows_user flags = true ->
  match map_to alloc r a l4 page frame flags with
  | (Ok _, r', a') => P a' /\ mapped r (own a) r' (own a') (page_path page) (p1_index page) frame flags
  | (Err _, r', a') => P a' /\ grown R l4 r (own a) r' (own a')
  end.
Proof.
  intros Ha F H1 Hphys Hof Hn Hfl HP Hau. pose proof (fs_allocates _ _ _ FS) as HA.
  destruct (page_path_ok page) as [Hpath H3]. pose proof (path_prefix _ _ Hpath) as Hpp.
  destruct (map_to alloc r a l4 page frame flags) as [[[[]|error] r'] a'] eqn:E.
  - destruct (map_to_Ok _ _ _ _ _ _ _ _ _ _ HA Ha Hphys Hfl HP E) as (r1 & l1 & e & D & Hz & M & Hr).
    rewrite entry_unused_zero, Z.eqb_eq in Hz.
    destruct (descend_grown (Z.land flags (PRESENT + WRITABLE + USER_ACCESSIBLE)) (page_path page)
                r a l4 r1 a' l1 []) as (Ha' & G & W); try done.
    + intros _ i [= <-]. done.
    + by apply allows_parent.
    + split; [done|]. by apply (page_mapped r a r1 a' r' _ _ l1 e).
  - destruct (map_to_Err _ _ _ _ _ _ _ _ _ _ _ HA Ha Hphys Hfl HP E)
      as (indices & rest & r1 & a1 & t & Hsplit & D & Hend).
    change (page_path page = indices ++ rest) in Hsplit.
    destruct (descend_grown (Z.land flags (PRESENT + WRITABLE + USER_ACCESSIBLE)) indices
                r a l4 r1 a1 t []) as (Ha1 & G & W); try done.
    + apply (path_prefix _ rest). change (path (indices ++ rest)). by rewrite <- Hsplit.
    + rewrite Hsplit, length_app in H3. cbn [app]. lia.
    + intros _ i Hi. destruct indices; [done|]. injection Hi as <-. by injection Hsplit as <- _.
    + by apply allows_parent.
    + pose proof (gr_forest _ _ _ _ _ _ G) as F1. destruct rest as [|i rest].
      * destruct Hend as [-> Hr]. split; [done|].
        eapply grown_trans; [done|exact G|by apply grown_refl].
      * assert (path (indices ++ [i])) as Hpi.
        { apply (path_prefix _ rest). rewrite <- app_assoc. change (path (indices ++ i :: rest)).
          by rewrite <- Hsplit. }
        destruct Hend as [[Hnone Hr]|(-> & Hused & Hfr & _)].
        -- destruct (fs_none _ _ _ FS _ _ Ha1 Hnone) as [Ha' Ho]. split; [done|].
           eapply grown_trans; [done|exact G|]. pose proof (grown_refl R l4 r1 r' _ F1 Hr) as [].
           constructor; try done; [|intros f Hf; by apply Ho].
           eapply forest_weaken; [| |done]; [done|]. intros f Hf. by apply Ho.
        -- exfalso. rewrite entry_unused_zero, Z.eqb_neq in Hused. apply Hused.
           apply (fo_entry _ _ _ F1 l4 indices t i HR Hpi W).
           ++ intros ->. by injection Hsplit as <- _.
           ++ rewrite child_target. unfold target. rewrite Hfr. by destruct (entry_allows_user (entry_flags (read_entry r1 t i))).
Qed.

(** The page at [pp], [i] of [l4] is gone; everything else is as before. *)
Record unmapped (r : Ram) (o : Z -> Prop) (r' : Ram) (pp : list Z) (i : Z) : Prop := mkUnmapped {
  um_forest : forest r' R o;
  um_leaf l q j : R l -> path (q ++ [j]) -> length q = 3%nat ->
    leaf r' l q j = if decide (l = l4 /\ q = pp /\ j = i) then None else leaf r l q j;
  um_walk l q : R l -> path q -> (length q <= 3)%nat -> walk r' l q = walk r l q;
  um_bytes x : outside_tables r l4 x -> r' x = r x
}.

Lemma unmap_forest r o page :
  forest r R o -> p4_index page = 1 ->
  match unmap r l4 page with
  | (Ok _, r') => unmapped r o r' (page_path page) (p1_index page)
  | (Err _, r') => ram_eq r' r
  end.
Proof.
  intros F H1. destruct (page_path_ok page) as [Hpath H3]. pose proof (path_prefix _ _ Hpath) as Hpp.
  destruct (unmap r l4 page) as [[[]|error] r'] eqn:E; [|by eapply unmap_Err].
  destruct (unmap_Ok _ _ _ _ E) as (l3 & l2 & l1 & E4 & E3 & E2 & _ & Hr).
  assert (forall p t i f, path (p ++ [i]) -> (p = [] -> i = 1) -> walk r l4 p = Some t ->
    entry_frame (read_entry r t i) = Some f -> walk r l4 (p ++ [i]) = Some f) as Hstep.
  { intros p t i f Hp Hu Ht Hf. rewrite (walk_snoc _ _ _ _ _ Ht). destruct (child r t i) as [g|] eqn:C.
    - rewrite child_target in C. unfold target in C. destruct (entry_allows_user _); congruence.
    - pose proof (fo_entry _ _ _ F l4 p t i HR Hp Ht Hu C) as Hz. by rewrite Hz, entry_frame_zero in Hf. }
  assert (walk r l4 (page_path page) = Some l1) as W.
  { apply (Hstep [p4_index page; p3_index page] l2); [done|done| |done].
    apply (Hstep [p4_index page] l3); [by apply (path_prefix _ [p2_index page])|done| |done].
    apply (Hstep [] l4); [by apply (path_prefix _ [p3_index page; p2_index page])|done|done|done]. }
  assert (is_u64 0) as H0 by done. assert (target 0 = None) as Ht0 by (unfold target; by rewrite entry_flags_zero).
  destruct (page_written r r' R o l4 (page_path page) (p1_index page) l1 0 F HR Hpath) as [EC Hre]; try done.
  rewrite Ht0 in EC.
  assert (forall l q, R l -> path q -> (length q <= 3)%nat -> walk r' l q = walk r l q) as Hsame.
  { intros l q Hl Hq Hlen. rewrite (walk_changed_root r r' R l4 (page_path page) (p1_index page) None) by done.
    rewrite decide_False; [done|]. apply walk_len_ne. lia. }
  constructor; [by eapply (forest_changed r r' R o); [|exact EC| |]| |done|].
  - intros l q j Hl Hq Hq3. rewrite (leaf_changed_page r r' R l4 _ _ None l q j l1) by done. by case_decide.
  - intros x Hx. rewrite Hr. apply write_entry_other; [by apply path_last in Hpath as [? _]|].
    apply (Hx (page_path page)); [done|lia|done].
Qed.
End mapping.
End forest.
