(* ===== verification/Spaces.v ===== *)
(** * What the address-space operations do

    The view of an address space is the byte and the write permission behind
    every user address. Each operation of src/src/address_space.rs changes the
    view of its own address space as specified, and changes no byte and no
    translation of any other one. The invariant [space_inv] says that the page
    tables of the live address spaces form a forest of allocated frames. *)

From S2P Require Import Prelude X86 Memory AddressSpace PageTables.

(** ** The frame allocator never returns a frame twice *)

Section allocator.
Context {X : X86_64} {XS : X86_64_Spec X}.

(** The boot map is well formed, lies within the physical address space, and
    does not offer the frame [k] of the kernel's level-4 table. *)
Record alloc_ok (k : Z) (a : BootInfoFrameAllocator) : Prop := mkAllocOk {
  al_map : map_ok (memory_map a);
  al_next : 0 <= next a;
  al_phys : Forall (fun region => end_addr region <= 2 ^ 52) (List.filter usable (memory_map a));
  al_kernel : phys_frame k /\ k ∉ usable_frames a
}.

Definition issued (a : BootInfoFrameAllocator) (f : Z) : Prop :=
  exists i, 0 <= i < next a /\ vget (usable_frames a) i = Some f.

Lemma usable_phys k a f : alloc_ok k a -> f ∈ usable_frames a -> phys_frame f.
Proof.
  intros [Hm _ Hp _] Hf. pose proof (usable_frames_usable a f Hm Hf) as [Ha _]. split; [done|].
  rewrite usable_frames_addresses in Hf by done. apply elem_of_addresses in Hf as (region & Hr & Hf).
  apply elem_of_step_by in Hf as (i & Hi & _ & Hf). rewrite Forall_forall in Hp.
  destruct Hm as [Hal _]. rewrite Forall_forall in Hal. destruct (Hal region Hr). pose proof (Hp region Hr). lia.
Qed.

Lemma boot_frame_source k : frame_source allocate_frame (alloc_ok k) issued.
Proof.
  assert (forall a a', allocate_frame a = (vget (usable_frames a) (next a), a') -> alloc_ok k a ->
    alloc_ok k a' /\ forall g, issued a' g <-> issued a g \/ vget (usable_frames a) (next a) = Some g) as H.
  { intros a a' [= <-] [Hm Hn Hp Hk]. split; [by constructor; cbn; [|lia| |]|]. intros g. unfold issued. cbn [next].
    change (usable_frames (mkAllocator (memory_map a) (next a + 1))) with (usable_frames a). split.
    - intros (i & Hi & Hg). destruct (decide (i = next a)) as [->|]; [by right|]. left. exists i. split; [lia|done].
    - intros [(i & Hi & Hg)|Hg]; [exists i; split; [lia|done]|exists (next a); split; [lia|done]]. }
  constructor.
  - intros a f a' Ha E. assert (vget (usable_frames a) (next a) = Some f) as Hv by (by injection E).
    destruct (H a a') as [Ha' Hi]; [by rewrite Hv|done|]. split; [done|].
    split; [apply (usable_phys k a f Ha); by eapply vget_elem_of|]. split.
    + intros (i & Hi' & Hg). pose proof (vget_NoDup _ _ _ _ (usable_frames_NoDup a (al_map _ _ Ha)) Hg Hv). lia.
    + intros g. rewrite Hi, Hv. split; (intros [?|?]; [by left|right; congruence]).
  - intros a a' Ha E. assert (vget (usable_frames a) (next a) = None) as Hv by (by injection E).
    destruct (H a a') as [Ha' Hi]; [by rewrite Hv|done|]. split; [done|]. intros g. rewrite Hi, Hv.
    split; [by intros [?|?]|by left].
Qed.
End allocator.

(** ** Translations and leaves *)

Section views.
Context {X : X86_64} {XS : X86_64_Spec X} {XP : X86_64_Paging X}.

(** The page of address [a]: frame and flags. *)
Definition page_at (r : Ram) (l4 a : Z) : option (Z * Z) :=
  let page := Page_containing_address a in leaf r l4 (page_path page) (p1_index page).

Lemma translate_page r l4 a :
  translate r l4 a = (fun x => mkTranslation (x.1 + a mod 4096) x.2) <$> page_at r l4 a.
Proof.
  unfold translate, page_at, leaf, page_path. cbn [walk]. rewrite land_fff.
  set (p := Page_containing_address a). unfold child at 1.
  destruct (entry_allows_user (entry_flags (read_entry r l4 (p4_index p)))); [|done].
  destruct (entry_frame (read_entry r l4 (p4_index p))) as [l3|]; [|done]. cbn [negb]. unfold child at 1.
  destruct (entry_allows_user (entry_flags (read_entry r l3 (p3_index p)))); [|done].
  destruct (entry_frame (read_entry r l3 (p3_index p))) as [l2|]; [|done]. cbn [negb]. unfold child at 1.
  destruct (entry_allows_user (entry_flags (read_entry r l2 (p2_index p)))); [|done].
  destruct (entry_frame (read_entry r l2 (p2_index p))) as [l1|]; [|done]. cbn [negb]. unfold child at 1.
  destruct (entry_allows_user (entry_flags (read_entry r l1 (p1_index p)))); [|done].
  by destruct (entry_frame (read_entry r l1 (p1_index p))).
Qed.

(** Pages below [2^48] have different table indices. *)
Lemma page_path_inj p p' :
  0 <= p < 2 ^ 48 -> 0 <= p' < 2 ^ 48 -> p mod 4096 = 0 -> p' mod 4096 = 0 ->
  page_path p = page_path p' -> p1_index p = p1_index p' -> p = p'.
Proof.
  intros Hp Hp' Ha Ha' E E1. unfold page_path in E. injection E as E4 E3 E2.
  destruct (page_index_spec p) as (I4 & I3 & I2 & I1); [lia|].
  destruct (page_index_spec p') as (J4 & J3 & J2 & J1); [lia|].
  rewrite I4, J4 in E4. rewrite I3, J3 in E3. rewrite I2, J2 in E2. rewrite I1, J1 in E1.
  assert (forall x, 0 <= x < 2 ^ 48 -> x mod 4096 = 0 ->
    x = 2 ^ 39 * ((x / 2 ^ 39) mod 512) + 2 ^ 30 * ((x / 2 ^ 30) mod 512) +
        2 ^ 21 * ((x / 2 ^ 21) mod 512) + 2 ^ 12 * ((x / 2 ^ 12) mod 512)) as D.
  { clear. intros x Hx Hm.
    assert (forall k, 0 <= k -> x / 2 ^ (k + 9) = x / 2 ^ k / 512) as Hd.
    { intros k Hk. rewrite Z.pow_add_r, <- Z.div_div by lia. done. }
    assert (x / 2 ^ 39 < 512) by (apply Z.div_lt_upper_bound; lia).
    pose proof (Z.div_pos x (2 ^ 39) ltac:(lia) ltac:(lia)).
    rewrite (Z.mod_small (x / 2 ^ 39)) by lia.
    pose proof (Hd 30 ltac:(lia)) as D3. pose proof (Hd 21 ltac:(lia)) as D2. pose proof (Hd 12 ltac:(lia)) as D1.
    change (30 + 9) with 39 in D3. change (21 + 9) with 30 in D2. change (12 + 9) with 21 in D1.
    pose proof (Z.div_mod (x / 2 ^ 30) 512 ltac:(lia)). pose proof (Z.div_mod (x / 2 ^ 21) 512 ltac:(lia)).
    pose proof (Z.div_mod (x / 2 ^ 12) 512 ltac:(lia)). pose proof (Z.div_mod x (2 ^ 12) ltac:(lia)).
    change (2 ^ 12) with 4096 in *. lia. }
  rewrite (D p Hp Ha), (D p' Hp' Ha'). by rewrite E4, E3, E2, E1.
Qed.

(** The user half is slot 1. *)
Lemma user_slot a : 2 ^ 39 <= a < 2 ^ 40 -> p4_index (Page_containing_address a) = 1.
Proof.
  intros Ha. rewrite page_containing_address_spec by lia. pose proof (Z.mod_pos_bound a 4096).
  assert (2 ^ 39 <= a - a mod 4096) as Hlow.
  { pose proof (Z.div_mod a 4096). assert (2 ^ 27 <= a / 4096) by (apply Z.div_le_lower_bound; lia). lia. }
  destruct (page_index_spec (a - a mod 4096)) as (-> & _); [lia|].
  assert ((a - a mod 4096) / 2 ^ 39 = 1) as ->; [|done].
  symmetry. apply (Z.div_unique _ _ _ (a - a mod 4096 - 2 ^ 39)); [left; lia|lia].
Qed.

(** The view: the byte and the write permission behind a user address. *)
Definition view (r : Ram) (l4 a : Z) : option (Z * bool) :=
  match translate r l4 a with
  | Some t => Some (r (phys t), contains (flags t) WRITABLE)
  | None => None
  end.

(** A page that user mode reaches is a node of the fourth level, and the
    tables read on the way are nodes above it. *)
Lemma translate_node r l4 a t :
  translate r l4 a = Some t ->
  exists q f, path q /\ length q = 4%nat /\ walk r l4 q = Some f /\ phys t = f + a mod 4096.
Proof.
  rewrite translate_page. unfold page_at, leaf. set (p := Page_containing_address a).
  destruct (page_path_ok p) as [Hp H3].
  destruct (walk r l4 (page_path p)) as [l1|] eqn:W; [|done].
  destruct (child r l1 (p1_index p)) as [f|] eqn:C; [|done]. intros [= <-].
  exists (page_path p ++ [p1_index p]), f. split; [done|]. split; [done|].
  split; [by rewrite (walk_snoc _ _ _ _ _ W)|done].
Qed.

Lemma tables_walk r l4 a f :
  f ∈ tables r l4 a -> exists q, path q /\ (length q <= 3)%nat /\ walk r l4 q = Some f.
Proof.
  unfold tables. set (p := Page_containing_address a).
  destruct (page_path_ok p) as [Hp _]. pose proof (path_prefix _ _ Hp) as Hp3.
  fold (child r l4 (p4_index p)). intros [->|H]%elem_of_cons; [exists []; split; [apply path_nil|]; cbn; auto with lia|].
  destruct (child r l4 (p4_index p)) as [l3|] eqn:C4; [|by apply elem_of_nil in H].
  fold (child r l3 (p3_index p)) in H. apply elem_of_cons in H as [->|H].
  { exists [p4_index p]. split; [by apply (path_prefix _ [p3_index p; p2_index p])|]. cbn. rewrite C4. auto with lia. }
  destruct (child r l3 (p3_index p)) as [l2|] eqn:C3; [|by apply elem_of_nil in H].
  fold (child r l2 (p2_index p)) in H. apply elem_of_cons in H as [->|H].
  { exists [p4_index p; p3_index p]. split; [by apply (path_prefix _ [p2_index p])|]. cbn. rewrite C4, C3. auto with lia. }
  destruct (child r l2 (p2_index p)) as [l1|] eqn:C2; [|by apply elem_of_nil in H].
  apply elem_of_cons in H as [->|H]; [|by apply elem_of_nil in H].
  exists (page_path p). split; [done|]. cbn. rewrite C4, C3, C2. auto with lia.
Qed.

(** Frames overlap only when they are the same. *)
Lemma frames_overlap f g x :
  f mod 4096 = 0 -> g mod 4096 = 0 -> f <= x < f + 4096 -> g <= x < g + 4096 -> f = g.
Proof. intros. pose proof (Z.div_mod f 4096). pose proof (Z.div_mod g 4096). assert (f / 4096 = g / 4096) by lia. lia. Qed.

Lemma forest_separated r R o l4 : forest r R o -> R l4 -> separated r l4.
Proof.
  intros F HR a b t f Ha Ht Hf Hx.
  destruct (translate_node _ _ _ _ Ht) as (q & g & Hq & H4 & Hw & Hp).
  destruct (tables_walk _ _ _ _ Hf) as (q' & Hq' & H3 & Hw').
  destruct (fo_node _ _ _ F l4 q g HR Hq Hw) as [[Hg _] _].
  destruct (fo_node _ _ _ F l4 q' f HR Hq' Hw') as [[Hf' _] _].
  pose proof (Z.mod_pos_bound a 4096). assert (f = g) as -> by (apply (frames_overlap f g (phys t)); lia).
  destruct (fo_inj _ _ _ F l4 l4 q q' g HR HR Hq Hq' Hw Hw') as [_ ->]. lia.
Qed.

(** ** The invariant of the memory manager *)

Definition issued_in (m : Mem) (f : Z) : Prop :=
  exists s, memory_state m = Some s /\ issued (frame_allocator s) f.

Record space_inv (m : Mem) (R : Z -> Prop) : Prop := mkSpaceInv {
  si_alloc : exists s, memory_state m = Some s /\ alloc_ok (ms_kernel_level_4_frame s) (frame_allocator s);
  si_forest : forest (ram m) R (issued_in m)
}.

(** The frames an operation on [l4] may write: those it allocates, and the
    nodes of [l4] down to level [n]. *)
Definition touches (n : nat) (l4 : Z) (m m' : Mem) (f : Z) : Prop :=
  (~ issued_in m f /\ issued_in m' f) \/ exists q, path q /\ (length q <= n)%nat /\ walk (ram m) l4 q = Some f.

Record local_change (n : nat) (R : Z -> Prop) (l4 : Z) (m m' : Mem) : Prop := mkLocalChange {
  lc_ctl : same_ctl m m';
  lc_inv : space_inv m' R;
  lc_issued f : issued_in m f -> issued_in m' f;
  lc_bytes x : (forall f, phys_frame f -> touches n l4 m m' f -> ~ (f <= x < f + 4096)) ->
    ram m' x = ram m x;
  lc_nodes l q f : R l -> path q -> walk (ram m') l q = Some f ->
    walk (ram m) l q = Some f \/ ~ issued_in m f
}.

Lemma lc_refl n R l4 m : space_inv m R -> local_change n R l4 m m.
Proof. intros I. constructor; auto. done. Qed.

Lemma lc_weaken n n' R l4 m m' : (n <= n')%nat -> local_change n R l4 m m' -> local_change n' R l4 m m'.
Proof.
  intros Hn [C I O B N]. constructor; auto. intros x Hx. apply B. intros f Hf [?|(q & Hq & Hlen & Hw)]; apply Hx; try done.
  - by left.
  - right. exists q. split; [done|]. split; [lia|done].
Qed.

Lemma lc_trans n R l4 m1 m2 m3 :
  R l4 -> local_change n R l4 m1 m2 -> local_change n R l4 m2 m3 -> local_change n R l4 m1 m3.
Proof.
  intros HR [C1 I1 O1 B1 N1] [C2 I2 O2 B2 N2]. constructor; [by transitivity m2|done|auto| |].
  - intros x Hx. rewrite B2; [apply B1; intros f Hf [[Hi Hi']|Hw]; apply Hx; try done; [left; auto|by right]|].
    intros f Hf [Hi|(q & Hq & Hlen & Hw)]; apply Hx; try done.
    + left. destruct Hi. auto.
    + destruct (N1 l4 q f HR Hq Hw) as [Hw1|Hni]; [right; by exists q|left]. split; [done|].
      destruct (fo_node _ _ _ (si_forest _ _ I1) l4 q f HR Hq Hw). auto.
  - intros l q f Hl Hq Hw. destruct (N2 l q f Hl Hq Hw); [by apply N1|right; auto].
Qed.

(** An operation on one address space is invisible in the others. *)
Definition same_space (l : Z) (m m' : Mem) : Prop :=
  forall a, translate (ram m') l a = translate (ram m) l a /\
    forall t, translate (ram m) l a = Some t -> ram m' (phys t) = ram m (phys t).

Lemma lc_other_bytes n R l4 m m' l q f x :
  space_inv m R -> local_change n R l4 m m' -> R l4 -> R l -> l <> l4 ->
  path q -> walk (ram m) l q = Some f -> f <= x < f + 4096 -> ram m' x = ram m x.
Proof.
  intros [_ F] LC HR Hl Hne Hq Hw Hx. apply (lc_bytes _ _ _ _ _ LC). intros g [Hg _] Ht Hxg.
  destruct (fo_node _ _ _ F l q f Hl Hq Hw) as [[Hf _] Hi].
  assert (f = g) as -> by (by apply (frames_overlap f g x)).
  destruct Ht as [[? _]|(q' & Hq' & _ & Hw')]; [done|].
  by destruct (fo_inj _ _ _ F l l4 q q' g Hl HR Hq Hq' Hw Hw').
Qed.

Lemma lc_other n R l4 m m' l :
  space_inv m R -> local_change n R l4 m m' -> R l4 -> R l -> l <> l4 -> same_space l m m'.
Proof.
  intros I LC HR Hl Hne a. split.
  - apply translate_agree. intros f x Hf Hx. destruct (tables_walk _ _ _ _ Hf) as (q & Hq & _ & Hw).
    by apply (lc_other_bytes n R l4 m m' l q f x).
  - intros t Ht. destruct (translate_node _ _ _ _ Ht) as (q & f & Hq & _ & Hw & Hp).
    pose proof (Z.mod_pos_bound a 4096). apply (lc_other_bytes n R l4 m m' l q f); try done. lia.
Qed.

Lemma same_space_view l m m' a : same_space l m m' -> view (ram m') l a = view (ram m) l a.
Proof.
  intros H. destruct (H a) as [E B]. unfold view. rewrite E.
  destruct (translate (ram m) l a) as [t|]; [|done]. by rewrite (B t).
Qed.

(** ** Mapping a fresh page *)

Lemma lc_data R l4 m m' a t :
  space_inv m R -> local_change 3 R l4 m m' -> R l4 -> translate (ram m) l4 a = Some t ->
  ram m' (phys t) = ram m (phys t).
Proof.
  intros [_ F] LC HR Ht. destruct (translate_node _ _ _ _ Ht) as (q & f & Hq & H4 & Hw & Hp).
  destruct (fo_node _ _ _ F l4 q f HR Hq Hw) as [[Hf _] Hi]. pose proof (Z.mod_pos_bound a 4096).
  apply (lc_bytes _ _ _ _ _ LC). intros g [Hg _] Ht' Hx.
  assert (f = g) as -> by (apply (frames_overlap f g (phys t)); lia).
  destruct Ht' as [[? _]|(q' & Hq' & H3 & Hw')]; [done|].
  destruct (fo_inj _ _ _ F l4 l4 q q' g HR HR Hq Hq' Hw Hw') as [_ ->]. lia.
Qed.

(** The page of [address] was free and now is the fresh zeroed [frame]. *)
Record page_added (l4 address frame fl : Z) (m m' : Mem) : Prop := mkPageAdded {
  pa_fresh : ~ issued_in m frame;
  pa_phys : phys_frame frame;
  pa_before : translate (ram m) l4 address = None;
  pa_at a : 0 <= a < 2 ^ 48 -> a - a mod 4096 = address - address mod 4096 ->
    translate (ram m') l4 a = Some (mkTranslation (frame + a mod 4096) fl);
  pa_other a : 0 <= a < 2 ^ 48 -> a - a mod 4096 <> address - address mod 4096 ->
    translate (ram m') l4 a = translate (ram m) l4 a;
  pa_zero x : frame <= x < frame + 4096 -> ram m' x = 0
}.

Definition user_flags_ok (fl : Z) : Prop :=
  0 <= fl < 128 /\ contains fl PRESENT = true /\ entry_allows_user fl = true.

(** Any page of [l4] is as before. *)
Definition same_pages (l4 : Z) (m m' : Mem) : Prop :=
  forall a, 0 <= a < 2 ^ 48 -> translate (ram m') l4 a = translate (ram m) l4 a.

Lemma translate_leaf r r' l4 a :
  leaf r' l4 (page_path (Page_containing_address a)) (p1_index (Page_containing_address a)) =
  leaf r l4 (page_path (Page_containing_address a)) (p1_index (Page_containing_address a)) ->
  translate r' l4 a = translate r l4 a.
Proof. intros H. rewrite !translate_page. unfold page_at. by rewrite H. Qed.

(** Memory [m1] is [m] with [frame] taken from the allocator and cleared. *)
Lemma frame_taken R l4 m s a1 frame :
  space_inv m R -> R l4 -> memory_state m = Some s ->
  allocate_frame (frame_allocator s) = (Some frame, a1) ->
  let m1 := mkMem (Some (set_frame_allocator a1 s)) (fill_bytes (ram m) frame 4096 0) (cr3 m) in
  alloc_ok (ms_kernel_level_4_frame s) a1 /\ phys_frame frame /\ ~ issued_in m frame /\ forest (ram m1) R (issued a1) /\
  issued a1 frame /\ not_node (ram m1) R frame /\ (forall f, issued_in m f -> issued a1 f) /\
  (forall l q, R l -> path q -> walk (ram m1) l q = walk (ram m) l q) /\
  (forall l q j, R l -> path (q ++ [j]) -> leaf (ram m1) l q j = leaf (ram m) l q j).
Proof.
  intros [(s' & Hs' & Ha) F] HR Hs Hal m1. assert (s' = s) as -> by congruence.
  destruct (fs_some _ _ _ (boot_frame_source _) _ _ _ Ha Hal) as (Ha1 & Hphys & Hfresh & Hown).
  assert (forall f, issued_in m f <-> issued (frame_allocator s) f) as Hi.
  { intros f. unfold issued_in. rewrite Hs. split; [by intros (? & [= <-] & ?)|by exists s]. }
  assert (forall l q h, R l -> path q -> walk (ram m) l q = Some h -> h <> frame) as Hne.
  { intros l q h Hl Hq Hw ->. destruct (fo_node _ _ _ F l q frame Hl Hq Hw) as [_ H%Hi]. done. }
  destruct (forest_data (ram m) (ram m1) R (issued_in m) F) as (F1 & W & L).
  { intros l q h x Hl Hq Hlen Hw Hx. apply fill_other. intros Hx'.
    apply (Hne l q h Hl Hq Hw). apply (frames_overlap h frame x); try done.
    - by destruct (fo_node _ _ _ F l q h Hl Hq Hw) as [[? _] _].
    - by destruct Hphys. }
  split; [done|]. split; [done|]. split; [by rewrite Hi|]. split.
  { eapply forest_weaken; [| |exact F1]; [done|]. intros f Hf%Hi. apply Hown. by left. }
  split; [apply Hown; by right|]. split; [|split; [|done]].
  - intros l q Hl Hq. rewrite W by done. intros Hw. by apply (Hne l q frame).
  - intros f Hf%Hi. apply Hown. by left.
Qed.

Lemma map_frame_run self address frame fl m R s :
  space_inv m R -> R (level_4_frame self) -> 2 ^ 39 <= address < 2 ^ 40 -> user_flags_ok fl ->
  memory_state m = Some s -> phys_frame frame -> issued_in m frame -> not_node (ram m) R frame ->
  wp (map_frame self address frame fl) (fun res m' =>
    exists a', m' = mkMem (Some (set_frame_allocator a' s)) (ram m') (cr3 m) /\
      alloc_ok (ms_kernel_level_4_frame s) a' /\
    match res with
    | Ok _ => mapped R (level_4_frame self) (ram m) (issued_in m) (ram m') (issued a')
                (page_path (Page_containing_address address)) (p1_index (Page_containing_address address))
                frame fl
    | Err _ => grown R (level_4_frame self) (ram m) (issued_in m) (ram m') (issued a')
    end) m.
Proof.
  intros [(s' & Hs' & Ha) F] HR Hslot (Hfl & HP & Hau) Hs Hphys Hif Hn.
  assert (s' = s) as -> by congruence.
  assert (forall f, issued_in m f <-> issued (frame_allocator s) f) as Hi.
  { intros f. unfold issued_in. rewrite Hs. split; [by intros (? & [= <-] & ?)|by exists s]. }
  unfold map_frame. unfold wp. rewrite (with_state_run _ _ _ Hs). unfold st_bind, st_get.
  pose proof (map_to_forest allocate_frame (alloc_ok (ms_kernel_level_4_frame s)) issued (boot_frame_source _) R (level_4_frame self) HR
    (ram m) (frame_allocator s) (Page_containing_address address) frame fl Ha) as H.
  destruct (map_to _ _ _ _ _ _ _) as [[r ram'] a'].
  assert (forest (ram m) R (issued (frame_allocator s))) as F'.
  { eapply forest_weaken; [| |exact F]; [done|]. intros f. apply Hi. }
  specialize (H F' (user_slot _ Hslot) Hphys (proj1 (Hi _) Hif) Hn Hfl HP Hau).
  unfold st_put, st_ret. exists a'. split; [done|]. destruct r as [[]|e]; cbn [map_err ram].
  - destruct H as [Ha' [H1 H2 H3 H4 H5 H6]]. split; [done|]. constructor; try done.
    + intros f Hf%Hi. auto.
    + intros l q f Hl Hq Hw. rewrite Hi. auto.
  - destruct H as [Ha' [H1 H2 H3 H4 H5 H6]]. split; [done|]. constructor; try done.
    + intros f Hf%Hi. auto.
    + intros l q f Hl Hq Hw. rewrite Hi. auto.
Qed.

Lemma issued_in_state m s f : memory_state m = Some s -> issued_in m f <-> issued (frame_allocator s) f.
Proof. intros Hs. unfold issued_in. rewrite Hs. split; [by intros (? & [= <-] & ?)|by exists s]. Qed.

Lemma same_ctl_alloc m s a r : memory_state m = Some s ->
  same_ctl m (mkMem (Some (set_frame_allocator a s)) r (cr3 m)).
Proof.
  intros Hs. constructor; unfold kernel_level_4_frame; cbn; [done|by rewrite Hs|by eexists].
Qed.

(** Running out of frames changes the allocator only. *)
Lemma alloc_failed R l4 m s a1 n :
  space_inv m R -> memory_state m = Some s -> allocate_frame (frame_allocator s) = (None, a1) ->
  local_change n R l4 m (mkMem (Some (set_frame_allocator a1 s)) (ram m) (cr3 m)).
Proof.
  intros [(s' & Hs' & Ha) F] Hs Hal. assert (s' = s) as -> by congruence.
  destruct (fs_none _ _ _ (boot_frame_source _) _ _ Ha Hal) as [Ha1 Hi].
  set (m' := mkMem _ _ _).
  assert (forall f, issued_in m' f <-> issued_in m f) as Hi'.
  { intros f. rewrite (issued_in_state m s f Hs), (issued_in_state m' _ f eq_refl). apply Hi. }
  constructor; [by apply same_ctl_alloc| |intros f; apply Hi'|done|by left].
  split; [by eexists|]. eapply forest_weaken; [| |exact F]; [done|]. intros f. apply Hi'.
Qed.

Lemma page_of_ne a address :
  0 <= a < 2 ^ 48 -> 0 <= address < 2 ^ 48 -> a - a mod 4096 <> address - address mod 4096 ->
  ~ (page_path (Page_containing_address a) = page_path (Page_containing_address address) /\
     p1_index (Page_containing_address a) = p1_index (Page_containing_address address)).
Proof.
  intros Ha Hb Hne [Hpp H1]. apply Hne. rewrite !page_containing_address_spec in Hpp, H1 by lia.
  assert (forall x, (x - x mod 4096) mod 4096 = 0) as Hm by (intros; rewrite Zminus_mod_idemp_r, Z.sub_diag; done).
  pose proof (Z.mod_pos_bound a 4096). pose proof (Z.mod_pos_bound address 4096).
  pose proof (Z.mod_le a 4096). pose proof (Z.mod_le address 4096).
  apply (page_path_inj _ _); try done; lia.
Qed.

(** [mapped] on the memory after [frame_taken] is a fresh page of [m]. *)
Lemma mapped_page R l4 m s a1 frame fl address m' a' :
  space_inv m R -> R l4 -> memory_state m = Some s -> 2 ^ 39 <= address < 2 ^ 40 ->
  allocate_frame (frame_allocator s) = (Some frame, a1) ->
  let m1 := mkMem (Some (set_frame_allocator a1 s)) (fill_bytes (ram m) frame 4096 0) (cr3 m) in
  m' = mkMem (Some (set_frame_allocator a' s)) (ram m') (cr3 m) ->
  alloc_ok (ms_kernel_level_4_frame s) a' ->
  mapped R l4 (ram m1) (issued a1) (ram m') (issued a')
    (page_path (Page_containing_address address)) (p1_index (Page_containing_address address)) frame fl ->
  local_change 3 R l4 m m' /\ page_added l4 address frame fl m m'.
Proof.
  intros I HR Hs Hslot Hal m1 Hm' Ha' [M1 M2 M3 M4 M5 M6].
  destruct (frame_taken R l4 m s a1 frame I HR Hs Hal)
    as (Ha1 & Hphys & Hfresh & F1 & Hi1 & Hn1 & Hmono & W1 & L1). fold m1 in F1, Hn1, W1, L1.
  destruct (page_path_ok (Page_containing_address address)) as [Hpath H3].
  set (pp := page_path (Page_containing_address address)) in *.
  set (i := p1_index (Page_containing_address address)) in *.
  assert (forall l q f, R l -> path q -> walk (ram m') l q = Some f ->
    walk (ram m) l q = Some f \/ ~ issued_in m f) as Hnodes.
  { intros l q f Hl Hq Hw. destruct (M5 l q f Hl Hq Hw) as [Hw1|[Hni| ->]]; [|right; auto|by right].
    left. by rewrite <- W1. }
  assert (forall f, issued_in m' f <-> issued a' f) as Hi' by
    (intros f; rewrite Hm'; apply (issued_in_state (mkMem (Some (set_frame_allocator a' s)) (ram m') (cr3 m)) (set_frame_allocator a' s) f eq_refl)).
  split.
  - constructor.
    + rewrite Hm'. by apply same_ctl_alloc.
    + split; [rewrite Hm'; by eexists|]. eapply forest_weaken; [| |exact M1]; [done|]. intros f. apply Hi'.
    + intros f Hf. apply Hi'. auto.
    + intros x Hx. rewrite M6.
      * apply fill_other. apply Hx; [done|left; split; [done|apply Hi'; auto]].
      * intros q h Hq Hlen Hw. destruct (fo_node _ _ _ M1 l4 q h HR Hq Hw) as [Hh Hih%Hi'].
        apply Hx; [done|]. destruct (Hnodes l4 q h HR Hq Hw) as [Hw0|]; [right; by exists q|by left].
    + done.
  - constructor; [done|done| | | |].
    + rewrite L1 in M3 by done. rewrite translate_page. unfold page_at. cbv zeta. fold pp i. by rewrite M3.
    + intros a Ha Hpage. rewrite translate_page. unfold page_at. cbv zeta.
      rewrite page_containing_address_spec, Hpage, <- page_containing_address_spec by lia.
      fold pp i. rewrite (M4 l4 pp i) by done. by rewrite decide_True.
    + intros a Ha Hpage. apply translate_leaf.
      destruct (page_path_ok (Page_containing_address a)) as [Hpa H3a].
      rewrite (M4 l4) by done. rewrite decide_False; [by apply L1|]. intros (_ & E1 & E2).
      apply (page_of_ne a address); [done|lia|done|done].
    + intros x Hx. rewrite M6.
      * unfold fill_bytes. cbn [ram m1]. unfold fill_bytes. rewrite (proj2 (Z.leb_le _ _)), (proj2 (Z.ltb_lt _ _)) by lia. done.
      * intros q h Hq Hlen Hw Hxh. destruct (fo_node _ _ _ M1 l4 q h HR Hq Hw) as [[Hh _] _].
        assert (h = frame) as -> by (apply (frames_overlap h frame x); try done; by destruct Hphys).
        assert (walk (ram m') l4 (pp ++ [i]) = Some frame) as Hwf.
        { assert (leaf (ram m') l4 pp i = Some (frame, fl)) as Hlf by (rewrite M4 by done; by rewrite decide_True).
          unfold leaf in Hlf. destruct (walk (ram m') l4 pp) as [t|] eqn:Et; [|done].
          rewrite (walk_snoc _ _ _ _ _ Et). by destruct (child (ram m') t i); simplify_eq. }
        destruct (fo_inj _ _ _ M1 l4 l4 q (pp ++ [i]) frame HR HR Hq Hpath Hw Hwf) as [_ ->].
        rewrite length_app in Hlen. cbn in Hlen. lia.
Qed.

Lemma grown_failed R l4 m s a1 frame m' a' :
  space_inv m R -> R l4 -> memory_state m = Some s ->
  allocate_frame (frame_allocator s) = (Some frame, a1) ->
  let m1 := mkMem (Some (set_frame_allocator a1 s)) (fill_bytes (ram m) frame 4096 0) (cr3 m) in
  m' = mkMem (Some (set_frame_allocator a' s)) (ram m') (cr3 m) ->
  alloc_ok (ms_kernel_level_4_frame s) a' ->
  grown R l4 (ram m1) (issued a1) (ram m') (issued a') ->
  local_change 3 R l4 m m' /\ same_pages l4 m m'.
Proof.
  intros I HR Hs Hal m1 Hm' Ha' [G1 G2 G3 G4 G5 G6].
  destruct (frame_taken R l4 m s a1 frame I HR Hs Hal)
    as (Ha1 & Hphys & Hfresh & F1 & Hi1 & Hn1 & Hmono & W1 & L1). fold m1 in F1, Hn1, W1, L1.
  assert (forall l q f, R l -> path q -> walk (ram m') l q = Some f ->
    walk (ram m) l q = Some f \/ ~ issued_in m f) as Hnodes.
  { intros l q f Hl Hq Hw. destruct (G4 l q f Hl Hq Hw) as [Hw1|Hni]; [|right; auto].
    left. by rewrite <- W1. }
  assert (forall f, issued_in m' f <-> issued a' f) as Hi'.
  { intros f. rewrite Hm'.
    apply (issued_in_state (mkMem (Some (set_frame_allocator a' s)) (ram m') (cr3 m))
             (set_frame_allocator a' s) f eq_refl). }
  split.
  - constructor.
    + rewrite Hm'. by apply same_ctl_alloc.
    + split; [rewrite Hm'; by eexists|]. eapply forest_weaken; [| |exact G1]; [done|]. intros f. apply Hi'.
    + intros f Hf. apply Hi'. auto.
    + intros x Hx. rewrite G6.
      * apply fill_other. apply Hx; [done|left; split; [done|apply Hi'; auto]].
      * intros q h Hq Hlen Hw. destruct (fo_node _ _ _ G1 l4 q h HR Hq Hw) as [Hh Hih%Hi'].
        apply Hx; [done|]. destruct (Hnodes l4 q h HR Hq Hw) as [Hw0|]; [right; by exists q|by left].
    + done.
  - intros a Ha. apply translate_leaf. destruct (page_path_ok (Page_containing_address a)) as [Hpa H3a].
    rewrite G5 by done. by apply L1.
Qed.

Definition zeroed_outcome (l4 address fl : Z) (m : Mem) {E} (res : result E Z) (m' : Mem) : Prop :=
  match res with
  | Ok frame => page_added l4 address frame fl m m'
  | Err _ => same_pages l4 m m'
  end.

(** [map_zeroed_user_page] adds one zeroed page, or leaves every page alone. *)
Lemma map_zeroed_run self address fl m R :
  space_inv m R -> R (level_4_frame self) -> 2 ^ 39 <= address < 2 ^ 40 -> user_flags_ok fl ->
  wp (map_zeroed_user_page self address fl) (fun res m' =>
    local_change 3 R (level_4_frame self) m m' /\
    zeroed_outcome (level_4_frame self) address fl m res m') m.
Proof.
  intros I HR Hslot Hfl. pose proof I as [(s & Hs & Ha) F].
  unfold map_zeroed_user_page. apply wp_try. unfold wp at 1. rewrite (with_state_run _ _ _ Hs).
  unfold st_bind at 1. unfold state_allocate_frame. rewrite (with_state_run _ _ _ Hs).
  destruct (allocate_frame (frame_allocator s)) as [[frame|] a1] eqn:Hal; unfold st_bind, st_modify, st_ret.
  - cbn [memory_state ram cr3 set_ram].
    destruct (frame_taken R (level_4_frame self) m s a1 frame I HR Hs Hal)
      as (Ha1 & Hphys & Hfresh & F1 & Hi1 & Hn1 & Hmono & W1 & L1).
    set (m1 := set_ram _ _). change m1 with
      (mkMem (Some (set_frame_allocator a1 s)) (fill_bytes (ram m) frame 4096 0) (cr3 m)) in *. clear m1.
    set (m1 := mkMem (Some (set_frame_allocator a1 s)) (fill_bytes (ram m) frame 4096 0) (cr3 m)) in *.
    assert (forall f, issued_in m1 f <-> issued a1 f) as Hi.
    { intros f. apply (issued_in_state m1 (set_frame_allocator a1 s) f eq_refl). }
    apply wp_try. eapply wp_mono.
    + apply (map_frame_run self address frame fl m1 R (set_frame_allocator a1 s)); try done.
      * split; [by eexists|]. eapply forest_weaken; [| |exact F1]; [done|]. intros f. apply Hi.
      * by apply Hi.
    + intros res m' (a' & Hm' & Ha' & H).
      assert (m' = mkMem (Some (set_frame_allocator a' s)) (ram m') (cr3 m)) as Hm by (rewrite Hm'; done).
      destruct res as [[]|e].
      * apply wp_ret. apply (mapped_page R _ m s a1 frame fl address m' a'); try done.
        destruct H as [H1 H2 H3 H4 H5 H6]. constructor; try done.
        -- intros f Hf%Hi. auto.
        -- intros l q f Hl Hq Hw. rewrite <- Hi. auto.
      * apply (grown_failed R _ m s a1 frame m' a'); try done.
        destruct H as [H1 H2 H3 H4 H5 H6]. constructor; try done.
        -- intros f Hf%Hi. auto.
        -- intros l q f Hl Hq Hw. rewrite <- Hi. auto.
  - split; [by apply (alloc_failed R _ m s a1)|done].
Qed.

(** ** Regions of pages *)

Definition writable_flag (fl : Z) : bool := contains fl WRITABLE.

Lemma page_added_view R l4 address frame fl m m' a :
  space_inv m R -> R l4 -> local_change 3 R l4 m m' -> page_added l4 address frame fl m m' ->
  0 <= a < 2 ^ 48 ->
  view (ram m') l4 a = if decide (a - a mod 4096 = address - address mod 4096)
                       then Some (0, writable_flag fl) else view (ram m) l4 a.
Proof.
  intros I HR LC PA Ha. unfold view. case_decide as D.
  - rewrite (pa_at _ _ _ _ _ _ PA a) by done. cbn [phys flags]. pose proof (Z.mod_pos_bound a 4096).
    by rewrite (pa_zero _ _ _ _ _ _ PA) by lia.
  - rewrite (pa_other _ _ _ _ _ _ PA a) by done. destruct (translate (ram m) l4 a) as [t|] eqn:Ht; [|done].
    by rewrite (lc_data R l4 m m' a t).
Qed.

Lemma same_pages_view R l4 m m' a :
  space_inv m R -> R l4 -> local_change 3 R l4 m m' -> same_pages l4 m m' -> 0 <= a < 2 ^ 48 ->
  view (ram m') l4 a = view (ram m) l4 a.
Proof.
  intros I HR LC SP Ha. unfold view. rewrite SP by done.
  destruct (translate (ram m) l4 a) as [t|] eqn:Ht; [|done]. by rewrite (lc_data R l4 m m' a t).
Qed.

(** The addresses [start, stop) are new, zeroed pages. *)
Definition region_added (l4 start stop : Z) (w : bool) (m m' : Mem) : Prop :=
  forall a, 0 <= a < 2 ^ 48 ->
    view (ram m') l4 a = if decide (start <= a < stop) then Some (0, w) else view (ram m) l4 a.

Lemma same_page_iff a page : page mod 4096 = 0 -> a - a mod 4096 = page <-> page <= a < page + 4096.
Proof.
  intros Hp. split; [intros <-; pose proof (Z.mod_pos_bound a 4096); lia|].
  intros Ha. by apply page_start.
Qed.

Lemma map_region_loop_run fuel self address stop fl m R :
  space_inv m R -> R (level_4_frame self) -> user_flags_ok fl ->
  address mod 4096 = 0 -> stop mod 4096 = 0 -> 2 ^ 39 <= address <= stop -> stop <= 2 ^ 40 ->
  stop <= address + 4096 * (Z.of_nat fuel - 1) ->
  wp (map_region_loop fuel self address stop fl) (fun res m' =>
    local_change 3 R (level_4_frame self) m m' /\
    (res = Ok tt -> region_added (level_4_frame self) address stop (writable_flag fl) m m')) m.
Proof.
  intros I HR Hfl. revert address m I. induction fuel as [|fuel IH]; intros address m I Ha Hs Hr Hstop Hf; [lia|].
  cbn [map_region_loop]. destruct (Z.ltb_spec address stop) as [Hlt|Hge].
  2: { apply wp_ret. split; [by apply lc_refl|]. intros _ a _. rewrite decide_False by lia. done. }
  wp_step. rewrite virt_addr_ok by (apply canonical_low; lia). wp_steps.
  eapply wp_mono; [by apply (map_zeroed_run self address fl m R); [| |lia|]|].
  intros res m1 [LC1 Z1]. destruct res as [frame|e]; [|by split].
  assert (checked_add address PAGE_SIZE = Some (address + 4096)) as ->.
  { apply checked_add_Some. unfold PAGE_SIZE. lia. }
  assert (address + 4096 <= stop) as Hle.
  { pose proof (Z.div_mod address 4096). pose proof (Z.div_mod stop 4096). lia. }
  eapply wp_mono; [apply IH; [exact (lc_inv _ _ _ _ _ LC1)| |done|lia|done|lia]|].
  { rewrite <- Zplus_mod_idemp_r. change (4096 mod 4096) with 0. by rewrite Z.add_0_r. }
  intros res m2 [LC2 Z2]. split; [by apply (lc_trans _ _ _ _ m1)|].
  intros E a Hra. rewrite (Z2 E a Hra).
  rewrite (page_added_view R (level_4_frame self) address frame fl m m1 a) by done.
  rewrite Ha, Z.sub_0_r. pose proof (same_page_iff a address Ha).
  destruct (decide (address + 4096 <= a < stop)), (decide (a - a mod 4096 = address)),
    (decide (address <= a < stop)); try done; lia.
Qed.

Lemma page_flags_ok f : user_flags_ok (page_table_flags f) /\ writable_flag (page_table_flags f) = writable f.
Proof. unfold page_table_flags. by destruct (writable f). Qed.

(** [map_user_region] maps the pages of [start, start + size). *)
Lemma map_user_region_run self start size f m R :
  space_inv m R -> R (level_4_frame self) -> start mod 4096 = 0 -> size mod 4096 = 0 ->
  2 ^ 39 <= start -> 0 <= size -> start + size <= 2 ^ 40 ->
  wp (map_user_region self start size f) (fun res m' =>
    local_change 3 R (level_4_frame self) m m' /\
    (res = Ok tt -> region_added (level_4_frame self) start (start + size) (writable f) m m')) m.
Proof.
  intros I HR Hs Hz H1 H2 H3. unfold map_user_region. destruct (Z.eqb_spec size 0) as [->|Hne].
  { apply wp_ret. split; [by apply lc_refl|]. intros _ a _. by rewrite decide_False by lia. }
  unfold PAGE_SIZE. rewrite align_down_spec by (unfold is_u64; lia). rewrite Hs, Z.sub_0_r.
  assert (checked_add start size = Some (start + size)) as -> by (apply checked_add_Some; lia).
  assert ((start + size) mod 4096 = 0) as Hm by (rewrite Z.add_mod, Hs, Hz by lia; done).
  rewrite align_up_aligned by (unfold is_u64; lia || done).
  destruct (page_flags_ok f) as [Hfl <-].
  apply map_region_loop_run; try done; [lia|]. apply page_fuel_enough. lia.
Qed.
End views.
