(* ===== verification/SpaceOps.v ===== *)
(** * Writing, unmapping and creating address spaces

    The remaining operations of src/src/address_space.rs against the view of
    an address space: copies and zero fills overwrite exactly the addressed
    bytes, unmapping removes exactly the addressed pages, a heap growth that
    fails part way is undone, and a new address space is empty. *)

From S2P Require Import Prelude X86 Memory AddressSpace PageTables Spaces.

Section ops.
Context {X : X86_64} {XS : X86_64_Spec X} {XP : X86_64_Paging X}.

(** ** Writing user memory *)

(** Different addresses of a space are different bytes of memory. *)
Lemma translate_inj r R o l4 a b t u :
  forest r R o -> R l4 -> 0 <= a < 2 ^ 48 -> 0 <= b < 2 ^ 48 ->
  translate r l4 a = Some t -> translate r l4 b = Some u -> phys t = phys u -> a = b.
Proof.
  intros F HR Ha Hb. rewrite !translate_page. unfold page_at, leaf. cbv zeta.
  set (p := Page_containing_address a). set (p' := Page_containing_address b).
  destruct (page_path_ok p) as [Hp _]. destruct (page_path_ok p') as [Hp' _].
  destruct (walk r l4 (page_path p)) as [l1|] eqn:W; [|done].
  destruct (child r l1 (p1_index p)) as [f|] eqn:C; [|done]. intros [= <-].
  destruct (walk r l4 (page_path p')) as [l1'|] eqn:W'; [|done].
  destruct (child r l1' (p1_index p')) as [f'|] eqn:C'; [|done]. intros [= <-]. cbn [phys fst].
  intros E. rewrite <- (walk_snoc _ _ _ _ _ W) in C. rewrite <- (walk_snoc _ _ _ _ _ W') in C'.
  destruct (fo_node _ _ _ F l4 _ f HR Hp C) as [[Hf _] _].
  destruct (fo_node _ _ _ F l4 _ f' HR Hp' C') as [[Hf' _] _].
  pose proof (Z.mod_pos_bound a 4096). pose proof (Z.mod_pos_bound b 4096).
  assert (f = f') as <- by (apply (frames_overlap f f' (f + a mod 4096)); lia || done).
  destruct (fo_inj _ _ _ F l4 l4 _ _ f HR HR Hp Hp' C C') as [_ Epath].
  apply app_inj_2 in Epath as [E1 [= E2]]; [|done].
  destruct (decide (a - a mod 4096 = b - b mod 4096)); [lia|].
  by destruct (page_of_ne a b Ha Hb).
Qed.

(** [r'] differs from [r] in the bytes behind [a0, a0 + k), which are part of
    one page. *)
Lemma user_write R l4 m r' a0 t k :
  space_inv m R -> R l4 -> 0 <= a0 -> a0 + k <= 2 ^ 48 -> translate (ram m) l4 a0 = Some t ->
  0 <= k -> a0 mod 4096 + k <= 4096 ->
  (forall x, ~ (phys t <= x < phys t + k) -> r' x = ram m x) ->
  local_change 4 R l4 m (set_ram r' m) /\
  (forall a, translate r' l4 a = translate (ram m) l4 a) /\
  (forall a, 0 <= a < 2 ^ 48 -> view r' l4 a =
     if decide (a0 <= a < a0 + k) then Some (r' (phys t + (a - a0)), contains (flags t) WRITABLE)
     else view (ram m) l4 a).
Proof.
  intros I HR Ha0 Hk48 Ht Hk Hpage Hr'. pose proof I as [Hal F].
  destruct (translate_node _ _ _ _ Ht) as (q & f & Hq & H4 & Hw & Hp).
  destruct (fo_node _ _ _ F l4 q f HR Hq Hw) as [[Hf Hfr] Hi]. pose proof (Z.mod_pos_bound a0 4096).
  assert (forall x, ~ (f <= x < f + 4096) -> r' x = ram m x) as Hout by (intros x Hx; apply Hr'; lia).
  destruct (forest_data (ram m) r' R (issued_in m) F) as (F' & W & L).
  { intros l q' h x Hl Hq' H3 Hw' Hx. apply Hout. intros Hxf.
    destruct (fo_node _ _ _ F l q' h Hl Hq' Hw') as [[Hh _] _].
    assert (f = h) as -> by (by apply (frames_overlap f h x)).
    destruct (fo_inj _ _ _ F l4 l q q' h HR Hl Hq Hq' Hw Hw') as [_ ->]. lia. }
  assert (forall a, translate r' l4 a = translate (ram m) l4 a) as Htr.
  { intros a. apply translate_leaf. apply L; [done|by apply page_path_ok]. }
  split; [|split; [done|]].
  - constructor; [by constructor|by split|done| |].
    + intros x Hx. apply Hout. apply Hx; [done|]. right. exists q. split; [done|]. split; [lia|done].
    + intros l q' g Hl Hq'. cbn [ram set_ram]. rewrite W by done. by left.
  - intros a Ha. unfold view. rewrite Htr. case_decide as D.
    + assert (translate (ram m) l4 a = Some (shift (a - a0) t)) as ->.
      { replace a with (a0 + (a - a0)) at 1 by lia. rewrite translate_same_page, Ht by lia. done. }
      done.
    + destruct (translate (ram m) l4 a) as [u|] eqn:Hu; [|done]. rewrite Hr'; [done|]. intros Hin.
      assert (a = a0 + (phys u - phys t)); [|lia].
      apply (translate_inj (ram m) R (issued_in m) l4 a _ u (shift (phys u - phys t) t)); try done; try lia.
      * rewrite translate_same_page, Ht by lia. done.
      * cbn. lia.
Qed.

(** A function of the old view, address by address. *)
Definition new_byte (b : option Z) (v : option (Z * bool)) : option (Z * bool) :=
  match b with Some b => (fun x => (b, x.2)) <$> v | None => v end.

(** The bytes of [src] from index [k] on are at their place from [dst]; every
    other address is as before. *)
Definition overwritten (l4 dst : Z) (src : list Z) (k : Z) (m m' : Mem) : Prop :=
  forall a, 0 <= a < 2 ^ 48 ->
    view (ram m') l4 a =
      new_byte (if decide (dst + k <= a) then vget src (a - dst) else None) (view (ram m) l4 a).

Definition mapped_range (l4 start len : Z) (m : Mem) : Prop :=
  forall i, 0 <= i < len -> is_Some (translate (ram m) l4 (start + i)).

Lemma view_shift r l4 a0 a t :
  0 <= a0 <= a -> a0 mod 4096 + (a - a0) < 4096 -> translate r l4 a0 = Some t ->
  view r l4 a = Some (r (phys t + (a - a0)), contains (flags t) WRITABLE).
Proof.
  intros Ha Hp Ht. unfold view. replace a with (a0 + (a - a0)) at 1 by lia.
  by rewrite translate_same_page, Ht by lia.
Qed.

(** One chunk of a copy: [r'] has the bytes [k, k + count) of [src] behind
    [a0]. *)
Lemma chunk_written R l4 m r' a0 t src k count :
  space_inv m R -> R l4 -> 0 <= a0 -> a0 + count <= 2 ^ 48 -> translate (ram m) l4 a0 = Some t ->
  0 <= k -> 0 <= count -> k + count <= vlen src -> a0 mod 4096 + count <= 4096 ->
  ram_eq r' (write_bytes (ram m) (phys t) (slice src k count)) ->
  local_change 4 R l4 m (set_ram r' m) /\
  (forall a, translate r' l4 a = translate (ram m) l4 a) /\
  (forall a, 0 <= a < 2 ^ 48 -> view r' l4 a =
     new_byte (if decide (a0 <= a < a0 + count) then vget src (k + (a - a0)) else None) (view (ram m) l4 a)).
Proof.
  intros I HR Ha0 H48 Ht Hk Hc Hl Hp Hr.
  destruct (user_write R l4 m r' a0 t count) as (LC & Htr & Hv); try done.
  { intros x Hx. rewrite Hr, write_bytes_at, vget_slice by lia. by rewrite decide_False by lia. }
  split; [done|]. split; [done|]. intros a Ha. rewrite Hv by done. case_decide as D; [|done].
  rewrite Hr, write_bytes_at. replace (phys t + (a - a0) - phys t) with (a - a0) by lia.
  rewrite vget_slice, decide_True by lia.
  destruct (vget_is_Some src (k + (a - a0))) as [b ->]; [lia|].
  by rewrite (view_shift (ram m) l4 a0 a t) by (done || lia).
Qed.

Lemma page_chunk a t rest :
  0 <= a -> phys t mod 4096 = a mod 4096 -> 0 < rest ->
  let count := Z.min rest (PAGE_SIZE - Z.land (phys t) (PAGE_SIZE - 1)) in
  0 < count <= rest /\ a mod 4096 + count <= 4096.
Proof.
  intros Ha Hp Hr count. pose proof (chunk_pos rest (phys t) Hr) as Hc. fold count in Hc.
  subst count. change (PAGE_SIZE - 1) with 4095 in *. rewrite land_fff, Hp in *. unfold PAGE_SIZE in *. lia.
Qed.

Lemma translate_user_run self a m s :
  memory_state m = Some s ->
  translate_user self a m = Done (translate (ram m) (level_4_frame self) a, m).
Proof. intros Hs. unfold translate_user. by rewrite (with_state_run _ _ _ Hs). Qed.

(** What a copy of [src] to [dst] does, from index [k] on. *)
Record copy_post {E} (R : Z -> Prop) (l4 dst : Z) (src : list Z) (k : Z) (m : Mem)
    (res : result E unit) (m' : Mem) : Prop := mkCopyPost {
  cp_change : local_change 4 R l4 m m';
  cp_pages a : translate (ram m') l4 a = translate (ram m) l4 a;
  cp_bytes : res = Ok tt -> overwritten l4 dst src k m m';
  cp_total : mapped_range l4 dst (vlen src) m -> res = Ok tt
}.

Lemma copy_post_end {E} R l4 dst src m :
  space_inv m R -> @copy_post E R l4 dst src (vlen src) m (Ok tt) m.
Proof.
  intros I. constructor; [by apply lc_refl|done| |done]. intros _ a Ha.
  case_decide; [|done]. by rewrite (proj2 (vget_None _ _)) by lia.
Qed.

Lemma copy_post_unmapped {E} R l4 dst src k m (e : E) :
  space_inv m R -> 0 <= k < vlen src -> translate (ram m) l4 (dst + k) = None ->
  copy_post R l4 dst src k m (Err e) m.
Proof.
  intros I Hk Ht. constructor; [by apply lc_refl|done|done|]. intros Hm.
  destruct (Hm k Hk) as [t E']. congruence.
Qed.

Lemma copy_post_step {E} R l4 dst src k count m r1 t (res : result E unit) m2 :
  space_inv m R -> R l4 -> 0 <= dst -> dst + vlen src <= 2 ^ 48 -> 0 <= k -> 0 <= count ->
  k + count <= vlen src -> (dst + k) mod 4096 + count <= 4096 -> translate (ram m) l4 (dst + k) = Some t ->
  ram_eq r1 (write_bytes (ram m) (phys t) (slice src k count)) ->
  (space_inv (set_ram r1 m) R -> copy_post R l4 dst src (k + count) (set_ram r1 m) res m2) ->
  copy_post R l4 dst src k m res m2.
Proof.
  intros I HR Hd Hl Hk Hc Hkc Hp Ht Hr CP.
  destruct (chunk_written R l4 m r1 (dst + k) t src k count) as (LC1 & T1 & V1); try done; try lia.
  destruct (CP (lc_inv _ _ _ _ _ LC1)) as [LC2 T2 V2 O2]. cbn [ram set_ram] in T2, V2, O2.
  constructor; [by apply (lc_trans _ _ _ _ (set_ram r1 m))|intros a; by rewrite T2, T1| |].
  - intros Hok a Ha. rewrite (V2 Hok a Ha). cbn [ram set_ram]. rewrite V1 by done.
    replace (k + (a - (dst + k))) with (a - dst) by lia.
    unfold new_byte. destruct (decide (dst + (k + count) <= a)), (decide (dst + k <= a < dst + k + count)),
      (decide (dst + k <= a)); try lia; try done.
  - intros Hm. apply O2. intros i Hi. destruct (Hm i Hi) as [u Hu]. exists u. cbn [ram set_ram]. by rewrite T1.
Qed.

(** The head of a turn of either loop reaches the translation. *)
Ltac copy_turn Hs :=
  match goal with |- context [checked_add ?a ?b] =>
    rewrite (proj2 (checked_add_Some a b (a + b))) by (split; [lia|done]) end;
  wp_step; rewrite virt_addr_ok by (apply canonical_low; lia); wp_steps;
  eapply wp_intro; [exact (translate_user_run _ _ _ _ Hs)|]; cbv beta.

Lemma as_copy_loop_run fuel self dst k src m R :
  space_inv m R -> R (level_4_frame self) ->
  0 <= dst -> dst + vlen src <= 2 ^ 47 -> 0 <= k <= vlen src -> vlen src - k < Z.of_nat fuel ->
  wp (as_copy_loop fuel self dst k src) (copy_post R (level_4_frame self) dst src k m) m.
Proof.
  intros I HR Hd Hl. revert k m I.
  induction fuel as [|fuel IH]; intros k m I Hk Hf; [lia|]. cbn [as_copy_loop].
  destruct (Z.ltb_spec k (vlen src)) as [Hlt|Hge].
  2: { apply wp_ret. assert (k = vlen src) as -> by lia. by apply copy_post_end. }
  pose proof I as [(s & Hs & _) _]. copy_turn Hs.
  destruct (translate (ram m) _ (dst + k)) as [t|] eqn:Ht;
    [|apply wp_ret; apply copy_post_unmapped; (done || lia)].
  destruct (translate_offset _ _ (dst + k) t ltac:(lia) Ht) as [Ho _].
  destruct (page_chunk (dst + k) t (vlen src - k)) as [H1 H2]; [lia|done|lia|].
  set (count := Z.min _ _) in *. wp_step. unfold wp at 1. rewrite (with_state_run _ _ _ Hs). unfold st_modify at 1.
  set (r1 := write_bytes _ _ _).
  destruct (chunk_written R (level_4_frame self) m r1 (dst + k) t src k count) as (LC1 & _); try done; try lia.
  eapply wp_mono; [apply (IH (k + count) (set_ram r1 m) (lc_inv _ _ _ _ _ LC1)); lia|].
  intros res m2 CP. apply (copy_post_step R _ dst src k count m r1 t); (done || lia).
Qed.

(** [AddressSpace::copy_to_user] stores exactly the given bytes. *)
Lemma as_copy_run self dst src m R :
  space_inv m R -> R (level_4_frame self) -> 0 <= dst -> dst + vlen src <= 2 ^ 47 ->
  wp (as_copy_to_user self dst src) (copy_post R (level_4_frame self) dst src 0 m) m.
Proof.
  intros. pose proof (vlen_nonneg src). apply as_copy_loop_run; try done; unfold vlen in *; lia.
Qed.

Definition zeros (len : Z) : list Z := replicate (Z.to_nat len) 0.

Lemma vlen_zeros len : 0 <= len -> vlen (zeros len) = len.
Proof. intros H. unfold vlen, zeros. rewrite length_replicate. lia. Qed.

Lemma fill_is_write r p k count len :
  0 <= k -> 0 <= count -> k + count <= len ->
  ram_eq (fill_bytes r p count 0) (write_bytes r p (slice (zeros len) k count)).
Proof.
  intros Hk Hc Hl x. rewrite write_bytes_at. unfold fill_bytes. pose proof (vlen_zeros len ltac:(lia)) as Hz.
  rewrite vget_slice by lia. case_decide as D.
  - rewrite (proj2 (Z.leb_le _ _)), (proj2 (Z.ltb_lt _ _)) by lia. cbn.
    destruct (vget_is_Some (zeros len) (k + (x - p))) as [b Hb]; [lia|]. rewrite Hb.
    apply vget_elem_of in Hb. unfold zeros in Hb. by apply elem_of_replicate in Hb as [-> _].
  - destruct (Z.leb_spec p x); [|done]. cbn. by rewrite (proj2 (Z.ltb_ge _ _)) by lia.
Qed.

Lemma zero_loop_run fuel self dst k len m R :
  space_inv m R -> R (level_4_frame self) ->
  0 <= dst -> dst + len <= 2 ^ 47 -> 0 <= k <= len -> len - k < Z.of_nat fuel ->
  wp (zero_loop fuel self dst k len) (copy_post R (level_4_frame self) dst (zeros len) k m) m.
Proof.
  intros I HR Hd Hl. revert k m I.
  induction fuel as [|fuel IH]; intros k m I Hk Hf; [lia|]. cbn [zero_loop].
  pose proof (vlen_zeros len ltac:(lia)) as Hz. destruct (Z.ltb_spec k len) as [Hlt|Hge].
  2: { apply wp_ret. assert (k = vlen (zeros len)) as -> by lia. by apply copy_post_end. }
  pose proof I as [(s & Hs & _) _]. copy_turn Hs.
  destruct (translate (ram m) _ (dst + k)) as [t|] eqn:Ht;
    [|apply wp_ret; apply copy_post_unmapped; (done || lia)].
  destruct (translate_offset _ _ (dst + k) t ltac:(lia) Ht) as [Ho _].
  destruct (page_chunk (dst + k) t (len - k)) as [H1 H2]; [lia|done|lia|].
  set (count := Z.min _ _) in *. wp_step. unfold wp at 1. rewrite (with_state_run _ _ _ Hs). unfold st_modify at 1.
  set (r1 := fill_bytes _ _ _ _).
  pose proof (fill_is_write (ram m) (phys t) k count len ltac:(lia) ltac:(lia) ltac:(lia)) as Hr.
  destruct (chunk_written R (level_4_frame self) m r1 (dst + k) t (zeros len) k count) as (LC1 & _);
    try done; try lia.
  eapply wp_mono; [apply (IH (k + count) (set_ram r1 m) (lc_inv _ _ _ _ _ LC1)); lia|].
  intros res m2 CP. apply (copy_post_step R _ dst (zeros len) k count m r1 t); (done || lia).
Qed.

(** [AddressSpace::zero_user_range] clears exactly the given range. *)
Lemma zero_range_run self dst len m R :
  space_inv m R -> R (level_4_frame self) -> 0 <= dst -> 0 <= len -> dst + len <= 2 ^ 47 ->
  wp (zero_user_range self dst len) (copy_post R (level_4_frame self) dst (zeros len) 0 m) m.
Proof. intros. apply zero_loop_run; try done; lia. Qed.

(** ** Unmapping *)

(** The pages of [start, stop) are gone. *)
Definition region_removed (l4 start stop : Z) (m m' : Mem) : Prop :=
  forall a, 0 <= a < 2 ^ 48 ->
    translate (ram m') l4 a = if decide (start <= a < stop) then None else translate (ram m) l4 a.

Lemma walk_leaf r l q j : walk r l (q ++ [j]) = fst <$> leaf r l q j.
Proof.
  unfold leaf. rewrite walk_app. destruct (walk r l q) as [t|]; [|done]. cbn. by destruct (child r t j).
Qed.

(** [unmapped] in terms of memory states. *)
Lemma unmapped_page R l4 m r' address :
  space_inv m R -> R l4 -> 0 <= address < 2 ^ 48 ->
  unmapped R l4 (ram m) (issued_in m) r'
    (page_path (Page_containing_address address)) (p1_index (Page_containing_address address)) ->
  local_change 3 R l4 m (set_ram r' m) /\
  region_removed l4 (address - address mod 4096) (address - address mod 4096 + 4096) m (set_ram r' m).
Proof.
  intros [Ha F] HR Haddr [U1 U2 U3 U4]. split.
  - constructor; [done|done|done| |].
    + intros x Hx. apply U4. intros q h Hq H3 Hw. apply Hx; [by destruct (fo_node _ _ _ F l4 q h HR Hq Hw)|].
      right. by exists q.
    + intros l q f Hl Hq Hw. left. cbn [ram set_ram] in Hw.
      destruct (decide (length q <= 3)%nat) as [H3|H3]; [by rewrite <- U3|].
      destruct q as [|j q _] using rev_ind; [by cbn in H3|].
      assert (length q = 3%nat) as Hq3.
      { destruct Hq as [_ Hlen]. rewrite length_app in H3, Hlen. cbn in H3, Hlen. lia. }
      rewrite walk_leaf in *. rewrite U2 in Hw by done. by case_decide.
  - intros a Hra. cbn [ram set_ram].
    assert ((address - address mod 4096) mod 4096 = 0) as Hm by (by rewrite Zminus_mod_idemp_r, Z.sub_diag).
    pose proof (same_page_iff a _ Hm) as Hsp. destruct (page_path_ok (Page_containing_address a)) as [Hpa H3a].
    case_decide as D.
    + rewrite translate_page. unfold page_at. cbv zeta. rewrite (U2 l4) by done. rewrite decide_True; [done|].
      rewrite !page_containing_address_spec by lia. by rewrite (proj2 Hsp D).
    + apply translate_leaf. rewrite (U2 l4) by done. rewrite decide_False; [done|]. intros (_ & E1 & E2).
      apply (page_of_ne a address); [done|done| |done]. by rewrite Hsp.
Qed.

Lemma ram_eq_change n R l4 m r' :
  space_inv m R -> ram_eq r' (ram m) -> local_change n R l4 m (set_ram r' m) /\ same_pages l4 m (set_ram r' m).
Proof.
  intros [Ha F] Hr. assert (ram_eq (ram m) r') as Hr' by (intros x; by rewrite Hr). split.
  - constructor; [done| |done|intros x _; apply Hr|].
    + split; [done|]. by apply (forest_ext (ram m)).
    + intros l q f Hl Hq Hw. left. by rewrite (walk_ext (ram m) r').
  - intros a _. apply translate_leaf. symmetry. by apply leaf_ext.
Qed.

Lemma translate_unmappable r l4 a t :
  translate r l4 a = Some t -> exists r', unmap r l4 (Page_containing_address a) = (Ok tt, r').
Proof.
  unfold translate. set (p := Page_containing_address a). destruct (negb _); [done|].
  destruct (entry_frame (read_entry r l4 (p4_index p))) as [l3|] eqn:E4; [|done]. destruct (negb _); [done|].
  destruct (entry_frame (read_entry r l3 (p3_index p))) as [l2|] eqn:E3; [|done]. destruct (negb _); [done|].
  destruct (entry_frame (read_entry r l2 (p2_index p))) as [l1|] eqn:E2; [|done]. destruct (negb _); [done|].
  destruct (entry_frame (read_entry r l1 (p1_index p))) as [f|] eqn:E1; [|done]. intros _.
  by apply (unmap_present r l4 p l3 l2 l1 f).
Qed.

(** [unmap_page] removes one page; it succeeds on a mapped page. *)
Lemma unmap_page_run self address m R :
  space_inv m R -> R (level_4_frame self) -> 2 ^ 39 <= address < 2 ^ 40 -> address mod 4096 = 0 ->
  wp (unmap_page self address) (fun res m' =>
    local_change 3 R (level_4_frame self) m m' /\
    (res = Ok tt -> region_removed (level_4_frame self) address (address + 4096) m m') /\
    (is_Some (translate (ram m) (level_4_frame self) address) -> res = Ok tt)) m.
Proof.
  intros I HR Ha Hal. pose proof I as [(s & Hs & _) F]. unfold unmap_page, wp.
  rewrite (with_state_run _ _ _ Hs). unfold st_bind, st_get.
  pose proof (unmap_forest R _ HR (ram m) (issued_in m) (Page_containing_address address) F (user_slot _ Ha)) as H.
  destruct (unmap (ram m) _ _) as [[[]|e] r'] eqn:E; unfold st_put, st_ret; cbn [map_err].
  - destruct (unmapped_page R _ m r' address I HR ltac:(lia) H) as [LC RR]. rewrite Hal, Z.sub_0_r in RR. done.
  - destruct (ram_eq_change 3 R (level_4_frame self) m r' I H) as [LC _]. split; [done|]. split; [done|].
    intros [t Ht]. apply translate_unmappable in Ht as [r'' Hu]. congruence.
Qed.

Lemma page_step address stop :
  address mod 4096 = 0 -> stop mod 4096 = 0 -> address < stop ->
  address + 4096 <= stop /\ (address + 4096) mod 4096 = 0.
Proof.
  intros Ha Hs Hlt. pose proof (Z.div_mod address 4096). pose proof (Z.div_mod stop 4096). split; [lia|].
  rewrite <- Zplus_mod_idemp_r. change (4096 mod 4096) with 0. by rewrite Z.add_0_r.
Qed.

Lemma unmap_loop_run fuel self address stop m R :
  space_inv m R -> R (level_4_frame self) ->
  address mod 4096 = 0 -> stop mod 4096 = 0 -> 2 ^ 39 <= address <= stop -> stop <= 2 ^ 40 ->
  stop <= address + 4096 * (Z.of_nat fuel - 1) ->
  wp (unmap_loop fuel self address stop) (fun res m' =>
    local_change 3 R (level_4_frame self) m m' /\
    (res = Ok tt -> region_removed (level_4_frame self) address stop m m') /\
    (mapped_range (level_4_frame self) address (stop - address) m -> res = Ok tt)) m.
Proof.
  intros I HR. revert address m I. induction fuel as [|fuel IH]; intros address m I Ha Hs Hr Hstop Hf; [lia|].
  cbn [unmap_loop]. destruct (Z.ltb_spec address stop) as [Hlt|Hge].
  2: { apply wp_ret. split; [by apply lc_refl|]. split; [|done]. intros _ a _. by rewrite decide_False by lia. }
  wp_step. rewrite virt_addr_ok by (apply canonical_low; lia). wp_steps.
  eapply wp_mono; [apply (unmap_page_run self address m R); (done || lia)|].
  intros res m1 (LC1 & RR1 & T1). destruct res as [[]|e].
  2: { split; [done|]. split; [done|]. intros Hm. destruct T1; [|done].
       destruct (Hm 0) as [t Ht]; [lia|]. exists t. by rewrite Z.add_0_r in Ht. }
  rewrite (proj2 (checked_add_Some address PAGE_SIZE (address + 4096))) by (unfold PAGE_SIZE; lia).
  destruct (page_step address stop Ha Hs Hlt) as [Hle Hmod].
  eapply wp_mono; [apply IH; [exact (lc_inv _ _ _ _ _ LC1)|done|done|lia|done|lia]|].
  intros res m2 (LC2 & RR2 & T2). split; [by apply (lc_trans _ _ _ _ m1)|]. split.
  - intros E a Hra. rewrite (RR2 E a Hra), (RR1 eq_refl a Hra).
    destruct (decide (address + 4096 <= a < stop)), (decide (address <= a < address + 4096)),
      (decide (address <= a < stop)); try done; lia.
  - intros Hm. apply T2. intros i Hi. destruct (Hm (4096 + i)) as [t Ht]; [lia|]. exists t.
    rewrite (RR1 eq_refl), decide_False by lia. by rewrite <- Z.add_assoc.
Qed.

Lemma validate_page_range_spec start stop :
  0 <= start -> 0 <= stop ->
  validate_page_range start stop =
    if decide (start <= stop /\ start mod 4096 = 0 /\ stop mod 4096 = 0) then Ok tt else Err RangeOverflow.
Proof.
  intros. unfold validate_page_range. change (PAGE_SIZE - 1) with 4095. rewrite !land_fff.
  rewrite Z.gtb_ltb. destruct (Z.ltb_spec stop start), (Z.eqb_spec (start mod 4096) 0),
    (Z.eqb_spec (stop mod 4096) 0); cbn; case_decide; try done; lia.
Qed.

(** [unmap_user_heap_pages] removes the pages of [start, stop). *)
Lemma unmap_heap_run self start stop m R :
  space_inv m R -> R (level_4_frame self) ->
  start mod 4096 = 0 -> stop mod 4096 = 0 -> 2 ^ 39 <= start <= stop -> stop <= 2 ^ 40 ->
  wp (unmap_user_heap_pages self start stop) (fun res m' =>
    local_change 3 R (level_4_frame self) m m' /\
    (res = Ok tt -> region_removed (level_4_frame self) start stop m m') /\
    (mapped_range (level_4_frame self) start (stop - start) m -> res = Ok tt)) m.
Proof.
  intros I HR Ha Hs Hr Hstop. unfold unmap_user_heap_pages.
  rewrite validate_page_range_spec, decide_True by (done || lia). wp_steps.
  apply unmap_loop_run; try done. apply page_fuel_enough. lia.
Qed.

(** ** Growing the heap *)

Definition same_view (l4 : Z) (m m' : Mem) : Prop :=
  forall a, 0 <= a < 2 ^ 48 -> view (ram m') l4 a = view (ram m) l4 a.

Definition heap_grown (l4 start stop : Z) (m m' : Mem) : Prop :=
  (forall a, start <= a < stop -> view (ram m) l4 a = None) /\ region_added l4 start stop true m m'.

Lemma view_None r l4 a : view r l4 a = None <-> translate r l4 a = None.
Proof. unfold view. by destruct (translate r l4 a). Qed.

Lemma region_removed_view R l4 start stop m m' a :
  space_inv m R -> R l4 -> local_change 3 R l4 m m' -> region_removed l4 start stop m m' -> 0 <= a < 2 ^ 48 ->
  view (ram m') l4 a = if decide (start <= a < stop) then None else view (ram m) l4 a.
Proof.
  intros I HR LC RR Ha. unfold view. rewrite (RR a Ha). case_decide; [done|].
  destruct (translate (ram m) l4 a) as [t|] eqn:Ht; [|done]. by rewrite (lc_data R l4 m m' a t).
Qed.

(** The rollback: removing the pages added since [m0] restores its view. *)
Lemma rollback_view R l4 start address m0 m m' :
  space_inv m R -> R l4 -> 0 <= start -> address <= 2 ^ 48 -> local_change 3 R l4 m m' ->
  heap_grown l4 start address m0 m -> region_removed l4 start address m m' -> same_view l4 m0 m'.
Proof.
  intros I HR Hs Ha LC [HN HG] RR a Hra. rewrite (region_removed_view R l4 start address m m' a) by done.
  case_decide as D; [by rewrite HN|]. rewrite (HG a Hra). by rewrite decide_False.
Qed.

Lemma heap_grown_page R l4 start address frame m0 m m' :
  space_inv m R -> R l4 -> local_change 3 R l4 m m' -> 0 <= start <= address -> address + 4096 <= 2 ^ 48 ->
  address mod 4096 = 0 -> heap_grown l4 start address m0 m ->
  page_added l4 address frame (page_table_flags read_write) m m' ->
  heap_grown l4 start (address + 4096) m0 m'.
Proof.
  intros I HR LC Hs Hle Ha [HN HG] PA.
  assert (forall a, address <= a < address + 4096 -> view (ram m) l4 a = None) as Hnew.
  { intros a Hra. apply view_None. replace a with (address + (a - address)) by lia.
    rewrite translate_same_page by lia. by rewrite (pa_before _ _ _ _ _ _ PA). }
  split.
  - intros a Hra. destruct (decide (a < address)); [apply HN; lia|].
    pose proof (Hnew a ltac:(lia)) as Hv. rewrite (HG a ltac:(lia)) in Hv. by rewrite decide_False in Hv by lia.
  - intros a Hra. rewrite (page_added_view R l4 address frame _ m m' a) by done. rewrite (HG a Hra).
    rewrite Ha, Z.sub_0_r. pose proof (same_page_iff a address Ha).
    change (writable_flag (page_table_flags read_write)) with true.
    destruct (decide (a - a mod 4096 = address)), (decide (start <= a < address)),
      (decide (start <= a < address + 4096)); try done; lia.
Qed.

Definition heap_outcome {E} (l4 start stop : Z) (m : Mem) (res : result E unit) (m' : Mem) : Prop :=
  match res with
  | Ok _ => heap_grown l4 start stop m m'
  | Err _ => same_view l4 m m'
  end.

Lemma heap_grown_mapped l4 start address m0 m :
  0 <= start -> address <= 2 ^ 48 -> heap_grown l4 start address m0 m ->
  mapped_range l4 start (address - start) m.
Proof.
  intros Hs Ha [_ HG] i Hi. pose proof (HG (start + i) ltac:(lia)) as Hv. rewrite decide_True in Hv by lia.
  unfold view in Hv. by destruct (translate (ram m) l4 (start + i)).
Qed.

Lemma map_heap_loop_run fuel self start address stop m0 m R :
  space_inv m R -> R (level_4_frame self) -> local_change 3 R (level_4_frame self) m0 m ->
  heap_grown (level_4_frame self) start address m0 m ->
  start mod 4096 = 0 -> address mod 4096 = 0 -> stop mod 4096 = 0 ->
  2 ^ 39 <= start <= address -> address <= stop -> stop <= 2 ^ 40 ->
  stop <= address + 4096 * (Z.of_nat fuel - 1) ->
  wp (map_heap_loop fuel self start address stop) (fun res m' =>
    local_change 3 R (level_4_frame self) m0 m' /\
    heap_outcome (level_4_frame self) start stop m0 res m') m.
Proof.
  intros I HR. revert address m I.
  induction fuel as [|fuel IH]; intros address m I LC HG Hms Hma Hst H1 H2 H3 Hf; [lia|]. cbn [map_heap_loop].
  destruct (Z.ltb_spec address stop) as [Hlt|Hge].
  2: { apply wp_ret. split; [done|]. by replace stop with address by lia. }
  wp_step. rewrite virt_addr_ok by (apply canonical_low; lia). wp_steps.
  destruct (page_flags_ok read_write) as [Hfl _].
  eapply wp_mono; [by apply (map_zeroed_run self address _ m R I HR); [lia|]|].
  intros res m1 [LC1 Z1]. pose proof (lc_trans _ _ _ _ m _ HR LC LC1) as LC01.
  pose proof (lc_inv _ _ _ _ _ LC1) as I1. destruct res as [frame|e]; cbn [zeroed_outcome] in Z1.
  - rewrite (proj2 (checked_add_Some address PAGE_SIZE (address + 4096))) by (unfold PAGE_SIZE; lia).
    destruct (page_step address stop Hma Hst Hlt) as [Hle Hmod].
    apply (IH (address + 4096) m1); try done; try lia.
    apply (heap_grown_page R _ start address frame m0 m m1); (done || lia).
  - wp_step. wp_steps.
    assert (heap_grown (level_4_frame self) start address m0 m1) as HG1.
    { destruct HG as [HN HG]. split; [done|]. intros a Ha.
      by rewrite (same_pages_view R _ m m1 a), HG by done. }
    eapply wp_mono; [apply (unmap_heap_run self start address m1 R); (done || lia)|].
    intros res m2 (LC2 & RR & T2). apply wp_ret. split; [by apply (lc_trans _ _ _ _ m1)|].
    apply (rollback_view R _ start address m0 m1); try done; try lia.
    apply RR, T2, (heap_grown_mapped _ _ _ m0); (done || lia).
Qed.

(** [map_user_heap_pages] adds zeroed writable pages, all of them or none. *)
Lemma map_heap_run self start stop m R :
  space_inv m R -> R (level_4_frame self) ->
  start mod 4096 = 0 -> stop mod 4096 = 0 -> 2 ^ 39 <= start <= stop -> stop <= 2 ^ 40 ->
  wp (map_user_heap_pages self start stop) (fun res m' =>
    local_change 3 R (level_4_frame self) m m' /\
    heap_outcome (level_4_frame self) start stop m res m') m.
Proof.
  intros I HR Ha Hs Hr Hstop. unfold map_user_heap_pages.
  rewrite validate_page_range_spec, decide_True by (done || lia). wp_steps.
  apply map_heap_loop_run; try done; [by apply lc_refl| |lia|lia|apply page_fuel_enough; lia].
  split; [lia|]. intros a _. by rewrite decide_False by lia.
Qed.

(** ** A new address space *)

(** The kernel's level-4 table holds 64-bit entries. *)
Definition kernel_table (m : Mem) : Prop :=
  exists s, memory_state m = Some s /\
    forall x, ms_kernel_level_4_frame s <= x < ms_kernel_level_4_frame s + 4096 -> is_byte (ram m x).

Definition with_root (R : Z -> Prop) (l4 : Z) : Z -> Prop := fun l => R l \/ l = l4.

Lemma read_entry_u64 r t i :
  (forall x, t <= x < t + 4096 -> is_byte (r x)) -> 0 <= i < 512 -> is_u64 (read_entry r t i).
Proof.
  intros Hb Hi. unfold read_entry. pose proof (from_le_bytes_range (read_bytes r (t + 8 * i) 8)) as H.
  apply H. apply Forall_forall. intros y Hy. unfold read_bytes in Hy. apply list_elem_of_fmap in Hy as (j & -> & Hj).
  apply elem_of_seq in Hj. apply Hb. lia.
Qed.

(** An entry of the kernel's table as a user table has it. *)
Definition closed_entry (e : Z) : Z :=
  if negb (entry_is_unused e) then entry_set_flags e (remove (entry_flags e) USER_ACCESSIBLE) else e.

Lemma closed_entry_target e : is_u64 e -> is_u64 (closed_entry e) /\ target (closed_entry e) = None.
Proof.
  intros He. unfold closed_entry. rewrite entry_unused_zero.
  destruct (Z.eqb_spec e 0) as [->|Hne]; cbn [negb].
  - split; [done|]. unfold target. by rewrite entry_flags_zero.
  - destruct (set_flags_remove e USER_ACCESSIBLE He) as [Hu Hf]; [done|]. split; [done|].
    unfold target. rewrite Hf. unfold entry_allows_user, contains.
    destruct (Z.eqb_spec (Z.land (remove (entry_flags e) USER_ACCESSIBLE) (Z.lor PRESENT USER_ACCESSIBLE))
      (Z.lor PRESENT USER_ACCESSIBLE)) as [E|]; [|done].
    apply (f_equal (fun z => Z.testbit z 2)) in E. unfold remove in E.
    rewrite Z.land_spec, Z.ldiff_spec in E. change (Z.testbit USER_ACCESSIBLE 2) with true in E.
    by rewrite Bool.andb_false_r in E.
Qed.

Lemma copy_kernel_entries_run k l4 indices m :
  phys_frame k -> phys_frame l4 -> k <> l4 -> Forall (fun i => 0 <= i < 512) indices ->
  (forall x, k <= x < k + 4096 -> is_byte (ram m x)) ->
  wp (copy_kernel_entries k l4 indices) (fun res m' =>
    m' = set_ram (ram m') m /\ (forall x, ~ (l4 <= x < l4 + 4096) -> ram m' x = ram m x) /\
    (res = Ok tt -> forall j, 0 <= j < 512 -> read_entry (ram m') l4 j =
       if decide (j ∈ indices /\ j <> 1) then closed_entry (read_entry (ram m) k j)
       else read_entry (ram m) l4 j)) m.
Proof.
  intros [Hk _] [Hl _] Hne. revert m. induction indices as [|i rest IH]; intros m Hi Hb; cbn [copy_kernel_entries].
  { apply wp_ret. split; [by destruct m|]. split; [done|]. intros _ j Hj.
    rewrite decide_False; [done|]. by intros [?%elem_of_nil _]. }
  apply Forall_cons in Hi as [Hi Hrest]. wp_step. wp_step. cbv beta. unfold USER_P4_INDEX.
  destruct (Z.eqb_spec i 1) as [->|Hi1].
  - destruct (negb _). { apply wp_ret. split; [by destruct m|by split]. }
    eapply wp_mono; [apply (IH m Hrest Hb)|]. intros res m' (E & Hx & Hr). split; [done|]. split; [done|].
    intros Hok j Hj. rewrite (Hr Hok j Hj). apply decide_ext. rewrite elem_of_cons. tauto.
  - wp_step. wp_step. change (if negb _ then _ else _) with (closed_entry (read_entry (ram m) k i)).
    set (e := closed_entry _). set (m1 := set_ram _ m).
    assert (is_u64 e) as He by (apply closed_entry_target; by apply read_entry_u64).
    eapply wp_mono; [apply (IH m1 Hrest)|].
    { intros x Hx. cbn [ram set_ram m1]. rewrite write_entry_other; [by apply Hb|done|].
      intros Hx'. apply Hne. by apply (frames_overlap k l4 x). }
    intros res m' (E & Hx & Hr). split; [done|]. split.
    { intros x Hxl. rewrite Hx by done. cbn [ram set_ram m1]. by apply write_entry_other. }
    intros Hok j Hj. rewrite (Hr Hok j Hj). cbn [ram set_ram m1].
    rewrite !read_write_entry by done. rewrite (decide_False (P := k = l4 /\ j = i)) by (by intros [? _]).
    destruct (decide (l4 = l4 /\ j = i)) as [[_ ->]|Hji].
    + rewrite (decide_True (P := i ∈ i :: rest /\ i <> 1)) by (split; [left|done]). by case_decide.
    + apply decide_ext. rewrite elem_of_cons. assert (j <> i) by (intros ->; by apply Hji). tauto.
Qed.

(** A fresh table without user entries is a new root of the forest. *)
Lemma forest_add_root r R o o' l4 :
  forest r R o -> (forall f, o f -> o' f) -> phys_frame l4 -> o' l4 -> not_node r R l4 ->
  (forall i, 0 <= i < 512 -> child r l4 i = None) -> read_entry r l4 1 = 0 ->
  forest r (with_root R l4) o'.
Proof.
  intros F Ho Hp Hl Hn Hc H1.
  assert (forall q f, path q -> walk r l4 q = Some f -> q = [] /\ f = l4) as Hroot.
  { intros [|i q] f Hq Hw; [by injection Hw|]. cbn in Hw. rewrite Hc in Hw; [done|].
    destruct Hq as [Hq _]. by apply Forall_cons in Hq as [? _]. }
  constructor.
  - intros l q f [Hr| ->] Hq Hw; [destruct (fo_node _ _ _ F l q f Hr Hq Hw); auto|].
    by destruct (Hroot q f Hq Hw) as [_ ->].
  - intros l l' q q' f [Hr| ->] [Hr'| ->] Hq Hq' Hw Hw'; [by apply (fo_inj _ _ _ F l l' q q' f)| | |].
    + destruct (Hroot q' f Hq' Hw') as [_ ->]. by apply Hn in Hw.
    + destruct (Hroot q f Hq Hw) as [_ ->]. by apply Hn in Hw'.
    + by destruct (Hroot q f Hq Hw) as [-> _], (Hroot q' f Hq' Hw') as [-> _].
  - intros l q t i [Hr| ->] Hq Hw Hi C; [by apply (fo_entry _ _ _ F l q t i)|].
    destruct (Hroot q t (path_prefix _ _ Hq) Hw) as [-> ->]. by rewrite Hi.
  - intros l i [Hr| ->] Hi Hne; [by apply (fo_kernel _ _ _ F)|by apply Hc].
Qed.

(** What [new_user] does when it succeeds: a root that was not allocated
    before, no user page, the kernel's entries closed to user mode, and no
    other byte changed. *)
Record space_created (R : Z -> Prop) (l4 : Z) (m m' : Mem) : Prop := mkSpaceCreated {
  cr_ctl : same_ctl m m';
  cr_inv : space_inv m' (with_root R l4);
  cr_table : kernel_table m';
  cr_fresh : ~ issued_in m l4;
  cr_issued f : issued_in m f -> issued_in m' f;
  cr_bytes x : ~ (l4 <= x < l4 + 4096) -> ram m' x = ram m x;
  cr_empty a : translate (ram m') l4 a = None;
  cr_kernel s i : memory_state m = Some s -> 0 <= i < 512 -> i <> 1 ->
    read_entry (ram m') l4 i = closed_entry (read_entry (ram m) (ms_kernel_level_4_frame s) i)
}.

Definition create_outcome {E} (R : Z -> Prop) (m : Mem) (res : result E AddressSpace) (m' : Mem) : Prop :=
  match res with
  | Ok self => space_created R (level_4_frame self) m m'
  | Err _ => kernel_table m' /\ forall l4, local_change 0 R l4 m m'
  end.

Lemma table_indices_all : Forall (fun i => 0 <= i < 512) table_indices /\
  forall j, 0 <= j < 512 -> j ∈ table_indices.
Proof.
  unfold table_indices. split.
  - apply Forall_forall. intros x Hx. apply list_elem_of_fmap in Hx as (i & -> & Hi). apply elem_of_seq in Hi. lia.
  - intros j Hj. apply list_elem_of_fmap. exists (Z.to_nat j). split; [lia|]. apply elem_of_seq. lia.
Qed.

(** The memory with the fresh table [l4], its other contents as before. *)
Lemma fresh_table R m s a1 l4 r' :
  space_inv m R -> memory_state m = Some s -> kernel_table m ->
  allocate_frame (frame_allocator s) = (Some l4, a1) ->
  (forall x, ~ (l4 <= x < l4 + 4096) -> r' x = ram m x) ->
  let m' := mkMem (Some (set_frame_allocator a1 s)) r' (cr3 m) in
  phys_frame l4 /\ ~ issued_in m l4 /\ l4 <> ms_kernel_level_4_frame s /\ issued_in m' l4 /\
  not_node r' R l4 /\ kernel_table m' /\ (forall l0, local_change 0 R l0 m m').
Proof.
  intros [(s' & Hs' & Ha) F] Hs (s'' & Hs'' & Hb) Hal Hr m'.
  assert (s' = s) as -> by congruence. assert (s'' = s) as -> by congruence.
  destruct (fs_some _ _ _ (boot_frame_source _) _ _ _ Ha Hal) as (Ha1 & Hphys & Hfresh & Hown).
  assert (forall f, issued_in m f <-> issued (frame_allocator s) f) as Hi by (intros; by apply issued_in_state).
  assert (forall f, issued_in m' f <-> issued a1 f) as Hi' by
    (intros f; apply (issued_in_state m' (set_frame_allocator a1 s) f eq_refl)).
  assert (forall l q h, R l -> path q -> walk (ram m) l q = Some h -> h <> l4) as Hne.
  { intros l q h Hl Hq Hw ->. destruct (fo_node _ _ _ F l q l4 Hl Hq Hw) as [_ H%Hi]. done. }
  destruct (forest_data (ram m) r' R (issued_in m) F) as (F1 & W & _).
  { intros l q h x Hl Hq Hlen Hw Hx. apply Hr. intros Hx'. apply (Hne l q h Hl Hq Hw).
    apply (frames_overlap h l4 x); try done; [|by destruct Hphys].
    by destruct (fo_node _ _ _ F l q h Hl Hq Hw) as [[? _] _]. }
  destruct Ha1 as [Am An Ap [Ak Aku]].
  assert (l4 <> ms_kernel_level_4_frame s) as Hk.
  { intros ->. apply Aku. destruct (proj2 (Hown (ms_kernel_level_4_frame s)) (or_intror eq_refl)) as (i & _ & Hv).
    by eapply vget_elem_of. }
  split; [done|]. split; [by rewrite Hi|]. split; [done|]. split; [apply Hi', Hown; by right|]. split; [|split].
  - intros l q Hl Hq. rewrite W by done. intros Hw. by apply (Hne l q l4).
  - exists (set_frame_allocator a1 s). split; [done|]. cbn [ms_kernel_level_4_frame set_frame_allocator ram m'].
    intros x Hx. rewrite Hr; [by apply Hb|]. intros Hx'. apply Hk. destruct Ak, Hphys. by apply (frames_overlap l4 _ x).
  - intros l0. assert (forall f, issued_in m f -> issued_in m' f) as Hmono.
    { intros f Hf%Hi. apply Hi', Hown. by left. }
    constructor; [by apply same_ctl_alloc| |done| |].
    + split; [by eexists|]. by eapply forest_weaken; [| |exact F1].
    + intros x Hx. apply Hr. apply Hx; [done|]. left. rewrite Hi, Hi'. split; [done|apply Hown; by right].
    + intros l q f Hl Hq Hw. left. by rewrite <- W.
Qed.

Lemma table_filled R m s a1 l4 m' :
  space_inv m R -> memory_state m = Some s -> kernel_table m ->
  allocate_frame (frame_allocator s) = (Some l4, a1) ->
  m' = mkMem (Some (set_frame_allocator a1 s)) (ram m') (cr3 m) ->
  (forall x, ~ (l4 <= x < l4 + 4096) -> ram m' x = ram m x) ->
  (forall i, 0 <= i < 512 -> i <> 1 ->
     read_entry (ram m') l4 i = closed_entry (read_entry (ram m) (ms_kernel_level_4_frame s) i)) ->
  read_entry (ram m') l4 1 = 0 ->
  space_created R l4 m m'.
Proof.
  intros I Hs K Hal Em Hx Hent H1.
  destruct (fresh_table R m s a1 l4 (ram m') I Hs K Hal Hx) as (Hp & Hf & _ & Hi & Hn & K' & LC).
  rewrite <- Em in Hi, K', LC. destruct K as (s2 & Hs2 & Hkb). assert (s2 = s) as -> by congruence.
  assert (forall i, 0 <= i < 512 -> child (ram m') l4 i = None) as Hchild.
  { intros i Hri. destruct (decide (i = 1)) as [->|Hi1]; [by apply child_zero|].
    rewrite child_target, Hent by done. by apply closed_entry_target, read_entry_u64. }
  destruct (LC l4) as [L1 [L2 L2'] L3 L4 L5]. constructor; try done.
  - split; [done|]. by apply (forest_add_root _ R (issued_in m')).
  - intros a. rewrite translate_page. unfold page_at, leaf, page_path. cbn [walk]. cbv zeta.
    rewrite Hchild; [done|]. destruct (page_path_ok (Page_containing_address a)) as [[Hq _] _].
    by apply Forall_cons in Hq as [? _].
  - intros s3 i Hs3. assert (s3 = s) as -> by congruence. apply Hent.
Qed.

(** [AddressSpace::new_user]. *)
Lemma new_user_run m R :
  space_inv m R -> kernel_table m -> wp new_user (create_outcome R m) m.
Proof.
  intros I K. pose proof I as [(s & Hs & Ha) F]. unfold new_user.
  destruct table_indices_all as [Hall Hin]. generalize dependent table_indices. intros indices Hall Hin.
  unfold wp. rewrite (with_state_run _ _ _ Hs).
  unfold st_bind at 1. unfold state_allocate_frame. rewrite (with_state_run _ _ _ Hs).
  destruct (allocate_frame (frame_allocator s)) as [[l4|] a1] eqn:Hal; unfold st_bind at 1, st_modify, st_ret.
  2: { destruct K as (s' & Hs' & Hb). assert (s' = s) as -> by congruence. split; [by eexists|].
       intros l4. by apply (alloc_failed R _ m s a1). }
  set (m0 := mkMem _ _ _). unfold st_bind at 1.
  destruct (fresh_table R m s a1 l4 (fill_bytes (ram m) l4 4096 0) I Hs K Hal) as
    (Hphys & Hfresh & Hne & Hi & _ & (s1 & [= <-] & Hb) & _); [intros; by apply fill_other|].
  assert (phys_frame (ms_kernel_level_4_frame s)) as Hk by (by destruct Ha as [_ _ _ [? _]]).
  apply wp_try. eapply wp_mono; [by apply copy_kernel_entries_run; [done|done|done|done|exact Hb]|].
  intros res m' (Em & Hx & Hr).
  assert (m' = mkMem (Some (set_frame_allocator a1 s)) (ram m') (cr3 m)) as Em' by (by rewrite Em).
  assert (forall x, ~ (l4 <= x < l4 + 4096) -> ram m' x = ram m x) as Hx'.
  { intros x Hxl. rewrite Hx by done. by apply fill_other. }
  destruct res as [[]|e].
  - specialize (Hr eq_refl). destruct Hphys as [Hl _], Hk as [Hk _].
    apply wp_ret. apply (table_filled R m s a1 l4 m'); try done.
    + intros i Hri Hi1. rewrite (Hr i Hri), decide_True by auto. cbn [ram m0 set_ram].
      by rewrite read_fill_entry, decide_False by done.
    + rewrite (Hr 1 ltac:(lia)), decide_False by (by intros [_ ?]). cbn [ram m0 set_ram].
      by rewrite read_fill_entry, decide_True.
  - destruct (fresh_table R m s a1 l4 (ram m') I Hs K Hal Hx') as (_ & _ & _ & _ & _ & K' & LC).
    by rewrite <- Em' in K', LC.
Qed.

(** The kernel's table is not touched by an operation on a user space. *)
Lemma lc_kernel_table n R l4 m m' :
  space_inv m R -> R l4 -> local_change n R l4 m m' -> kernel_table m -> kernel_table m'.
Proof.
  intros [(s & Hs & Ha) F] HR LC (s' & Hs' & Hb). assert (s' = s) as -> by congruence.
  pose proof (lc_inv _ _ _ _ _ LC) as [(s1 & Hs1 & [_ _ _ [Hk Hu]]) F1].
  assert (ms_kernel_level_4_frame s1 = ms_kernel_level_4_frame s) as Ek.
  { pose proof (sc_kernel _ _ (lc_ctl _ _ _ _ _ LC)) as E. unfold kernel_level_4_frame in E. by rewrite Hs, Hs1 in E. }
  exists s1. split; [done|]. rewrite Ek in *. intros x Hx. rewrite (lc_bytes _ _ _ _ _ LC); [by apply Hb|].
  intros f Hf Ht Hxf. assert (f = ms_kernel_level_4_frame s) as -> by (destruct Hf, Hk; by apply (frames_overlap f _ x)).
  assert (forall m0 s0, memory_state m0 = Some s0 -> issued_in m0 (ms_kernel_level_4_frame s) ->
    ms_kernel_level_4_frame s ∈ usable_frames (frame_allocator s0)) as Hin.
  { intros m0 s0 Hs0 Hi. apply (issued_in_state _ _ _ Hs0) in Hi as (i & _ & Hv). by eapply vget_elem_of. }
  destruct Ht as [[_ Hi]|(q & Hq & _ & Hw)]; [by apply Hu, (Hin m')|].
  destruct (fo_node _ _ _ F l4 q _ HR Hq Hw) as [_ Hi]. destruct Ha as [_ _ _ [_ Hu0]]. by apply Hu0, (Hin m).
Qed.
End ops.
