(* ===== verification/UserMemory.v ===== *)
(** * Checked user-memory access (src/src/user_memory.rs)

    The validators and the page-by-page copies that syscalls use on user
    pointers. The theorems relate the loops to a byte-at-a-time reading of
    user memory through the page tables. *)

From S2P Require Import Prelude X86 Memory AddressSpace.

Inductive UserMemoryError : Type :=
| AddressOverflow
| OutsideUserRange
| Unmapped
| NotWritable.

Inductive Access : Type := Read | Write.

(** The bounds of user memory, from src/src/user.rs. *)
Definition USER_BASE : Z := Z.shiftl USER_P4_INDEX 39.
Definition USER_STACK_TOP : Z := USER_BASE + 0x00800000.

Section user_memory.
Context {X : X86_64}.

Definition checked_offset (start offset : Z) : ST Mem (result UserMemoryError Z) :=
  match checked_add start offset with
  | None => st_ret (Err AddressOverflow)
  | Some a => let* va := virt_addr a in st_ret (Ok va)
  end.

Definition validate_user_byte (as_ : AddressSpace) (addr : Z) (access : Access) :
    ST Mem (result UserMemoryError UserTranslation) :=
  if negb ((USER_BASE <=? addr) && (addr <? USER_STACK_TOP)) then st_ret (Err OutsideUserRange)
  else
    let* t := translate_user as_ addr in
    match t with
    | None => st_ret (Err Unmapped)
    | Some translation =>
        match access with
        | Write => if negb (contains (flags translation) WRITABLE)
                   then st_ret (Err NotWritable) else st_ret (Ok translation)
        | Read => st_ret (Ok translation)
        end
    end.

(** [while page < end_addr] of [validate_user_range]. *)
Fixpoint validate_loop (fuel : nat) (as_ : AddressSpace) (page end_addr : Z) (access : Access) :
    ST Mem (result UserMemoryError unit) :=
  match fuel with
  | O => st_panic out_of_fuel
  | S fuel' =>
      if page <? end_addr then
        let* va := virt_addr page in
        let? _ := validate_user_byte as_ va access in
        match checked_add page PAGE_SIZE with
        | None => st_ret (Err AddressOverflow)
        | Some page' => validate_loop fuel' as_ page' end_addr access
        end
      else st_ret (Ok tt)
  end.

Definition validate_user_range (as_ : AddressSpace) (start len : Z) (access : Access) :
    ST Mem (result UserMemoryError unit) :=
  if len =? 0 then st_ret (Ok tt)
  else
    match checked_add start len with
    | None => st_ret (Err AddressOverflow)
    | Some end_addr =>
        if (start <? USER_BASE) || (end_addr >? USER_STACK_TOP)
        then st_ret (Err OutsideUserRange)
        else
          let page := align_down start PAGE_SIZE in
          validate_loop (page_fuel page end_addr) as_ page end_addr access
    end.

Definition validate_user_read_range (as_ : AddressSpace) (start len : Z) :=
  validate_user_range as_ start len Read.

Definition validate_user_write_range (as_ : AddressSpace) (start len : Z) :=
  validate_user_range as_ start len Write.

(** [while copied < dst.len()] of [copy_from_user]; [dst] holds the bytes
    copied so far. *)
Fixpoint copy_from_loop (fuel : nat) (as_ : AddressSpace) (dst : list Z) (len src_user : Z) :
    ST Mem (result UserMemoryError (list Z)) :=
  match fuel with
  | O => st_panic out_of_fuel
  | S fuel' =>
      let copied := vlen dst in
      if copied <? len then
        let? current := checked_offset src_user copied in
        let? translation := validate_user_byte as_ current Read in
        let page_offset := Z.land (phys translation) (PAGE_SIZE - 1) in
        let count := Z.min (len - copied) (PAGE_SIZE - page_offset) in
        let* chunk := with_state (fun _ =>
          st_gets (fun m => read_bytes (ram m) (phys translation) (Z.to_nat count))) in
        copy_from_loop fuel' as_ (dst ++ chunk) len src_user
      else st_ret (Ok dst)
  end.

(** The [len] bytes at [src_user]. On an error the caller does not read the
    destination buffer. *)
Definition copy_from_user (as_ : AddressSpace) (len src_user : Z) :
    ST Mem (result UserMemoryError (list Z)) :=
  copy_from_loop (S (Z.to_nat len)) as_ [] len src_user.

(** [while copied < src.len()] of [copy_to_user]. *)
Fixpoint copy_to_loop (fuel : nat) (as_ : AddressSpace) (dst_user copied : Z) (src : list Z) :
    ST Mem (result UserMemoryError unit) :=
  match fuel with
  | O => st_panic out_of_fuel
  | S fuel' =>
      if copied <? vlen src then
        let? current := checked_offset dst_user copied in
        let? translation := validate_user_byte as_ current Write in
        let page_offset := Z.land (phys translation) (PAGE_SIZE - 1) in
        let count := Z.min (vlen src - copied) (PAGE_SIZE - page_offset) in
        with_state (fun _ => st_modify (fun m =>
          set_ram (write_bytes (ram m) (phys translation) (slice src copied count)) m)) ;;;
        copy_to_loop fuel' as_ dst_user (copied + count) src
      else st_ret (Ok tt)
  end.

Definition copy_to_user (as_ : AddressSpace) (dst_user : Z) (src : list Z) :
    ST Mem (result UserMemoryError unit) :=
  copy_to_loop (S (length src)) as_ dst_user 0 src.
End user_memory.

(** ** Byte-at-a-time reference definitions *)

Section reference.
Context {X : X86_64}.

(** The physical address behind user address [a], or why there is none. *)
Definition user_byte (r : Ram) (as_ : AddressSpace) (access : Access) (a : Z) :
    result UserMemoryError Z :=
  if (USER_BASE <=? a) && (a <? USER_STACK_TOP) then
    match translate r (level_4_frame as_) a with
    | None => Err Unmapped
    | Some t =>
        match access with
        | Write => if contains (flags t) WRITABLE then Ok (phys t) else Err NotWritable
        | Read => Ok (phys t)
        end
    end
  else Err OutsideUserRange.

(** Reading [n] bytes one at a time, up to the first that fails. *)
Fixpoint read_user (r : Ram) (as_ : AddressSpace) (a : Z) (n : nat) :
    result UserMemoryError (list Z) :=
  match n with
  | O => Ok []
  | S n' => let! p := user_byte r as_ Read a in
            let! rest := read_user r as_ (a + 1) n' in
            Ok (r p :: rest)
  end.
End reference.

Section user_memory_facts.
Context {X : X86_64} {XS : X86_64_Spec X}.

Lemma validate_user_byte_run as_ a access m :
  mem_ok m ->
  exists r, validate_user_byte as_ a access m = Done (r, m) /\
    result_map phys r = user_byte (ram m) as_ access a /\
    (forall t, r = Ok t -> translate (ram m) (level_4_frame as_) a = Some t /\
                           USER_BASE <= a < USER_STACK_TOP /\
                           (access = Write -> contains (flags t) WRITABLE = true)).
Proof.
  intros [s Hs]. unfold validate_user_byte, user_byte.
  destruct ((USER_BASE <=? a) && (a <? USER_STACK_TOP)) eqn:E; cbn [negb].
  - bool_to_prop. unfold translate_user, with_state, st_bind, st_get, st_gets. rewrite Hs.
    destruct (translate _ _ a) as [t|]; [destruct access; [|destruct (contains _ _) eqn:W]|];
      (eexists; split; [done|]; split; [done|]); intros ? Hr; by simplify_eq.
  - eexists. split; [done|]. split; [done|]. intros ? Hr. by simplify_eq.
Qed.

Lemma user_byte_Ok r as_ access a p :
  user_byte r as_ access a = Ok p ->
  USER_BASE <= a < USER_STACK_TOP /\
  exists t, translate r (level_4_frame as_) a = Some t /\ phys t = p /\
            (access = Write -> contains (flags t) WRITABLE = true).
Proof.
  unfold user_byte. destruct (_ && _) eqn:E; [|done]. bool_to_prop.
  destruct (translate _ _ a) as [t|]; [|done].
  destruct access; [intros [= <-]; split; [lia|]; by exists t|].
  destruct (contains _ _) eqn:W; [|done]. intros [= <-]. split; [lia|]. by exists t.
Qed.

(** A page is accessible as a whole, and is contiguous in memory. *)
Lemma user_byte_same_page r as_ access a k p :
  0 <= k -> a mod 4096 + k < 4096 ->
  user_byte r as_ access a = Ok p -> user_byte r as_ access (a + k) = Ok (p + k).
Proof.
  intros Hk Hp (Ha & t & Ht & <- & Hw)%user_byte_Ok. unfold user_byte.
  assert (USER_BASE = 2 ^ 39 /\ USER_STACK_TOP = 2 ^ 39 + 8388608) as [Hb Hs] by done.
  assert (a + k < USER_STACK_TOP) as Hend.
  { pose proof (Z.div_mod a 4096). assert (a / 4096 < 2 ^ 27 + 2048) by
      (apply Z.div_lt_upper_bound; lia). lia. }
  rewrite (proj2 (Z.leb_le _ _)), (proj2 (Z.ltb_lt _ _)) by lia. cbn [andb].
  rewrite translate_same_page, Ht by lia. cbn. destruct access; [done|]. by rewrite Hw.
Qed.

Lemma user_byte_offset r as_ access a p :
  user_byte r as_ access a = Ok p -> p mod 4096 = a mod 4096.
Proof.
  intros (Ha & t & Ht & <- & _)%user_byte_Ok.
  assert (USER_BASE = 2 ^ 39) by done. eapply translate_offset; [lia|done].
Qed.

Lemma checked_offset_run a k m :
  canonical (a + k) ->
  checked_offset a k m = Done (Ok (a + k), m).
Proof.
  intros Hc. unfold checked_offset, checked_add.
  rewrite (proj2 (Z.ltb_lt _ _)) by (destruct Hc; lia).
  unfold st_bind. rewrite virt_addr_ok by done. done.
Qed.

Lemma user_canonical a : USER_BASE <= a <= USER_STACK_TOP -> canonical a.
Proof.
  assert (USER_BASE = 2 ^ 39 /\ USER_STACK_TOP = 2 ^ 39 + 8388608) as [-> ->] by done.
  intros. left. lia.
Qed.

(** Splitting a byte-wise read. *)
Lemma read_user_app r as_ a n1 n2 :
  read_user r as_ a (n1 + n2) =
    (let! l1 := read_user r as_ a n1 in
     let! l2 := read_user r as_ (a + Z.of_nat n1) n2 in Ok (l1 ++ l2)).
Proof.
  revert a. induction n1 as [|n1 IH]; intros a.
  - cbn. rewrite Z.add_0_r. by destruct (read_user _ _ a n2).
  - cbn [read_user Nat.add]. destruct (user_byte _ _ _ a); cbn; [|done].
    rewrite IH. replace (a + 1 + Z.of_nat n1) with (a + Z.of_nat (S n1)) by lia.
    destruct (read_user _ _ (a + 1) n1); cbn; [|done].
    by destruct (read_user _ _ (a + Z.of_nat (S n1)) n2).
Qed.

(** Inside a page the bytes read are contiguous in physical memory. *)
Lemma read_user_page r as_ a p n :
  user_byte r as_ Read a = Ok p -> a mod 4096 + Z.of_nat n <= 4096 ->
  read_user r as_ a n = Ok (read_bytes r p n).
Proof.
  intros Hp Hn. unfold read_bytes.
  assert (forall j k, (j + k <= n)%nat ->
    read_user r as_ (a + Z.of_nat j) k = Ok (map (fun i => r (p + Z.of_nat i)) (seq j k))) as H.
  { intros j k. revert j. induction k as [|k IH]; intros j Hjk; [done|]. cbn [read_user seq map].
    rewrite (user_byte_same_page _ _ _ _ (Z.of_nat j) p) by (done || lia). cbn.
    replace (a + Z.of_nat j + 1) with (a + Z.of_nat (S j)) by lia. by rewrite IH by lia. }
  rewrite <- (H 0%nat n) by lia. by rewrite Z.add_0_r.
Qed.

(** What one turn of a copy loop covers: [count] bytes of the page of [a],
    after which the next address is canonical again. *)
Lemma chunk_bounds r as_ access a p rest :
  user_byte r as_ access a = Ok p -> 0 < rest ->
  let count := Z.min rest (PAGE_SIZE - Z.land p (PAGE_SIZE - 1)) in
  0 < count <= rest /\ a mod 4096 + count <= 4096 /\ canonical (a + count).
Proof.
  intros Hp Hr count. pose proof (chunk_pos rest p Hr) as Hc. fold count in Hc.
  pose proof (user_byte_offset _ _ _ _ _ Hp) as Ho.
  assert (a mod 4096 + count <= 4096) as Hpage.
  { subst count. change (PAGE_SIZE - 1) with 4095 in *. rewrite land_fff, Ho in *.
    unfold PAGE_SIZE. lia. }
  split; [lia|]. split; [done|]. apply user_canonical.
  destruct (user_byte_Ok _ _ _ _ _ Hp) as [Ha _].
  destruct (user_byte_Ok r as_ access (a + (count - 1)) (p + (count - 1))) as [Hl _]; [|lia].
  apply user_byte_same_page; [lia|lia|done].
Qed.

Lemma copy_from_loop_run fuel as_ dst len src m :
  mem_ok m -> vlen dst <= len -> canonical (src + vlen dst) -> len - vlen dst < Z.of_nat fuel ->
  copy_from_loop fuel as_ dst len src m =
    Done (let! rest := read_user (ram m) as_ (src + vlen dst) (Z.to_nat (len - vlen dst)) in
          Ok (dst ++ rest), m).
Proof.
  intros Hm. revert dst. induction fuel as [|fuel IH]; intros dst Hl Hc Hf; [lia|].
  cbn [copy_from_loop]. destruct (Z.ltb_spec (vlen dst) len) as [Hlt|Hge].
  2: { replace (len - vlen dst) with 0 by lia. change (Z.to_nat 0) with 0%nat. cbn [read_user result_bind].
       by rewrite app_nil_r. }
  unfold st_try at 1, st_bind at 1. rewrite checked_offset_run by done.
  unfold st_try, st_bind. destruct (validate_user_byte_run as_ (src + vlen dst) Read m Hm)
    as (r & -> & Hr & _).
  set (n := Z.to_nat (len - vlen dst)). assert (n = S (n - 1)) as Hn by lia.
  destruct r as [t|e]; cbn [result_map] in Hr.
  2: { rewrite Hn. cbn. by rewrite <- Hr. }
  symmetry in Hr. destruct (chunk_bounds _ _ _ _ _ (len - vlen dst) Hr) as (H1 & H2 & H3); [lia|].
  set (count := Z.min _ _) in *.
  pose proof Hm as [s Hs]. rewrite (with_state_run _ _ _ Hs). unfold st_gets. cbn [phys] in *.
  replace n with (Z.to_nat count + Z.to_nat (len - vlen dst - count))%nat by lia.
  rewrite read_user_app, (read_user_page _ _ _ (phys t)) by (done || lia). cbn [result_bind].
  set (chunk := read_bytes _ _ _).
  assert (vlen (dst ++ chunk) = vlen dst + count) as Hv.
  { rewrite vlen_app. f_equal. unfold vlen, chunk, read_bytes. rewrite length_map, length_seq. lia. }
  rewrite IH; rewrite Hv; [|lia|by rewrite Z.add_assoc|lia].
  replace (src + (vlen dst + count)) with (src + vlen dst + Z.of_nat (Z.to_nat count)) by lia.
  replace (len - (vlen dst + count)) with (len - vlen dst - count) by lia.
  destruct (read_user _ _ _ _); cbn; [|done]. by rewrite app_assoc.
Qed.

(** [copy_from_user] is the byte-at-a-time read. *)
Lemma copy_from_user_run as_ len src m :
  mem_ok m -> 0 <= len -> canonical src ->
  copy_from_user as_ len src m = Done (read_user (ram m) as_ src (Z.to_nat len), m).
Proof.
  intros Hm Hl Hc. unfold copy_from_user.
  assert (vlen (@nil Z) = 0) as H0 by done.
  rewrite copy_from_loop_run; rewrite ?H0, ?Z.add_0_r, ?Z.sub_0_r; try done; [|lia].
  by destruct (read_user _ _ _ _).
Qed.

Definition accessible (r : Ram) (as_ : AddressSpace) (access : Access) (a : Z) : Prop :=
  exists p, user_byte r as_ access a = Ok p.

Lemma read_user_Ok r as_ a n :
  (exists l, read_user r as_ a n = Ok l) <->
  forall i, 0 <= i < Z.of_nat n -> accessible r as_ Read (a + i).
Proof.
  revert a. induction n as [|n IH]; intros a; cbn [read_user].
  { split; [intros; lia|by eexists]. }
  split.
  - intros [l Hl] i Hi. destruct (user_byte r as_ Read a) as [p|] eqn:Hp; [|done]. cbn in Hl.
    destruct (decide (i = 0)) as [->|]; [rewrite Z.add_0_r; by exists p|].
    destruct (read_user r as_ (a + 1) n) as [l'|] eqn:Hr; [|done].
    replace (a + i) with (a + 1 + (i - 1)) by lia. apply (proj1 (IH (a + 1))); [eauto|lia].
  - intros H. destruct (H 0) as [p Hp]; [lia|]. rewrite Z.add_0_r in Hp. rewrite Hp. cbn.
    destruct (proj2 (IH (a + 1))) as [l ->]; [|by eexists].
    intros i Hi. replace (a + 1 + i) with (a + (i + 1)) by lia. apply H. lia.
Qed.

Lemma read_user_length r as_ a n l : read_user r as_ a n = Ok l -> length l = n.
Proof.
  revert a l. induction n as [|n IH]; intros a l; cbn; [by intros [= <-]|].
  destruct (user_byte r as_ Read a); [|done]. cbn.
  destruct (read_user r as_ (a + 1) n) as [l'|] eqn:E; [|done]. intros [= <-]. cbn. f_equal. eauto.
Qed.

(** Validating the first byte of a page validates the page. *)
Lemma accessible_page r as_ access a :
  accessible r as_ access a <-> accessible r as_ access (a - a mod 4096).
Proof.
  pose proof (Z.mod_pos_bound a 4096) as Hm.
  assert ((a - a mod 4096) mod 4096 = 0) as H0 by (rewrite Zminus_mod_idemp_r, Z.sub_diag; done).
  assert (USER_BASE = 2 ^ 39 /\ USER_STACK_TOP = 2 ^ 39 + 8388608) as [Hb Hs] by done.
  split; intros [p Hp].
  - destruct (user_byte_Ok _ _ _ _ _ Hp) as (Ha & t & Ht & _ & Hw).
    assert (USER_BASE <= a - a mod 4096) as Hlow.
    { pose proof (Z.div_mod a 4096). assert (2 ^ 27 <= a / 4096) by
        (apply Z.div_le_lower_bound; lia). lia. }
    replace a with (a - a mod 4096 + a mod 4096) in Ht at 1 by lia.
    rewrite translate_same_page in Ht by lia.
    destruct (translate r _ (a - a mod 4096)) as [t0|] eqn:Ht0; [|done]. injection Ht as <-.
    unfold accessible, user_byte. rewrite Ht0.
    rewrite (proj2 (Z.leb_le _ _)), (proj2 (Z.ltb_lt _ _)) by lia. cbn [andb].
    destruct access; [by eexists|]. cbn in Hw. rewrite Hw by done. by eexists.
  - exists (p + a mod 4096). replace a with (a - a mod 4096 + a mod 4096) at 1 by lia.
    apply user_byte_same_page; [lia|lia|done].
Qed.

Lemma validate_loop_run fuel as_ page stop access m :
  mem_ok m -> page mod 4096 = 0 -> USER_BASE <= page <= stop + 4095 -> stop <= USER_STACK_TOP ->
  stop <= page + 4096 * (Z.of_nat fuel - 1) ->
  exists r, validate_loop fuel as_ page stop access m = Done (r, m) /\
    (r = Ok tt <-> forall a, page <= a < stop -> accessible (ram m) as_ access a).
Proof.
  intros Hm. assert (USER_BASE = 2 ^ 39 /\ USER_STACK_TOP = 2 ^ 39 + 8388608) as [Hb Ht] by done.
  revert page. induction fuel as [|fuel IH]; intros page Hp Hr Hs Hf; [lia|]. cbn.
  destruct (Z.ltb_spec page stop) as [Hlt|Hge].
  2: { eexists. split; [done|]. split; [|done]. intros _ a Ha. lia. }
  unfold st_bind at 1. rewrite virt_addr_ok by (apply user_canonical; lia). unfold st_ret at 1.
  unfold st_try, st_bind.
  destruct (validate_user_byte_run as_ page access m Hm) as (r & -> & Hv & _).
  destruct r as [t|e]; cbn [result_map] in Hv.
  - assert (checked_add page PAGE_SIZE = Some (page + 4096)) as ->.
    { apply checked_add_Some. unfold PAGE_SIZE. lia. }
    destruct (IH (page + 4096)) as (r & -> & Hiff); [|lia|lia|lia|].
    { rewrite <- Zplus_mod_idemp_r. change (4096 mod 4096) with 0. by rewrite Z.add_0_r. }
    exists r. split; [done|]. rewrite Hiff. split; intros H a Ha; [|apply H; lia].
    destruct (Z.lt_ge_cases a (page + 4096)); [|apply H; lia].
    apply accessible_page. rewrite (page_start page) by (done || lia).
    by exists (phys t).
  - eexists. split; [done|]. split; [done|]. intros H.
    destruct (H page) as [p Hp']; [lia|]. congruence.
Qed.

(** A range is valid exactly when it is empty or every byte of it is
    accessible. *)
Lemma validate_user_range_run as_ start len access m :
  mem_ok m -> is_u64 start -> 0 <= len ->
  exists r, validate_user_range as_ start len access m = Done (r, m) /\
    (r = Ok tt <-> forall i, 0 <= i < len -> accessible (ram m) as_ access (start + i)).
Proof.
  intros Hm Hu Hl. assert (USER_BASE = 2 ^ 39 /\ USER_STACK_TOP = 2 ^ 39 + 8388608) as [Hb Ht] by done.
  unfold validate_user_range. destruct (Z.eqb_spec len 0) as [->|Hn].
  { eexists. split; [done|]. split; [|done]. intros _ i Hi. lia. }
  assert (forall r : result UserMemoryError unit, is_err r = true ->
    ~ (USER_BASE <= start /\ start + len <= USER_STACK_TOP) ->
    r = Ok tt <-> forall i, 0 <= i < len -> accessible (ram m) as_ access (start + i)) as Hbad.
  { intros r Hr Hout. split; [by destruct r|]. intros H. destruct Hout.
    destruct (H 0) as [p (H0 & _)%user_byte_Ok]; [lia|].
    destruct (H (len - 1)) as [q (H1 & _)%user_byte_Ok]; lia. }
  destruct (checked_add start len) as [stop|] eqn:E.
  2: { eexists. split; [done|]. apply Hbad; [done|]. unfold checked_add in E.
       destruct (Z.ltb_spec (start + len) (2 ^ 64)); [done|]. lia. }
  apply checked_add_Some in E as [_ ->]. rewrite Z.gtb_ltb.
  destruct ((start <? USER_BASE) || (USER_STACK_TOP <? start + len)) eqn:E.
  { eexists. split; [done|]. apply Hbad; [done|].
    apply orb_prop in E as [E|E]; bool_to_prop; lia. }
  bool_to_prop. unfold PAGE_SIZE. rewrite align_down_spec by done.
  pose proof (Z.mod_pos_bound start 4096).
  assert (USER_BASE <= start - start mod 4096) as Hlow.
  { pose proof (Z.div_mod start 4096). assert (2 ^ 27 <= start / 4096) by
      (apply Z.div_le_lower_bound; lia). lia. }
  destruct (validate_loop_run (page_fuel (start - start mod 4096) (start + len)) as_
              (start - start mod 4096) (start + len) access m) as (r & -> & Hiff); [done| |lia|lia| |].
  { rewrite Zminus_mod_idemp_r, Z.sub_diag. done. }
  { apply page_fuel_enough. lia. }
  exists r. split; [done|]. rewrite Hiff. split.
  - intros Hall i Hi. apply Hall. lia.
  - intros Hall a Ha. apply accessible_page.
    destruct (Z.lt_ge_cases a start) as [Hlt|Hge].
    + rewrite (page_start (start - start mod 4096)); [|by rewrite Zminus_mod_idemp_r, Z.sub_diag|lia].
      apply (proj1 (accessible_page _ _ _ start)).
      rewrite <- (Z.add_0_r start). apply Hall. lia.
    + apply (proj1 (accessible_page _ _ _ a)).
      replace a with (start + (a - start)) by lia. apply Hall. lia.
Qed.

(** ** Writing user memory *)

(** [r'] is [r] after the first [n] bytes of [src] were stored, in order,
    at the user addresses from [dst]. *)
Record stored (r : Ram) (as_ : AddressSpace) (dst : Z) (src : list Z) (n : Z) (r' : Ram) : Prop :=
  mkStored {
    st_bytes i : 0 <= i < n -> accessible r as_ Write (dst + i);
    st_other x : (forall i, 0 <= i < n -> user_byte r as_ Write (dst + i) <> Ok x) -> r' x = r x;
    st_last i x b : 0 <= i < n -> vget src i = Some b ->
      user_byte r as_ Write (dst + i) = Ok x ->
      (forall j, i < j < n -> user_byte r as_ Write (dst + j) <> Ok x) -> r' x = b
  }.

Lemma stored_0 r as_ dst src : stored r as_ dst src 0 r.
Proof. constructor; try done; intros; lia. Qed.

Lemma user_byte_nonneg r as_ access a p : user_byte r as_ access a = Ok p -> 0 <= a.
Proof. intros (Ha & _)%user_byte_Ok. assert (USER_BASE = 2 ^ 39) by done. lia. Qed.

(** Stores reach only user pages. *)
Lemma stored_user_update r as_ dst src n r' :
  stored r as_ dst src n r' -> user_update r (level_4_frame as_) r'.
Proof.
  intros St x.
  assert ((exists i, 0 <= i < n /\ user_byte r as_ Write (dst + i) = Ok x) \/
          (forall i, 0 <= i < n -> user_byte r as_ Write (dst + i) <> Ok x)) as [(i & Hi & Hx)|Hn].
  { clear St. destruct (Z.le_gt_cases n 0); [right; intros; lia|].
    rewrite <- (Z2Nat.id n) by lia. generalize (Z.to_nat n). clear. intros n.
    induction n as [|n [(i & Hi & Hx)|IH]]; [right; intros; lia|left; exists i; split; [lia|done]|].
    destruct (user_byte r as_ Write (dst + Z.of_nat n)) as [p|e] eqn:E.
    - destruct (decide (p = x)) as [->|Hp]; [left; exists (Z.of_nat n); split; [lia|done]|].
      right. intros i Hi. destruct (decide (i = Z.of_nat n)) as [->|]; [congruence|apply IH; lia].
    - right. intros i Hi. destruct (decide (i = Z.of_nat n)) as [->|]; [congruence|apply IH; lia]. }
  - right. pose proof (user_byte_nonneg _ _ _ _ _ Hx).
    destruct (user_byte_Ok _ _ _ _ _ Hx) as (_ & t & Ht & Hp & _). eauto.
  - left. by apply (st_other _ _ _ _ _ _ St).
Qed.

(** One chunk of a copy: the page of [dst + n]. *)
Lemma stored_chunk r as_ dst src n r' p count :
  stored r as_ dst src n r' -> 0 <= n ->
  user_byte r as_ Write (dst + n) = Ok p ->
  0 < count -> n + count <= vlen src -> (dst + n) mod 4096 + count <= 4096 ->
  stored r as_ dst src (n + count) (X86.write_bytes r' p (slice src n count)).
Proof.
  intros St Hn Hp Hc Hl Hpage.
  assert (forall k, 0 <= k < count -> user_byte r as_ Write (dst + (n + k)) = Ok (p + k)) as Hk.
  { intros k Hk. rewrite Z.add_assoc. apply user_byte_same_page; [lia|lia|done]. }
  assert (forall x, X86.write_bytes r' p (slice src n count) x =
    if decide (p <= x < p + count) then default 0 (vget src (n + (x - p))) else r' x) as Hw.
  { intros x. rewrite write_bytes_at, vget_slice by lia. case_decide as H.
    - rewrite decide_True by lia. destruct (vget_is_Some src (n + (x - p))) as [b ->]; [lia|done].
    - by rewrite decide_False by lia. }
  constructor.
  - intros i Hi. destruct (Z.lt_ge_cases i n); [apply (st_bytes _ _ _ _ _ _ St); lia|].
    exists (p + (i - n)). replace i with (n + (i - n)) at 1 by lia. apply Hk. lia.
  - intros x Hx. rewrite Hw, decide_False; [apply (st_other _ _ _ _ _ _ St); intros; apply Hx; lia|].
    intros H. apply (Hx (n + (x - p))); [lia|]. rewrite Hk by lia. f_equal. lia.
  - intros i x b Hi Hb Hx Hlast. rewrite Hw.
    destruct (Z.lt_ge_cases i n) as [Hin|Hin].
    + rewrite decide_False.
      * apply (st_last _ _ _ _ _ _ St i); [lia|done|done|]. intros j Hj. apply Hlast. lia.
      * intros H. apply (Hlast (n + (x - p))); [lia|]. rewrite Hk by lia. f_equal. lia.
    + assert (x = p + (i - n)) as ->.
      { replace i with (n + (i - n)) in Hx by lia.
        rewrite Hk in Hx by lia. congruence. }
      rewrite decide_True by lia. replace (n + (p + (i - n) - p)) with i by lia. by rewrite Hb.
Qed.

(** The outcome of a copy of [src] to [dst]: [n] bytes were stored, which
    is all of them or stops at the first byte that is not writable. *)
Definition copied_to (m : Mem) (as_ : AddressSpace) (dst : Z) (src : list Z)
    (r : result UserMemoryError unit) (m' : Mem) : Prop :=
  exists n, 0 <= n <= vlen src /\ stored (ram m) as_ dst src n (ram m') /\
    m' = set_ram (ram m') m /\
    match r with
    | Ok _ => n = vlen src
    | Err e => n < vlen src /\ user_byte (ram m) as_ Write (dst + n) = Err e
    end.

Lemma user_byte_update r as_ r' access a :
  separated r (level_4_frame as_) -> user_update r (level_4_frame as_) r' ->
  user_byte r' as_ access a = user_byte r as_ access a.
Proof. intros Hs Hu. unfold user_byte. by rewrite (user_update_translate _ _ _ _ Hs Hu). Qed.

Lemma copy_to_loop_run fuel as_ dst copied src m m0 :
  mem_ok m -> separated (ram m) (level_4_frame as_) ->
  0 <= copied <= vlen src -> canonical (dst + copied) -> vlen src - copied < Z.of_nat fuel ->
  stored (ram m) as_ dst src copied (ram m0) -> m0 = set_ram (ram m0) m ->
  wp (copy_to_loop fuel as_ dst copied src) (copied_to m as_ dst src) m0.
Proof.
  intros Hm Hsep. revert copied m0.
  induction fuel as [|fuel IH]; intros copied m0 Hc Hcan Hf St Hm0; [lia|].
  assert (memory_state m0 = memory_state m) as Hms by (by rewrite Hm0).
  assert (mem_ok m0) as Hok by (unfold mem_ok; by rewrite Hms).
  cbn [copy_to_loop]. destruct (Z.ltb_spec copied (vlen src)) as [Hlt|Hge].
  2: { apply wp_ret. exists copied. split; [lia|]. split; [done|]. split; [done|lia]. }
  unfold wp, st_try at 1, st_bind at 1. rewrite checked_offset_run by done.
  unfold st_try, st_bind. destruct (validate_user_byte_run as_ (dst + copied) Write m0 Hok)
    as (r & -> & Hr & _).
  rewrite (user_byte_update (ram m)) in Hr by eauto using stored_user_update.
  destruct r as [t|e]; cbn [result_map] in Hr; symmetry in Hr.
  2: { exists copied. split; [lia|]. split; [done|]. split; [done|]. split; [lia|done]. }
  destruct (chunk_bounds _ _ _ _ _ (vlen src - copied) Hr) as (H1 & H2 & H3); [lia|].
  set (count := Z.min _ _) in *.
  destruct Hm as [s Hs]. rewrite (with_state_run _ _ s) by (by rewrite Hms).
  unfold st_modify. apply IH.
  - lia.
  - by rewrite Z.add_assoc.
  - lia.
  - cbn [ram set_ram]. apply stored_chunk; [done|lia|done|lia|lia|done].
  - rewrite Hm0. done.
Qed.

Lemma copy_to_user_run as_ dst src m :
  mem_ok m -> separated (ram m) (level_4_frame as_) -> canonical dst ->
  wp (copy_to_user as_ dst src) (copied_to m as_ dst src) m.
Proof.
  intros Hm Hs Hc. pose proof (vlen_nonneg src). apply copy_to_loop_run; try done.
  - by rewrite Z.add_0_r.
  - unfold vlen. lia.
  - apply stored_0.
  - by destruct m.
Qed.

(** Without separation the copy still returns, and only RAM changes. *)
Lemma Safe_copy_to_loop fuel as_ dst copied src :
  0 <= copied <= vlen src -> canonical (dst + copied) -> vlen src - copied < Z.of_nat fuel ->
  Safe (copy_to_loop fuel as_ dst copied src).
Proof.
  revert copied. induction fuel as [|fuel IH]; intros copied Hc Hcan Hf; [lia|]. cbn [copy_to_loop].
  destruct (Z.ltb_spec copied (vlen src)) as [Hlt|Hge]; [|auto with kernel].
  intros m Hm. unfold wp, st_try at 1, st_bind at 1. rewrite checked_offset_run by done.
  unfold st_try, st_bind. destruct (validate_user_byte_run as_ (dst + copied) Write m Hm)
    as (r & -> & Hr & _).
  destruct r as [t|e]; cbn [result_map] in Hr; [|done]. symmetry in Hr.
  destruct (chunk_bounds _ _ _ _ _ (vlen src - copied) Hr) as (H1 & H2 & H3); [lia|].
  destruct Hm as [s Hs]. rewrite (with_state_run _ _ s Hs). unfold st_modify.
  eapply wp_mono; [apply IH; [lia|by rewrite Z.add_assoc|lia|by exists s]|].
  intros ? m' C. etransitivity; [|exact C]. by constructor.
Qed.

Lemma Safe_copy_to_user as_ dst src : canonical dst -> Safe (copy_to_user as_ dst src).
Proof.
  intros Hc. pose proof (vlen_nonneg src).
  apply Safe_copy_to_loop; [lia|by rewrite Z.add_0_r|unfold vlen; lia].
Qed.

Lemma Safe_copy_from_user as_ len src :
  0 <= len -> canonical src -> Safe (copy_from_user as_ len src).
Proof.
  intros Hl Hc m Hm. eapply wp_intro; [by apply copy_from_user_run|done].
Qed.

Lemma Safe_validate_user_range as_ start len access :
  is_u64 start -> 0 <= len -> Safe (validate_user_range as_ start len access).
Proof.
  intros Hs Hl m Hm. destruct (validate_user_range_run as_ start len access m Hm Hs Hl)
    as (r & E & _). by eapply wp_intro.
Qed.
(** ** Reading back what was stored *)

Lemma read_user_intro r as_ a l :
  (forall i b, vget l i = Some b -> exists p, user_byte r as_ Read (a + i) = Ok p /\ r p = b) ->
  read_user r as_ a (length l) = Ok l.
Proof.
  revert a. induction l as [|b l IH]; intros a H; cbn [read_user length]; [done|].
  destruct (H 0 b) as (p & Hp & <-); [apply vget_cons_0|]. rewrite Z.add_0_r in Hp. rewrite Hp. cbn.
  rewrite IH; [done|]. intros i c Hi. destruct (H (i + 1) c) as (q & Hq & Hc).
  { pose proof (vget_range _ _ _ Hi). rewrite vget_cons_pos by lia. by replace (i + 1 - 1) with i by lia. }
  exists q. by replace (a + 1 + i) with (a + (i + 1)) by lia.
Qed.

(** No two bytes of the range are the same byte of memory. *)
Definition unaliased (r : Ram) (as_ : AddressSpace) (dst n : Z) : Prop :=
  forall i j x, 0 <= i < n -> 0 <= j < n -> user_byte r as_ Write (dst + i) = Ok x ->
    user_byte r as_ Write (dst + j) = Ok x -> i = j.

Lemma stored_read_back r as_ dst src r' :
  stored r as_ dst src (vlen src) r' -> separated r (level_4_frame as_) ->
  unaliased r as_ dst (vlen src) -> read_user r' as_ dst (length src) = Ok src.
Proof.
  intros St Hs Hu. apply read_user_intro. intros i b Hb. pose proof (vget_range _ _ _ Hb) as Hi.
  destruct (st_bytes _ _ _ _ _ _ St i Hi) as [x Hx]. exists x. split.
  - rewrite (user_byte_update r as_ r' Read); [|done|by eapply stored_user_update].
    unfold user_byte in *. destruct (_ && _); [|done]. destruct (translate _ _ _); [|done].
    by destruct (contains _ _).
  - apply (st_last _ _ _ _ _ _ St i x b Hi Hb Hx). intros j Hj Hjx.
    specialize (Hu i j x Hi ltac:(lia) Hx Hjx). lia.
Qed.

Lemma copy_round_trip as_ dst src m :
  mem_ok m -> separated (ram m) (level_4_frame as_) -> canonical dst ->
  unaliased (ram m) as_ dst (vlen src) -> (forall i, 0 <= i < vlen src -> accessible (ram m) as_ Write (dst + i)) ->
  exists m', copy_to_user as_ dst src m = Done (Ok tt, m') /\
    copy_from_user as_ (vlen src) dst m' = Done (Ok src, m').
Proof.
  intros Hm Hs Hc Hu Ha. pose proof (copy_to_user_run as_ dst src m Hm Hs Hc) as H.
  apply wp_done in H as (r & m' & E & n & Hn & St & Hm' & Hr). exists m'.
  destruct r as [[]|e].
  - split; [done|]. subst n. pose proof (vlen_nonneg src). rewrite copy_from_user_run; [|by rewrite Hm'|lia|done].
    unfold vlen at 1. rewrite Nat2Z.id. by rewrite (stored_read_back _ _ _ _ _ St Hs Hu).
  - destruct Hr as [Hlt He]. destruct (Ha n) as [x Hx]; [lia|]. congruence.
Qed.
End user_memory_facts.
