(* ===== verification/Process.v ===== *)
(** * Processes and the process table (src/src/process.rs)

    The process table is a vector of optional processes indexed by pid. The
    file gives the operations, the invariant [table_wf] that ties the parent
    and child fields together, and its preservation. *)

From S2P Require Import Prelude File Fd X86 Memory AddressSpace.

Definition MAX_PROCESSES : Z := 16.
Definition WAIT_EXITED : Z := 0.
Definition WAIT_FAULTED : Z := 1.

(** [ProcessId(pub usize)], and [TaskId(pub usize)] of src/src/task.rs *)
Definition ProcessId : Type := Z.
Definition TaskId : Type := Z.

Inductive ProcessExit : Type :=
| Exited (code : Z)
| Faulted.

Inductive ProcessState : Type :=
| PRunning
| Zombie (exit : ProcessExit).

#[global] Instance ProcessExit_eq_dec : EqDecision ProcessExit.
Proof. solve_decision. Defined.
#[global] Instance ProcessState_eq_dec : EqDecision ProcessState.
Proof. solve_decision. Defined.

(** [#[repr(C)] struct UserWaitStatus] *)
Record UserWaitStatus : Type := mkWaitStatus { ws_kind : Z; ws_code : Z }.

Definition wait_status (e : ProcessExit) : UserWaitStatus :=
  match e with
  | Exited code => mkWaitStatus WAIT_EXITED code
  | Faulted => mkWaitStatus WAIT_FAULTED 0
  end.

Definition wait_status_bytes (e : ProcessExit) : list Z :=
  let status := wait_status e in
  to_le_bytes 4 (ws_kind status) ++ to_le_bytes 4 (ws_code status).

Definition wait_status_size : Z := 8.

(** ** The user heap *)

Record UserHeap : Type := mkUserHeap {
  heap_start : Z;
  heap_brk : Z;
  heap_limit : Z;
  heap_mapped_end : Z
}.

Inductive UserHeapError : Type := InvalidRange.

Definition is_page_aligned (address : Z) : bool := Z.land address 0xfff =? 0.

Definition UserHeap_new (start limit : Z) : result UserHeapError UserHeap :=
  if (start >=? limit) || negb (is_page_aligned start) || negb (is_page_aligned limit)
  then Err InvalidRange
  else Ok (mkUserHeap start start limit start).

Definition set_break (h : UserHeap) (brk mapped_end : Z) : UserHeap :=
  mkUserHeap (heap_start h) brk (heap_limit h) mapped_end.

(** The heap of a process: page-aligned bounds below the kernel's half, the
    break between them, and whole pages mapped exactly up to the break. *)
Record heap_ok (h : UserHeap) : Prop := mkHeapOk {
  hok_start : 0 <= heap_start h /\ heap_start h mod 4096 = 0;
  hok_limit : heap_limit h < 2 ^ 46 /\ heap_limit h mod 4096 = 0;
  hok_brk : heap_start h <= heap_brk h <= heap_limit h;
  hok_mapped : heap_brk h <= heap_mapped_end h < heap_brk h + 4096 /\
               heap_mapped_end h mod 4096 = 0
}.

Lemma is_page_aligned_spec a : is_page_aligned a = true <-> a mod 4096 = 0.
Proof. unfold is_page_aligned. rewrite land_fff. apply Z.eqb_eq. Qed.

Lemma UserHeap_new_ok start limit h :
  0 <= start -> limit < 2 ^ 46 -> UserHeap_new start limit = Ok h ->
  heap_ok h /\ heap_start h = start /\ heap_limit h = limit /\ heap_brk h = start.
Proof.
  intros H0 H1. unfold UserHeap_new. destruct (_ || _) eqn:E; [done|]. intros [= <-].
  rewrite Z.geb_leb in E. bool_to_prop.
  rewrite is_page_aligned_spec in *. repeat split; cbn; done || lia.
Qed.

(** The mapped end that [brk] computes for a new break within the limit. *)
Lemma set_break_ok h brk mapped :
  heap_ok h -> heap_start h <= brk <= heap_limit h -> align_up brk 4096 = Some mapped ->
  heap_ok (set_break h brk mapped) /\ mapped <= heap_limit h.
Proof.
  intros [[H1 H2] [H3 H4] H5 H6] Hb Ha.
  apply align_up_Some in Ha as (Ha & Hm & _); [|unfold is_u64; lia].
  split; [constructor; cbn; done || lia|].
  pose proof (Z.div_mod mapped 4096). pose proof (Z.div_mod (heap_limit h) 4096). lia.
Qed.

(** ** Processes *)

Record Process : Type := mkProcess {
  p_pid : ProcessId;
  p_parent : option ProcessId;
  p_children : list ProcessId;
  p_state : ProcessState;
  p_address_space : AddressSpace;
  p_heap : UserHeap;
  p_fd_table : FdTable;
  p_main_task : TaskId;
  p_orphaned : bool
}.

Definition set_parent_orphaned (p : Process) : Process :=
  mkProcess (p_pid p) None (p_children p) (p_state p) (p_address_space p) (p_heap p)
            (p_fd_table p) (p_main_task p) true.
Definition set_children (p : Process) (c : list ProcessId) : Process :=
  mkProcess (p_pid p) (p_parent p) c (p_state p) (p_address_space p) (p_heap p)
            (p_fd_table p) (p_main_task p) (p_orphaned p).
Definition set_pstate (p : Process) (s : ProcessState) : Process :=
  mkProcess (p_pid p) (p_parent p) (p_children p) s (p_address_space p) (p_heap p)
            (p_fd_table p) (p_main_task p) (p_orphaned p).
Definition set_heap (p : Process) (h : UserHeap) : Process :=
  mkProcess (p_pid p) (p_parent p) (p_children p) (p_state p) (p_address_space p) h
            (p_fd_table p) (p_main_task p) (p_orphaned p).
Definition set_fd_table (p : Process) (t : FdTable) : Process :=
  mkProcess (p_pid p) (p_parent p) (p_children p) (p_state p) (p_address_space p) (p_heap p)
            t (p_main_task p) (p_orphaned p).

(** [Process::is_child]: [self.children.contains(&child)] *)
Definition process_is_child (p : Process) (child : ProcessId) : bool :=
  existsb (Z.eqb child) (p_children p).

(** [self.children.retain(|pid| *pid != child)] *)
Definition remove_child (p : Process) (child : ProcessId) : Process :=
  set_children p (List.filter (fun pid => negb (pid =? child)) (p_children p)).

Definition is_zombie (s : ProcessState) : bool :=
  match s with Zombie _ => true | PRunning => false end.

Inductive ProcessError : Type :=
| ProcessFull
| ProcessFile (error : FileError)
| MissingParent
| ProcessNotFound
| NotChild
| NotZombie.

Record ProcessTable : Type := mkProcessTable {
  processes : list (option Process);
  next_pid : Z
}.

Module ProcessTable.

Definition new : ProcessTable := mkProcessTable [] 1.

Definition get (t : ProcessTable) (pid : ProcessId) : option Process :=
  match vget (processes t) pid with Some (Some p) => Some p | _ => None end.

(** Writing through the reference of [get_mut], or to the slot itself. *)
Definition put_slot (t : ProcessTable) (pid : ProcessId) (o : option Process) : ProcessTable :=
  mkProcessTable (vset (processes t) pid o) (next_pid t).

Definition update (t : ProcessTable) (pid : ProcessId) (p : Process) : ProcessTable :=
  put_slot t pid (Some p).

Definition active_count (t : ProcessTable) : Z :=
  countb (fun p => negb (OpenFileTable.is_none p)) (processes t).

Definition can_create (t : ProcessTable) (parent : option ProcessId) :
    result ProcessError unit :=
  if active_count t >=? MAX_PROCESSES then Err ProcessFull
  else if next_pid t >? MAX_PROCESSES then Err ProcessFull
  else match parent with
       | Some parent => match get t parent with
                        | None => Err MissingParent
                        | Some _ => Ok tt
                        end
       | None => Ok tt
       end.

(** [resize_with(MAX_PROCESSES + 1, || None)] on the empty vector. *)
Definition ensure_slots (t : ProcessTable) : ProcessTable :=
  match processes t with
  | [] => mkProcessTable (replicate (Z.to_nat (MAX_PROCESSES + 1)) None) (next_pid t)
  | _ => t
  end.

Definition create (parent : option ProcessId) (address_space : AddressSpace)
    (heap : UserHeap) (fd_table : FdTable) (main_task : TaskId) :
    ST ProcessTable (result ProcessError ProcessId) :=
  let? _ := st_gets (fun t => can_create t parent) in
  st_modify ensure_slots ;;;
  let* pid := st_gets next_pid in
  st_modify (fun t => mkProcessTable (processes t) (next_pid t + 1)) ;;;
  let* t := st_get in
  (if in_range (processes t) pid
   then st_put (update t pid (mkProcess pid parent [] PRunning address_space heap fd_table
                                        main_task false))
   else st_panic "index out of bounds") ;;;
  match parent with
  | None => st_ret (Ok pid)
  | Some parent =>
      let* t := st_get in
      let* p := st_expect (get t parent) "parent disappeared during process creation" in
      st_put (update t parent (set_children p (p_children p ++ [pid]))) ;;;
      st_ret (Ok pid)
  end.

Definition exists_ (t : ProcessTable) (pid : ProcessId) : bool :=
  negb (OpenFileTable.is_none (get t pid)).

Definition state (t : ProcessTable) (pid : ProcessId) : option ProcessState :=
  match get t pid with Some p => Some (p_state p) | None => None end.

Definition parent (t : ProcessTable) (pid : ProcessId) : option (option ProcessId) :=
  match get t pid with Some p => Some (p_parent p) | None => None end.

Definition address_space (t : ProcessTable) (pid : ProcessId) : option AddressSpace :=
  match get t pid with Some p => Some (p_address_space p) | None => None end.

Definition heap (t : ProcessTable) (pid : ProcessId) : option UserHeap :=
  match get t pid with Some p => Some (p_heap p) | None => None end.

Definition fd_table (t : ProcessTable) (pid : ProcessId) : option FdTable :=
  match get t pid with Some p => Some (p_fd_table p) | None => None end.

Definition is_child (t : ProcessTable) (parent child : ProcessId) : bool :=
  match get t parent with Some p => process_is_child p child | None => false end.

(** [for child in children] of [mark_exited]. *)
Fixpoint orphan_children (t : ProcessTable) (children : list ProcessId) : ProcessTable :=
  match children with
  | [] => t
  | child :: rest =>
      match get t child with
      | Some p =>
          let p := set_parent_orphaned p in
          let t := update t child p in
          let t := if is_zombie (p_state p) then put_slot t child None else t in
          orphan_children t rest
      | None => orphan_children t rest
      end
  end.

Definition mark_exited (t : ProcessTable) (pid : ProcessId) (exit : ProcessExit)
    (open_files : OpenFileTable) :
    result ProcessError unit * ProcessTable * OpenFileTable :=
  match get t pid with
  | None => (Err ProcessNotFound, t, open_files)
  | Some p =>
      let p := set_pstate p (Zombie exit) in
      let '(entries, open_files) := FdTable.close_all (p_fd_table p) open_files in
      let p := set_fd_table p entries in
      let children := p_children p in
      let p := set_children p [] in
      (Ok tt, orphan_children (update t pid p) children, open_files)
  end.

Definition reap_child (t : ProcessTable) (parent child : ProcessId) :
    result ProcessError ProcessExit * ProcessTable :=
  if negb (is_child t parent child) then (Err NotChild, t)
  else match get t child with
  | None => (Err ProcessNotFound, t)
  | Some c =>
      match p_state c with
      | PRunning => (Err NotZombie, t)
      | Zombie exit =>
          let t := match get t parent with
                   | Some p => update t parent (remove_child p child)
                   | None => t
                   end in
          (Ok exit, put_slot t child None)
      end
  end.

Definition reap_orphan_if_zombie (t : ProcessTable) (pid : ProcessId) : ProcessTable :=
  match get t pid with
  | Some p => if p_orphaned p && is_zombie (p_state p) then put_slot t pid None else t
  | None => t
  end.

End ProcessTable.

Section wait_status_address.
Context {X : X86_64}.

(** [VirtAddr::new] panics on a non-canonical address. *)
Definition wait_status_address {S} (address : Z) : ST S (option Z) :=
  if address =? 0 then st_ret None
  else let* va := virt_addr address in st_ret (Some va).
End wait_status_address.

(** ** The invariant of the process table *)

Module ProcessTableFacts.
Import ProcessTable.

(** Slots hold the process with their own pid, pids are below [next_pid];
    a child list has no duplicates and names exactly the processes of the
    table whose parent this is; orphaned processes have no parent. *)
Record table_wf (t : ProcessTable) : Prop := mkWf {
  wf_size : processes t = [] \/ vlen (processes t) = MAX_PROCESSES + 1;
  wf_next : 1 <= next_pid t <= MAX_PROCESSES + 1;
  wf_pid i p : get t i = Some p -> p_pid p = i /\ 1 <= i < next_pid t;
  wf_children_nodup i p : get t i = Some p -> NoDup (p_children p);
  wf_children i p c : get t i = Some p -> c ∈ p_children p ->
    i < c /\ exists q, get t c = Some q /\ p_parent q = Some i /\ p_orphaned q = false;
  wf_parent c q i : get t c = Some q -> p_parent q = Some i ->
    i < c /\ forall p, get t i = Some p -> c ∈ p_children p;
  wf_orphan i p : get t i = Some p -> p_orphaned p = true -> p_parent p = None
}.

(** Parents are in the table and running. [create] does not check the
    state of the parent it is given, so this holds only as long as children
    are created under running parents. *)
Definition running_parents (t : ProcessTable) : Prop :=
  forall c q i, get t c = Some q -> p_parent q = Some i ->
    exists p, get t i = Some p /\ p_state p = PRunning.

(** Descriptor tables have their fixed size and a zombie's is empty. *)
Record fds_wf (t : ProcessTable) : Prop := mkFdsWf {
  fds_sized i p : get t i = Some p -> FdTable.sized (p_fd_table p);
  fds_zombie i p : get t i = Some p -> is_zombie (p_state p) = true ->
                   p_fd_table p = FdTable.empty
}.

(** The references to open file [id] held by all processes. *)
Definition slot_refs (id : OpenFileId) (o : option Process) : Z :=
  match o with Some p => FdTable.refs (p_fd_table p) id | None => 0 end.

Definition total_refs (t : ProcessTable) (id : OpenFileId) : Z :=
  zsum (slot_refs id) (processes t).

Lemma get_vget t i p : get t i = Some p <-> vget (processes t) i = Some (Some p).
Proof. unfold get. destruct (vget _ i) as [[]|]; intuition congruence. Qed.

Lemma get_None_slot t i :
  get t i = None <-> vget (processes t) i = None \/ vget (processes t) i = Some None.
Proof. unfold get. destruct (vget _ i) as [[]|]; intuition congruence. Qed.

Lemma get_update t i p p' j :
  get t i = Some p -> get (update t i p') j = if decide (j = i) then Some p' else get t j.
Proof.
  intros H%get_vget. pose proof (vget_range _ _ _ H). unfold update, put_slot.
  case_decide as Hj; [subst j|].
  - apply get_vget. by apply vget_vset_eq.
  - unfold get. cbn. by rewrite vget_vset_ne.
Qed.

Lemma get_put_None t i j :
  get (put_slot t i None) j = if decide (j = i) then None else get t j.
Proof.
  unfold put_slot. case_decide as Hj; [subst j|].
  - apply get_None_slot. cbn. rewrite vget_vset. case_decide; [by right|].
    left. apply vget_None. tauto.
  - unfold get. cbn. by rewrite vget_vset_ne.
Qed.

Lemma total_refs_update t i p p' id :
  get t i = Some p ->
  total_refs (update t i p') id =
    total_refs t id - FdTable.refs (p_fd_table p) id + FdTable.refs (p_fd_table p') id.
Proof. intros H%get_vget. unfold total_refs. cbn. by rewrite (zsum_vset _ _ _ _ _ H). Qed.

Lemma total_refs_remove t i p id :
  get t i = Some p ->
  total_refs (put_slot t i None) id = total_refs t id - FdTable.refs (p_fd_table p) id.
Proof.
  intros H%get_vget. unfold total_refs. cbn. rewrite (zsum_vset _ _ _ _ _ H). cbn. lia.
Qed.

Lemma total_refs_ge t i p id :
  get t i = Some p -> FdTable.refs (p_fd_table p) id <= total_refs t id.
Proof.
  intros H%get_vget%vget_elem_of.
  apply (zsum_le_elem (slot_refs id) _ (Some p)); [|done].
  intros [q|] _; cbn; [apply FdTable.refs_nonneg|lia].
Qed.

Lemma total_refs_zombie t i p id :
  fds_wf t -> get t i = Some p -> is_zombie (p_state p) = true ->
  FdTable.refs (p_fd_table p) id = 0.
Proof. intros Hf H Hz. rewrite (fds_zombie _ Hf _ _ H Hz). apply FdTable.refs_empty. Qed.

Lemma ensure_slots_get t i : get (ensure_slots t) i = get t i.
Proof.
  unfold ensure_slots. destruct (processes t) as [|o l] eqn:E; [|done].
  transitivity (@None Process).
  - apply get_None_slot. cbn. destruct (vget _ i) as [o|] eqn:Ei; [|by left].
    apply vget_elem_of, elem_of_replicate in Ei as [-> _]. by right.
  - symmetry. apply get_None_slot. left. rewrite E. apply vget_None. unfold vlen. cbn. lia.
Qed.

Lemma ensure_slots_refs t id : total_refs (ensure_slots t) id = total_refs t id.
Proof.
  unfold ensure_slots, total_refs. destruct (processes t) as [|o l] eqn:E; [|by rewrite E].
  cbn [processes]. rewrite zsum_replicate. cbn. lia.
Qed.

Lemma if_decide_cons {A} (j c : Z) cs (x y : A) :
  j <> c -> (if decide (j ∈ c :: cs) then x else y) = if decide (j ∈ cs) then x else y.
Proof.
  intros Hj. destruct (decide (j ∈ cs)) as [H|H].
  - by rewrite decide_True by (by apply list_elem_of_further).
  - rewrite decide_False; [done|]. by intros [?|?]%elem_of_cons.
Qed.

(** The table after [orphan_children]: each listed process loses its
    parent, and is removed if it is a zombie. *)
Lemma get_orphan_children t cs j :
  get (orphan_children t cs) j =
    match get t j with
    | Some p => if decide (j ∈ cs) then
                  if is_zombie (p_state p) then None else Some (set_parent_orphaned p)
                else Some p
    | None => None
    end.
Proof.
  revert t. induction cs as [|c cs IH]; intros t; cbn [orphan_children].
  { destruct (get t j); [|done]. by rewrite decide_False by apply not_elem_of_nil. }
  destruct (get t c) as [p|] eqn:Hc.
  - rewrite IH. cbn [set_parent_orphaned p_state].
    destruct (decide (j = c)) as [->|Hj].
    + rewrite Hc, (decide_True (P := c ∈ c :: cs)) by apply list_elem_of_here.
      destruct (is_zombie (p_state p)) eqn:Hz.
      * by rewrite get_put_None, decide_True.
      * rewrite (get_update _ _ _ _ _ Hc), decide_True by done. cbn. rewrite Hz.
        by destruct (decide (c ∈ cs)).
    + destruct (is_zombie (p_state p)).
      * rewrite get_put_None, decide_False by done.
        rewrite (get_update _ _ _ _ _ Hc), decide_False by done.
        destruct (get t j); [|done]. by rewrite if_decide_cons.
      * rewrite (get_update _ _ _ _ _ Hc), decide_False by done.
        destruct (get t j); [|done]. by rewrite if_decide_cons.
  - rewrite IH. destruct (get t j) eqn:Hj; [|done].
    rewrite if_decide_cons; [done|congruence].
Qed.
Lemma wf_get_fresh t i : table_wf t -> next_pid t <= i -> get t i = None.
Proof.
  intros Hwf Hi. destruct (get t i) eqn:E; [|done]. apply (wf_pid _ Hwf) in E. lia.
Qed.

Lemma can_create_Ok t parent :
  can_create t parent = Ok tt ->
  next_pid t <= MAX_PROCESSES /\ forall q, parent = Some q -> is_Some (get t q).
Proof.
  unfold can_create. destruct (active_count t >=? _); [done|].
  destruct (next_pid t >? MAX_PROCESSES) eqn:E; [done|]. intros H.
  split; [unfold Z.gtb in E; destruct (Z.compare_spec (next_pid t) MAX_PROCESSES); lia || done|].
  intros q ->. destruct (get t q); [by eexists|done].
Qed.

Definition new_process (pid : ProcessId) (parent : option ProcessId) (aspace : AddressSpace)
    (h : UserHeap) (fds : FdTable) (main : TaskId) : Process :=
  mkProcess pid parent [] PRunning aspace h fds main false.

(** The parent's record once [pid] is appended to its children. *)
Definition adopt (parent : option ProcessId) (pid j : ProcessId) (p : Process) : Process :=
  if decide (parent = Some j) then set_children p (p_children p ++ [pid]) else p.

(** The table with a process put in the first unused slot. *)
Definition inserted (t : ProcessTable) (p : Process) : ProcessTable :=
  update (mkProcessTable (processes (ensure_slots t)) (next_pid t + 1)) (next_pid t) p.

Lemma ensure_slots_next t : next_pid (ensure_slots t) = next_pid t.
Proof. unfold ensure_slots. by destruct (processes t). Qed.

Lemma ensure_slots_size t :
  table_wf t -> vlen (processes (ensure_slots t)) = MAX_PROCESSES + 1.
Proof.
  intros Hwf. unfold ensure_slots. destruct (wf_size _ Hwf) as [E|E].
  - by rewrite E.
  - destruct (processes t) eqn:Ep; [done|]. by rewrite Ep.
Qed.

Lemma get_inserted t p j :
  table_wf t -> next_pid t <= MAX_PROCESSES ->
  get (inserted t p) j = if decide (j = next_pid t) then Some p else get t j.
Proof.
  intros Hwf Hn. pose proof (wf_next _ Hwf). unfold inserted, update, put_slot.
  case_decide as Hj; [subst j|].
  - apply get_vget. cbn [processes]. apply vget_vset_eq. rewrite ensure_slots_size by done. lia.
  - unfold get. cbn [processes]. rewrite vget_vset_ne by done. apply (ensure_slots_get t j).
Qed.

Lemma total_refs_inserted t p id :
  table_wf t -> next_pid t <= MAX_PROCESSES ->
  total_refs (inserted t p) id = total_refs t id + FdTable.refs (p_fd_table p) id.
Proof.
  intros Hwf Hn. pose proof (wf_next _ Hwf).
  assert (vget (processes (ensure_slots t)) (next_pid t) = Some None) as Hslot.
  { destruct (vget_is_Some (processes (ensure_slots t)) (next_pid t)) as [[q|] Ho];
      [rewrite ensure_slots_size by done; lia| |done].
    apply get_vget in Ho. rewrite ensure_slots_get in Ho.
    rewrite wf_get_fresh in Ho; [done|done|lia]. }
  unfold total_refs at 1, inserted. cbn [update put_slot processes].
  rewrite (zsum_vset _ _ _ _ _ Hslot). cbn [slot_refs].
  change (zsum (slot_refs id) (processes (ensure_slots t))) with (total_refs (ensure_slots t) id).
  rewrite ensure_slots_refs. lia.
Qed.

(** [create] never panics; it fails exactly when [can_create] does, leaving
    the table alone, and otherwise inserts one new process. *)
Lemma create_spec t parent aspace h fds main :
  table_wf t ->
  wp (create parent aspace h fds main) (fun r t' =>
    match r with
    | Err e => can_create t parent = Err e /\ t' = t
    | Ok pid =>
        can_create t parent = Ok tt /\ pid = next_pid t /\ next_pid t' = pid + 1 /\
        vlen (processes t') = MAX_PROCESSES + 1 /\
        get t' pid = Some (new_process pid parent aspace h fds main) /\
        (forall j, j <> pid -> get t' j = adopt parent pid j <$> get t j) /\
        (forall id, total_refs t' id = total_refs t id + FdTable.refs fds id)
    end) t.
Proof.
  intros Hwf. unfold create. wp_step. wp_step.
  destruct (can_create t parent) as [[]|e] eqn:Hcc; [|done].
  destruct (can_create_Ok _ _ Hcc) as [Hnext Hparent]. pose proof (wf_next _ Hwf).
  wp_steps. rewrite ensure_slots_next. cbn [processes].
  rewrite (proj2 (in_range_true _ _)) by (rewrite ensure_slots_size by done; lia).
  wp_steps. set (pid := next_pid t).
  match goal with |- wp _ _ ?x =>
    change x with (inserted t (new_process pid parent aspace h fds main)) end.
  set (t2 := inserted t _).
  pose proof (fun j => get_inserted t (new_process pid parent aspace h fds main) j Hwf Hnext) as Hget.
  pose proof (fun id => total_refs_inserted t (new_process pid parent aspace h fds main) id Hwf Hnext)
    as Hrefs.
  fold t2 in Hget, Hrefs.
  assert (Hlen2 : vlen (processes t2) = MAX_PROCESSES + 1).
  { subst t2. unfold inserted. cbn. rewrite vlen_vset. by apply ensure_slots_size. }
  destruct parent as [q|]; wp_steps.
  - destruct (Hparent q eq_refl) as [pq Hq].
    assert (Hqp : q <> pid) by (intros ->; rewrite wf_get_fresh in Hq; [done|done|lia]).
    assert (Hq2 : get t2 q = Some pq) by (rewrite Hget, decide_False; done).
    eapply wp_expect; [done|]. wp_steps.
    split; [done|]. split; [done|]. split; [done|].
    split; [cbn; by rewrite vlen_vset|].
    split; [rewrite (get_update _ _ _ _ _ Hq2), decide_False, Hget, decide_True; done|].
    split.
    + intros j Hj. rewrite (get_update _ _ _ _ _ Hq2). unfold adopt.
      case_decide as Hjq; [subst j; rewrite Hq; cbn; by rewrite decide_True|].
      rewrite Hget, decide_False by done. destruct (get t j); [|done]. cbn.
      by rewrite decide_False by congruence.
    + intros id. rewrite (total_refs_update _ _ _ _ _ Hq2), Hrefs.
      cbn [set_children p_fd_table new_process]. lia.
  - split; [done|]. split; [done|]. split; [done|]. split; [done|].
    split; [rewrite Hget, decide_True; done|]. split; [|done].
    intros j Hj. rewrite Hget, decide_False by done. unfold adopt. by destruct (get t j).
Qed.
Lemma adopt_fields parent pid j p :
  p_pid (adopt parent pid j p) = p_pid p /\ p_parent (adopt parent pid j p) = p_parent p /\
  p_state (adopt parent pid j p) = p_state p /\
  p_orphaned (adopt parent pid j p) = p_orphaned p /\
  p_fd_table (adopt parent pid j p) = p_fd_table p /\
  p_main_task (adopt parent pid j p) = p_main_task p /\
  p_address_space (adopt parent pid j p) = p_address_space p.
Proof. unfold adopt. by case_decide. Qed.

Lemma elem_of_adopt parent pid j p c :
  c ∈ p_children (adopt parent pid j p) <->
  c ∈ p_children p \/ (parent = Some j /\ c = pid).
Proof.
  unfold adopt. case_decide as H; cbn.
  - rewrite elem_of_app, list_elem_of_singleton. tauto.
  - tauto.
Qed.

(** [create] keeps the invariant, whatever the state of the parent. *)
Lemma create_wf t t' parent pid new :
  table_wf t -> fds_wf t ->
  can_create t parent = Ok tt -> pid = next_pid t -> next_pid t' = pid + 1 ->
  vlen (processes t') = MAX_PROCESSES + 1 ->
  p_pid new = pid -> p_parent new = parent -> p_children new = [] -> p_state new = PRunning ->
  p_orphaned new = false -> FdTable.sized (p_fd_table new) ->
  get t' pid = Some new ->
  (forall j, j <> pid -> get t' j = adopt parent pid j <$> get t j) ->
  table_wf t' /\ fds_wf t'.
Proof.
  intros Hwf Hfds [Hmax Hpar]%can_create_Ok Hpid Hnext Hlen Np Npar Nch Nst Nor Nfd Hnew Hold.
  assert (Hinv : forall j q, get t' j = Some q ->
    (j = pid /\ q = new) \/
    (j <> pid /\ exists p, get t j = Some p /\ q = adopt parent pid j p)).
  { intros j q Hq. destruct (decide (j = pid)) as [->|Hj]; [left; split; congruence|].
    right. rewrite Hold in Hq by done. destruct (get t j) as [p|]; [|done].
    split; [done|]. exists p. split; [done|]. by injection Hq. }
  assert (Hlift : forall j p, get t j = Some p -> j <> pid /\ get t' j = Some (adopt parent pid j p)).
  { intros j p Hj. assert (j <> pid) by (intros ->; rewrite wf_get_fresh in Hj; [done|done|lia]).
    split; [done|]. by rewrite Hold, Hj by done. }
  pose proof (wf_next _ Hwf) as Hn.
  split; constructor.
  - by right.
  - lia.
  - intros i p [[-> ->]|(_ & q & Hq & ->)]%Hinv; [lia|].
    destruct (adopt_fields parent pid i q) as (-> & _). apply (wf_pid _ Hwf) in Hq. lia.
  - intros i p [[-> ->]|(Hi & q & Hq & ->)]%Hinv; [rewrite Nch; constructor|].
    pose proof (wf_children_nodup _ Hwf _ _ Hq) as Hnd. unfold adopt. case_decide; [|done].
    cbn. apply NoDup_app. split; [done|]. split; [|apply NoDup_singleton].
    intros c Hc ->%list_elem_of_singleton. apply (wf_children _ Hwf _ _ _ Hq) in Hc as (_ & z & Hz & _).
    apply Hlift in Hz as [? _]. done.
  - intros i p c [[-> ->]|(Hi & q & Hq & ->)]%Hinv Hc; [rewrite Nch in Hc; by apply elem_of_nil in Hc|].
    apply elem_of_adopt in Hc as [Hc|[-> ->]].
    + destruct (wf_children _ Hwf _ _ _ Hq Hc) as (Hne & z & Hz & Hzp & Hzo). split; [done|].
      apply Hlift in Hz as [_ Hz]. eexists. split; [exact Hz|].
      destruct (adopt_fields parent pid c z) as (_ & -> & _ & -> & _). done.
    + pose proof (wf_pid _ Hwf _ _ Hq). split; [lia|]. exists new. split; [done|]. by split; congruence.
  - intros c q i [[-> ->]|(Hc & z & Hz & ->)]%Hinv Hp.
    + destruct (Hpar i) as [p Hi]; [congruence|]. destruct (Hlift _ _ Hi) as [_ Hi'].
      split; [pose proof (wf_pid _ Hwf _ _ Hi); lia|]. intros p' Hp'. rewrite Hi' in Hp'.
      injection Hp' as <-. apply elem_of_adopt. right. split; congruence.
    + destruct (adopt_fields parent pid c z) as (_ & Ep & _). rewrite Ep in Hp.
      destruct (wf_parent _ Hwf _ _ _ Hz Hp) as (Hlt & Hin). split; [done|].
      pose proof (wf_pid _ Hwf _ _ Hz).
      intros p' [[-> ->]|(_ & p & Hi & ->)]%Hinv; [lia|]. apply elem_of_adopt. left. by apply Hin.
  - intros i p [[-> ->]|(_ & q & Hq & ->)]%Hinv; [congruence|].
    destruct (adopt_fields parent pid i q) as (_ & -> & _ & -> & _). by apply (wf_orphan _ Hwf i).
  - intros i p [[-> ->]|(_ & q & Hq & ->)]%Hinv; [done|].
    destruct (adopt_fields parent pid i q) as (_ & _ & _ & _ & -> & _). by apply (fds_sized _ Hfds i).
  - intros i p [[-> ->]|(_ & q & Hq & ->)]%Hinv; [by rewrite Nst|].
    destruct (adopt_fields parent pid i q) as (_ & _ & -> & _ & -> & _). by apply (fds_zombie _ Hfds i).
Qed.

Lemma new_wf : table_wf new /\ fds_wf new.
Proof.
  assert (forall i, get new i = None) as Hn.
  { intros i. apply get_None_slot. left. apply vget_None. unfold vlen. cbn. lia. }
  split; constructor; try (intros; rewrite Hn in *; discriminate).
  - by left.
  - cbn. unfold MAX_PROCESSES. lia.
Qed.
(** ** Exit and reaping *)

Lemma orphan_children_shape t cs :
  next_pid (orphan_children t cs) = next_pid t /\
  vlen (processes (orphan_children t cs)) = vlen (processes t).
Proof.
  revert t. induction cs as [|c cs IH]; intros t; cbn [orphan_children]; [done|].
  destruct (get t c) as [p|]; [|done].
  destruct (IH (if is_zombie (p_state (set_parent_orphaned p))
                then put_slot (update t c (set_parent_orphaned p)) c None
                else update t c (set_parent_orphaned p))) as [-> ->].
  destruct (is_zombie _); cbn; by rewrite ?vlen_vset.
Qed.

(** Orphaning moves no descriptor: a zombie it removes holds none. *)
Lemma orphan_children_refs t cs id :
  fds_wf t -> total_refs (orphan_children t cs) id = total_refs t id.
Proof.
  revert t. induction cs as [|c cs IH]; intros t Hf; cbn [orphan_children]; [done|].
  destruct (get t c) as [p|] eqn:Hc; [|by apply IH].
  pose proof (get_update t c p (set_parent_orphaned p) c Hc) as Hc'. rewrite decide_True in Hc' by done.
  assert (total_refs (update t c (set_parent_orphaned p)) id = total_refs t id) as Hu.
  { rewrite (total_refs_update _ _ _ _ _ Hc). cbn. lia. }
  assert (fds_wf (update t c (set_parent_orphaned p))) as Hfu.
  { constructor; intros i q; rewrite (get_update _ _ _ _ _ Hc);
      (case_decide; [subst i; intros [= <-]; cbn|]); by eapply Hf. }
  destruct (is_zombie _) eqn:Hz.
  - rewrite IH.
    + rewrite (total_refs_remove _ _ _ _ Hc'), Hu, (total_refs_zombie t c p) by done. lia.
    + constructor; intros i q; rewrite get_put_None; (case_decide; [done|]); by apply Hfu.
  - by rewrite IH.
Qed.

(** The exiting process's own record: a zombie without descriptors or children. *)
Definition exited (p : Process) (exit : ProcessExit) : Process :=
  set_children (set_fd_table (set_pstate p (Zombie exit)) FdTable.empty) [].

Lemma sized_empty t : FdTable.sized t -> replicate (length t) None = FdTable.empty.
Proof.
  unfold FdTable.sized, vlen, FdTable.empty. intros H.
  replace (length t) with (Z.to_nat MAX_FDS_PER_PROCESS); [done|]. lia.
Qed.

(** The table [t'] after [p], in slot [pid] of [t], exits. *)
Record exit_step (t : ProcessTable) (pid : ProcessId) (p : Process) (exit : ProcessExit)
    (t' : ProcessTable) : Prop := mkExitStep {
  es_next : next_pid t' = next_pid t;
  es_size : vlen (processes t') = vlen (processes t);
  es_self : get t' pid = Some (exited p exit);
  es_other j : j <> pid ->
    get t' j = match get t j with
               | Some q => if decide (j ∈ p_children p)
                           then if is_zombie (p_state q) then None
                                else Some (set_parent_orphaned q)
                           else Some q
               | None => None
               end
}.

Lemma mark_exited_spec t pid p exit files :
  table_wf t -> fds_wf t -> OpenFileTable.table_ok files -> get t pid = Some p ->
  let '(r, t', files') := mark_exited t pid exit files in
  r = Ok tt /\ exit_step t pid p exit t' /\
  OpenFileTable.table_ok files' /\ FdTable.released files (FdTable.refs (p_fd_table p)) files' /\
  (forall id, total_refs t' id = total_refs t id - FdTable.refs (p_fd_table p) id).
Proof.
  intros Hwf Hf Hok Hp. unfold mark_exited. rewrite Hp.
  change (p_fd_table (set_pstate _ _)) with (p_fd_table p).
  pose proof (FdTable.close_all_spec (p_fd_table p) files Hok) as Hclose.
  destruct (FdTable.close_all (p_fd_table p) files) as [entries files'].
  destruct Hclose as (-> & Hok' & Hrc). rewrite sized_empty by (by apply (fds_sized _ Hf pid)).
  change (p_children (set_fd_table _ _)) with (p_children p).
  change (set_children (set_fd_table (set_pstate p (Zombie exit)) FdTable.empty) [])
    with (exited p exit).
  destruct (orphan_children_shape (update t pid (exited p exit)) (p_children p)) as [Hn Hl].
  split; [done|]. split; [constructor|split; [done|split; [done|]]].
  - by rewrite Hn.
  - rewrite Hl. cbn. by rewrite vlen_vset.
  - rewrite get_orphan_children, (get_update _ _ _ _ _ Hp), decide_True by done.
    rewrite decide_False; [done|]. intros Hc. apply (wf_children _ Hwf pid p) in Hc as [? _]; [lia|done].
  - intros j Hj. by rewrite get_orphan_children, (get_update _ _ _ _ _ Hp), decide_False.
  - intros id. rewrite orphan_children_refs.
    + rewrite (total_refs_update _ _ _ _ _ Hp). cbn [exited set_children set_fd_table p_fd_table].
      rewrite FdTable.refs_empty. lia.
    + constructor; intros i q; rewrite (get_update _ _ _ _ _ Hp);
        (case_decide; [subst i; intros [= <-]; done|]); by eapply Hf.
Qed.

(** Where a process of the new table comes from. *)
Lemma exit_step_inv t pid p exit t' j q :
  exit_step t pid p exit t' -> get t' j = Some q ->
  (j = pid /\ q = exited p exit) \/
  (j <> pid /\ exists q0, get t j = Some q0 /\
     ((j ∈ p_children p /\ p_state q0 = PRunning /\ q = set_parent_orphaned q0) \/
      (~ (j ∈ p_children p) /\ q = q0))).
Proof.
  intros E Hq. destruct (decide (j = pid)) as [->|Hj].
  { left. rewrite (es_self _ _ _ _ _ E) in Hq. split; congruence. }
  right. rewrite (es_other _ _ _ _ _ E) in Hq by done. destruct (get t j) as [q0|]; [|done].
  split; [done|]. exists q0. split; [done|]. case_decide as Hin; [left|right; split; congruence].
  destruct (p_state q0) eqn:Es; cbn in Hq; [|done]. split; [done|]. split; congruence.
Qed.

Lemma exit_step_keep t pid p exit t' j q :
  exit_step t pid p exit t' -> get t j = Some q -> j <> pid -> ~ (j ∈ p_children p) ->
  get t' j = Some q.
Proof. intros E Hj Hne Hin. by rewrite (es_other _ _ _ _ _ E), Hj, decide_False by done. Qed.

(** A running process other than [pid] stays, with its children. *)
Lemma exit_step_running t pid p exit t' j q :
  exit_step t pid p exit t' -> get t j = Some q -> j <> pid -> p_state q = PRunning ->
  exists q', get t' j = Some q' /\ p_children q' = p_children q /\ p_state q' = PRunning /\
             p_main_task q' = p_main_task q /\ p_address_space q' = p_address_space q.
Proof.
  intros E Hj Hne Hst. rewrite (es_other _ _ _ _ _ E), Hj by done.
  case_decide; [rewrite Hst; cbn|]; eauto 10.
Qed.

Lemma exit_step_wf t pid p exit t' :
  table_wf t -> fds_wf t -> get t pid = Some p -> exit_step t pid p exit t' ->
  table_wf t' /\ fds_wf t'.
Proof.
  intros Hwf Hf Hp E. pose proof (fun j q => exit_step_inv _ _ _ _ _ j q E) as Hinv.
  pose proof (es_next _ _ _ _ _ E) as Hn.
  split; constructor.
  - rewrite (es_size _ _ _ _ _ E). destruct (wf_size _ Hwf) as [E0|E0]; [|by right].
    apply get_vget in Hp. rewrite E0 in Hp. apply vget_range in Hp. unfold vlen in Hp. cbn in Hp. lia.
  - rewrite Hn. apply Hwf.
  - intros i q [[-> ->]|(_ & q0 & Hq & [(_ & _ & ->)|(_ & ->)])]%Hinv; rewrite Hn;
      [by apply (wf_pid _ Hwf _ _ Hp)|by apply (wf_pid _ Hwf _ _ Hq)..].
  - intros i q [[-> ->]|(_ & q0 & Hq & [(_ & _ & ->)|(_ & ->)])]%Hinv; [constructor|..];
      by apply (wf_children_nodup _ Hwf _ _ Hq).
  - intros i q c Hq Hc.
    assert (exists q0, get t i = Some q0 /\ i <> pid /\ c ∈ p_children q0)
      as (q0 & Hi & Hne & Hc0).
    { apply Hinv in Hq as [[-> ->]|(Hne & q0 & Hq & [(_ & _ & ->)|(_ & ->)])];
        [by apply elem_of_nil in Hc|eauto..]. }
    destruct (wf_children _ Hwf _ _ _ Hi Hc0) as (Hci & z & Hz & Hzp & Hzo). split; [done|].
    assert (~ (c ∈ p_children p)) as Hcp.
    { intros Hin. destruct (wf_children _ Hwf _ _ _ Hp Hin) as (_ & z' & Hz' & Hzp' & _). congruence. }
    destruct (decide (c = pid)) as [->|Hcne]; [|eauto using exit_step_keep].
    exists (exited p exit). split; [apply E|]. cbn. split; congruence.
  - intros c q i Hq Hpar.
    assert (exists q0, get t c = Some q0 /\ p_parent q0 = Some i /\ ~ (c ∈ p_children p))
      as (q0 & Hc & Hp0 & Hin).
    { apply Hinv in Hq as [[-> ->]|(_ & q0 & Hq & [(_ & _ & ->)|(Hin & ->)])]; [|done|eauto].
      exists p. split; [done|]. split; [done|]. intros Hin.
      apply (wf_children _ Hwf pid p) in Hin as [? _]; [lia|done]. }
    destruct (wf_parent _ Hwf _ _ _ Hc Hp0) as (Hlt & Hci). split; [done|].
    intros p' [[-> ->]|(_ & p0 & Hi & [(_ & _ & ->)|(_ & ->)])]%Hinv; [by destruct Hin; apply Hci|exact (Hci _ Hi)..].
  - intros i q [[-> ->]|(_ & q0 & Hq & [(_ & _ & ->)|(_ & ->)])]%Hinv;
      [by apply (wf_orphan _ Hwf _ _ Hp)|done|by apply (wf_orphan _ Hwf _ _ Hq)].
  - intros i q [[-> ->]|(_ & q0 & Hq & [(_ & _ & ->)|(_ & ->)])]%Hinv; [done|..];
      by apply (fds_sized _ Hf _ _ Hq).
  - intros i q [[-> ->]|(_ & q0 & Hq & [(_ & _ & ->)|(_ & ->)])]%Hinv; [done|..];
      by apply (fds_zombie _ Hf _ _ Hq).
Qed.
Lemma is_child_spec t i c :
  is_child t i c = true <-> exists p, get t i = Some p /\ c ∈ p_children p.
Proof.
  unfold is_child, process_is_child. destruct (get t i) as [p|].
  - rewrite existsb_exists. setoid_rewrite <- list_elem_of_In. split.
    + intros (x & Hx & ->%Z.eqb_eq). eauto.
    + intros (q & [= <-] & Hc). exists c. by rewrite Z.eqb_refl.
  - split; [done|]. by intros (? & ? & _).
Qed.

Lemma elem_of_remove_child p c d :
  d ∈ p_children (remove_child p c) <-> d ∈ p_children p /\ d <> c.
Proof.
  cbn. rewrite !list_elem_of_In, filter_In, negb_true_iff, Z.eqb_neq. done.
Qed.

Lemma NoDup_filterb {A} (f : A -> bool) (l : list A) : NoDup l -> NoDup (List.filter f l).
Proof.
  induction 1 as [|x l Hx _ IH]; cbn; [constructor|]. destruct (f x); [|done].
  constructor; [|done]. rewrite list_elem_of_In in *. by rewrite filter_In; intros [? _].
Qed.

(** Removing a zombie, after taking it off its parent's child list, keeps
    the invariant; a zombie holds no descriptors, so no reference is lost. *)
Record remove_step (t : ProcessTable) (c : ProcessId) (t' : ProcessTable) : Prop := mkRemoveStep {
  rs_next : next_pid t' = next_pid t;
  rs_size : vlen (processes t') = vlen (processes t);
  rs_gone : get t' c = None;
  rs_other j : j <> c ->
    get t' j = (fun q => remove_child q c) <$> get t j \/
    (get t' j = get t j /\ forall q, get t j = Some q -> ~ (c ∈ p_children q))
}.

Lemma remove_step_inv t c t' j q :
  remove_step t c t' -> get t' j = Some q ->
  j <> c /\ exists q0, get t j = Some q0 /\
    p_pid q = p_pid q0 /\ p_parent q = p_parent q0 /\ p_state q = p_state q0 /\
    p_orphaned q = p_orphaned q0 /\ p_fd_table q = p_fd_table q0 /\
    p_main_task q = p_main_task q0 /\ p_address_space q = p_address_space q0 /\
    (NoDup (p_children q0) -> NoDup (p_children q)) /\
    forall d, d ∈ p_children q <-> d ∈ p_children q0 /\ d <> c.
Proof.
  intros R Hq. destruct (decide (j = c)) as [->|Hj]; [rewrite (rs_gone _ _ _ R) in Hq; done|].
  split; [done|]. destruct (rs_other _ _ _ R j Hj) as [E|[E Hc]]; rewrite E in Hq.
  - destruct (get t j) as [q0|]; [|done]. injection Hq as <-. exists q0.
    repeat split_and; try done; [apply NoDup_filterb|apply elem_of_remove_child].
  - exists q. repeat split_and; try done. intros d. specialize (Hc q Hq).
    split; [|tauto]. intros Hd. split; [done|]. by intros ->.
Qed.

Lemma remove_step_shape t c t' j q :
  remove_step t c t' -> get t' j = Some q ->
  exists q0, get t j = Some q0 /\ (q = q0 \/ q = remove_child q0 c).
Proof.
  intros R Hq. destruct (decide (j = c)) as [->|Hj]; [rewrite (rs_gone _ _ _ R) in Hq; done|].
  destruct (rs_other _ _ _ R j Hj) as [E|[E _]]; rewrite E in Hq; [|eauto].
  destruct (get t j) as [q0|]; [|done]. injection Hq as <-. eauto.
Qed.

Lemma remove_step_get t c t' j q :
  remove_step t c t' -> get t j = Some q -> j <> c -> is_Some (get t' j).
Proof.
  intros R Hq Hj. destruct (rs_other _ _ _ R j Hj) as [->|[-> _]]; rewrite Hq; by eexists.
Qed.

Lemma remove_step_wf t c z t' :
  table_wf t -> fds_wf t -> get t c = Some z -> is_zombie (p_state z) = true ->
  remove_step t c t' -> table_wf t' /\ fds_wf t'.
Proof.
  intros Hwf Hf Hz Hzom R. pose proof (rs_next _ _ _ R) as Hn.
  split; constructor.
  - rewrite (rs_size _ _ _ R). destruct (wf_size _ Hwf) as [E0|E0]; [|by right].
    apply get_vget in Hz. rewrite E0 in Hz. apply vget_range in Hz. unfold vlen in Hz. cbn in Hz. lia.
  - rewrite Hn. apply Hwf.
  - intros i q (_ & q0 & Hq & -> & _)%(remove_step_inv _ _ _ _ _ R). rewrite Hn.
    by apply (wf_pid _ Hwf).
  - intros i q (_ & q0 & Hq & _ & _ & _ & _ & _ & _ & _ & Hnd & _)%(remove_step_inv _ _ _ _ _ R).
    by apply Hnd, (wf_children_nodup _ Hwf i).
  - intros i q d (Hi & q0 & Hq & _ & _ & _ & _ & _ & _ & _ & _ & Hch)%(remove_step_inv _ _ _ _ _ R) Hd.
    apply Hch in Hd as [Hd Hdc].
    destruct (wf_children _ Hwf _ _ _ Hq Hd) as (Hdi & w & Hw & Hwp & Hwo). split; [done|].
    destruct (remove_step_get _ _ _ _ _ R Hw Hdc) as [w' Hw'].
    destruct (remove_step_inv _ _ _ _ _ R Hw') as (_ & w0 & Hw0 & _ & Ep & _ & Eo & _).
    exists w'. split; [done|]. split; congruence.
  - intros d q i (Hd & q0 & Hq & _ & Ep & _)%(remove_step_inv _ _ _ _ _ R) Hpar. rewrite Ep in Hpar.
    destruct (wf_parent _ Hwf _ _ _ Hq Hpar) as (Hlt & Hin). split; [done|].
    intros p' (_ & p0 & Hp0 & _ & _ & _ & _ & _ & _ & _ & _ & Hch)%(remove_step_inv _ _ _ _ _ R).
    rewrite Hch. split; [by apply Hin|done].
  - intros i q (_ & q0 & Hq & _ & -> & _ & -> & _)%(remove_step_inv _ _ _ _ _ R).
    by apply (wf_orphan _ Hwf i).
  - intros i q (_ & q0 & Hq & _ & _ & _ & _ & -> & _)%(remove_step_inv _ _ _ _ _ R).
    by apply (fds_sized _ Hf i).
  - intros i q (_ & q0 & Hq & _ & _ & -> & _ & -> & _)%(remove_step_inv _ _ _ _ _ R).
    by apply (fds_zombie _ Hf i).
Qed.

(** [reap_child] on every branch. *)
Lemma reap_child_spec t i c :
  table_wf t -> fds_wf t ->
  let '(r, t') := reap_child t i c in
  match r with
  | Ok exit =>
      is_child t i c = true /\
      (exists z, get t c = Some z /\ p_state z = Zombie exit) /\
      remove_step t c t' /\ forall id, total_refs t' id = total_refs t id
  | Err NotChild => is_child t i c = false /\ t' = t
  | Err NotZombie => is_child t i c = true /\ state t c = Some PRunning /\ t' = t
  | Err _ => False
  end.
Proof.
  intros Hwf Hf. unfold reap_child. destruct (is_child t i c) eqn:Hc; cbn [negb]; [|done].
  pose proof (proj1 (is_child_spec _ _ _) Hc) as (p & Hp & Hin).
  destruct (wf_children _ Hwf _ _ _ Hp Hin) as (Hci & z & Hz & Hzp & _). rewrite Hz.
  destruct (p_state z) as [|exit] eqn:Hst.
  { split; [done|]. split; [|done]. unfold state. by rewrite Hz, Hst. }
  rewrite Hp. split; [done|]. split; [eauto|].
  set (t1 := update t i (remove_child p c)).
  assert (Hz1 : get t1 c = Some z).
  { subst t1. by rewrite (get_update _ _ _ _ _ Hp), decide_False by lia. }
  split; [constructor|].
  - done.
  - cbn. by rewrite !vlen_vset.
  - by rewrite get_put_None, decide_True.
  - intros j Hj. rewrite get_put_None, decide_False by done. subst t1.
    rewrite (get_update _ _ _ _ _ Hp). case_decide as Hji.
    + left. subst j. by rewrite Hp.
    + right. split; [done|]. intros q Hq Hin'.
      destruct (wf_children _ Hwf _ _ _ Hq Hin') as (_ & z' & Hz' & Hzp' & _). congruence.
  - intros id. rewrite (total_refs_remove _ _ _ _ Hz1).
    rewrite (total_refs_zombie t c z) by (try done; by rewrite Hst). subst t1.
    rewrite (total_refs_update _ _ _ _ _ Hp). cbn. lia.
Qed.

Lemma reap_orphan_spec t i :
  table_wf t -> fds_wf t ->
  let t' := reap_orphan_if_zombie t i in
  ((exists z, get t i = Some z /\ p_orphaned z = true /\ is_zombie (p_state z) = true) /\
   remove_step t i t' /\ forall id, total_refs t' id = total_refs t id) \/
  ((forall z, get t i = Some z -> is_zombie (p_state z) = true -> p_orphaned z = false) /\ t' = t).
Proof.
  intros Hwf Hf. unfold reap_orphan_if_zombie. destruct (get t i) as [z|] eqn:Hz; [|by right].
  destruct (p_orphaned z && is_zombie (p_state z)) eqn:E.
  - left. apply andb_prop in E as [Ho Hzom]. split; [eauto|]. split; [constructor|].
    + done.
    + cbn. by rewrite vlen_vset.
    + by rewrite get_put_None, decide_True.
    + intros j Hj. right. rewrite get_put_None, decide_False by done. split; [done|].
      intros q Hq Hin. destruct (wf_children _ Hwf _ _ _ Hq Hin) as (_ & z' & Hz' & _ & Ho'). congruence.
    + intros id. rewrite (total_refs_remove _ _ _ _ Hz), (total_refs_zombie t i z) by done. lia.
  - right. split; [|done]. intros ? [= <-] Hzom. rewrite Hzom, andb_true_r in E. done.
Qed.

(** The strict tree, step by step: it survives an exit and the removal of a
    zombie, and [create] under a running parent. *)

Lemma exit_step_running_parents t pid p exit t' :
  table_wf t -> running_parents t -> get t pid = Some p -> exit_step t pid p exit t' ->
  running_parents t'.
Proof.
  intros Hwf Hrp Hp E c q i Hq Hpar.
  assert (exists q0, get t c = Some q0 /\ p_parent q0 = Some i /\ ~ (c ∈ p_children p))
    as (q0 & Hc & Hp0 & Hin).
  { apply (exit_step_inv _ _ _ _ _ _ _ E) in Hq
      as [[-> ->]|(_ & q0 & Hq & [(_ & _ & ->)|(Hin & ->)])]; [|done|eauto].
    exists p. split; [done|]. split; [done|]. intros Hin.
    apply (wf_children _ Hwf pid p) in Hin as [? _]; [lia|done]. }
  destruct (Hrp _ _ _ Hc Hp0) as (pi & Hi & Hst).
  destruct (decide (i = pid)) as [->|Hne]; [by destruct Hin; apply (wf_parent _ Hwf _ _ _ Hc Hp0)|].
  destruct (exit_step_running _ _ _ _ _ _ _ E Hi Hne Hst) as (q' & Hq' & _ & Hst' & _). eauto.
Qed.

Lemma remove_step_running_parents t c z t' :
  running_parents t -> get t c = Some z -> is_zombie (p_state z) = true -> remove_step t c t' ->
  running_parents t'.
Proof.
  intros Hrp Hz Hzom R d q i (Hd & q0 & Hq & _ & Ep & _)%(remove_step_inv _ _ _ _ _ R) Hpar.
  rewrite Ep in Hpar. destruct (Hrp _ _ _ Hq Hpar) as (pi & Hi & Hst).
  assert (i <> c) as Hic by (intros ->; replace pi with z in Hst by congruence; by rewrite Hst in Hzom).
  destruct (remove_step_get _ _ _ _ _ R Hi Hic) as [p' Hp'].
  destruct (remove_step_inv _ _ _ _ _ R Hp') as (_ & p0 & Hp0 & _ & _ & Es & _).
  exists p'. split; congruence.
Qed.

(** A table whose only process has exited: it has no parent, so it stays. *)
Lemma zombie_root :
  exists t, table_wf t /\ fds_wf t /\ running_parents t /\ state t 1 = Some (Zombie (Exited 0)) /\
    exists p, get t 1 = Some p /\ can_create t (Some 1) = Ok tt.
Proof.
  destruct new_wf as [Hwf Hf].
  pose proof (create_spec new None (mkAddressSpace 0) (mkUserHeap 0 0 0 0) FdTable.empty 0 Hwf) as H.
  apply wp_done in H as (r & t & E & H).
  assert (r = Ok 1) as -> by (by injection E).
  destruct H as (Hcc & _ & Hn & Hsz & Hp & Hold & _). set (p := new_process _ _ _ _ _ _) in Hp.
  destruct (create_wf new t None 1 p Hwf Hf Hcc eq_refl Hn Hsz) as [Hwf1 Hf1];
    [done..|apply FdTable.empty_sized|done|done|].
  pose proof (mark_exited_spec t _ _ (Exited 0) _ Hwf1 Hf1 OpenFileTable.new_ok Hp) as H.
  destruct (mark_exited _ _ _ _) as [[r t2] fs] eqn:E2. destruct H as (_ & X2 & _).
  exists t2. destruct (exit_step_wf _ _ _ _ _ Hwf1 Hf1 Hp X2) as [Hwf2 Hf2].
  split; [done|]. split; [done|]. split.
  { apply (exit_step_running_parents t 1 p (Exited 0)); try done. intros c q i Hq Hi.
    destruct (decide (c = 1)) as [->|Hc]; [rewrite Hp in Hq; by injection Hq as <-|].
    rewrite Hold in Hq by done. destruct (get new c) eqn:En; [|done].
    apply (wf_pid _ Hwf) in En. cbn in En. lia. }
  split; [unfold state; by rewrite (es_self _ _ _ _ _ X2)|].
  eexists. split; [apply (es_self _ _ _ _ _ X2)|].
  vm_compute in E. injection E as <-. vm_compute in E2. injection E2 as _ <- _. reflexivity.
Qed.
End ProcessTableFacts.
