(* ===== verification/Context.v ===== *)
(** * Saved contexts and trap frames (src/src/arch/x86_64/context.rs)

    A task resumes from a [TrapFrame] that lies on its kernel stack, in the
    field order of the [repr(C)] struct. Kernel stacks live in [KMem], the
    64-bit words of kernel memory by address. *)

From S2P Require Import Prelude.

(** The 64-bit words of kernel memory, at 8-byte aligned addresses. *)
Definition KMem : Type := Z -> Z.

Definition kwrite (k : KMem) (a v : Z) : KMem := fun x => if x =? a then v else k x.

Record Context : Type := mkContext { rsp : Z }.

Definition Context_empty : Context := mkContext 0.
Definition set_rsp (c : Context) (r : Z) : Context := mkContext r.

Record TrapFrame : Type := mkTrapFrame {
  tf_r15 : Z; tf_r14 : Z; tf_r13 : Z; tf_r12 : Z;
  tf_r11 : Z; tf_r10 : Z; tf_r9 : Z; tf_r8 : Z;
  tf_rsi : Z; tf_rdi : Z; tf_rbp : Z; tf_rdx : Z;
  tf_rcx : Z; tf_rbx : Z; tf_rax : Z;
  tf_rip : Z; tf_cs : Z; tf_rflags : Z; tf_rsp : Z; tf_ss : Z
}.

(** The words of a frame in memory order, [repr(C)]. *)
Definition frame_words (f : TrapFrame) : list Z :=
  [tf_r15 f; tf_r14 f; tf_r13 f; tf_r12 f; tf_r11 f; tf_r10 f; tf_r9 f; tf_r8 f;
   tf_rsi f; tf_rdi f; tf_rbp f; tf_rdx f; tf_rcx f; tf_rbx f; tf_rax f;
   tf_rip f; tf_cs f; tf_rflags f; tf_rsp f; tf_ss f].

Definition TRAP_FRAME_SIZE : Z := 160.

(** Byte offsets of the fields the kernel accesses through frame pointers. *)
Definition OFF_RSI : Z := 64.
Definition OFF_RDI : Z := 72.
Definition OFF_RDX : Z := 88.
Definition OFF_RAX : Z := 112.

(** The same, in [TrapFrameWithErrorCode]. *)
Definition OFF_ERROR_CODE : Z := 120.
Definition OFF_ERR_CS : Z := 136.

Fixpoint kwrite_words (k : KMem) (a : Z) (l : list Z) : KMem :=
  match l with
  | [] => k
  | w :: l' => kwrite_words (kwrite k a w) (a + 8) l'
  end.

Definition write_frame (k : KMem) (a : Z) (f : TrapFrame) : KMem := kwrite_words k a (frame_words f).

Definition read_frame (k : KMem) (a : Z) : TrapFrame :=
  let w i := k (a + 8 * i) in
  mkTrapFrame (w 0) (w 1) (w 2) (w 3) (w 4) (w 5) (w 6) (w 7) (w 8) (w 9) (w 10) (w 11) (w 12)
    (w 13) (w 14) (w 15) (w 16) (w 17) (w 18) (w 19).

(** [top & !(STACK_ALIGN - 1)] with [STACK_ALIGN = 16] *)
Definition align_16 (top : Z) : Z := Z.land top (not64 (16 - 1)).

(** [Context::new_task]: [cs] and [ss] are the current segment registers. *)
Definition new_task (k : KMem) (stack_ptr stack_len entry_point rflags cs ss : Z) :
    Context * KMem :=
  let stack_top := align_16 (stack_ptr + stack_len) in
  let initial_rsp := stack_top - 8 in
  let frame_bottom := initial_rsp - TRAP_FRAME_SIZE in
  let frame :=
    mkTrapFrame 0 0 0 0 0 0 0 0 0 0 0 0 0 0 0
      entry_point cs (Z.lor rflags 0x2) initial_rsp ss in
  (mkContext frame_bottom, write_frame k frame_bottom frame).

(** [Context::new_user_task] *)
Definition new_user_task (k : KMem) (stack_ptr stack_len entry_point user_stack_top
    user_code_selector user_data_selector rflags arg0 : Z) : Context * KMem :=
  let kernel_stack_top := align_16 (stack_ptr + stack_len) in
  let frame_bottom := kernel_stack_top - TRAP_FRAME_SIZE in
  let user_rsp := align_16 user_stack_top - 8 in
  let frame :=
    mkTrapFrame 0 0 0 0 0 0 0 0 0 arg0 0 0 0 0 0
      entry_point user_code_selector (Z.lor rflags 0x2) user_rsp user_data_selector in
  (mkContext frame_bottom, write_frame k frame_bottom frame).

(** ** Lemmas *)

Lemma align_16_spec v : is_u64 v -> align_16 v = v - v mod 16.
Proof. intros Hv. by apply (land_high 4 v). Qed.

Lemma align_16_again v : is_u64 v -> align_16 (align_16 v) = align_16 v.
Proof.
  intros Hv. unfold is_u64 in *. pose proof (Z.mod_pos_bound v 16). pose proof (Z.mod_le v 16).
  rewrite !align_16_spec; unfold is_u64; [|lia..|rewrite align_16_spec by done; lia].
  assert ((v - v mod 16) mod 16 = 0) as ->; [|lia].
  apply Z.mod_divide; [lia|]. exists (v / 16). pose proof (Z.div_mod v 16). lia.
Qed.

Lemma kwrite_words_out k a l x : x < a -> kwrite_words k a l x = k x.
Proof.
  revert k a. induction l as [|w l IH]; intros k a H; cbn; [done|].
  rewrite IH by lia. unfold kwrite. by rewrite (proj2 (Z.eqb_neq x a)) by lia.
Qed.

Lemma kwrite_words_above k a l x : a + 8 * vlen l <= x -> kwrite_words k a l x = k x.
Proof.
  revert k a. induction l as [|w l IH]; intros k a H; cbn; [done|].
  unfold vlen in *. cbn in H. rewrite IH by lia.
  unfold kwrite. by rewrite (proj2 (Z.eqb_neq x a)) by lia.
Qed.

Lemma kwrite_words_at k a l i w :
  vget l i = Some w -> kwrite_words k a l (a + 8 * i) = w.
Proof.
  revert k a i. induction l as [|v l IH]; intros k a i H.
  - apply vget_range in H. unfold vlen in H. cbn in H. lia.
  - pose proof (vget_range _ _ _ H). cbn. destruct (decide (i = 0)) as [->|Hi].
    + rewrite vget_cons_0 in H. injection H as ->. rewrite Z.mul_0_r, Z.add_0_r.
      rewrite kwrite_words_out by lia. unfold kwrite. by rewrite Z.eqb_refl.
    + rewrite vget_cons_pos in H by lia. rewrite <- (IH (kwrite k a v) (a + 8) (i - 1) H).
      f_equal. lia.
Qed.

(** A frame written to memory is read back. *)
Lemma read_write_frame k a f : read_frame (write_frame k a f) a = f.
Proof.
  unfold read_frame, write_frame.
  pose proof (fun i w => kwrite_words_at k a (frame_words f) i w) as H.
  cbv zeta. destruct f. f_equal; apply H; reflexivity.
Qed.
