(* ===== verification/Serial.v ===== *)
(** * Serial output (src/src/serial.rs)

    The serial port is the list of bytes written to COM1; the output buffer
    mirrors the first 4096 bytes of syscall output since the last clear. *)

From S2P Require Import Prelude.

Definition OUTPUT_BUFFER_SIZE : Z := 4096.

(** [OutputBuffer { bytes: [u8; OUTPUT_BUFFER_SIZE], len }] *)
Record OutputBuffer : Type := mkOutputBuffer { ob_bytes : list Z; ob_len : Z }.

Record Serial : Type := mkSerial { com1 : list Z; output_buffer : OutputBuffer }.

(** The initial value of the statics. *)
Definition serial_init : Serial :=
  mkSerial [] (mkOutputBuffer (replicate (Z.to_nat OUTPUT_BUFFER_SIZE) 0) 0).

Definition ob_clear (b : OutputBuffer) : OutputBuffer := mkOutputBuffer (ob_bytes b) 0.

(** [self.bytes[len..len + count].copy_from_slice(&bytes[..count])] *)
Definition push_bytes (b : OutputBuffer) (bytes : list Z) : OutputBuffer :=
  let remaining := saturating_sub OUTPUT_BUFFER_SIZE (ob_len b) in
  let count := Z.min remaining (vlen bytes) in
  mkOutputBuffer
    (take (Z.to_nat (ob_len b)) (ob_bytes b) ++ take (Z.to_nat count) bytes
     ++ drop (Z.to_nat (ob_len b + count)) (ob_bytes b))
    (ob_len b + count).

(** [windows(n).any(|window| window == needle)] *)
Fixpoint any_window (needle hay : list Z) : bool :=
  if Nat.ltb (length hay) (length needle) then false
  else eq_bytes (take (length needle) hay) needle
       || match hay with [] => false | _ :: hay' => any_window needle hay' end.

Definition ob_contains (b : OutputBuffer) (needle : list Z) : bool :=
  match needle with
  | [] => true
  | _ => if vlen needle >? ob_len b then false
         else any_window needle (take (Z.to_nat (ob_len b)) (ob_bytes b))
  end.

(** [SerialPort::write_bytes] *)
Definition port_write_bytes (com1 bytes : list Z) : list Z := com1 ++ bytes.

(** The module's [write_bytes], [clear_output_buffer], [output_contains]. *)
Definition write_bytes (s : Serial) (bytes : list Z) : Serial :=
  mkSerial (port_write_bytes (com1 s) bytes) (push_bytes (output_buffer s) bytes).

Definition clear_output_buffer (s : Serial) : Serial :=
  mkSerial (com1 s) (ob_clear (output_buffer s)).

Definition output_contains (s : Serial) (bytes : list Z) : bool :=
  ob_contains (output_buffer s) bytes.

(** ** Lemmas *)

(** The bytes the buffer holds. *)
Definition contents (b : OutputBuffer) : list Z := take (Z.to_nat (ob_len b)) (ob_bytes b).

Definition buffer_ok (b : OutputBuffer) : Prop :=
  vlen (ob_bytes b) = OUTPUT_BUFFER_SIZE /\ 0 <= ob_len b <= OUTPUT_BUFFER_SIZE.

Lemma serial_init_ok : buffer_ok (output_buffer serial_init).
Proof. split; [reflexivity|]. unfold OUTPUT_BUFFER_SIZE. cbn. lia. Qed.

(** Pushing keeps the buffer in bounds and appends as much as still fits. *)
Lemma push_bytes_ok b bytes :
  buffer_ok b ->
  buffer_ok (push_bytes b bytes) /\
  contents (push_bytes b bytes) = take (Z.to_nat OUTPUT_BUFFER_SIZE) (contents b ++ bytes).
Proof.
  intros [Hl Hn]. unfold push_bytes, saturating_sub, contents, buffer_ok. cbn [ob_bytes ob_len].
  rewrite Z.max_r by lia. set (count := Z.min _ _). unfold vlen in *.
  assert (0 <= count) by (subst count; lia).
  assert (Ht : length (take (Z.to_nat (ob_len b)) (ob_bytes b)) = Z.to_nat (ob_len b))
    by (rewrite length_take; lia).
  assert (Hc : length (take (Z.to_nat count) bytes) = Z.to_nat count)
    by (rewrite length_take; subst count; lia).
  split; [split; [rewrite !length_app, length_drop; lia|lia]|].
  rewrite app_assoc, take_app_length' by (rewrite length_app; lia).
  rewrite (take_app_ge (take _ (ob_bytes b))) by lia. f_equal. rewrite Ht.
  destruct (decide (Z.of_nat (length bytes) <= OUTPUT_BUFFER_SIZE - ob_len b)).
  - rewrite !take_ge by (subst count; lia). done.
  - f_equal. subst count. lia.
Qed.
