(* ===== verification/Vga.v ===== *)
(** * VGA text output (src/src/vga_buffer.rs)

    The writer of the text screen and the 80x25 cells it writes, two bytes
    each, at [VGA_BUFFER]. The theorem relates every cell of the screen to
    everything that was printed and to what was there before: the screen
    shows the last 25 lines, and the rest of each row is blank or untouched. *)

From S2P Require Import Prelude X86.

Definition BUFFER_HEIGHT : Z := 25.
Definition BUFFER_WIDTH : Z := 80.
Definition VGA_BUFFER : Z := 0xb8000.
Definition COLOR_BYTE : Z := 0x0f.

Record Writer : Type := mkWriter { column_position : Z; row_position : Z }.

(** The writer and the memory it writes to. *)
Record Vga : Type := mkVga { writer : Writer; vga_ram : Ram }.

Definition WRITER : Writer := mkWriter 0 0.

(** A volatile write of one byte. *)
Definition poke (r : Ram) (addr byte : Z) : Ram := fun x => if x =? addr then byte else r x.

Definition read_cell (r : Ram) (row col : Z) : Z :=
  let offset := (row * BUFFER_WIDTH + col) * 2 in r (VGA_BUFFER + offset).

Definition write_cell (row col byte : Z) (r : Ram) : Ram :=
  let offset := (row * BUFFER_WIDTH + col) * 2 in
  poke (poke r (VGA_BUFFER + offset) byte) (VGA_BUFFER + offset + 1) COLOR_BYTE.

(** [for i in from..from + n] *)
Fixpoint for_range (n : nat) (from : Z) (body : Z -> Ram -> Ram) (r : Ram) : Ram :=
  match n with
  | O => r
  | S n' => for_range n' (from + 1) body (body from r)
  end.

Definition columns : nat := Z.to_nat BUFFER_WIDTH.

Definition clear_row (row : Z) : Ram -> Ram :=
  for_range columns 0 (fun col => write_cell row col 0x20).

(** The inner loop of [scroll_up]. *)
Definition scroll_row (row : Z) : Ram -> Ram :=
  for_range columns 0 (fun col r => write_cell (row - 1) col (read_cell r row col) r).

Definition scroll_up (r : Ram) : Ram :=
  clear_row (BUFFER_HEIGHT - 1) (for_range (Z.to_nat (BUFFER_HEIGHT - 1)) 1 scroll_row r).

Definition new_line (v : Vga) : Vga :=
  if row_position (writer v) + 1 <? BUFFER_HEIGHT
  then mkVga (mkWriter 0 (row_position (writer v) + 1)) (vga_ram v)
  else mkVga (mkWriter 0 (row_position (writer v))) (scroll_up (vga_ram v)).

Definition NEWLINE : Z := 0x0a.

Definition write_byte (byte : Z) (v : Vga) : Vga :=
  if byte =? NEWLINE then new_line v
  else
    let v := if column_position (writer v) >=? BUFFER_WIDTH then new_line v else v in
    let w := writer v in
    mkVga (mkWriter (column_position w + 1) (row_position w))
          (write_cell (row_position w) (column_position w) byte (vga_ram v)).

(** The byte written for a byte of the string. *)
Definition screen_byte (byte : Z) : Z :=
  if ((0x20 <=? byte) && (byte <=? 0x7e)) || (byte =? NEWLINE) then byte else 0xfe.

(** [write_string], and [write_str] of [fmt::Write], which never fails. *)
Fixpoint write_string (s : list Z) (v : Vga) : Vga :=
  match s with
  | [] => v
  | byte :: s' => write_string s' (write_byte (screen_byte byte) v)
  end.

(** ** Cells *)

Definition on_screen (row col : Z) : Prop := 0 <= row < BUFFER_HEIGHT /\ 0 <= col < BUFFER_WIDTH.

Lemma offset_inj row col row' col' :
  on_screen row col -> on_screen row' col' ->
  row * BUFFER_WIDTH + col = row' * BUFFER_WIDTH + col' -> row = row' /\ col = col'.
Proof. unfold on_screen, BUFFER_WIDTH. lia. Qed.

Lemma read_write_cell r row col byte row' col' :
  on_screen row col -> on_screen row' col' ->
  read_cell (write_cell row col byte r) row' col' =
    if decide (row' = row /\ col' = col) then byte else read_cell r row' col'.
Proof.
  intros H H'. unfold read_cell, write_cell, poke. set (o := row * BUFFER_WIDTH + col).
  set (o' := row' * BUFFER_WIDTH + col').
  destruct (Z.eqb_spec (VGA_BUFFER + o' * 2) (VGA_BUFFER + o * 2 + 1)); [lia|].
  destruct (Z.eqb_spec (VGA_BUFFER + o' * 2) (VGA_BUFFER + o * 2)) as [E|E]; case_decide as D; try done.
  - destruct D. apply (offset_inj row' col' row col H' H). lia.
  - destruct D as [-> ->]. by destruct E.
Qed.

(** The bytes of the screen. *)
Definition screen_address (x : Z) : Prop :=
  VGA_BUFFER <= x < VGA_BUFFER + BUFFER_HEIGHT * BUFFER_WIDTH * 2.

Definition same_outside (r r' : Ram) : Prop := forall x, ~ screen_address x -> r' x = r x.

Lemma write_cell_outside r row col byte :
  on_screen row col -> same_outside r (write_cell row col byte r).
Proof.
  unfold on_screen, same_outside, screen_address, write_cell, poke, BUFFER_HEIGHT, BUFFER_WIDTH.
  intros [Hr Hc] x Hx.
  destruct (Z.eqb_spec x (VGA_BUFFER + (row * 80 + col) * 2 + 1)); [lia|].
  destruct (Z.eqb_spec x (VGA_BUFFER + (row * 80 + col) * 2)); [lia|done].
Qed.

(** A loop whose turn [i] sets the cells of [P i] and no others. *)
Lemma same_outside_trans r1 r2 r3 : same_outside r1 r2 -> same_outside r2 r3 -> same_outside r1 r3.
Proof. intros H1 H2 x Hx. by rewrite H2, H1. Qed.

Lemma for_range_S n from body r :
  for_range (S n) from body r = for_range n (from + 1) body (body from r).
Proof. done. Qed.

Lemma for_range_outside n from body r :
  (forall i r, from <= i < from + Z.of_nat n -> same_outside r (body i r)) ->
  same_outside r (for_range n from body r).
Proof.
  revert from r. induction n as [|n IH]; intros from r H; cbn [for_range]; [done|].
  eapply same_outside_trans; [apply (H from r); lia|]. apply IH. intros i r' Hi. apply H. lia.
Qed.

Lemma clear_row_spec row r row' col' :
  0 <= row < BUFFER_HEIGHT -> on_screen row' col' ->
  read_cell (clear_row row r) row' col' = if decide (row' = row) then 0x20 else read_cell r row' col'.
Proof.
  intros Hrow H'.
  assert (forall n from r, 0 <= from -> from + Z.of_nat n <= BUFFER_WIDTH ->
    read_cell (for_range n from (fun col => write_cell row col 0x20) r) row' col' =
      if decide (row' = row /\ from <= col' < from + Z.of_nat n) then 0x20 else read_cell r row' col') as H.
  { clear r. induction n as [|n IH]; intros from r Hf Hn; cbn [for_range].
    { by rewrite decide_False by lia. }
    rewrite IH by lia. rewrite read_write_cell by (done || unfold on_screen; lia).
    repeat case_decide; try done; lia. }
  unfold clear_row. rewrite H by (unfold columns, BUFFER_WIDTH; lia).
  destruct H' as [_ Hc]. apply decide_ext. unfold columns, BUFFER_WIDTH in *. lia.
Qed.

Lemma scroll_row_spec row r row' col' :
  1 <= row < BUFFER_HEIGHT -> on_screen row' col' ->
  read_cell (scroll_row row r) row' col' =
    if decide (row' = row - 1) then read_cell r row col' else read_cell r row' col'.
Proof.
  intros Hrow H'.
  assert (forall n from r0, 0 <= from -> from + Z.of_nat n <= BUFFER_WIDTH ->
    (forall c, from <= c < BUFFER_WIDTH -> read_cell r0 row c = read_cell r row c) ->
    read_cell (for_range n from (fun col r => write_cell (row - 1) col (read_cell r row col) r) r0) row' col' =
      if decide (row' = row - 1 /\ from <= col' < from + Z.of_nat n) then read_cell r row col'
      else read_cell r0 row' col') as H.
  { induction n as [|n IH]; intros from r0 Hf Hn Hs; cbn [for_range].
    { by rewrite decide_False by lia. }
    rewrite IH; [|lia|lia|].
    - rewrite read_write_cell by (done || unfold on_screen; lia).
      repeat case_decide; try done; try lia. replace from with col' by lia. apply Hs. destruct H'. lia.
    - intros c Hc. rewrite read_write_cell by (unfold on_screen; lia).
      rewrite decide_False by lia. apply Hs. lia. }
  unfold scroll_row. rewrite H by (done || unfold columns, BUFFER_WIDTH; lia).
  destruct H' as [_ Hc]. apply decide_ext. unfold columns, BUFFER_WIDTH in *. lia.
Qed.

Lemma scroll_rows_spec n from r row col :
  1 <= from -> from + Z.of_nat n <= BUFFER_HEIGHT -> on_screen row col ->
  read_cell (for_range n from scroll_row r) row col =
    if decide (from - 1 <= row < from - 1 + Z.of_nat n) then read_cell r (row + 1) col
    else read_cell r row col.
Proof.
  revert from r row col. induction n as [|n IH]; intros from r row col Hf Hn H'.
  { cbn [for_range]. by rewrite decide_False by lia. }
  rewrite for_range_S, IH by (done || lia). pose proof H' as [Hr Hc]. case_decide as D.
  - rewrite (scroll_row_spec from r (row + 1) col) by (unfold on_screen; lia). rewrite decide_False by lia.
    by rewrite decide_True by lia.
  - rewrite (scroll_row_spec from r row col) by (done || lia). case_decide as E.
    + rewrite decide_True by lia. by replace from with (row + 1) by lia.
    + by rewrite decide_False by lia.
Qed.

(** Scrolling moves every row up by one and blanks the last. *)
Lemma scroll_up_spec r row col :
  on_screen row col ->
  read_cell (scroll_up r) row col =
    if decide (row = BUFFER_HEIGHT - 1) then 0x20 else read_cell r (row + 1) col.
Proof.
  intros H'. unfold scroll_up. pose proof H' as [Hr _]. set (n := Z.to_nat (BUFFER_HEIGHT - 1)).
  assert (Z.of_nat n = 24) as Hn by done. clearbody n. unfold BUFFER_HEIGHT in *.
  rewrite clear_row_spec by (done || unfold BUFFER_HEIGHT; lia). case_decide as D; [done|].
  rewrite (scroll_rows_spec n 1 r row col); [|lia|unfold BUFFER_HEIGHT; lia|done].
  by rewrite decide_True by lia.
Qed.

(** *** Colours *)

(** The second byte of the cell is the colour of the writer. *)
Definition colored (r : Ram) (row col : Z) : Prop :=
  r (VGA_BUFFER + (row * BUFFER_WIDTH + col) * 2 + 1) = COLOR_BYTE.

Lemma write_cell_colors row col byte r : colored (write_cell row col byte r) row col.
Proof. unfold colored, write_cell, poke. by rewrite Z.eqb_refl. Qed.

Lemma write_cell_colored row col byte r row' col' :
  colored r row' col' -> colored (write_cell row col byte r) row' col'.
Proof.
  unfold colored, write_cell, poke. intros H. destruct (_ =? _); [done|].
  destruct (Z.eqb_spec (VGA_BUFFER + (row' * BUFFER_WIDTH + col') * 2 + 1)
    (VGA_BUFFER + (row * BUFFER_WIDTH + col) * 2)); [lia|done].
Qed.

(** A loop that takes no colour away keeps colours, and colours the cell
    that one of its turns colours. *)
Lemma for_range_kept n from body r row col :
  (forall i r, colored r row col -> colored (body i r) row col) -> colored r row col ->
  colored (for_range n from body r) row col.
Proof. intros Hb. revert from r. induction n as [|n IH]; intros from r H; [done|]. apply IH. by apply Hb. Qed.

Lemma for_range_colors n from body r row col i :
  (forall i r, colored r row col -> colored (body i r) row col) ->
  from <= i < from + Z.of_nat n -> (forall r, colored (body i r) row col) ->
  colored (for_range n from body r) row col.
Proof.
  intros Hb. revert from r. induction n as [|n IH]; intros from r Hi Hc; [lia|]. rewrite for_range_S.
  destruct (decide (i = from)) as [->|Hne]; [by apply for_range_kept|]. apply IH; [lia|done].
Qed.

Lemma scroll_row_kept row r row' col' : colored r row' col' -> colored (scroll_row row r) row' col'.
Proof. apply for_range_kept. intros i r'. apply write_cell_colored. Qed.

Lemma scroll_up_colored r row col : on_screen row col -> colored (scroll_up r) row col.
Proof.
  intros [Hr Hc]. assert (Z.of_nat columns = BUFFER_WIDTH) as Hw by done. unfold scroll_up, clear_row.
  destruct (decide (row = BUFFER_HEIGHT - 1)) as [->|Hne].
  - apply (for_range_colors _ _ _ _ _ _ col); [intros i r'; apply write_cell_colored|lia|].
    intros r'. apply write_cell_colors.
  - apply for_range_kept; [intros i r'; apply write_cell_colored|].
    apply (for_range_colors _ _ _ _ _ _ (row + 1)); [intros i r'; apply scroll_row_kept|unfold BUFFER_HEIGHT in *; lia|].
    intros r'. unfold scroll_row. replace (row + 1 - 1) with row by lia.
    apply (for_range_colors _ _ _ _ _ _ col); [intros i r''; apply write_cell_colored|lia|].
    intros r''. apply write_cell_colors.
Qed.

(** ** The terminal

    Everything printed so far: the finished lines and the current one. A line
    ends at a newline, or when it is full and another byte follows. *)

Record Terminal : Type := mkTerminal { finished : list (list Z); line : list Z }.

Definition term_byte (byte : Z) (t : Terminal) : Terminal :=
  if byte =? NEWLINE then mkTerminal (finished t ++ [line t]) []
  else if vlen (line t) >=? BUFFER_WIDTH then mkTerminal (finished t ++ [line t]) [byte]
  else mkTerminal (finished t) (line t ++ [byte]).

Definition term_string (s : list Z) (t : Terminal) : Terminal :=
  fold_left (fun t byte => term_byte (screen_byte byte) t) s t.

Definition history (t : Terminal) : list (list Z) := finished t ++ [line t].

(** How many lines have left the screen. *)
Definition scrolled (t : Terminal) : Z := vlen (finished t) - Z.min (vlen (finished t)) (BUFFER_HEIGHT - 1).

(** The byte in column [col] of line [i], counted from the first line. *)
Definition line_cell (t : Terminal) (i col : Z) : option Z :=
  match vget (history t) i with Some l => vget l col | None => None end.

(** What a terminal shows in a cell, on a screen that held [r0]: the text of
    the line in that row. Where the line has no text, the first 25 lines
    keep what was in their row before the first output, since nothing clears
    it, and the later ones are blank. *)
Definition screen (r0 : Ram) (t : Terminal) (row col : Z) : Z :=
  let i := scrolled t + row in
  match line_cell t i col with
  | Some b => b
  | None => if i <? BUFFER_HEIGHT then read_cell r0 i col else 0x20
  end.

(** Every cell of the screen is the one of the terminal, and the cursor is
    at the end of the current line. Cells with text, and all cells once the
    screen has scrolled, have the colour of the writer. *)
Record shown (r0 : Ram) (v : Vga) (t : Terminal) : Prop := mkShown {
  sh_row : row_position (writer v) = Z.min (vlen (finished t)) (BUFFER_HEIGHT - 1);
  sh_column : column_position (writer v) = vlen (line t);
  sh_width l : l ∈ history t -> vlen l <= BUFFER_WIDTH;
  sh_cells row col : on_screen row col -> read_cell (vga_ram v) row col = screen r0 t row col;
  sh_colors row col : on_screen row col -> 0 < scrolled t \/ line_cell t (scrolled t + row) col <> None ->
    colored (vga_ram v) row col
}.

Lemma vlen_snoc {A} (l : list A) x : vlen (l ++ [x]) = vlen l + 1.
Proof. unfold vlen. rewrite length_app. cbn. lia. Qed.

Lemma vget_snoc_other {A} (l : list A) x i : i <> vlen l -> vget (l ++ [x]) i = vget l i.
Proof.
  intros Hi. destruct (vget l i) as [y|] eqn:E.
  - rewrite vget_app_l; [done|by eapply vget_range].
  - apply vget_None in E. apply vget_None. rewrite vlen_snoc. lia.
Qed.

(** A new line adds no text. *)
Lemma line_cell_new_line t i col : line_cell (mkTerminal (history t) []) i col = line_cell t i col.
Proof.
  unfold line_cell, history. cbn [finished line].
  destruct (decide (i = vlen (finished t ++ [line t]))) as [->|Hi]; [|by rewrite vget_snoc_other].
  rewrite vget_app_snoc, vget_nil. rewrite (proj2 (vget_None (finished t ++ [line t]) _)); [done|lia].
Qed.

Lemma line_cell_put t b i col :
  line_cell (mkTerminal (finished t) (line t ++ [b])) i col =
    if decide (i = vlen (finished t) /\ col = vlen (line t)) then Some b else line_cell t i col.
Proof.
  unfold line_cell, history. cbn [finished line].
  destruct (decide (i = vlen (finished t))) as [->|Hi].
  - rewrite !vget_app_snoc. destruct (decide (col = vlen (line t))) as [->|Hc].
    + by rewrite vget_app_snoc, decide_True.
    + by rewrite vget_snoc_other, decide_False by naive_solver.
  - by rewrite !vget_snoc_other, decide_False by naive_solver.
Qed.

Lemma new_line_shown r0 v t : shown r0 v t -> shown r0 (new_line v) (mkTerminal (history t) []).
Proof.
  intros [Hr Hc Hw Hcell Hcol]. unfold new_line. pose proof (vlen_nonneg (finished t)).
  assert (vlen (history t) = vlen (finished t) + 1) as Hlen by (unfold history; apply vlen_snoc).
  assert (forall l, l ∈ history (mkTerminal (history t) []) -> vlen l <= BUFFER_WIDTH) as Hw'.
  { intros l [Hl|Hl]%elem_of_app; [by apply Hw|]. apply list_elem_of_singleton in Hl as ->.
    unfold vlen, BUFFER_WIDTH. cbn. lia. }
  destruct (Z.ltb_spec (row_position (writer v) + 1) BUFFER_HEIGHT) as [Hlt|Hge].
  - assert (scrolled (mkTerminal (history t) []) = scrolled t) as Hs
      by (unfold scrolled; cbn [finished]; rewrite Hlen; lia).
    constructor; cbn [writer row_position column_position finished line vga_ram]; [|done|done|..].
    + rewrite Hlen. lia.
    + intros row col Hon. unfold screen. rewrite Hs, line_cell_new_line. by apply Hcell.
    + intros row col Hon. rewrite Hs, line_cell_new_line. by apply Hcol.
  - assert (scrolled (mkTerminal (history t) []) = scrolled t + 1) as Hs
      by (unfold scrolled; cbn [finished]; rewrite Hlen; lia).
    constructor; cbn [writer row_position column_position finished line vga_ram]; [|done|done|..].
    + rewrite Hlen. lia.
    + intros row col Hon. unfold screen. rewrite Hs, line_cell_new_line, scroll_up_spec by done.
      destruct Hon as [Hon1 Hon2]. case_decide as D.
      * assert (scrolled t + 1 + row = vlen (history t)) as Hi
          by (rewrite Hlen; unfold scrolled, BUFFER_HEIGHT in *; lia).
        rewrite Hi. unfold line_cell. rewrite (proj2 (vget_None (history t) _)) by lia.
        destruct (Z.ltb_spec (vlen (history t)) BUFFER_HEIGHT); [lia|done].
      * replace (scrolled t + 1 + row) with (scrolled t + (row + 1)) by lia. apply Hcell. unfold on_screen. lia.
    + intros row col Hon _. by apply scroll_up_colored.
Qed.

(** A byte that fits in the line. *)
Lemma put_shown r0 v t byte :
  shown r0 v t -> vlen (line t) < BUFFER_WIDTH ->
  let w := writer v in
  shown r0 (mkVga (mkWriter (column_position w + 1) (row_position w))
                  (write_cell (row_position w) (column_position w) byte (vga_ram v)))
           (mkTerminal (finished t) (line t ++ [byte])).
Proof.
  intros [Hr Hc Hw Hcell Hcol] Hlt w. pose proof (vlen_nonneg (finished t)). pose proof (vlen_nonneg (line t)).
  assert (0 <= row_position w < BUFFER_HEIGHT) as Hrow0 by (unfold w; rewrite Hr; unfold BUFFER_HEIGHT; lia).
  assert (on_screen (row_position w) (column_position w)) as Hon by (unfold on_screen, w in *; lia).
  assert (forall row col, row = row_position w /\ col = column_position w <->
    scrolled t + row = vlen (finished t) /\ col = vlen (line t)) as Hiff.
  { intros row col. unfold w, scrolled. rewrite Hr, Hc. lia. }
  constructor; cbn [writer row_position column_position finished line vga_ram]; [done| | |..].
  - rewrite vlen_snoc. unfold w. by rewrite Hc.
  - intros l [Hl|Hl]%elem_of_app; [apply Hw, elem_of_app; by left|].
    apply list_elem_of_singleton in Hl as ->. cbn [line]. rewrite vlen_snoc. lia.
  - intros row col Hrc. rewrite read_write_cell by done. unfold screen. rewrite line_cell_put.
    change (scrolled (mkTerminal _ _)) with (scrolled t). rewrite (decide_ext _ _ _ _ (Hiff row col)).
    case_decide; [done|by apply Hcell].
  - intros row col Hrc. rewrite line_cell_put. change (scrolled (mkTerminal _ _)) with (scrolled t).
    case_decide as D; intros Ht.
    + apply Hiff in D as [-> ->]. by apply write_cell_colors.
    + by apply write_cell_colored, Hcol.
Qed.

Lemma write_byte_shown r0 v t byte : shown r0 v t -> shown r0 (write_byte byte v) (term_byte byte t).
Proof.
  intros H. unfold write_byte, term_byte. destruct (byte =? NEWLINE); [by apply new_line_shown|].
  rewrite (sh_column _ _ _ H). destruct (vlen (line t) >=? BUFFER_WIDTH) eqn:E; rewrite Z.geb_leb in E.
  - apply (put_shown r0 (new_line v) (mkTerminal (history t) []) byte); [by apply new_line_shown|done].
  - apply put_shown; [done|]. by apply Z.leb_gt.
Qed.

Lemma write_string_shown r0 s v t : shown r0 v t -> shown r0 (write_string s v) (term_string s t).
Proof.
  revert v t. induction s as [|b s IH]; intros v t H; [done|]. cbn [write_string].
  unfold term_string. cbn [fold_left]. apply IH. by apply write_byte_shown.
Qed.

Lemma writer_shown r : shown r (mkVga WRITER r) (mkTerminal [] []).
Proof.
  assert (forall i col, line_cell (mkTerminal [] []) i col = None) as Hl.
  { intros i col. unfold line_cell. destruct (vget _ i) as [l|] eqn:E; [|done].
    apply vget_elem_of, list_elem_of_singleton in E as ->. apply vget_nil. }
  constructor; [done|done| |..].
  - intros l El. apply list_elem_of_singleton in El as ->. by vm_compute.
  - intros row col [Hr _]. unfold screen. rewrite Hl. change (scrolled _) with 0. cbn [vga_ram].
    by rewrite (proj2 (Z.ltb_lt _ _)) by lia.
  - intros row col _ [Hs|Hs]; [by vm_compute in Hs|by rewrite Hl in Hs].
Qed.

(** *** Writes stay on the screen *)

Definition writer_ok (w : Writer) : Prop :=
  0 <= row_position w < BUFFER_HEIGHT /\ 0 <= column_position w <= BUFFER_WIDTH.

Lemma scroll_up_outside r : same_outside r (scroll_up r).
Proof.
  unfold scroll_up. eapply same_outside_trans.
  - apply (for_range_outside (Z.to_nat (BUFFER_HEIGHT - 1)) 1 scroll_row). intros row r' Hrow.
    apply for_range_outside. intros col r'' Hcol. apply write_cell_outside.
    unfold on_screen, columns, BUFFER_HEIGHT, BUFFER_WIDTH in *. lia.
  - apply for_range_outside. intros col r'' Hcol. apply write_cell_outside.
    unfold on_screen, columns, BUFFER_HEIGHT, BUFFER_WIDTH in *. lia.
Qed.

Lemma new_line_ok v : writer_ok (writer v) ->
  writer_ok (writer (new_line v)) /\ column_position (writer (new_line v)) = 0 /\
  same_outside (vga_ram v) (vga_ram (new_line v)).
Proof.
  intros [Hr Hc]. unfold new_line. destruct (Z.ltb_spec (row_position (writer v) + 1) BUFFER_HEIGHT).
  - split; [split; cbn; unfold BUFFER_WIDTH; lia|]. by split.
  - split; [split; cbn; unfold BUFFER_WIDTH; lia|]. split; [done|]. apply scroll_up_outside.
Qed.

Lemma write_byte_ok byte v : writer_ok (writer v) ->
  writer_ok (writer (write_byte byte v)) /\ same_outside (vga_ram v) (vga_ram (write_byte byte v)).
Proof.
  intros H. unfold write_byte. destruct (byte =? NEWLINE); [by destruct (new_line_ok v H) as (? & _ & ?)|].
  rewrite Z.geb_leb.
  assert (exists v', (if BUFFER_WIDTH <=? column_position (writer v) then new_line v else v) = v' /\
    writer_ok (writer v') /\ column_position (writer v') < BUFFER_WIDTH /\
    same_outside (vga_ram v) (vga_ram v')) as (v' & -> & [Hr Hc] & Hlt & Ho).
  { destruct (Z.leb_spec BUFFER_WIDTH (column_position (writer v))).
    - destruct (new_line_ok v H) as (H1 & H2 & H3). exists (new_line v). split; [done|]. split; [done|].
      split; [rewrite H2; unfold BUFFER_WIDTH; lia|done].
    - by exists v. }
  split; [split; cbn; lia|]. cbn. eapply same_outside_trans; [exact Ho|]. apply write_cell_outside. split; lia.
Qed.

Lemma write_string_ok s v : writer_ok (writer v) ->
  writer_ok (writer (write_string s v)) /\ same_outside (vga_ram v) (vga_ram (write_string s v)).
Proof.
  revert v. induction s as [|b s IH]; intros v H; [done|]. cbn [write_string].
  destruct (write_byte_ok (screen_byte b) v H) as [H1 H2]. destruct (IH _ H1) as [H3 H4].
  split; [done|]. by eapply same_outside_trans.
Qed.
