(* ===== verification/Task.v ===== *)
(** * Tasks (src/src/task.rs)

    A task is a schedulable context with its own kernel stack; a user task
    belongs to a process. *)

From S2P Require Import Prelude X86 Process Context.

Definition TASK_STACK_SIZE : Z := 8 * 1024.
Definition MAX_TASKS : Z := 8.

(** [TaskEntry = fn()], by its address. *)
Definition TaskEntry : Type := Z.

Inductive WaitReason : Type :=
| ChildExit (child : ProcessId) (status_ptr : option Z).

Inductive TaskState : Type :=
| Ready
| Running
| Blocked (reason : WaitReason)
| Finished
| Failed.

Inductive UserFaultKind : Type := GeneralProtection | PageFault.

Record UserFaultInfo : Type := mkFaultInfo {
  fault_kind : UserFaultKind;
  fault_address : option Z;
  fault_error_code : Z
}.

Inductive TaskKind : Type :=
| KernelKind (entry : TaskEntry)
| UserKind (entry_point user_stack_top : Z).

Inductive TaskAddressSpace : Type :=
| KernelSpace
| UserSpace (pid : ProcessId).

#[global] Instance WaitReason_eq_dec : EqDecision WaitReason.
Proof. solve_decision. Defined.
#[global] Instance TaskState_eq_dec : EqDecision TaskState.
Proof. solve_decision. Defined.

(** [_kernel_stack: Box<[u8]>] is represented by the stack's address. *)
Record Task : Type := mkTask {
  t_id : TaskId;
  t_state : TaskState;
  t_context : Context;
  t_kind : TaskKind;
  t_address_space : TaskAddressSpace;
  t_kernel_stack_top : Z;
  t_exit_code : option Z;
  t_fault_info : option UserFaultInfo;
  t_kernel_stack : Z
}.

Definition stack_top (stack_ptr stack_len : Z) : Z := align_16 (stack_ptr + stack_len).

(** [Task::new_kernel]; [stack] is the address of the boxed stack. *)
Definition new_kernel (k : KMem) (stack : Z) (id : TaskId) (entry : TaskEntry)
    (task_trampoline rflags cs ss : Z) : Task * KMem :=
  let '(context, k) := new_task k stack TASK_STACK_SIZE task_trampoline rflags cs ss in
  (mkTask id Ready context (KernelKind entry) KernelSpace (stack_top stack TASK_STACK_SIZE)
          None None stack, k).

(** [Task::new_user] *)
Definition new_user (k : KMem) (stack : Z) (id : TaskId) (process_id : ProcessId)
    (entry_point user_stack_top arg0 rflags user_cs user_ss : Z) : Task * KMem :=
  let '(context, k) :=
    new_user_task k stack TASK_STACK_SIZE entry_point user_stack_top user_cs user_ss rflags arg0 in
  (mkTask id Ready context (UserKind entry_point user_stack_top) (UserSpace process_id)
          (stack_top stack TASK_STACK_SIZE) None None stack, k).

Definition set_state (t : Task) (s : TaskState) : Task :=
  mkTask (t_id t) s (t_context t) (t_kind t) (t_address_space t) (t_kernel_stack_top t)
         (t_exit_code t) (t_fault_info t) (t_kernel_stack t).

Definition kernel_entry (t : Task) : option TaskEntry :=
  match t_kind t with KernelKind entry => Some entry | UserKind _ _ => None end.

Definition process_id (t : Task) : option ProcessId :=
  match t_address_space t with KernelSpace => None | UserSpace pid => Some pid end.

Definition set_exit_code (t : Task) (code : Z) : Task :=
  mkTask (t_id t) (t_state t) (t_context t) (t_kind t) (t_address_space t) (t_kernel_stack_top t)
         (Some code) (t_fault_info t) (t_kernel_stack t).

Definition set_fault_info (t : Task) (info : UserFaultInfo) : Task :=
  mkTask (t_id t) (t_state t) (t_context t) (t_kind t) (t_address_space t) (t_kernel_stack_top t)
         (t_exit_code t) (Some info) (t_kernel_stack t).

Definition saved_rsp (t : Task) : Z := rsp (t_context t).

Definition set_saved_rsp (t : Task) (r : Z) : Task :=
  mkTask (t_id t) (t_state t) (set_rsp (t_context t) r) (t_kind t) (t_address_space t)
         (t_kernel_stack_top t) (t_exit_code t) (t_fault_info t) (t_kernel_stack t).

(** [saved_trap_frame_mut]: the frame at the saved stack pointer. *)
Definition set_saved_rax (t : Task) (value : Z) (k : KMem) : KMem :=
  kwrite k (saved_rsp t + OFF_RAX) value.

Definition set_saved_rdi (t : Task) (value : Z) (k : KMem) : KMem :=
  kwrite k (saved_rsp t + OFF_RDI) value.

(** [task.state() == TaskState::Ready] and the other tests on states. *)
Definition is_ready (t : Task) : bool := match t_state t with Ready => true | _ => false end.
Definition is_running (t : Task) : bool := match t_state t with Running => true | _ => false end.
Definition is_finished (t : Task) : bool := match t_state t with Finished => true | _ => false end.
Definition is_failed (t : Task) : bool := match t_state t with Failed => true | _ => false end.
Definition is_terminal (t : Task) : bool :=
  match t_state t with Finished | Failed => true | _ => false end.
Definition is_blocked (t : Task) : bool := match t_state t with Blocked _ => true | _ => false end.
