(* ===== verification/Syscall.v ===== *)
(** * System call numbers and errors (src/src/syscall.rs) *)

From S2P Require Import Prelude.

Definition SYSCALL_VECTOR : Z := 0x80.
Definition ENOENT : Z := 2.
Definition EBADF : Z := 9.
Definition ENOMEM : Z := 12.
Definition EFAULT : Z := 14.
Definition EINVAL : Z := 22.
Definition ENFILE : Z := 23.
Definition EMFILE : Z := 24.
Definition ENAMETOOLONG : Z := 36.
Definition ENOSYS : Z := 38.
Definition ECHILD : Z := 10.
Definition WNOHANG : Z := 1.
Definition O_RDONLY : Z := 0.

Inductive SyscallNumber : Type :=
| Yield | Exit | SysWrite | GetPid | WaitPid | Open | SysRead | Close | Brk.

(** The discriminants of [#[repr(u64)] enum SyscallNumber]. *)
Definition number_raw (n : SyscallNumber) : Z :=
  match n with
  | Yield => 0 | Exit => 1 | SysWrite => 2 | GetPid => 3 | WaitPid => 4
  | Open => 5 | SysRead => 6 | Close => 7 | Brk => 8
  end.

Inductive SysError : Type :=
| NoEntry | BadFd | NoMemory | Fault | Invalid
| SystemFileLimit | ProcessFileLimit | NameTooLong | Child | NoSys.

Definition SysResult : Type := result SysError Z.

Definition errno (e : SysError) : Z :=
  match e with
  | NoEntry => ENOENT
  | BadFd => EBADF
  | NoMemory => ENOMEM
  | Fault => EFAULT
  | Invalid => EINVAL
  | SystemFileLimit => ENFILE
  | ProcessFileLimit => EMFILE
  | NameTooLong => ENAMETOOLONG
  | Child => ECHILD
  | NoSys => ENOSYS
  end.

(** [(-(self.errno() as i64)) as u64] *)
Definition raw_return (e : SysError) : Z := (- errno e) mod 2 ^ 64.

Definition from_raw (raw : Z) : option SyscallNumber :=
  if raw =? number_raw Yield then Some Yield
  else if raw =? number_raw Exit then Some Exit
  else if raw =? number_raw SysWrite then Some SysWrite
  else if raw =? number_raw GetPid then Some GetPid
  else if raw =? number_raw WaitPid then Some WaitPid
  else if raw =? number_raw Open then Some Open
  else if raw =? number_raw SysRead then Some SysRead
  else if raw =? number_raw Close then Some Close
  else if raw =? number_raw Brk then Some Brk
  else None.

(** Errors are distinct, and land in the top 4095 values of a [u64], where no
    count, descriptor, pid or user address lies. *)
Lemma raw_return_range e : 2 ^ 64 - 4096 < raw_return e < 2 ^ 64.
Proof. by destruct e. Qed.

Lemma raw_return_inj e e' : raw_return e = raw_return e' -> e = e'.
Proof. by destruct e, e'. Qed.

(** The number table is a bijection between the syscalls and 0..8. *)
Lemma from_raw_spec raw n : from_raw raw = Some n <-> raw = number_raw n.
Proof.
  split.
  - unfold from_raw. intros H. bool_cases; bool_to_prop; congruence.
  - intros ->. by destruct n.
Qed.
