(* ===== verification/User.v ===== *)
(** * User memory layout and built-in user programs (src/src/user.rs) *)

From S2P Require Import Prelude X86 Memory AddressSpace UserMemory Process Task.

Definition USER_CODE_BASE : Z := USER_BASE + 0x00400000.
Definition USER_DATA_BASE : Z := USER_BASE + 0x00600000.
Definition USER_TEST_PAGE_BASE : Z := USER_BASE + 0x00700000.
Definition USER_STACK_PAGES : Z := TASK_STACK_SIZE / 4096.
Definition USER_ELF_LOAD_START : Z := USER_CODE_BASE.
Definition USER_ELF_LOAD_END : Z := USER_TEST_PAGE_BASE.
Definition USER_HEAP_LIMIT : Z := USER_TEST_PAGE_BASE.

Record UserTaskInit : Type := mkUserTaskInit {
  init_address_space : AddressSpace;
  init_entry_point : Z;
  init_user_stack_top : Z;
  init_heap : UserHeap;
  init_arg0 : Z
}.

Inductive UserProgram : Type :=
| YieldThenExit | PrivilegedHlt | BusyCounter | WriteReadAa | WriteReadBb | ReadArgExit.

Section user.
Context {X : X86_64}.

Definition heap_for_loaded_image (max_segment_end : Z) : ST Mem (result UserHeapError UserHeap) :=
  match align_up max_segment_end PAGE_SIZE with
  | None => st_ret (Err InvalidRange)
  | Some start =>
      if (start <? USER_ELF_LOAD_START) || (start >? USER_HEAP_LIMIT)
      then st_ret (Err InvalidRange)
      else
        let* s := virt_addr start in
        let* l := virt_addr USER_HEAP_LIMIT in
        st_ret (UserHeap_new s l)
  end.

Definition default_builtin_heap : ST Mem (result UserHeapError UserHeap) :=
  let* s := virt_addr (USER_DATA_BASE + PAGE_SIZE) in
  let* l := virt_addr USER_HEAP_LIMIT in
  st_ret (UserHeap_new s l).

Definition map_user_stack (self : AddressSpace) : ST Mem (result AddressSpaceError unit) :=
  let stack_bottom := USER_STACK_TOP - USER_STACK_PAGES * PAGE_SIZE in
  let* va := virt_addr stack_bottom in
  map_user_region self va (USER_STACK_PAGES * PAGE_SIZE) read_write.

Definition user_data_flags : Z := Z.lor (Z.lor PRESENT WRITABLE) USER_ACCESSIBLE.

(** [program.bytes()] is the assembled code of a built-in program, which is
    at most a page long ([assert!(len <= 4096)]). *)
Definition map_program (self : AddressSpace) (program_bytes : list Z) :
    ST Mem (result AddressSpaceError Z) :=
  let* va := virt_addr USER_CODE_BASE in
  let? code_frame := map_zeroed_user_page self va (Z.lor PRESENT USER_ACCESSIBLE) in
  if vlen program_bytes <=? 4096 then
    let? _ := write_frame_bytes self code_frame program_bytes in
    let* entry := virt_addr USER_CODE_BASE in
    st_ret (Ok entry)
  else st_panic "assertion failed: len <= 4096".

Definition create_user_task_with_test_page (program_bytes : list Z) (arg0 : Z)
    (test_page_value : option Z) : ST Mem (result AddressSpaceError UserTaskInit) :=
  let? aspace := AddressSpace.new_user in
  let? entry_point := map_program aspace program_bytes in
  let* data := virt_addr USER_DATA_BASE in
  let? data_frame := map_zeroed_user_page aspace data user_data_flags in
  write_frame_u64 aspace data_frame 0 ;;;
  let? _ :=
    match test_page_value with
    | None => st_ret (Ok tt)
    | Some value =>
        let* test := virt_addr USER_TEST_PAGE_BASE in
        let? test_frame := map_zeroed_user_page aspace test user_data_flags in
        write_frame_u64 aspace test_frame value ;;;
        st_ret (Ok tt)
    end in
  let? _ := map_user_stack aspace in
  let* heap := default_builtin_heap in
  let? heap := st_ret (map_err (fun _ => RangeOverflow) heap) in
  let* top := virt_addr USER_STACK_TOP in
  st_ret (Ok (mkUserTaskInit aspace entry_point top heap arg0)).

Definition create_user_task (program_bytes : list Z) (arg0 : Z) :
    ST Mem (result AddressSpaceError UserTaskInit) :=
  create_user_task_with_test_page program_bytes arg0 None.
End user.
