(* ===== verification/Elf.v ===== *)
(** * The ELF loader (src/src/elf.rs)

    [parse_elf] is the pure validation of a static ELF64 image; [load_user_elf]
    builds an address space from it. The theorems characterise the images
    that are accepted: every accepted segment is page aligned, lies in the
    user load range, takes its data from the file, and overlaps no other. *)

From S2P Require Import Prelude X86 Memory AddressSpace UserMemory Process User.

Definition EI_CLASS : Z := 4.
Definition EI_DATA : Z := 5.
Definition EI_VERSION : Z := 6.
Definition ELFCLASS64 : Z := 2.
Definition ELFDATA2LSB : Z := 1.
Definition ET_EXEC : Z := 2.
Definition EM_X86_64 : Z := 0x3e.
Definition EV_CURRENT : Z := 1.
Definition ELF_HEADER_SIZE : Z := 64.
Definition PROGRAM_HEADER_SIZE : Z := 56.
Definition PT_LOAD : Z := 1.
Definition PF_X : Z := 1.
Definition PF_W : Z := 2.
Definition PF_R : Z := 4.

(** [b"\x7fELF"] *)
Definition ELF_MAGIC : list Z := [0x7f; 0x45; 0x4c; 0x46].

Inductive ElfLoadError : Type :=
| BadMagic
| UnsupportedClass
| UnsupportedEndian
| UnsupportedType
| UnsupportedMachine
| MalformedHeader
| MalformedProgramHeader
| SegmentOutsideUserRange
| SegmentMemSizeLessThanFileSize
| SegmentOverlap
| UnalignedSegment
| EntryNotExecutable
| NoHeapRange
| OutOfFrames
| MapFailed
| UserCopyFailed.

#[global] Instance ElfLoadError_eq_dec : EqDecision ElfLoadError.
Proof. solve_decision. Defined.

Record LoadSegment : Type := mkLoadSegment {
  vaddr : Z;
  filesz : Z;
  memsz : Z;
  seg_flags : Z;
  seg_data : list Z;
  map_start : Z;
  map_end : Z
}.

Record ParsedElf : Type := mkParsedElf { entry : Z; segments : list LoadSegment }.

(** [bytes.get(offset..offset + n)] decoded as a little-endian integer. *)
Definition read_le (n : nat) (bytes : list Z) (offset : Z) : result ElfLoadError Z :=
  if (0 <=? offset) && (offset + Z.of_nat n <=? vlen bytes)
  then Ok (from_le_bytes (slice bytes offset (Z.of_nat n)))
  else Err MalformedHeader.

Definition read_u16 (bytes : list Z) (offset : Z) : result ElfLoadError Z := read_le 2 bytes offset.
Definition read_u32 (bytes : list Z) (offset : Z) : result ElfLoadError Z := read_le 4 bytes offset.
Definition read_u64 (bytes : list Z) (offset : Z) : result ElfLoadError Z := read_le 8 bytes offset.

(** [usize::try_from] never fails here. *)
Definition checked_usize_range_end (start len : Z) : option Z := checked_add start len.

(** [elf_bytes[i]] behind the length checks of the caller. *)
Definition byte_at (bytes : list Z) (i : Z) : Z :=
  match vget bytes i with Some b => b | None => 0 end.

Definition reject_if (b : bool) (e : ElfLoadError) : result ElfLoadError unit :=
  if b then Err e else Ok tt.

Definition parse_program_header (elf_bytes : list Z) (offset : Z) :
    result ElfLoadError LoadSegment :=
  let! p_type := read_u32 elf_bytes offset in
  let! _ := reject_if (negb (p_type =? PT_LOAD)) MalformedProgramHeader in
  let! flags := read_u32 elf_bytes (offset + 4) in
  let! _ := reject_if (negb (Z.ldiff flags (Z.lor (Z.lor PF_R PF_W) PF_X) =? 0))
                  MalformedProgramHeader in
  let! file_offset := read_u64 elf_bytes (offset + 8) in
  let! va := read_u64 elf_bytes (offset + 16) in
  let! fsz := read_u64 elf_bytes (offset + 32) in
  let! msz := read_u64 elf_bytes (offset + 40) in
  let! align := read_u64 elf_bytes (offset + 48) in
  let! _ := reject_if (msz <? fsz) SegmentMemSizeLessThanFileSize in
  let! _ := reject_if (msz =? 0) MalformedProgramHeader in
  let! _ := reject_if (negb (align =? PAGE_SIZE) || negb (va mod PAGE_SIZE =? 0)
                   || negb (file_offset mod PAGE_SIZE =? 0)) UnalignedSegment in
  let! _ := reject_if (negb (va mod align =? file_offset mod align)) UnalignedSegment in
  let! data_end := ok_or (checked_usize_range_end file_offset fsz) MalformedProgramHeader in
  let! _ := reject_if (data_end >? vlen elf_bytes) MalformedProgramHeader in
  let! segment_end := ok_or (checked_add va msz) MalformedProgramHeader in
  let mstart := align_down va PAGE_SIZE in
  let! mend := ok_or (align_up segment_end PAGE_SIZE) MalformedProgramHeader in
  let! _ := reject_if ((mstart <? USER_ELF_LOAD_START) || (mend >? USER_ELF_LOAD_END)
                   || (mstart >=? mend)) SegmentOutsideUserRange in
  let data := slice elf_bytes file_offset (data_end - file_offset) in
  Ok (mkLoadSegment va fsz msz flags data mstart mend).

Fixpoint check_segment_overlap (existing_segments : list LoadSegment) (segment : LoadSegment) :
    result ElfLoadError unit :=
  match existing_segments with
  | [] => Ok tt
  | existing :: rest =>
      if (map_start segment <? map_end existing) && (map_start existing <? map_end segment)
      then Err SegmentOverlap
      else check_segment_overlap rest segment
  end.

(** [for index in 0..program_header_count] *)
Fixpoint parse_headers (elf_bytes : list Z) (program_header_offset index : Z) (n : nat)
    (segs : list LoadSegment) : result ElfLoadError (list LoadSegment) :=
  match n with
  | O => Ok segs
  | S n' =>
      let offset := program_header_offset + index * PROGRAM_HEADER_SIZE in
      let! segment := parse_program_header elf_bytes offset in
      let! _ := check_segment_overlap segs segment in
      parse_headers elf_bytes program_header_offset (index + 1) n' (segs ++ [segment])
  end.

Definition contains_entry (e : Z) (s : LoadSegment) : bool :=
  negb (Z.land (seg_flags s) PF_X =? 0) && (e >=? vaddr s) && (e <? vaddr s + memsz s).

Definition parse_elf (elf_bytes : list Z) : result ElfLoadError ParsedElf :=
  let! _ := reject_if (vlen elf_bytes <? 4) MalformedHeader in
  let! _ := reject_if (negb (eq_bytes (slice elf_bytes 0 4) ELF_MAGIC)) BadMagic in
  let! _ := reject_if (vlen elf_bytes <? ELF_HEADER_SIZE) MalformedHeader in
  let! _ := reject_if (negb (byte_at elf_bytes EI_CLASS =? ELFCLASS64)) UnsupportedClass in
  let! _ := reject_if (negb (byte_at elf_bytes EI_DATA =? ELFDATA2LSB)) UnsupportedEndian in
  let! _ :=
    (if negb (byte_at elf_bytes EI_VERSION =? EV_CURRENT mod 256) then Err MalformedHeader
     else let! version := read_u32 elf_bytes 20 in
          reject_if (negb (version =? EV_CURRENT)) MalformedHeader) in
  let! etype := read_u16 elf_bytes 16 in
  let! _ := reject_if (negb (etype =? ET_EXEC)) UnsupportedType in
  let! machine := read_u16 elf_bytes 18 in
  let! _ := reject_if (negb (machine =? EM_X86_64)) UnsupportedMachine in
  let! ehsize := read_u16 elf_bytes 52 in
  let! _ := reject_if (negb (ehsize =? ELF_HEADER_SIZE)) MalformedHeader in
  let! phentsize := read_u16 elf_bytes 54 in
  let! _ := reject_if (negb (phentsize =? PROGRAM_HEADER_SIZE)) MalformedProgramHeader in
  let! e := read_u64 elf_bytes 24 in
  let! program_header_offset := read_u64 elf_bytes 32 in
  let! program_header_count := read_u16 elf_bytes 56 in
  let! _ := reject_if (program_header_count =? 0) MalformedHeader in
  let! program_headers_size :=
    ok_or (checked_mul PROGRAM_HEADER_SIZE program_header_count) MalformedProgramHeader in
  let! program_headers_end :=
    ok_or (checked_usize_range_end program_header_offset program_headers_size)
          MalformedProgramHeader in
  let! _ := reject_if (program_headers_end >? vlen elf_bytes) MalformedProgramHeader in
  let! segs := parse_headers elf_bytes program_header_offset 0
                             (Z.to_nat program_header_count) [] in
  let! _ := reject_if (match segs with [] => true | _ => false end) MalformedProgramHeader in
  let! _ := reject_if (negb (existsb (contains_entry e) segs)) EntryNotExecutable in
  Ok (mkParsedElf e segs).

(** [parse] *)
Definition parse (elf_bytes : list Z) : result ElfLoadError unit :=
  result_map (fun _ => tt) (parse_elf elf_bytes).

Definition user_flags (s : LoadSegment) : UserMapFlags :=
  mkMapFlags (negb (Z.land (seg_flags s) PF_R =? 0)) (negb (Z.land (seg_flags s) PF_W =? 0))
             (negb (Z.land (seg_flags s) PF_X =? 0)).

Definition segment_end (s : LoadSegment) : Z := vaddr s + memsz s.

(** [iter().map(segment_end).max()] *)
Definition max_segment_end (elf : ParsedElf) : option Z :=
  match segments elf with
  | [] => None
  | s :: rest => Some (fold_left Z.max (map segment_end rest) (segment_end s))
  end.

Definition map_address_space_error (e : AddressSpaceError) : ElfLoadError :=
  match e with
  | FrameAllocationFailed => OutOfFrames
  | KernelUserSlotInUse | RangeOverflow | MapTo _ | Unmap _ => MapFailed
  end.

Definition map_user_copy_error (e : UserCopyError) : ElfLoadError :=
  match e with CopyRangeOverflow | CopyNotMapped => UserCopyFailed end.

Section load.
Context {X : X86_64}.

Definition st_map_err {S E F A} (f : E -> F) (m : ST S (result E A)) : ST S (result F A) :=
  let* r := m in st_ret (map_err f r).

(** [for segment in &elf.segments] *)
Fixpoint load_segments (aspace : AddressSpace) (segs : list LoadSegment) :
    ST Mem (result ElfLoadError unit) :=
  match segs with
  | [] => st_ret (Ok tt)
  | s :: rest =>
      let* va := virt_addr (map_start s) in
      let? _ := st_map_err map_address_space_error
                  (map_user_region aspace va (map_end s - map_start s) (user_flags s)) in
      let* va := virt_addr (vaddr s) in
      let? _ := st_map_err map_user_copy_error (as_copy_to_user aspace va (seg_data s)) in
      let? _ :=
        (if memsz s >? filesz s then
           let* va := virt_addr (vaddr s + filesz s) in
           st_map_err map_user_copy_error (zero_user_range aspace va (memsz s - filesz s))
         else st_ret (Ok tt)) in
      load_segments aspace rest
  end.

Definition load_user_elf (elf_bytes : list Z) (arg0 : Z) :
    ST Mem (result ElfLoadError UserTaskInit) :=
  let? elf := st_ret (parse_elf elf_bytes) in
  let* max_end := st_expect (max_segment_end elf) "parsed ELF has at least one load segment" in
  let? heap := st_map_err (fun _ => NoHeapRange) (heap_for_loaded_image max_end) in
  let? aspace := st_map_err map_address_space_error AddressSpace.new_user in
  let? _ := load_segments aspace (segments elf) in
  let? _ := st_map_err map_address_space_error (map_user_stack aspace) in
  let* e := virt_addr (entry elf) in
  let* top := virt_addr USER_STACK_TOP in
  st_ret (Ok (mkUserTaskInit aspace e top heap arg0)).
End load.

(** ** What an accepted image satisfies *)

Record segment_ok (size : Z) (s : LoadSegment) : Prop := mkSegmentOk {
  sg_start : map_start s = vaddr s;
  sg_aligned : map_start s mod 4096 = 0 /\ map_end s mod 4096 = 0;
  sg_range : USER_ELF_LOAD_START <= map_start s < map_end s /\ map_end s <= USER_ELF_LOAD_END;
  sg_sizes : 0 <= filesz s <= memsz s /\ 0 < memsz s;
  sg_end : vaddr s + memsz s <= map_end s < vaddr s + memsz s + 4096;
  sg_data : vlen (seg_data s) = filesz s /\ filesz s <= size;
  sg_flags : 0 <= seg_flags s < 8
}.

Definition segments_disjoint (s1 s2 : LoadSegment) : Prop :=
  map_end s1 <= map_start s2 \/ map_end s2 <= map_start s1.

Lemma reject_if_Ok b e : reject_if b e = Ok tt <-> b = false.
Proof. by destruct b. Qed.

Lemma bind_Ok {E A B} (r : result E A) (k : A -> result E B) b :
  result_bind r k = Ok b <-> exists a, r = Ok a /\ k a = Ok b.
Proof. destruct r; cbn; split; [eauto|by intros (? & [= ->] & ?)|done|by intros (? & ? & _)]. Qed.

Lemma bind_reject {A} b (e : ElfLoadError) (k : result ElfLoadError A) a :
  result_bind (reject_if b e) (fun _ => k) = Ok a <-> b = false /\ k = Ok a.
Proof. destruct b; cbn; intuition congruence. Qed.

Lemma ok_or_Ok {E A} (o : option A) (e : E) a : ok_or o e = Ok a <-> o = Some a.
Proof. destruct o; cbn; split; intros H; congruence. Qed.

(** Unfolding one check of an accepting run. *)
Ltac accept H :=
  lazymatch type of H with
  | result_bind (reject_if _ _) _ = Ok _ =>
      let E := fresh "E" in apply bind_reject in H as [E H]
  | result_bind _ _ = Ok _ =>
      let v := fresh "v" in let E := fresh "E" in apply bind_Ok in H as (v & E & H)
  end; cbv beta zeta in H.

Lemma read_le_range n bytes offset v :
  Forall is_byte bytes -> read_le n bytes offset = Ok v -> 0 <= v < 256 ^ Z.of_nat n.
Proof.
  intros Hb. unfold read_le. destruct (_ && _) eqn:E; [|done]. intros [= <-]. bool_to_prop.
  pose proof (from_le_bytes_range (slice bytes offset (Z.of_nat n))) as H1.
  pose proof (vlen_slice bytes offset (Z.of_nat n)) as H2. unfold vlen in *.
  rewrite H2 in H1 by lia. apply H1. unfold slice. by apply Forall_take, Forall_drop.
Qed.

Lemma flags_small f : 0 <= f -> Z.ldiff f (Z.lor (Z.lor PF_R PF_W) PF_X) = 0 -> f < 8.
Proof.
  intros H0 H. change (Z.lor (Z.lor PF_R PF_W) PF_X) with (Z.ones 3) in H.
  rewrite Z.ldiff_ones_r in H by lia. rewrite Z.shiftl_mul_pow2, Z.shiftr_div_pow2 in H by lia.
  change (2 ^ 3) with 8 in H. pose proof (Z.div_mod f 8). pose proof (Z.mod_pos_bound f 8). lia.
Qed.

Lemma parse_program_header_ok bytes offset s :
  Forall is_byte bytes -> parse_program_header bytes offset = Ok s -> segment_ok (vlen bytes) s.
Proof.
  intros Hb H. unfold parse_program_header in H. repeat accept H.
  repeat match goal with
  | E : read_u32 _ _ = Ok _ |- _ => apply read_le_range in E; [|done]
  | E : read_u64 _ _ = Ok _ |- _ => apply read_le_range in E; [|done]
  end.
  injection H as <-. rewrite ok_or_Ok in *. rewrite Z.gtb_ltb in *. rewrite Z.geb_leb in *.
  bool_to_prop. apply checked_add_Some in E12 as [_ ->]. apply checked_add_Some in E14 as [Hend ->].
  change (256 ^ Z.of_nat 8) with (2 ^ 64) in *.
  unfold PAGE_SIZE in *. rewrite align_down_spec in * by (unfold is_u64; lia).
  apply align_up_Some in E15 as (Hup & Hupm & _); [|unfold is_u64; lia].
  replace (v1 + v3 - v1) with v3 by lia.
  assert (v2 - v2 mod 4096 = v2) as Hva by lia. rewrite Hva in *.
  constructor; cbn [vaddr filesz memsz seg_flags seg_data map_start map_end]; try lia.
  - rewrite vlen_slice by lia. lia.
  - split; [lia|apply flags_small; [lia|done]].
Qed.

Lemma check_segment_overlap_Ok segs s :
  check_segment_overlap segs s = Ok tt <-> Forall (fun e => segments_disjoint e s) segs.
Proof.
  induction segs as [|e segs IH]; cbn; [split; [constructor|done]|].
  rewrite Forall_cons, <- IH. unfold segments_disjoint.
  destruct (Z.ltb_spec (map_start s) (map_end e)), (Z.ltb_spec (map_start e) (map_end s)); cbn;
    intuition (congruence || lia).
Qed.

Lemma pairs_snoc (l : list LoadSegment) s :
  ForallOrdPairs segments_disjoint l -> Forall (fun e => segments_disjoint e s) l ->
  ForallOrdPairs segments_disjoint (l ++ [s]).
Proof.
  induction 1 as [|e l He Hl IH]; intros Hs; [repeat constructor|].
  apply Forall_cons in Hs as [Hes Hs]. cbn. constructor; [|by apply IH].
  apply Forall_app. split; [done|]. by apply Forall_singleton.
Qed.

Lemma parse_headers_ok bytes phoff index n segs0 segs :
  Forall is_byte bytes ->
  parse_headers bytes phoff index n segs0 = Ok segs ->
  Forall (segment_ok (vlen bytes)) segs0 -> ForallOrdPairs segments_disjoint segs0 ->
  Forall (segment_ok (vlen bytes)) segs /\ ForallOrdPairs segments_disjoint segs /\
  length segs = (length segs0 + n)%nat.
Proof.
  intros Hb. revert index segs0. induction n as [|n IH]; intros index segs0 H H1 H2; cbn in H.
  { injection H as <-. split; [done|]. split; [done|lia]. }
  accept H. accept H. destruct v0. apply check_segment_overlap_Ok in E0.
  apply parse_program_header_ok in E; [|done].
  destruct (IH _ _ H) as (K1 & K2 & K3).
  - apply Forall_app. by split; [|constructor].
  - by apply pairs_snoc.
  - split; [done|]. split; [done|]. rewrite K3, length_app. cbn. lia.
Qed.

(** What [parse_elf] guarantees of an image it accepts. *)
Record elf_ok (size : Z) (elf : ParsedElf) : Prop := mkElfOk {
  elf_nonempty : segments elf <> [];
  elf_segments : Forall (segment_ok size) (segments elf);
  elf_disjoint : ForallOrdPairs segments_disjoint (segments elf);
  elf_entry : exists s, s ∈ segments elf /\ Z.testbit (seg_flags s) 0 = true /\
                        vaddr s <= entry elf < vaddr s + memsz s
}.

Lemma land_1_testbit x : (Z.land x PF_X =? 0) = negb (Z.testbit x 0).
Proof.
  unfold PF_X. change 1 with (Z.ones 1). rewrite Z.land_ones by lia. rewrite Z.bit0_odd.
  change (2 ^ 1) with 2. rewrite Zmod_odd. by destruct (Z.odd x).
Qed.

Lemma parse_elf_ok bytes elf :
  Forall is_byte bytes -> parse_elf bytes = Ok elf -> elf_ok (vlen bytes) elf.
Proof.
  intros Hb H. unfold parse_elf in H. repeat accept H. injection H as <-.
  match goal with E : parse_headers _ _ _ _ _ = Ok _ |- _ =>
    apply parse_headers_ok in E as (K1 & K2 & _); [|done|constructor|constructor] end.
  constructor; cbn [segments entry]; [by intros ->|done|done|].
  match goal with E : negb (existsb _ _) = false |- _ =>
    apply negb_false_iff, existsb_exists in E as (s & Hs & Hc) end.
  exists s. rewrite list_elem_of_In. split; [done|]. unfold contains_entry in Hc.
  rewrite land_1_testbit, negb_involutive, Z.geb_leb in Hc. bool_to_prop. done.
Qed.

(** ** Loading never panics *)

Section load_facts.
Context {X : X86_64} {XS : X86_64_Spec X}.

Lemma Safe_map_err {E F A} (f : E -> F) (op : ST Mem (result E A)) : Safe op -> Safe (st_map_err f op).
Proof. intros H. apply Safe_bind; [done|auto with kernel]. Qed.

Lemma layout : USER_ELF_LOAD_START = 2 ^ 39 + 4194304 /\ USER_ELF_LOAD_END = 2 ^ 39 + 7340032 /\
  USER_HEAP_LIMIT = 2 ^ 39 + 7340032 /\ USER_STACK_TOP = 2 ^ 39 + 8388608.
Proof. done. Qed.

Lemma Safe_load_segments aspace segs size :
  Forall (segment_ok size) segs -> Safe (load_segments aspace segs).
Proof.
  pose proof layout as (L1 & L2 & _).
  induction 1 as [|s segs [Hst Hal Hr Hsz Hend Hdata Hfl] _ IH]; cbn [load_segments]; [auto with kernel|].
  apply Safe_virt_addr; [apply canonical_low; lia|].
  apply Safe_try; [apply Safe_map_err, Safe_map_user_region; lia|]. intros _.
  apply Safe_virt_addr; [apply canonical_low; lia|].
  apply Safe_try; [apply Safe_map_err, Safe_as_copy_to_user; lia|]. intros _.
  apply Safe_try; [|done]. destruct (memsz s >? filesz s); [|auto with kernel].
  apply Safe_virt_addr; [apply canonical_low; lia|].
  apply Safe_map_err, Safe_zero_user_range; lia.
Qed.

Lemma Safe_map_user_stack aspace : Safe (map_user_stack aspace).
Proof.
  pose proof layout as (_ & _ & _ & L). unfold map_user_stack.
  change (USER_STACK_PAGES * PAGE_SIZE) with 8192 in *.
  apply Safe_virt_addr; [apply canonical_low; lia|]. apply Safe_map_user_region; lia.
Qed.

Lemma heap_for_image_ok max_end :
  0 <= max_end -> SafeR (heap_for_loaded_image max_end) (OnOk heap_ok).
Proof.
  pose proof layout as (L1 & L2 & L3 & _).
  intros H0 m Hm. unfold heap_for_loaded_image.
  destruct (align_up max_end PAGE_SIZE) as [start|]; [|done].
  destruct (Z.ltb_spec start USER_ELF_LOAD_START); [done|]. rewrite Z.gtb_ltb.
  destruct (Z.ltb_spec USER_HEAP_LIMIT start); [done|]. cbn [orb].
  wp_step. rewrite virt_addr_ok by (apply canonical_low; lia). wp_steps.
  rewrite virt_addr_ok by (apply canonical_low; lia). wp_steps. split; [done|].
  destruct (UserHeap_new start USER_HEAP_LIMIT) as [h|e] eqn:E; [|done].
  eapply (UserHeap_new_ok start USER_HEAP_LIMIT h); [lia|lia|done].
Qed.

Lemma max_segment_end_Some elf size :
  segments elf <> [] -> Forall (segment_ok size) (segments elf) ->
  exists e, max_segment_end elf = Some e /\ 0 <= e.
Proof.
  intros Hne H. unfold max_segment_end. destruct (segments elf) as [|s rest]; [done|].
  apply Forall_cons in H as [[Hst _ Hr Hsz _ _ _] _]. eexists. split; [done|].
  pose proof layout as (L1 & _).
  assert (forall l a, a <= fold_left Z.max l a) as Hfold.
  { clear. induction l as [|b l IH]; intros a; cbn; [lia|]. specialize (IH (Z.max a b)). lia. }
  etransitivity; [|apply Hfold]. unfold segment_end. lia.
Qed.

(** [load_user_elf] returns on every byte string, and a program it loads has
    a well-formed heap. *)
Lemma load_user_elf_safe bytes arg0 :
  Forall is_byte bytes -> SafeR (load_user_elf bytes arg0) (OnOk (fun i => heap_ok (init_heap i))).
Proof.
  intros Hb. pose proof layout as (L1 & L2 & L3 & L4). unfold load_user_elf.
  apply (SafeR_try_then _ (fun elf => parse_elf bytes = Ok elf)).
  { apply SafeR_ret. by destruct (parse_elf bytes). }
  intros elf Helf. destruct (parse_elf_ok _ _ Hb Helf) as [Hne Hseg _ (s & Hs & _ & Hent)].
  destruct (max_segment_end_Some _ _ Hne Hseg) as (e & -> & He).
  apply (SafeR_then _ (fun a => a = e)); [by apply SafeR_ret|]. intros _ ->.
  apply (SafeR_try_then _ heap_ok).
  { eapply SafeR_then; [by apply heap_for_image_ok|]. intros r Hr. apply SafeR_ret. by destruct r. }
  intros h Hh. apply (SafeR_try_then _ (fun _ => True)).
  { eapply SafeR_then; [apply Safe_R, Safe_new_user|]. intros r _. apply SafeR_ret. by destruct r. }
  intros aspace _. apply (SafeR_try_then _ (fun _ => True)).
  { intros m Hm. eapply wp_mono; [by eapply Safe_load_segments|]. intros r m' C. by destruct r. }
  intros _ _. apply (SafeR_try_then _ (fun _ => True)).
  { intros m Hm.
    eapply wp_mono; [exact (Safe_map_err _ _ (Safe_map_user_stack aspace) m Hm)|].
    intros r m' C. by destruct r. }
  intros _ _. rewrite Forall_forall in Hseg. destruct (Hseg s Hs) as [Hst _ Hr _ Hend _ _].
  rewrite !virt_addr_ok by (apply canonical_low; lia).
  apply (SafeR_then _ (fun _ => True)); [by apply SafeR_ret|]. intros en _.
  apply (SafeR_then _ (fun _ => True)); [by apply SafeR_ret|]. intros top _.
  by apply SafeR_ret.
Qed.

Lemma Safe_write_frame_u64 aspace frame v : Safe (write_frame_u64 aspace frame v).
Proof. apply Safe_with_state'. auto with kernel. Qed.

Lemma Safe_map_program aspace bytes : vlen bytes <= 4096 -> Safe (map_program aspace bytes).
Proof.
  intros Hl. unfold map_program, write_frame_bytes.
  assert (canonical USER_CODE_BASE) as Hc by (by apply canonical_low).
  apply Safe_virt_addr; [done|]. apply Safe_try; [apply Safe_map_zeroed|]. intros frame.
  rewrite (proj2 (Z.leb_le _ _)), Z.gtb_ltb, (proj2 (Z.ltb_ge _ _)) by done.
  apply Safe_try; [apply Safe_with_state'; auto with kernel|]. intros _.
  by apply Safe_virt_addr; [|auto with kernel].
Qed.

Lemma Safe_data_page {B} aspace address v (k : ST Mem (result AddressSpaceError B)) :
  Safe k ->
  Safe (let? frame := map_zeroed_user_page aspace address user_data_flags in
        write_frame_u64 aspace frame v ;;; k).
Proof.
  intros Hk. apply Safe_try; [apply Safe_map_zeroed|]. intros frame.
  apply Safe_bind; [apply Safe_write_frame_u64|done].
Qed.

Lemma SafeR_ok {E A} (op : ST Mem (result E A)) : Safe op -> SafeR op (OnOk (fun _ => True)).
Proof. intros H m Hm. eapply wp_mono; [by apply H|]. intros r m' C. by destruct r. Qed.

Lemma default_heap_safe : SafeR default_builtin_heap (OnOk heap_ok).
Proof.
  intros m Hm. unfold default_builtin_heap.
  rewrite !virt_addr_ok by (by apply canonical_low). wp_steps. split; [done|].
  destruct (UserHeap_new (USER_DATA_BASE + PAGE_SIZE) USER_HEAP_LIMIT) as [h|e] eqn:E; [|done].
  by eapply (UserHeap_new_ok (USER_DATA_BASE + PAGE_SIZE) USER_HEAP_LIMIT h).
Qed.

(** So does loading a built-in program of at most a page. *)
Lemma create_user_task_safe bytes arg0 test :
  vlen bytes <= 4096 ->
  SafeR (create_user_task_with_test_page bytes arg0 test) (OnOk (fun i => heap_ok (init_heap i))).
Proof.
  intros Hl. unfold create_user_task_with_test_page.
  rewrite !virt_addr_ok by (by apply canonical_low).
  apply (SafeR_try_then _ (fun _ => True)); [apply SafeR_ok, Safe_new_user|]. intros aspace _.
  apply (SafeR_try_then _ (fun _ => True)); [by apply SafeR_ok, Safe_map_program|]. intros e _.
  apply (SafeR_then _ (fun _ => True)); [by apply SafeR_ret|]. intros data _.
  apply (SafeR_try_then _ (fun _ => True)); [apply SafeR_ok, Safe_map_zeroed|]. intros frame _.
  apply (SafeR_then _ (fun _ => True)); [apply Safe_R, Safe_write_frame_u64|]. intros _ _.
  apply (SafeR_try_then _ (fun _ => True)).
  { apply SafeR_ok. destruct test as [value|]; [|auto with kernel].
    apply Safe_bind; [auto with kernel|]. intros a.
    apply Safe_data_page. auto with kernel. }
  intros _ _. apply (SafeR_try_then _ (fun _ => True)); [apply SafeR_ok, Safe_map_user_stack|]. intros _ _.
  eapply SafeR_then; [apply default_heap_safe|]. intros r Hr.
  apply (SafeR_try_then _ heap_ok); [apply SafeR_ret; by destruct r|]. intros h Hh.
  apply (SafeR_then _ (fun _ => True)); [by apply SafeR_ret|]. intros top _. by apply SafeR_ret.
Qed.
End load_facts.
