(* ===== verification/Build.v ===== *)
(** * The build script (src/build.rs)

    The script assembles small user programs byte by byte and wraps each one
    in a static ELF64 image that the kernel tests embed. An emitter appends
    machine code to a vector; [elf] lays out the headers and the segments of
    an image in a zeroed buffer and fills it in by range assignments, which
    panic out of range. The script has its own copies of the kernel's
    constants. *)

From S2P Require Import Prelude.

Definition PAGE_SIZE : Z := 4096.
Definition USER_BASE : Z := Z.shiftl 1 39.
Definition USER_CODE_BASE : Z := USER_BASE + 0x00400000.
Definition USER_DATA_BASE : Z := USER_BASE + 0x00600000.
Definition USER_TEST_PAGE_BASE : Z := USER_BASE + 0x00700000.

Definition ET_EXEC : Z := 2.
Definition EM_X86_64 : Z := 0x3e.
Definition PT_LOAD : Z := 1.
Definition PF_X : Z := 1.
Definition PF_W : Z := 2.
Definition PF_R : Z := 4.
Definition SYS_YIELD : Z := 0.
Definition SYS_EXIT : Z := 1.
Definition SYS_WRITE : Z := 2.
Definition SYS_GETPID : Z := 3.
Definition SYS_WAITPID : Z := 4.
Definition SYS_OPEN : Z := 5.
Definition SYS_READ : Z := 6.
Definition SYS_CLOSE : Z := 7.
Definition SYS_BRK : Z := 8.

(** [(-n_i64) as u64] *)
Definition as_u64 (z : Z) : Z := z mod 2 ^ 64.

Definition ENOENT : Z := as_u64 (-2).
Definition EBADF : Z := as_u64 (-9).
Definition ECHILD : Z := as_u64 (-10).
Definition ENOMEM : Z := as_u64 (-12).
Definition EFAULT : Z := as_u64 (-14).
Definition EINVAL : Z := as_u64 (-22).
Definition WNOHANG : Z := 1.
Definition O_RDONLY : Z := 0.
Definition WAIT_EXITED : Z := 0.
Definition WAIT_FAULTED : Z := 1.

(** The newline that ends a byte-string literal. *)
Definition line (s : string) : list Z := bytes_of s ++ [10].

Definition HELLO_FILE : list Z := line "hello from embedded file".
Definition MOTD_FILE : list Z := line "tiny kernel says hello".
Definition HELLO_PATH : list Z := bytes_of "/hello.txt".
Definition MOTD_PATH : list Z := bytes_of "/motd".
Definition MISSING_PATH : list Z := bytes_of "/missing".

Definition FD_HELLO_PATH : Z := USER_DATA_BASE.
Definition FD_MOTD_PATH : Z := USER_DATA_BASE + 16.
Definition FD_MISSING_PATH : Z := USER_DATA_BASE + 32.
Definition FD_TEMP_FD_A : Z := USER_DATA_BASE + 48.
Definition FD_TEMP_FD_B : Z := USER_DATA_BASE + 56.
Definition FD_BUFFER : Z := USER_DATA_BASE + 128.
Definition FD_CROSS_BUFFER : Z := USER_DATA_BASE + PAGE_SIZE - 4.

Definition HEAP_SCRATCH_BREAK : Z := USER_DATA_BASE.
Definition HEAP_SCRATCH_ARG : Z := USER_DATA_BASE + 8.
Definition HEAP_MESSAGE : list Z := line "hello from brk heap".

Definition PROCESS_PID_DELAYED : Z := USER_DATA_BASE.
Definition PROCESS_PID_IMMEDIATE : Z := USER_DATA_BASE + 8.
Definition PROCESS_PID_FAULTING : Z := USER_DATA_BASE + 16.
Definition PROCESS_PID_NON_CHILD : Z := USER_DATA_BASE + 24.
Definition PROCESS_STATUS : Z := USER_DATA_BASE + 32.

Record Segment : Type := mkSegment {
  vaddr : Z;
  flags : Z;
  memsz : Z;
  data : list Z
}.

(** ** Emitters

    A function on [bytes: &mut Vec<u8>] that appends to it; [;>] is the
    sequence of two statements. *)
Definition emitter : Type := list Z -> list Z.

Definition extend_from_slice (l : list Z) : emitter := fun bytes => bytes ++ l.
Definition then_emit (e1 e2 : emitter) : emitter := fun bytes => e2 (e1 bytes).

Notation "e1 ;> e2" := (then_emit e1 e2) (at level 199, right associativity) : kernel_scope.

(** The bytes of [let mut code = Vec::new(); ...]. *)
Definition assemble (e : emitter) : list Z := e [].

Definition mov_rax_imm64 (value : Z) : emitter :=
  extend_from_slice [0x48; 0xb8] ;> extend_from_slice (to_le_bytes 8 value).
Definition mov_rbx_imm64 (value : Z) : emitter :=
  extend_from_slice [0x48; 0xbb] ;> extend_from_slice (to_le_bytes 8 value).
Definition mov_rdi_imm64 (value : Z) : emitter :=
  extend_from_slice [0x48; 0xbf] ;> extend_from_slice (to_le_bytes 8 value).
Definition mov_rsi_imm64 (value : Z) : emitter :=
  extend_from_slice [0x48; 0xbe] ;> extend_from_slice (to_le_bytes 8 value).
Definition mov_rdx_imm64 (value : Z) : emitter :=
  extend_from_slice [0x48; 0xba] ;> extend_from_slice (to_le_bytes 8 value).
Definition mov_rax_imm32 (value : Z) : emitter :=
  extend_from_slice [0x48; 0xc7; 0xc0] ;> extend_from_slice (to_le_bytes 4 value).

Definition add_rbx_i32 (value : Z) : emitter :=
  extend_from_slice [0x48; 0x81; 0xc3] ;> extend_from_slice (to_le_bytes 4 value).
Definition add_rcx_i32 (value : Z) : emitter :=
  extend_from_slice [0x48; 0x81; 0xc1] ;> extend_from_slice (to_le_bytes 4 value).
Definition add_rdi_i32 (value : Z) : emitter :=
  extend_from_slice [0x48; 0x81; 0xc7] ;> extend_from_slice (to_le_bytes 4 value).
Definition add_rsi_i32 (value : Z) : emitter :=
  extend_from_slice [0x48; 0x81; 0xc6] ;> extend_from_slice (to_le_bytes 4 value).

Definition int_0x80 : emitter := extend_from_slice [0xcd; 0x80].
Definition spin : emitter := extend_from_slice [0xeb; 0xfe].

Definition exit_with_code (code : Z) : emitter :=
  mov_rdi_imm64 code ;>
  mov_rax_imm32 SYS_EXIT ;>
  int_0x80 ;>
  spin.

Definition write_syscall (fd ptr len : Z) : emitter :=
  mov_rax_imm32 SYS_WRITE ;>
  mov_rdi_imm64 fd ;>
  mov_rsi_imm64 ptr ;>
  mov_rdx_imm64 len ;>
  int_0x80.

Definition open_syscall (path len flags : Z) : emitter :=
  mov_rax_imm32 SYS_OPEN ;>
  mov_rdi_imm64 path ;>
  mov_rsi_imm64 len ;>
  mov_rdx_imm64 flags ;>
  int_0x80.

Definition read_syscall_fd_imm (fd buffer len : Z) : emitter :=
  mov_rax_imm32 SYS_READ ;>
  mov_rdi_imm64 fd ;>
  mov_rsi_imm64 buffer ;>
  mov_rdx_imm64 len ;>
  int_0x80.

Definition read_syscall_fd_mem (fd_addr buffer len : Z) : emitter :=
  mov_rax_imm32 SYS_READ ;>
  mov_rbx_imm64 fd_addr ;>
  extend_from_slice [0x48; 0x8b; 0x3b] ;>
  mov_rsi_imm64 buffer ;>
  mov_rdx_imm64 len ;>
  int_0x80.

Definition write_syscall_fd_imm (fd buffer len : Z) : emitter :=
  mov_rax_imm32 SYS_WRITE ;>
  mov_rdi_imm64 fd ;>
  mov_rsi_imm64 buffer ;>
  mov_rdx_imm64 len ;>
  int_0x80.

Definition write_syscall_fd_mem (fd_addr buffer len : Z) : emitter :=
  mov_rax_imm32 SYS_WRITE ;>
  mov_rbx_imm64 fd_addr ;>
  extend_from_slice [0x48; 0x8b; 0x3b] ;>
  mov_rsi_imm64 buffer ;>
  mov_rdx_imm64 len ;>
  int_0x80.

Definition close_syscall_fd_mem (fd_addr : Z) : emitter :=
  mov_rax_imm32 SYS_CLOSE ;>
  mov_rbx_imm64 fd_addr ;>
  extend_from_slice [0x48; 0x8b; 0x3b] ;>
  int_0x80.

Definition brk_syscall_imm (requested : Z) : emitter :=
  mov_rax_imm32 SYS_BRK ;>
  mov_rdi_imm64 requested ;>
  int_0x80.

Definition brk_query : emitter := brk_syscall_imm 0.

Definition brk_from_rax_delta (delta : Z) : emitter :=
  extend_from_slice [0x48; 0x89; 0xc7] ;>
  add_rdi_i32 delta ;>
  mov_rax_imm32 SYS_BRK ;>
  int_0x80.

Definition brk_from_mem_delta (address delta : Z) : emitter :=
  mov_rbx_imm64 address ;>
  extend_from_slice [0x48; 0x8b; 0x3b] ;>
  add_rdi_i32 delta ;>
  mov_rax_imm32 SYS_BRK ;>
  int_0x80.

Definition write_syscall_fd_ptr_mem (fd ptr_addr offset len : Z) : emitter :=
  mov_rax_imm32 SYS_WRITE ;>
  mov_rdi_imm64 fd ;>
  mov_rbx_imm64 ptr_addr ;>
  extend_from_slice [0x48; 0x8b; 0x33] ;>
  add_rsi_i32 offset ;>
  mov_rdx_imm64 len ;>
  int_0x80.

Definition load_rbx_from_mem_plus (address offset : Z) : emitter :=
  mov_rbx_imm64 address ;>
  extend_from_slice [0x48; 0x8b; 0x1b] ;>
  add_rbx_i32 offset.

Definition write_byte_ptr_mem (ptr_addr offset value : Z) : emitter :=
  load_rbx_from_mem_plus ptr_addr offset ;>
  extend_from_slice [0xc6; 0x03; value].

(** [for (index, value) in values.iter().enumerate()] *)
Fixpoint write_bytes_from (ptr_addr offset index : Z) (values : list Z) : emitter :=
  match values with
  | [] => extend_from_slice []
  | value :: rest =>
      write_byte_ptr_mem ptr_addr (offset + index) value ;>
      write_bytes_from ptr_addr offset (index + 1) rest
  end.

Definition write_bytes_ptr_mem (ptr_addr offset : Z) (values : list Z) : emitter :=
  write_bytes_from ptr_addr offset 0 values.

Definition check_byte_ptr_mem_eq_continue (ptr_addr offset expected : Z) : emitter :=
  load_rbx_from_mem_plus ptr_addr offset ;>
  extend_from_slice [0x80; 0x3b; expected] ;>
  extend_from_slice [0x74; 21] ;>
  exit_with_code 1.

Definition yield_syscall : emitter :=
  mov_rax_imm32 SYS_YIELD ;>
  int_0x80.

Definition waitpid_from_mem (pid_addr status_addr options : Z) : emitter :=
  mov_rax_imm32 SYS_WAITPID ;>
  mov_rbx_imm64 pid_addr ;>
  extend_from_slice [0x48; 0x8b; 0x3b] ;>
  mov_rsi_imm64 status_addr ;>
  mov_rdx_imm64 options ;>
  int_0x80.

Definition check_rax_eq_continue (expected : Z) : emitter :=
  mov_rbx_imm64 expected ;>
  extend_from_slice [0x48; 0x39; 0xd8] ;>
  extend_from_slice [0x74; 21] ;>
  exit_with_code 1.

Definition check_rax_eq_mem_continue (address : Z) : emitter :=
  mov_rbx_imm64 address ;>
  extend_from_slice [0x48; 0x3b; 0x03] ;>
  extend_from_slice [0x74; 21] ;>
  exit_with_code 1.

Definition check_rax_eq_mem_plus_continue (address delta : Z) : emitter :=
  mov_rbx_imm64 address ;>
  extend_from_slice [0x48; 0x8b; 0x0b] ;>
  add_rcx_i32 delta ;>
  extend_from_slice [0x48; 0x39; 0xc8] ;>
  extend_from_slice [0x74; 21] ;>
  exit_with_code 1.

Definition check_rax_nonzero_continue : emitter :=
  extend_from_slice [0x48; 0x85; 0xc0] ;>
  extend_from_slice [0x75; 21] ;>
  exit_with_code 1.

Definition check_u32_mem_eq_continue (address expected : Z) : emitter :=
  mov_rbx_imm64 address ;>
  extend_from_slice [0x81; 0x3b] ;>
  extend_from_slice (to_le_bytes 4 expected) ;>
  extend_from_slice [0x74; 21] ;>
  exit_with_code 1.

Definition check_i32_mem_eq_continue (address expected : Z) : emitter :=
  check_u32_mem_eq_continue address (expected mod 2 ^ 32).

Definition check_byte_mem_eq_continue (address expected : Z) : emitter :=
  mov_rbx_imm64 address ;>
  extend_from_slice [0x80; 0x3b; expected] ;>
  extend_from_slice [0x74; 21] ;>
  exit_with_code 1.

Definition store_rax (address : Z) : emitter :=
  mov_rbx_imm64 address ;>
  extend_from_slice [0x48; 0x89; 0x03].

Definition store_rdi (address : Z) : emitter :=
  mov_rbx_imm64 address ;>
  extend_from_slice [0x48; 0x89; 0x3b].

(** ** The image *)

(** On the length of a vector, where the sum does not overflow. *)
Definition align_up (value align : Z) : Z := Z.land (value + align - 1) (not64 (align - 1)).

(** [bytes[start..start + src.len()].copy_from_slice(src)] *)
Definition copy_at (start : Z) (src : list Z) : ST (list Z) unit := fun bytes =>
  if (0 <=? start) && (start + vlen src <=? vlen bytes)
  then Done (tt, take (Z.to_nat start) bytes ++ src ++ drop (Z.to_nat (start + vlen src)) bytes)
  else Panic "range end index out of range for slice".

(** [bytes[index] = value] *)
Definition set_at (index value : Z) : ST (list Z) unit := copy_at index [value].

Definition put_u16 (offset value : Z) : ST (list Z) unit := copy_at offset (to_le_bytes 2 value).
Definition put_u32 (offset value : Z) : ST (list Z) unit := copy_at offset (to_le_bytes 4 value).
Definition put_u64 (offset value : Z) : ST (list Z) unit := copy_at offset (to_le_bytes 8 value).

(** A vector of [len] zeros after the assignments [m]. *)
Definition filled (len : Z) (m : ST (list Z) unit) : exec (list Z) :=
  match m (replicate (Z.to_nat len) 0) with
  | Done (_, bytes) => Done bytes
  | Panic msg => Panic msg
  end.

Definition is_empty (l : list Z) : bool := match l with [] => true | _ => false end.

(** The loop that places the segments: [offsets] and [file_len]. *)
Fixpoint place_segments (segments : list Segment) (index : Z) (offsets : list Z) (file_len : Z) :
    list Z * Z :=
  match segments with
  | [] => (offsets, file_len)
  | segment :: rest =>
      if negb (is_empty (data segment)) then
        let file_len := align_up file_len PAGE_SIZE in
        place_segments rest (index + 1) (vset offsets index file_len)
                       (file_len + vlen (data segment))
      else place_segments rest (index + 1) offsets file_len
  end.

Definition header_size : Z := 64.
Definition program_header_size : Z := 56.

Definition write_file_header (entry : Z) (segments : list Segment) : ST (list Z) unit :=
  copy_at 0 [0x7f; 0x45; 0x4c; 0x46] ;;;
  set_at 4 2 ;;;
  set_at 5 1 ;;;
  set_at 6 1 ;;;
  put_u16 16 ET_EXEC ;;;
  put_u16 18 EM_X86_64 ;;;
  put_u32 20 1 ;;;
  put_u64 24 entry ;;;
  put_u64 32 header_size ;;;
  put_u16 52 header_size ;;;
  put_u16 54 program_header_size ;;;
  put_u16 56 (vlen segments).

(** The loop that writes the program headers and the data. *)
Fixpoint write_segments (segments : list Segment) (index : Z) (offsets : list Z) :
    ST (list Z) unit :=
  match segments with
  | [] => st_ret tt
  | segment :: rest =>
      let ph := header_size + index * program_header_size in
      let* offset := st_expect (vget offsets index) "index out of bounds" in
      put_u32 ph PT_LOAD ;;;
      put_u32 (ph + 4) (flags segment) ;;;
      put_u64 (ph + 8) offset ;;;
      put_u64 (ph + 16) (vaddr segment) ;;;
      put_u64 (ph + 24) (vaddr segment) ;;;
      put_u64 (ph + 32) (vlen (data segment)) ;;;
      put_u64 (ph + 40) (memsz segment) ;;;
      put_u64 (ph + 48) PAGE_SIZE ;;;
      (if negb (is_empty (data segment)) then copy_at offset (data segment) else st_ret tt) ;;;
      write_segments rest (index + 1) offsets
  end.

Definition elf (entry : Z) (segments : list Segment) : exec (list Z) :=
  let n := vlen segments in
  let '(offsets, file_len) :=
    place_segments segments 0 (replicate (length segments) 0)
                   (align_up (header_size + program_header_size * n) PAGE_SIZE) in
  filled file_len
    (write_file_header entry segments ;;;
     write_segments segments 0 offsets).

(** ** The programs

    For each fixture its code, an emitter, and its image. *)

Definition code_segment (code : list Z) : Segment :=
  mkSegment USER_CODE_BASE (Z.lor PF_R PF_X) (vlen code) code.

Definition data_segment (flags memsz : Z) (data : list Z) : Segment :=
  mkSegment USER_DATA_BASE flags memsz data.

Definition exit_42_code : emitter :=
  mov_rdi_imm64 42 ;>
  mov_rax_imm32 SYS_EXIT ;>
  int_0x80 ;>
  spin.

Definition exit_42 : exec (list Z) :=
  elf USER_CODE_BASE [code_segment (assemble exit_42_code)].

Definition write_private_data_code : emitter :=
  extend_from_slice [0x48; 0x89; 0xf8] ;>
  mov_rbx_imm64 USER_DATA_BASE ;>
  extend_from_slice [0x48; 0x89; 0x03] ;>
  extend_from_slice [0x48; 0x8b; 0x3b] ;>
  mov_rax_imm32 SYS_EXIT ;>
  int_0x80 ;>
  spin.

Definition write_private_data : exec (list Z) :=
  elf USER_CODE_BASE
    [code_segment (assemble write_private_data_code); data_segment (Z.lor PF_R PF_W) 8 []].

Definition write_readonly_segment_code : emitter :=
  mov_rax_imm64 USER_DATA_BASE ;>
  extend_from_slice [0x48; 0xc7; 0x00; 0x01; 0x00; 0x00; 0x00] ;>
  mov_rdi_imm64 99 ;>
  mov_rax_imm32 SYS_EXIT ;>
  int_0x80 ;>
  spin.

Definition write_readonly_segment : exec (list Z) :=
  elf USER_CODE_BASE
    [code_segment (assemble write_readonly_segment_code);
     data_segment PF_R 8 (replicate 8 0)].

Definition suite_hello : list Z := line "hello from user write".
Definition suite_stderr : list Z := line "stderr from user write".
Definition suite_cross : list Z := line "cross-page user write ok".
Definition stderr_offset : Z := 64.
Definition cross_offset : Z := PAGE_SIZE - 5.

Definition write_syscall_suite_code : emitter :=
  write_syscall 1 USER_DATA_BASE (vlen suite_hello) ;>
  check_rax_eq_continue (vlen suite_hello) ;>
  write_syscall 2 (USER_DATA_BASE + stderr_offset) (vlen suite_stderr) ;>
  check_rax_eq_continue (vlen suite_stderr) ;>
  write_syscall 1 USER_TEST_PAGE_BASE 4 ;>
  check_rax_eq_continue EFAULT ;>
  write_syscall 1 0x200000 4 ;>
  check_rax_eq_continue EFAULT ;>
  write_syscall 99 USER_DATA_BASE (vlen suite_hello) ;>
  check_rax_eq_continue EBADF ;>
  write_syscall 1 (USER_DATA_BASE + cross_offset) (vlen suite_cross) ;>
  check_rax_eq_continue (vlen suite_cross) ;>
  exit_with_code 0.

Definition write_syscall_suite_data : exec (list Z) :=
  filled (cross_offset + vlen suite_cross)
    (copy_at 0 suite_hello ;;;
     copy_at stderr_offset suite_stderr ;;;
     copy_at cross_offset suite_cross).

Definition exec_bind {A B} (m : exec A) (k : A -> exec B) : exec B :=
  match m with Done a => k a | Panic msg => Panic msg end.

Definition write_syscall_suite : exec (list Z) :=
  exec_bind write_syscall_suite_data (fun data =>
    elf USER_CODE_BASE
      [code_segment (assemble write_syscall_suite_code); data_segment PF_R (vlen data) data]).

Definition write_hello_message : list Z := line "preempted write hello".

Definition write_hello_code : emitter :=
  write_syscall 1 USER_DATA_BASE (vlen write_hello_message) ;>
  check_rax_eq_continue (vlen write_hello_message) ;>
  exit_with_code 0.

Definition write_hello : exec (list Z) :=
  elf USER_CODE_BASE
    [code_segment (assemble write_hello_code);
     data_segment PF_R (vlen write_hello_message) write_hello_message].

Definition read_data_exit_code : emitter :=
  mov_rbx_imm64 USER_DATA_BASE ;>
  extend_from_slice [0x48; 0x8b; 0x3b] ;>
  mov_rax_imm32 SYS_EXIT ;>
  int_0x80 ;>
  spin.

Definition read_data_exit : exec (list Z) :=
  elf USER_CODE_BASE
    [code_segment (assemble read_data_exit_code); data_segment (Z.lor PF_R PF_W) 8 []].

Definition busy_counter_code : emitter :=
  mov_rbx_imm64 USER_DATA_BASE ;>
  extend_from_slice [0x48; 0xff; 0x03] ;>
  extend_from_slice [0xeb; 0xfb].

Definition busy_counter : exec (list Z) :=
  elf USER_CODE_BASE
    [code_segment (assemble busy_counter_code); data_segment (Z.lor PF_R PF_W) 8 []].

Definition getpid_ok_code : emitter :=
  mov_rax_imm32 SYS_GETPID ;>
  int_0x80 ;>
  check_rax_nonzero_continue ;>
  exit_with_code 0.

Definition getpid_ok : exec (list Z) :=
  elf USER_CODE_BASE [code_segment (assemble getpid_ok_code)].

Definition delayed_exit_child_code : emitter :=
  yield_syscall ;>
  yield_syscall ;>
  yield_syscall ;>
  exit_with_code 42.

Definition delayed_exit_child : exec (list Z) :=
  elf USER_CODE_BASE [code_segment (assemble delayed_exit_child_code)].

Definition immediate_exit_child_code : emitter := exit_with_code 7.

Definition immediate_exit_child : exec (list Z) :=
  elf USER_CODE_BASE [code_segment (assemble immediate_exit_child_code)].

Definition faulting_child_code : emitter :=
  mov_rax_imm64 USER_TEST_PAGE_BASE ;>
  extend_from_slice [0x48; 0xc7; 0x00; 0x01; 0x00; 0x00; 0x00] ;>
  exit_with_code 99.

Definition faulting_child : exec (list Z) :=
  elf USER_CODE_BASE [code_segment (assemble faulting_child_code)].

Definition process_wait_parent_suite_code : emitter :=
  mov_rax_imm32 SYS_GETPID ;>
  int_0x80 ;>
  check_rax_nonzero_continue ;>
  yield_syscall ;>
  waitpid_from_mem PROCESS_PID_NON_CHILD PROCESS_STATUS 0 ;>
  check_rax_eq_continue ECHILD ;>
  waitpid_from_mem PROCESS_PID_IMMEDIATE USER_TEST_PAGE_BASE 0 ;>
  check_rax_eq_continue EFAULT ;>
  waitpid_from_mem PROCESS_PID_IMMEDIATE PROCESS_STATUS 0 ;>
  check_rax_eq_mem_continue PROCESS_PID_IMMEDIATE ;>
  check_u32_mem_eq_continue PROCESS_STATUS WAIT_EXITED ;>
  check_i32_mem_eq_continue (PROCESS_STATUS + 4) 7 ;>
  waitpid_from_mem PROCESS_PID_DELAYED PROCESS_STATUS WNOHANG ;>
  check_rax_eq_continue 0 ;>
  waitpid_from_mem PROCESS_PID_DELAYED USER_TEST_PAGE_BASE 0 ;>
  check_rax_eq_continue EFAULT ;>
  waitpid_from_mem PROCESS_PID_DELAYED PROCESS_STATUS 0 ;>
  check_rax_eq_mem_continue PROCESS_PID_DELAYED ;>
  check_u32_mem_eq_continue PROCESS_STATUS WAIT_EXITED ;>
  check_i32_mem_eq_continue (PROCESS_STATUS + 4) 42 ;>
  waitpid_from_mem PROCESS_PID_DELAYED PROCESS_STATUS 0 ;>
  check_rax_eq_continue ECHILD ;>
  waitpid_from_mem PROCESS_PID_FAULTING PROCESS_STATUS 0 ;>
  check_rax_eq_mem_continue PROCESS_PID_FAULTING ;>
  check_u32_mem_eq_continue PROCESS_STATUS WAIT_FAULTED ;>
  exit_with_code 0.

Definition process_wait_parent_suite : exec (list Z) :=
  elf USER_CODE_BASE
    [code_segment (assemble process_wait_parent_suite_code);
     data_segment (Z.lor PF_R PF_W) 4096 (replicate 64 0)].

Definition fd_elf_data : exec (list Z) :=
  filled (PAGE_SIZE * 2)
    (copy_at 0 HELLO_PATH ;;;
     copy_at 16 MOTD_PATH ;;;
     copy_at 32 MISSING_PATH).

Definition fd_elf (code : list Z) : exec (list Z) :=
  exec_bind fd_elf_data (fun data =>
    elf USER_CODE_BASE
      [code_segment code; data_segment (Z.lor PF_R PF_W) (vlen data) data]).

Definition fd_syscall_suite_code : emitter :=
  read_syscall_fd_imm 0 FD_BUFFER 8 ;>
  check_rax_eq_continue 0 ;>

  open_syscall FD_HELLO_PATH (vlen HELLO_PATH) O_RDONLY ;>
  check_rax_eq_continue 3 ;>
  store_rax FD_TEMP_FD_A ;>
  read_syscall_fd_mem FD_TEMP_FD_A FD_BUFFER (vlen HELLO_FILE) ;>
  check_rax_eq_continue (vlen HELLO_FILE) ;>
  check_byte_mem_eq_continue FD_BUFFER 104 ;>
  write_syscall_fd_imm 1 FD_BUFFER (vlen HELLO_FILE) ;>
  check_rax_eq_continue (vlen HELLO_FILE) ;>
  read_syscall_fd_mem FD_TEMP_FD_A FD_BUFFER 1 ;>
  check_rax_eq_continue 0 ;>
  close_syscall_fd_mem FD_TEMP_FD_A ;>
  check_rax_eq_continue 0 ;>
  close_syscall_fd_mem FD_TEMP_FD_A ;>
  check_rax_eq_continue EBADF ;>
  read_syscall_fd_mem FD_TEMP_FD_A FD_BUFFER 1 ;>
  check_rax_eq_continue EBADF ;>

  open_syscall FD_MISSING_PATH (vlen MISSING_PATH) O_RDONLY ;>
  check_rax_eq_continue ENOENT ;>
  open_syscall USER_TEST_PAGE_BASE 4 O_RDONLY ;>
  check_rax_eq_continue EFAULT ;>
  open_syscall FD_HELLO_PATH (vlen HELLO_PATH) 99 ;>
  check_rax_eq_continue EINVAL ;>

  open_syscall FD_HELLO_PATH (vlen HELLO_PATH) O_RDONLY ;>
  check_rax_eq_continue 3 ;>
  store_rax FD_TEMP_FD_A ;>
  close_syscall_fd_mem FD_TEMP_FD_A ;>
  check_rax_eq_continue 0 ;>
  open_syscall FD_MOTD_PATH (vlen MOTD_PATH) O_RDONLY ;>
  check_rax_eq_continue 3 ;>
  store_rax FD_TEMP_FD_A ;>
  read_syscall_fd_mem FD_TEMP_FD_A FD_BUFFER (vlen MOTD_FILE) ;>
  check_rax_eq_continue (vlen MOTD_FILE) ;>
  write_syscall_fd_imm 1 FD_BUFFER (vlen MOTD_FILE) ;>
  check_rax_eq_continue (vlen MOTD_FILE) ;>
  close_syscall_fd_mem FD_TEMP_FD_A ;>
  check_rax_eq_continue 0 ;>

  open_syscall FD_HELLO_PATH (vlen HELLO_PATH) O_RDONLY ;>
  check_rax_eq_continue 3 ;>
  store_rax FD_TEMP_FD_A ;>
  read_syscall_fd_mem FD_TEMP_FD_A USER_TEST_PAGE_BASE 4 ;>
  check_rax_eq_continue EFAULT ;>
  read_syscall_fd_mem FD_TEMP_FD_A FD_BUFFER 1 ;>
  check_rax_eq_continue 1 ;>
  check_byte_mem_eq_continue FD_BUFFER 104 ;>
  close_syscall_fd_mem FD_TEMP_FD_A ;>
  check_rax_eq_continue 0 ;>

  open_syscall FD_HELLO_PATH (vlen HELLO_PATH) O_RDONLY ;>
  check_rax_eq_continue 3 ;>
  store_rax FD_TEMP_FD_A ;>
  open_syscall FD_HELLO_PATH (vlen HELLO_PATH) O_RDONLY ;>
  check_rax_eq_continue 4 ;>
  store_rax FD_TEMP_FD_B ;>
  read_syscall_fd_mem FD_TEMP_FD_A FD_BUFFER 1 ;>
  check_rax_eq_continue 1 ;>
  read_syscall_fd_mem FD_TEMP_FD_B (FD_BUFFER + 1) 1 ;>
  check_rax_eq_continue 1 ;>
  check_byte_mem_eq_continue FD_BUFFER 104 ;>
  check_byte_mem_eq_continue (FD_BUFFER + 1) 104 ;>
  close_syscall_fd_mem FD_TEMP_FD_A ;>
  check_rax_eq_continue 0 ;>
  close_syscall_fd_mem FD_TEMP_FD_B ;>
  check_rax_eq_continue 0 ;>

  open_syscall FD_HELLO_PATH (vlen HELLO_PATH) O_RDONLY ;>
  check_rax_eq_continue 3 ;>
  store_rax FD_TEMP_FD_A ;>
  write_syscall_fd_mem FD_TEMP_FD_A FD_BUFFER 1 ;>
  check_rax_eq_continue EBADF ;>
  close_syscall_fd_mem FD_TEMP_FD_A ;>
  check_rax_eq_continue 0 ;>

  read_syscall_fd_imm 1 FD_BUFFER 1 ;>
  check_rax_eq_continue EBADF ;>

  open_syscall FD_HELLO_PATH (vlen HELLO_PATH) O_RDONLY ;>
  check_rax_eq_continue 3 ;>
  store_rax FD_TEMP_FD_A ;>
  read_syscall_fd_mem FD_TEMP_FD_A FD_CROSS_BUFFER (vlen HELLO_FILE) ;>
  check_rax_eq_continue (vlen HELLO_FILE) ;>
  check_byte_mem_eq_continue FD_CROSS_BUFFER 104 ;>
  check_byte_mem_eq_continue (FD_CROSS_BUFFER + 4) 111 ;>
  close_syscall_fd_mem FD_TEMP_FD_A ;>
  check_rax_eq_continue 0 ;>

  exit_with_code 0.

Definition fd_syscall_suite : exec (list Z) := fd_elf (assemble fd_syscall_suite_code).

Definition fd_first_open_exit_code : emitter :=
  open_syscall FD_HELLO_PATH (vlen HELLO_PATH) O_RDONLY ;>
  check_rax_eq_continue 3 ;>
  exit_with_code 0.

Definition fd_first_open_exit : exec (list Z) := fd_elf (assemble fd_first_open_exit_code).

Definition fd_open_leak_exit_code : emitter :=
  open_syscall FD_HELLO_PATH (vlen HELLO_PATH) O_RDONLY ;>
  check_rax_eq_continue 3 ;>
  exit_with_code 0.

Definition fd_open_leak_exit : exec (list Z) := fd_elf (assemble fd_open_leak_exit_code).

Definition heap_elf (code : list Z) : exec (list Z) :=
  elf USER_CODE_BASE
    [code_segment code;
     data_segment (Z.lor PF_R PF_W) PAGE_SIZE (replicate (Z.to_nat PAGE_SIZE) 0)].

Definition brk_query_invalid_suite_code : emitter :=
  brk_query ;>
  check_rax_nonzero_continue ;>
  store_rax HEAP_SCRATCH_BREAK ;>
  brk_from_rax_delta (-1) ;>
  check_rax_eq_continue EINVAL ;>
  brk_query ;>
  check_rax_eq_mem_continue HEAP_SCRATCH_BREAK ;>
  brk_syscall_imm (USER_TEST_PAGE_BASE + PAGE_SIZE) ;>
  check_rax_eq_continue ENOMEM ;>
  brk_query ;>
  check_rax_eq_mem_continue HEAP_SCRATCH_BREAK ;>
  exit_with_code 0.

Definition brk_query_invalid_suite : exec (list Z) :=
  heap_elf (assemble brk_query_invalid_suite_code).

Definition brk_growth_suite_code : emitter :=
  brk_query ;>
  store_rax HEAP_SCRATCH_BREAK ;>
  brk_from_rax_delta PAGE_SIZE ;>
  check_rax_eq_mem_plus_continue HEAP_SCRATCH_BREAK PAGE_SIZE ;>
  check_byte_ptr_mem_eq_continue HEAP_SCRATCH_BREAK 0 0 ;>
  check_byte_ptr_mem_eq_continue HEAP_SCRATCH_BREAK 128 0 ;>
  check_byte_ptr_mem_eq_continue HEAP_SCRATCH_BREAK (PAGE_SIZE - 1) 0 ;>

  write_byte_ptr_mem HEAP_SCRATCH_BREAK 0 0x5a ;>
  check_byte_ptr_mem_eq_continue HEAP_SCRATCH_BREAK 0 0x5a ;>

  brk_query ;>
  brk_from_rax_delta (2 * PAGE_SIZE) ;>
  check_rax_eq_mem_plus_continue HEAP_SCRATCH_BREAK (3 * PAGE_SIZE) ;>

  write_byte_ptr_mem HEAP_SCRATCH_BREAK (PAGE_SIZE - 1) 0xa1 ;>
  write_byte_ptr_mem HEAP_SCRATCH_BREAK PAGE_SIZE 0xb2 ;>
  write_byte_ptr_mem HEAP_SCRATCH_BREAK (2 * PAGE_SIZE) 0xc3 ;>
  check_byte_ptr_mem_eq_continue HEAP_SCRATCH_BREAK (PAGE_SIZE - 1) 0xa1 ;>
  check_byte_ptr_mem_eq_continue HEAP_SCRATCH_BREAK PAGE_SIZE 0xb2 ;>
  check_byte_ptr_mem_eq_continue HEAP_SCRATCH_BREAK (2 * PAGE_SIZE) 0xc3 ;>

  write_bytes_ptr_mem HEAP_SCRATCH_BREAK 64 HEAP_MESSAGE ;>
  write_syscall_fd_ptr_mem 1 HEAP_SCRATCH_BREAK 64 (vlen HEAP_MESSAGE) ;>
  check_rax_eq_continue (vlen HEAP_MESSAGE) ;>

  brk_query ;>
  brk_from_rax_delta 1 ;>
  check_rax_eq_mem_plus_continue HEAP_SCRATCH_BREAK (3 * PAGE_SIZE + 1) ;>

  exit_with_code 0.

Definition brk_growth_suite : exec (list Z) := heap_elf (assemble brk_growth_suite_code).

Definition brk_shrink_fault_code : emitter :=
  brk_query ;>
  store_rax HEAP_SCRATCH_BREAK ;>
  brk_from_rax_delta (2 * PAGE_SIZE) ;>
  check_rax_eq_mem_plus_continue HEAP_SCRATCH_BREAK (2 * PAGE_SIZE) ;>
  brk_from_mem_delta HEAP_SCRATCH_BREAK PAGE_SIZE ;>
  check_rax_eq_mem_plus_continue HEAP_SCRATCH_BREAK PAGE_SIZE ;>
  load_rbx_from_mem_plus HEAP_SCRATCH_BREAK PAGE_SIZE ;>
  extend_from_slice [0x48; 0x8b; 0x03] ;>
  exit_with_code 99.

Definition brk_shrink_fault : exec (list Z) := heap_elf (assemble brk_shrink_fault_code).

Definition brk_shrink_continue_code : emitter :=
  brk_query ;>
  store_rax HEAP_SCRATCH_BREAK ;>
  brk_from_rax_delta (2 * PAGE_SIZE) ;>
  check_rax_eq_mem_plus_continue HEAP_SCRATCH_BREAK (2 * PAGE_SIZE) ;>
  write_byte_ptr_mem HEAP_SCRATCH_BREAK 0 0x77 ;>
  write_byte_ptr_mem HEAP_SCRATCH_BREAK PAGE_SIZE 0x66 ;>
  brk_from_mem_delta HEAP_SCRATCH_BREAK 1 ;>
  check_rax_eq_mem_plus_continue HEAP_SCRATCH_BREAK 1 ;>
  check_byte_ptr_mem_eq_continue HEAP_SCRATCH_BREAK 0 0x77 ;>
  exit_with_code 0.

Definition brk_shrink_continue : exec (list Z) := heap_elf (assemble brk_shrink_continue_code).

Definition brk_private_writer_code : emitter :=
  store_rdi HEAP_SCRATCH_ARG ;>
  brk_query ;>
  store_rax HEAP_SCRATCH_BREAK ;>
  brk_from_rax_delta PAGE_SIZE ;>
  check_rax_eq_mem_plus_continue HEAP_SCRATCH_BREAK PAGE_SIZE ;>
  mov_rbx_imm64 HEAP_SCRATCH_ARG ;>
  extend_from_slice [0x48; 0x8b; 0x3b] ;>
  load_rbx_from_mem_plus HEAP_SCRATCH_BREAK 0 ;>
  extend_from_slice [0x48; 0x89; 0x3b] ;>
  exit_with_code 0.

Definition brk_private_writer : exec (list Z) := heap_elf (assemble brk_private_writer_code).

Definition brk_busy_counter_code : emitter :=
  brk_query ;>
  store_rax HEAP_SCRATCH_BREAK ;>
  brk_from_rax_delta PAGE_SIZE ;>
  check_rax_eq_mem_plus_continue HEAP_SCRATCH_BREAK PAGE_SIZE ;>
  load_rbx_from_mem_plus HEAP_SCRATCH_BREAK 0 ;>
  extend_from_slice [0x48; 0xff; 0x03] ;>
  extend_from_slice [0xeb; 0xfb].

Definition brk_busy_counter : exec (list Z) := heap_elf (assemble brk_busy_counter_code).

(** [bad_machine[18..20].copy_from_slice(&3_u16.to_le_bytes())] *)
Definition bad_machine : exec (list Z) :=
  exec_bind exit_42 (fun bytes =>
    match copy_at 18 (to_le_bytes 2 3) bytes with
    | Done (_, bytes) => Done bytes
    | Panic msg => Panic msg
    end).

(** The files that [main] writes to [OUT_DIR]. *)
Definition fixtures : list (string * exec (list Z)) :=
  [("exit_42.elf"%string, exit_42);
   ("write_private_data.elf"%string, write_private_data);
   ("write_readonly_segment.elf"%string, write_readonly_segment);
   ("busy_counter.elf"%string, busy_counter);
   ("write_syscall_suite.elf"%string, write_syscall_suite);
   ("write_hello.elf"%string, write_hello);
   ("read_data_exit.elf"%string, read_data_exit);
   ("getpid_ok.elf"%string, getpid_ok);
   ("delayed_exit_child.elf"%string, delayed_exit_child);
   ("immediate_exit_child.elf"%string, immediate_exit_child);
   ("faulting_child.elf"%string, faulting_child);
   ("process_wait_parent_suite.elf"%string, process_wait_parent_suite);
   ("fd_syscall_suite.elf"%string, fd_syscall_suite);
   ("fd_first_open_exit.elf"%string, fd_first_open_exit);
   ("fd_open_leak_exit.elf"%string, fd_open_leak_exit);
   ("brk_query_invalid_suite.elf"%string, brk_query_invalid_suite);
   ("brk_growth_suite.elf"%string, brk_growth_suite);
   ("brk_shrink_fault.elf"%string, brk_shrink_fault);
   ("brk_shrink_continue.elf"%string, brk_shrink_continue);
   ("brk_private_writer.elf"%string, brk_private_writer);
   ("brk_busy_counter.elf"%string, brk_busy_counter);
   ("bad_machine.elf"%string, bad_machine)].
