(* ===== verification/Fixtures.v ===== *)
(** * The images of the build script are valid executables

    [elf] of src/build.rs and [parse_elf] of src/src/elf.rs are inverse: for
    every list of segments that satisfies the loader's constraints, [elf]
    does not panic and the loader parses its result to the same segments. *)

From S2P Require Import Build.
From S2P Require Import Prelude X86 Memory AddressSpace UserMemory Process User Elf.

(** ** Range assignments *)

(** The bytes [snd f] are at offset [fst f] of [b]. *)
Definition holds (b : list Z) (f : Z * list Z) : Prop :=
  0 <= f.1 /\ f.1 + vlen f.2 <= vlen b /\ slice b f.1 (vlen f.2) = f.2.

Definition apart (f g : Z * list Z) : Prop := f.1 + vlen f.2 <= g.1 \/ g.1 + vlen g.2 <= f.1.

Lemma slice_ext {A} (l k : list A) i n :
  0 <= i -> 0 <= n -> i + n <= vlen l -> i + n <= vlen k ->
  (forall j, i <= j < i + n -> vget l j = vget k j) -> slice l i n = slice k i n.
Proof.
  intros Hi Hn Hl Hk H. apply vget_eq; rewrite !vlen_slice by lia; [done|]. intros j Hj.
  rewrite !vget_slice by lia. case_decide; [apply H; lia|done].
Qed.

Lemma slice_all {A} (l : list A) : slice l 0 (vlen l) = l.
Proof. unfold slice, vlen. rewrite Nat2Z.id. cbn. by rewrite drop_0, firstn_all. Qed.

(** The buffer after [copy_at]. *)
Lemma copy_at_run start src b :
  0 <= start -> start + vlen src <= vlen b ->
  exists b', copy_at start src b = Done (tt, b') /\ vlen b' = vlen b /\
    (forall j, start <= j < start + vlen src -> vget b' j = vget src (j - start)) /\
    (forall j, 0 <= j < start \/ start + vlen src <= j -> vget b' j = vget b j).
Proof.
  intros Hs He. unfold copy_at.
  rewrite (proj2 (Z.leb_le _ _) Hs), (proj2 (Z.leb_le _ _) He). cbn [andb].
  eexists. split; [done|]. pose proof (vlen_nonneg src).
  pose proof (vlen_take b start ltac:(lia)) as Ht.
  split; [|split].
  - unfold vlen in *. rewrite !length_app, length_take, length_drop. lia.
  - intros j Hj. rewrite vget_app_r, Ht by lia. rewrite vget_app_l by lia. done.
  - intros j [Hj|Hj].
    + rewrite vget_app_l by lia. apply vget_take. lia.
    + rewrite vget_app_r, Ht by lia. rewrite vget_app_r, vget_drop by lia. f_equal. lia.
Qed.

Lemma holds_preserved start src b b' f :
  vlen b' = vlen b ->
  (forall j, 0 <= j < start \/ start + vlen src <= j -> vget b' j = vget b j) ->
  apart (start, src) f -> holds b f -> holds b' f.
Proof.
  intros Hl Ho Ha (H0 & H1 & H2). split; [done|]. split; [lia|]. rewrite <- H2 at 2.
  pose proof (vlen_nonneg f.2). apply slice_ext; try lia. intros j Hj. apply Ho.
  destruct Ha as [Ha|Ha]; cbn in Ha; lia.
Qed.

(** An assignment establishes its own bytes and keeps those of [Fs]. *)
Lemma wp_copy_at start src Fs (Q : unit -> list Z -> Prop) b :
  0 <= start -> start + vlen src <= vlen b ->
  Forall (holds b) Fs -> Forall (apart (start, src)) Fs ->
  (forall b', vlen b' = vlen b -> Forall (holds b') ((start, src) :: Fs) -> Q tt b') ->
  wp (copy_at start src) Q b.
Proof.
  intros Hs He HF HA HQ. destruct (copy_at_run start src b Hs He) as (b' & Hrun & Hl & Hin & Hout).
  eapply wp_intro; [done|]. apply HQ; [done|]. constructor.
  - split; [done|]. cbn [fst snd]. split; [lia|]. rewrite <- (slice_all src) at 2.
    pose proof (vlen_nonneg src).
    apply vget_eq; rewrite !vlen_slice by lia; [done|]. intros j Hj.
    rewrite !vget_slice by lia. rewrite !decide_True by lia. rewrite Hin by lia.
    by replace (start + j - start) with (0 + j) by lia.
  - rewrite Forall_forall in *. intros f Hf. eapply holds_preserved; eauto.
Qed.

(** ** The layout of the image *)

(** Where the loop places each segment, and the resulting file length. *)
Fixpoint offsets_of (segs : list Segment) (fl : Z) : list Z :=
  match segs with
  | [] => []
  | s :: rest =>
      if is_empty (data s) then 0 :: offsets_of rest fl
      else let o := Build.align_up fl 4096 in o :: offsets_of rest (o + vlen (data s))
  end.

Fixpoint length_of (segs : list Segment) (fl : Z) : Z :=
  match segs with
  | [] => fl
  | s :: rest =>
      if is_empty (data s) then length_of rest fl
      else length_of rest (Build.align_up fl 4096 + vlen (data s))
  end.

Lemma place_segments_run segs pre index fl :
  index = vlen pre ->
  place_segments segs index (pre ++ replicate (length segs) 0) fl =
    (pre ++ offsets_of segs fl, length_of segs fl).
Proof.
  revert pre index fl. induction segs as [|s segs IH]; intros pre index fl Hi; [done|].
  cbn [place_segments offsets_of length_of length replicate].
  assert (forall x, vset (pre ++ 0 :: replicate (length segs) 0) index x =
                    (pre ++ [x]) ++ replicate (length segs) 0) as Hset.
  { intros x. rewrite <- app_assoc. unfold vset. rewrite (proj2 (in_range_true _ _)).
    - subst index. unfold vlen. rewrite Nat2Z.id, insert_app_r_alt, Nat.sub_diag by lia. done.
    - rewrite vlen_app. unfold vlen in *. cbn. lia. }
  destruct (is_empty (data s)); cbn [negb].
  - change (pre ++ 0 :: replicate (length segs) 0) with (pre ++ [0] ++ replicate (length segs) 0).
    rewrite app_assoc, IH; [by rewrite <- app_assoc|]. rewrite vlen_app. subst. done.
  - rewrite Hset, IH; [by rewrite <- app_assoc|]. rewrite vlen_app. subst. done.
Qed.

Lemma build_align_up v :
  0 <= v < 2 ^ 64 - 4096 ->
  v <= Build.align_up v 4096 < v + 4096 /\ Build.align_up v 4096 mod 4096 = 0.
Proof.
  intros Hv. destruct (align_up_Some v (Build.align_up v 4096)) as (H1 & H2 & _); [unfold is_u64; lia| |done].
  unfold align_up, checked_add, Build.align_up. rewrite (proj2 (Z.ltb_lt _ _)) by lia.
  by replace (v + (4096 - 1)) with (v + 4096 - 1) by lia.
Qed.

(** The size of an image is below the limit of a [u64]. *)
Fixpoint size_bound (segs : list Segment) : Z :=
  match segs with [] => 0 | s :: rest => 4096 + vlen (data s) + size_bound rest end.

Lemma size_bound_nonneg segs : 0 <= size_bound segs.
Proof. induction segs as [|s segs IH]; cbn; [lia|]. pose proof (vlen_nonneg (data s)). lia. Qed.

Lemma length_of_bounds segs fl :
  0 <= fl -> fl + size_bound segs < 2 ^ 63 -> fl <= length_of segs fl < 2 ^ 63.
Proof.
  revert fl. induction segs as [|s segs IH]; intros fl H0 H; cbn in *; [lia|].
  pose proof (vlen_nonneg (data s)). pose proof (size_bound_nonneg segs).
  destruct (is_empty (data s)).
  - apply IH; lia.
  - destruct (build_align_up fl) as [Hu _]; [lia|].
    specialize (IH (Build.align_up fl 4096 + vlen (data s))). lia.
Qed.

(** ** The contents of the image *)

Definition header_facts (entry : Z) (segs : list Segment) : list (Z * list Z) :=
  [(56, to_le_bytes 2 (vlen segs)); (54, to_le_bytes 2 56); (52, to_le_bytes 2 64);
   (32, to_le_bytes 8 64); (24, to_le_bytes 8 entry); (20, to_le_bytes 4 1);
   (18, to_le_bytes 2 0x3e); (16, to_le_bytes 2 2); (6, [1]); (5, [1]); (4, [2]);
   (0, [0x7f; 0x45; 0x4c; 0x46])].

(** The program header of a segment with its data at [offset]. *)
Definition ph_facts (s : Segment) (ph offset : Z) : list (Z * list Z) :=
  [(ph + 48, to_le_bytes 8 4096); (ph + 40, to_le_bytes 8 (Build.memsz s));
   (ph + 32, to_le_bytes 8 (vlen (data s))); (ph + 24, to_le_bytes 8 (Build.vaddr s));
   (ph + 16, to_le_bytes 8 (Build.vaddr s)); (ph + 8, to_le_bytes 8 offset);
   (ph + 4, to_le_bytes 4 (Build.flags s)); (ph, to_le_bytes 4 1)].

Definition data_facts (s : Segment) (offset : Z) : list (Z * list Z) :=
  if is_empty (data s) then [] else [(offset, data s)].

Fixpoint segment_facts (segs : list Segment) (index : Z) (offsets : list Z) : list (Z * list Z) :=
  match segs, offsets with
  | s :: segs, o :: offsets =>
      segment_facts segs (index + 1) offsets ++ data_facts s o ++ ph_facts s (64 + index * 56) o
  | _, _ => []
  end.

Lemma vlen_le n z : vlen (to_le_bytes n z) = Z.of_nat n.
Proof. unfold vlen. by rewrite length_to_le_bytes. Qed.

(** One assignment: [HF] says which bytes the buffer holds, [HN] how long it is. *)
Ltac apart_facts :=
  repeat (apply Forall_cons; split); [..|done];
  unfold apart; cbn [fst snd]; rewrite ?vlen_le; unfold vlen; cbn [length]; lia.

Ltac put HN HF :=
  eapply wp_copy_at;
    [lia
    |rewrite ?vlen_le; unfold vlen in *; cbn [length] in *; lia
    |exact HF
    |
    |let b := fresh "b" in let Hl := fresh "Hl" in
     clear HF; intros b Hl HF; rewrite HN in Hl; clear HN; rename Hl into HN].

Lemma write_file_header_run entry segs b N :
  64 <= N -> vlen b = N ->
  wp (write_file_header entry segs)
     (fun _ b' => vlen b' = N /\ Forall (holds b') (header_facts entry segs)) b.
Proof.
  intros H64 HN. unfold write_file_header, set_at, put_u16, put_u32, put_u64.
  assert (Forall (holds b) []) as HF by constructor.
  do 11 (apply wp_bind; put HN HF; [apart_facts|]).
  put HN HF; [apart_facts|]. split; [done|exact HF].
Qed.

(** Every fact lies below the header of segment [index], or in the data
    placed so far. *)
Definition placed (index H fl : Z) (f : Z * list Z) : Prop :=
  f.1 + vlen f.2 <= 64 + index * 56 \/ (H <= f.1 /\ f.1 + vlen f.2 <= fl).

Lemma write_segments_run segs pre offsets index H fl N Fs b :
  offsets = pre ++ offsets_of segs fl -> vlen pre = index ->
  64 + (index + vlen segs) * 56 <= H -> H <= fl -> fl + size_bound segs < 2 ^ 63 ->
  length_of segs fl <= N -> vlen b = N ->
  Forall (holds b) Fs -> Forall (placed index H fl) Fs ->
  wp (write_segments segs index offsets)
     (fun _ b' => vlen b' = N /\
        Forall (holds b') (segment_facts segs index (offsets_of segs fl) ++ Fs)) b.
Proof.
  revert pre index fl Fs b. induction segs as [|s segs IH];
    intros pre index fl Fs b Ho Hd HH Hfl Hsz HN Hb HF HP; cbn [write_segments]; [done|].
  pose proof (vlen_nonneg pre) as Hd0. pose proof (vlen_nonneg segs) as Hs0.
  pose proof (vlen_nonneg (data s)) as Hv0. pose proof (size_bound_nonneg segs) as Hz0.
  assert (vlen (s :: segs) = 1 + vlen segs) as Hcons by (unfold vlen; cbn; lia). rewrite Hcons in HH.
  set (o := if is_empty (data s) then 0 else Build.align_up fl 4096).
  set (fl' := if is_empty (data s) then fl else Build.align_up fl 4096 + vlen (data s)).
  assert (offsets_of (s :: segs) fl = o :: offsets_of segs fl') as Hof.
  { subst o fl'. cbn. by destruct (is_empty (data s)). }
  assert (length_of (s :: segs) fl = length_of segs fl') as Hlen.
  { subst fl'. cbn. by destruct (is_empty (data s)). }
  destruct (build_align_up fl) as [Hup _]; [cbn in Hsz; lia|].
  assert (fl <= fl' /\ fl' + size_bound segs < 2 ^ 63) as [Hge Hsz'].
  { subst fl'. cbn in Hsz. destruct (is_empty (data s)); lia. }
  pose proof (length_of_bounds segs fl' ltac:(lia) Hsz') as Hfin.
  rewrite Hof in *. rewrite Hlen in *.
  assert (vget offsets index = Some o) as Hget.
  { rewrite Ho, vget_app_r, Hd, Z.sub_diag by lia. apply vget_cons_0. }
  wp_step. eapply wp_expect; [done|]. unfold put_u32, put_u64.
  change (header_size + index * program_header_size) with (64 + index * 56).
  set (ph := 64 + index * 56) in *.
  assert (forall src k, ph <= k -> k + vlen src <= ph + 56 -> Forall (apart (k, src)) Fs) as Hap.
  { intros src k Hi He. eapply Forall_impl; [exact HP|].
    intros f [Hf|Hf]; unfold apart; cbn; pose proof (vlen_nonneg src); lia. }
  do 8 (apply wp_bind; put Hb HF;
    [repeat (apply Forall_cons; split); [..|apply Hap; rewrite ?vlen_le; lia];
     unfold apart; cbn [fst snd]; rewrite ?vlen_le; lia|]).
  match type of HF with Forall (holds ?b) _ =>
    change (Forall (holds b) (ph_facts s ph o ++ Fs)) in HF end.
  assert (Forall (placed (index + 1) H fl) (ph_facts s ph o ++ Fs)) as HP'.
  { apply Forall_app. split.
    - unfold ph_facts. rewrite !Forall_cons, Forall_nil.
      split_and!; try done; left; cbn [fst snd]; rewrite ?vlen_le; lia.
    - eapply Forall_impl; [exact HP|]. intros f [Hf|Hf]; [left|right]; lia. }
  apply wp_bind. apply (wp_mono _ (fun _ b' => vlen b' = N /\
    Forall (holds b') (data_facts s o ++ ph_facts s ph o ++ Fs))).
  - unfold data_facts. destruct (is_empty (data s)); cbn [negb]; [done|]. subst o fl'.
    put Hb HF; [|done]. eapply Forall_impl; [exact HP'|].
    intros f [Hf|Hf]; unfold apart; cbn [fst snd]; lia.
  - intros _ b' [Hb' HF']. eapply wp_mono.
    + apply (IH (pre ++ [o]) (index + 1) fl' (data_facts s o ++ ph_facts s ph o ++ Fs) b'); try done; try lia.
      * rewrite <- app_assoc. done.
      * rewrite vlen_app, Hd. done.
      * apply Forall_app. split.
        -- unfold data_facts. subst o fl'. destruct (is_empty (data s)); [by constructor|].
           apply Forall_singleton. right. cbn [fst snd]. lia.
        -- eapply Forall_impl; [exact HP'|]. intros f [Hf|Hf]; [left|right]; lia.
    + intros _ b'' [Hl'' HF'']. split; [done|]. cbn [segment_facts]. fold ph.
      by rewrite <- !app_assoc.
Qed.

(** ** Parsing the image *)

(** What the loader makes of a segment. *)
Definition load_segment (s : Segment) : LoadSegment :=
  mkLoadSegment (Build.vaddr s) (vlen (data s)) (Build.memsz s) (Build.flags s) (data s)
    (Build.vaddr s) (Build.align_up (Build.vaddr s + Build.memsz s) 4096).

(** The loader's constraints on a segment. *)
Record loadable (s : Segment) : Prop := mkLoadable {
  ld_aligned : Build.vaddr s mod 4096 = 0;
  ld_range : USER_ELF_LOAD_START <= Build.vaddr s /\
             Build.vaddr s + Build.memsz s <= USER_ELF_LOAD_END;
  ld_size : 0 < Build.memsz s /\ vlen (data s) <= Build.memsz s;
  ld_flags : 0 <= Build.flags s < 8
}.

Lemma read_le_holds n bytes off v :
  holds bytes (off, to_le_bytes n v) -> read_le n bytes off = Ok (v mod 256 ^ Z.of_nat n).
Proof.
  intros (H0 & H1 & H2). cbn [fst snd] in *. rewrite vlen_le in *. unfold read_le.
  rewrite (proj2 (Z.leb_le _ _) H0), (proj2 (Z.leb_le _ _) H1). cbn [andb].
  by rewrite H2, from_to_le_bytes.
Qed.

Lemma user_range : USER_ELF_LOAD_START = 2 ^ 39 + 4194304 /\ USER_ELF_LOAD_END = 2 ^ 39 + 7340032.
Proof. done. Qed.

Lemma load_end s :
  loadable s ->
  align_up (Build.vaddr s + Build.memsz s) PAGE_SIZE = Some (Build.align_up (Build.vaddr s + Build.memsz s) 4096) /\
  Build.vaddr s < Build.align_up (Build.vaddr s + Build.memsz s) 4096 <= USER_ELF_LOAD_END.
Proof.
  intros [Ha Hr Hs _]. destruct user_range as [E1 E2].
  destruct (build_align_up (Build.vaddr s + Build.memsz s)) as [H1 H2]; [lia|]. split.
  - unfold align_up, checked_add, Build.align_up, PAGE_SIZE. rewrite (proj2 (Z.ltb_lt _ _)) by lia.
    by replace (Build.vaddr s + Build.memsz s + (4096 - 1)) with
      (Build.vaddr s + Build.memsz s + 4096 - 1) by lia.
  - split; [lia|]. pose proof (Z.div_mod (Build.align_up (Build.vaddr s + Build.memsz s) 4096) 4096).
    rewrite E2 in *. lia.
Qed.

Lemma flags_mask f : 0 <= f < 8 -> Z.ldiff f (Z.lor (Z.lor PF_R PF_W) PF_X) = 0.
Proof.
  intros Hf. assert (f = 0 \/ f = 1 \/ f = 2 \/ f = 3 \/ f = 4 \/ f = 5 \/ f = 6 \/ f = 7) by lia.
  by repeat destruct H as [->|H]; [..|subst f].
Qed.

Lemma parse_program_header_run s ph o bytes :
  loadable s -> vlen bytes < 2 ^ 63 -> 0 <= o < 2 ^ 63 -> o mod 4096 = 0 ->
  (is_empty (data s) = true -> o = 0) ->
  Forall (holds bytes) (data_facts s o ++ ph_facts s ph o) ->
  parse_program_header bytes ph = Ok (load_segment s).
Proof.
  intros L Hb Ho Hm Hz [HD HF]%Forall_app. pose proof L as [Ha Hr Hs Hf].
  destruct user_range as [E1 E2]. destruct (load_end s L) as [Hup Hend].
  pose proof (vlen_nonneg (data s)) as Hv. unfold ph_facts in HF.
  rewrite !Forall_cons in HF. destruct HF as (F1 & F2 & F3 & _ & F5 & F6 & F7 & F8 & _).
  unfold parse_program_header, read_u32, read_u64.
  rewrite (read_le_holds _ _ _ _ F8), (read_le_holds _ _ _ _ F7), (read_le_holds _ _ _ _ F6),
    (read_le_holds _ _ _ _ F5), (read_le_holds _ _ _ _ F3), (read_le_holds _ _ _ _ F2),
    (read_le_holds _ _ _ _ F1).
  change (256 ^ Z.of_nat 8) with (2 ^ 64). change (256 ^ Z.of_nat 4) with (2 ^ 32).
  rewrite !(Z.mod_small _ (2 ^ 64)), !(Z.mod_small _ (2 ^ 32)) by lia. cbn [result_bind].
  change (negb (1 =? PT_LOAD)) with false. cbn [reject_if result_bind].
  rewrite flags_mask by done. change (0 =? 0) with true. cbn [negb reject_if result_bind].
  rewrite (proj2 (Z.ltb_ge _ _)) by lia. cbn [reject_if result_bind].
  rewrite (proj2 (Z.eqb_neq _ _)) by lia. cbn [reject_if result_bind].
  change (4096 =? PAGE_SIZE) with true. unfold PAGE_SIZE. rewrite Ha, Hm. change (0 =? 0) with true. cbn [negb orb reject_if result_bind].
  assert (o + vlen (data s) <= vlen bytes /\ slice bytes o (vlen (data s)) = data s) as [Hin Hsl].
  { unfold data_facts in HD. destruct (data s) as [|x l] eqn:E; cbn [is_empty] in *.
    - rewrite Hz by done. pose proof (vlen_nonneg bytes). done.
    - apply Forall_singleton in HD as (_ & H1 & H2). done. }
  assert (forall a b, a + b < 2 ^ 64 -> checked_add a b = Some (a + b)) as Hadd
    by (intros; by apply checked_add_Some).
  unfold checked_usize_range_end. rewrite !Hadd by lia. cbn [ok_or result_bind].
  rewrite Z.gtb_ltb, (proj2 (Z.ltb_ge _ _)) by lia. cbn [reject_if result_bind].
  unfold PAGE_SIZE in Hup. rewrite Hup. cbn [ok_or result_bind].
  rewrite align_down_spec by (unfold is_u64; lia).
  rewrite Ha, Z.sub_0_r, Z.gtb_ltb, Z.geb_leb.
  rewrite !(proj2 (Z.ltb_ge _ _)), (proj2 (Z.leb_gt _ _)) by lia. cbn [orb reject_if result_bind].
  replace (o + vlen (data s) - o) with (vlen (data s)) by lia. by rewrite Hsl.
Qed.

Lemma offsets_of_ok segs fl :
  0 <= fl -> fl + size_bound segs < 2 ^ 63 ->
  Forall2 (fun s o => 0 <= o < 2 ^ 63 /\ o mod 4096 = 0 /\ (is_empty (data s) = true -> o = 0))
    segs (offsets_of segs fl).
Proof.
  revert fl. induction segs as [|s segs IH]; intros fl H0 H; cbn in *; [constructor|].
  pose proof (vlen_nonneg (data s)). pose proof (size_bound_nonneg segs).
  destruct (is_empty (data s)) eqn:E; constructor; rewrite ?E.
  - done.
  - apply IH; lia.
  - destruct (build_align_up fl) as [K1 K2]; [lia|]. split; [lia|done].
  - apply IH; destruct (build_align_up fl); lia.
Qed.

Lemma parse_headers_run segs index offsets bytes segs0 :
  vlen bytes < 2 ^ 63 -> Forall loadable segs ->
  Forall2 (fun s o => 0 <= o < 2 ^ 63 /\ o mod 4096 = 0 /\ (is_empty (data s) = true -> o = 0))
    segs offsets ->
  Forall (holds bytes) (segment_facts segs index offsets) ->
  ForallOrdPairs segments_disjoint (segs0 ++ map load_segment segs) ->
  parse_headers bytes 64 index (length segs) segs0 = Ok (segs0 ++ map load_segment segs).
Proof.
  intros Hb HL HO. revert index segs0. induction HO as [|s o segs offsets Ho _ IH];
    intros index segs0 HF HD; cbn [parse_headers length map]; [by rewrite app_nil_r|].
  apply Forall_cons in HL as [L HL]. cbn [segment_facts] in HF.
  apply Forall_app in HF as [HF1 HF2]. destruct Ho as (H1 & H2 & H3).
  unfold PROGRAM_HEADER_SIZE. rewrite (parse_program_header_run s (64 + index * 56) o) by done.
  cbn [result_bind]. rewrite (proj2 (check_segment_overlap_Ok _ _)).
  - cbn [result_bind]. cbn [map] in HD. rewrite IH; [by rewrite <- app_assoc|done|done|].
    by rewrite <- app_assoc.
  - clear -HD. cbn [map] in HD. induction segs0 as [|e segs0 IH]; [constructor|].
    cbn in HD. inversion HD as [|? ? He Hr]; subst. constructor; [|by apply IH].
    apply Forall_app in He as [_ He]. by apply Forall_cons in He as [He _].
Qed.

(** ** The round trip *)

(** Images the loader accepts. *)
Record image_ok (entry : Z) (segs : list Segment) : Prop := mkImageOk {
  im_count : 0 < vlen segs < 2 ^ 16;
  im_size : size_bound segs < 2 ^ 62;
  im_loadable : Forall loadable segs;
  im_disjoint : ForallOrdPairs segments_disjoint (map load_segment segs);
  im_entry : existsb (contains_entry entry) (map load_segment segs) = true
}.

Lemma byte_at_holds bytes off b : holds bytes (off, [b]) -> byte_at bytes off = b.
Proof.
  intros (H0 & H1 & H2). cbn [fst snd] in *. change (vlen [b]) with 1 in *.
  unfold byte_at. rewrite <- (Z.add_0_r off).
  pose proof (vget_slice bytes off 1 0 H0 ltac:(lia) H1) as E. rewrite H2, decide_True in E by lia.
  rewrite <- E. done.
Qed.

Lemma parse_elf_run entry segs offsets bytes :
  vlen bytes < 2 ^ 63 -> 64 + 56 * vlen segs <= vlen bytes -> image_ok entry segs ->
  Forall (holds bytes) (header_facts entry segs) ->
  Forall (holds bytes) (segment_facts segs 0 offsets) ->
  Forall2 (fun s o => 0 <= o < 2 ^ 63 /\ o mod 4096 = 0 /\ (is_empty (data s) = true -> o = 0))
    segs offsets ->
  parse_elf bytes = Ok (mkParsedElf entry (map load_segment segs)).
Proof.
  intros Hb Hlen [Hn Hsz HL HD He] HF HS HO. unfold header_facts in HF. rewrite !Forall_cons in HF.
  destruct HF as (F1 & F2 & F3 & F4 & F5 & F6 & F7 & F8 & F9 & F10 & F11 & F12 & _).
  destruct user_range as [E1 E2].
  assert (0 <= entry < 2 ^ 64) as Hent.
  { apply existsb_exists in He as (l & Hl & Hc). apply in_map_iff in Hl as (s & <- & Hs).
    rewrite <- list_elem_of_In in Hs. destruct (proj1 (Forall_forall _ _) HL s Hs) as [_ Hr _ _].
    unfold contains_entry in Hc. cbn [Elf.vaddr Elf.memsz load_segment] in Hc.
    rewrite Z.geb_leb in Hc. bool_to_prop. lia. }
  unfold parse_elf, read_u16, read_u32, read_u64, ELF_HEADER_SIZE.
  rewrite !(proj2 (Z.ltb_ge _ _)) by lia. cbn [reject_if result_bind].
  destruct F12 as (_ & _ & F12). change (slice bytes 0 4 = [0x7f; 0x45; 0x4c; 0x46]) in F12.
  rewrite F12. change (eq_bytes _ ELF_MAGIC) with true. cbn [negb reject_if result_bind].
  unfold EI_CLASS, EI_DATA, EI_VERSION.
  rewrite (byte_at_holds _ _ _ F11), (byte_at_holds _ _ _ F10), (byte_at_holds _ _ _ F9).
  cbn [reject_if result_bind].
  rewrite (read_le_holds _ _ _ _ F6), (read_le_holds _ _ _ _ F8), (read_le_holds _ _ _ _ F7),
    (read_le_holds _ _ _ _ F3), (read_le_holds _ _ _ _ F2), (read_le_holds _ _ _ _ F5),
    (read_le_holds _ _ _ _ F4), (read_le_holds _ _ _ _ F1).
  rewrite (Z.mod_small entry), (Z.mod_small (vlen segs)) by
    (change (256 ^ Z.of_nat 8) with (2 ^ 64); change (256 ^ Z.of_nat 2) with (2 ^ 16); lia).
  cbn [result_bind]. repeat match goal with |- context [?a =? ?b] =>
    lazymatch eval vm_compute in (a =? b) with true => change (a =? b) with true end end.
  change (64 mod 256 ^ Z.of_nat 8) with 64. unfold PROGRAM_HEADER_SIZE.
  cbn [negb reject_if result_bind].
  rewrite (proj2 (Z.eqb_neq _ _)) by lia. cbn [reject_if result_bind].
  unfold checked_mul, checked_usize_range_end, checked_add.
  do 2 (rewrite (proj2 (Z.ltb_lt _ _)) by lia; cbn [ok_or result_bind]).
  rewrite Z.gtb_ltb, (proj2 (Z.ltb_ge _ _)) by lia. cbn [reject_if result_bind].
  replace (Z.to_nat (vlen segs)) with (length segs) by (unfold vlen; lia).
  rewrite (parse_headers_run segs 0 offsets bytes []) by done. cbn [app result_bind].
  rewrite He. destruct segs as [|s segs]; [done|]. done.
Qed.

(** [elf] does not panic; the headers and the data are in its result. *)
Lemma elf_contents entry segs :
  image_ok entry segs ->
  exists bytes offsets, elf entry segs = Done bytes /\
    64 + 56 * vlen segs <= vlen bytes < 2 ^ 63 /\
    Forall (holds bytes) (header_facts entry segs) /\
    Forall (holds bytes) (segment_facts segs 0 offsets) /\
    Forall2 (fun s o => 0 <= o < 2 ^ 63 /\ o mod 4096 = 0 /\ (is_empty (data s) = true -> o = 0))
      segs offsets.
Proof.
  intros Him. pose proof Him as [Hn Hsz _ _ _]. unfold elf.
  set (H := Build.align_up (header_size + program_header_size * vlen segs) Build.PAGE_SIZE).
  assert (64 + 56 * vlen segs <= H < 64 + 56 * vlen segs + 4096) as HH.
  { apply (build_align_up (64 + 56 * vlen segs)). lia. }
  pose proof (place_segments_run segs [] 0 H eq_refl) as E. cbn [app] in E. rewrite E. clear E.
  pose proof (length_of_bounds segs H ltac:(lia) ltac:(lia)) as HN. set (N := length_of segs H) in *.
  unfold filled. set (b0 := replicate (Z.to_nat N) 0).
  assert (vlen b0 = N) as Hb0 by (unfold vlen, b0; rewrite length_replicate; lia).
  assert (wp (write_file_header entry segs ;;; write_segments segs 0 (offsets_of segs H))
    (fun _ b => vlen b = N /\
       Forall (holds b) (segment_facts segs 0 (offsets_of segs H) ++ header_facts entry segs)) b0) as Hwp.
  { apply wp_bind. eapply wp_mono; [by apply (write_file_header_run entry segs b0 N); [lia|]|].
    intros _ b [Hb HF]. apply (write_segments_run segs [] _ 0 H H N); try done; try lia.
    unfold header_facts. rewrite !Forall_cons, Forall_nil.
    split_and!; try done; left; cbn [fst snd]; rewrite ?vlen_le; unfold vlen; cbn; lia. }
  apply wp_done in Hwp as ([] & b & -> & Hb & [HS HF]%Forall_app).
  exists b, (offsets_of segs H). split; [done|]. split; [lia|]. split; [done|]. split; [done|].
  apply offsets_of_ok; lia.
Qed.

(** The script's [elf] and the loader's [parse_elf] are inverse. *)
Lemma elf_parse entry segs :
  image_ok entry segs ->
  exists bytes, elf entry segs = Done bytes /\
    parse_elf bytes = Ok (mkParsedElf entry (map load_segment segs)).
Proof.
  intros Him. destruct (elf_contents entry segs Him) as (bytes & offsets & E & Hl & HF & HS & HO).
  exists bytes. split; [done|]. apply (parse_elf_run entry segs offsets); try done; lia.
Qed.

(** An image for another machine is recognised by its [e_machine] field. *)
Lemma parse_elf_machine bytes machine :
  64 <= vlen bytes -> 0 <= machine < 2 ^ 16 -> machine <> EM_X86_64 ->
  holds bytes (0, ELF_MAGIC) -> holds bytes (4, [2]) -> holds bytes (5, [1]) -> holds bytes (6, [1]) ->
  holds bytes (16, to_le_bytes 2 2) -> holds bytes (20, to_le_bytes 4 1) ->
  holds bytes (18, to_le_bytes 2 machine) -> parse_elf bytes = Err UnsupportedMachine.
Proof.
  intros Hl Hm Hne F0 F4 F5 F6 F16 F20 F18.
  unfold parse_elf, read_u16, read_u32, read_u64, ELF_HEADER_SIZE.
  rewrite !(proj2 (Z.ltb_ge _ _)) by lia. cbn [reject_if result_bind].
  destruct F0 as (_ & _ & F0). change (slice bytes 0 4 = ELF_MAGIC) in F0.
  rewrite F0. change (eq_bytes _ ELF_MAGIC) with true. cbn [negb reject_if result_bind].
  unfold EI_CLASS, EI_DATA, EI_VERSION.
  rewrite (byte_at_holds _ _ _ F4), (byte_at_holds _ _ _ F5), (byte_at_holds _ _ _ F6).
  rewrite (read_le_holds _ _ _ _ F20), (read_le_holds _ _ _ _ F16), (read_le_holds _ _ _ _ F18).
  cbn [result_bind]. repeat match goal with |- context [?a =? ?b] =>
    lazymatch eval vm_compute in (a =? b) with true => change (a =? b) with true end end.
  cbn [negb reject_if result_bind]. rewrite Z.mod_small by done.
  by rewrite (proj2 (Z.eqb_neq _ _) Hne).
Qed.

(** ** The fixtures *)

Lemma bases : Build.USER_CODE_BASE = 2 ^ 39 + 4194304 /\ Build.USER_DATA_BASE = 2 ^ 39 + 6291456.
Proof. done. Qed.

(** Up to the data segment there is room for 2 MiB of code. *)
Definition code_fits (code : list Z) : Prop := 0 < vlen code <= 0x200000.

Lemma code_loadable code : code_fits code -> loadable (code_segment code).
Proof.
  unfold code_fits. intros Hc. destruct user_range as [E1 E2]. destruct bases as [B1 _].
  constructor; cbn [Build.vaddr Build.memsz Build.flags data code_segment]; [done|lia|lia|done].
Qed.

Lemma data_loadable f m d :
  0 <= f < 8 -> 0 < m <= 0x100000 -> vlen d <= m -> loadable (data_segment f m d).
Proof.
  intros Hf Hm Hd. destruct user_range as [E1 E2]. destruct bases as [_ B2].
  constructor; cbn [Build.vaddr Build.memsz Build.flags data data_segment]; [done|lia|lia|done].
Qed.

Lemma code_contains_entry code rest :
  code_fits code ->
  existsb (contains_entry Build.USER_CODE_BASE) (load_segment (code_segment code) :: rest) = true.
Proof.
  unfold code_fits. intros Hc. cbn [existsb]. apply orb_true_intro. left. unfold contains_entry.
  cbn [load_segment seg_flags Elf.vaddr Elf.memsz Build.vaddr Build.memsz Build.flags code_segment].
  rewrite Z.geb_leb, Z.leb_refl, (proj2 (Z.ltb_lt _ _)) by lia. done.
Qed.

Lemma code_image_ok code :
  code_fits code -> image_ok Build.USER_CODE_BASE [code_segment code].
Proof.
  intros Hc. pose proof (code_loadable code Hc). pose proof Hc as Hc'. unfold code_fits in Hc'.
  constructor; [done|cbn -[Z.pow]; lia|by apply Forall_singleton|repeat constructor|].
  by apply code_contains_entry.
Qed.

Lemma code_data_image_ok code f m d :
  code_fits code -> 0 <= f < 8 -> 0 < m <= 0x100000 -> vlen d <= m ->
  image_ok Build.USER_CODE_BASE [code_segment code; data_segment f m d].
Proof.
  intros Hc Hf Hm Hd. pose proof (code_loadable code Hc) as L1.
  pose proof (data_loadable f m d Hf Hm Hd). pose proof Hc as Hc'. unfold code_fits in Hc'.
  constructor; [done|cbn -[Z.pow]; lia| | |by apply code_contains_entry].
  { apply Forall_cons. split; [done|by apply Forall_singleton]. }
  cbn [map]. constructor; [|repeat constructor]. apply Forall_singleton. left. destruct bases as [B1 B2].
  cbn [load_segment map_start map_end Build.vaddr Build.memsz code_segment data_segment].
  destruct (build_align_up (Build.USER_CODE_BASE + vlen code)) as [H1 H2]; [lia|].
  pose proof (Z.div_mod (Build.align_up (Build.USER_CODE_BASE + vlen code) 4096) 4096). lia.
Qed.

(** The image is written and the loader accepts it, with the script's entry. *)
Definition accepted (image : exec (list Z)) : Prop :=
  exists bytes elf, image = Done bytes /\ parse_elf bytes = Ok elf /\ entry elf = USER_CODE_BASE.

Lemma elf_accepted_image segs : image_ok Build.USER_CODE_BASE segs -> accepted (elf Build.USER_CODE_BASE segs).
Proof.
  intros (bytes & E & P)%elf_parse. eexists _, _. split; [done|]. split; [done|]. done.
Qed.

Lemma accepted_code code : code_fits code -> accepted (elf Build.USER_CODE_BASE [code_segment code]).
Proof. intros. by apply elf_accepted_image, code_image_ok. Qed.

Lemma accepted_data code f m d :
  code_fits code -> 0 <= f < 8 -> 0 < m <= 0x100000 -> vlen d <= m ->
  accepted (elf Build.USER_CODE_BASE [code_segment code; data_segment f m d]).
Proof. intros. by apply elf_accepted_image, code_data_image_ok. Qed.

Lemma accepted_heap code : code_fits code -> accepted (heap_elf code).
Proof. intros Hc. apply accepted_data; [done|done|done|]. unfold vlen. by rewrite length_replicate. Qed.

Lemma accepted_filled n ms code f :
  (exists d, filled n ms = Done d /\ vlen d = n) -> 0 < n <= 0x100000 -> 0 <= f < 8 -> code_fits code ->
  accepted (exec_bind (filled n ms) (fun d =>
    elf Build.USER_CODE_BASE [code_segment code; data_segment f (vlen d) d])).
Proof. intros (d & -> & Hd) Hn Hf Hc. cbn. apply accepted_data; [done|done|lia|lia]. Qed.

(** Assignments within the vector. *)
Lemma filled_done n ms :
  0 <= n -> (forall b, vlen b = n -> wp ms (fun _ b' => vlen b' = n) b) ->
  exists d, filled n ms = Done d /\ vlen d = n.
Proof.
  intros Hn H. unfold filled. specialize (H (replicate (Z.to_nat n) 0)).
  apply wp_done in H as ([] & d & -> & Hd); [by exists d|]. unfold vlen. rewrite length_replicate. lia.
Qed.

Lemma copy_keeps_length start src b n :
  0 <= start -> start + vlen src <= n -> vlen b = n ->
  wp (copy_at start src) (fun _ b' => vlen b' = n) b.
Proof.
  intros H0 H1 <-. destruct (copy_at_run start src b H0 H1) as (b' & E & Hl & _).
  by eapply wp_intro.
Qed.

Lemma suite_data_done :
  exists d, write_syscall_suite_data = Done d /\ vlen d = cross_offset + vlen suite_cross.
Proof.
  apply filled_done; [done|]. intros b Hb. apply wp_bind.
  eapply wp_mono; [eapply copy_keeps_length; [done| |exact Hb]; by vm_compute|]. intros [] b1 Hb1. apply wp_bind.
  eapply wp_mono; [eapply copy_keeps_length; [done| |exact Hb1]; by vm_compute|]. intros [] b2 Hb2.
  apply copy_keeps_length; [done|by vm_compute|done].
Qed.

Lemma fd_data_done : exists d, fd_elf_data = Done d /\ vlen d = Build.PAGE_SIZE * 2.
Proof.
  apply filled_done; [done|]. intros b Hb. apply wp_bind.
  eapply wp_mono; [eapply copy_keeps_length; [done| |exact Hb]; by vm_compute|]. intros [] b1 Hb1. apply wp_bind.
  eapply wp_mono; [eapply copy_keeps_length; [done| |exact Hb1]; by vm_compute|]. intros [] b2 Hb2.
  apply copy_keeps_length; [done|by vm_compute|done].
Qed.

Lemma accepted_fd code : code_fits code -> accepted (fd_elf code).
Proof. intros Hc. apply accepted_filled; [exact fd_data_done|done|done|done]. Qed.

(** Every program image the script writes is accepted by the loader. *)
Definition accepted_fixture (f : string * exec (list Z)) : Prop := accepted f.2.

Lemma fits code : (0 <? vlen code) && (vlen code <=? 0x200000) = true -> code_fits code.
Proof. intros H. unfold code_fits. bool_to_prop. lia. Qed.

Ltac by_code := apply accepted_code, fits; vm_compute; reflexivity.
Ltac by_data := apply accepted_data; [apply fits; vm_compute; reflexivity|done|done|by vm_compute].
Ltac by_fd := apply accepted_fd, fits; vm_compute; reflexivity.
Ltac by_heap := apply accepted_heap, fits; vm_compute; reflexivity.

Lemma fixtures_accepted : Forall accepted_fixture (take 21 fixtures).
Proof.
  cbn [take fixtures].
  apply Forall_cons_2; [by_code|]. do 3 (apply Forall_cons_2; [by_data|]).
  apply Forall_cons_2.
  { apply accepted_filled; [exact suite_data_done|done|done|apply fits; vm_compute; reflexivity]. }
  do 2 (apply Forall_cons_2; [by_data|]). do 4 (apply Forall_cons_2; [by_code|]).
  apply Forall_cons_2; [by_data|]. do 3 (apply Forall_cons_2; [by_fd|]).
  do 6 (apply Forall_cons_2; [by_heap|]). apply Forall_nil_2.
Qed.

(** The image for another machine is written and rejected as such. *)
Lemma bad_machine_rejected :
  exists bytes, bad_machine = Done bytes /\ parse_elf bytes = Err UnsupportedMachine.
Proof.
  unfold bad_machine, exit_42.
  destruct (elf_contents Build.USER_CODE_BASE [code_segment (assemble exit_42_code)])
    as (bytes & offsets & -> & Hl & HF & _ & _); [by apply code_image_ok; vm_compute|].
  change (vlen [code_segment _]) with 1 in Hl. cbn [exec_bind]. unfold header_facts in HF. rewrite !Forall_cons in HF.
  destruct HF as (_ & _ & _ & _ & _ & F20 & F18 & F16 & F6 & F5 & F4 & F0 & _).
  assert (wp (copy_at 18 (to_le_bytes 2 3)) (fun _ b' => vlen b' = vlen bytes /\
    Forall (holds b') ((18, to_le_bytes 2 3) :: [(0, ELF_MAGIC); (4, [2]); (5, [1]); (6, [1]);
      (16, to_le_bytes 2 2); (20, to_le_bytes 4 1)])) bytes) as Hwp.
  { apply wp_copy_at with (Fs := [(0, ELF_MAGIC); (4, [2]); (5, [1]); (6, [1]);
      (16, to_le_bytes 2 2); (20, to_le_bytes 4 1)]); [done| | | |done].
    - change (vlen (to_le_bytes 2 3)) with 2. lia.
    - by rewrite !Forall_cons, Forall_nil.
    - rewrite !Forall_cons, Forall_nil. unfold apart. cbn [fst snd]. split_and!; try done; by (left + right). }
  apply wp_done in Hwp as ([] & b' & -> & Hl' & HF). rewrite !Forall_cons in HF.
  destruct HF as (G18 & G0 & G4 & G5 & G6 & G16 & G20 & _). exists b'. split; [done|].
  apply (parse_elf_machine b' 3); try done. lia.
Qed.
