(* ===== verification/Loading.v ===== *)
(** * What a loaded program sees

    The address space that [load_user_elf] (src/src/elf.rs) builds shows
    exactly the image: the file bytes of each segment, zeros up to the end of
    its pages, the write permission of its flags, a zeroed stack, and nothing
    else. The programs built into the kernel (src/src/user.rs) are loaded the
    same way. No other address space changes. *)

From S2P Require Import Prelude X86 Memory AddressSpace PageTables Spaces SpaceOps.
From S2P Require Import UserMemory Process Task User Elf.

(** ** The image *)

Definition segment_at (a : Z) (s : LoadSegment) : bool := (map_start s <=? a) && (a <? map_end s).

(** The byte and the write permission of a segment at [a]. *)
Definition segment_view (s : LoadSegment) (a : Z) : Z * bool :=
  (match vget (seg_data s) (a - vaddr s) with Some b => b | None => 0 end, writable (user_flags s)).

Definition STACK_BOTTOM : Z := USER_STACK_TOP - USER_STACK_PAGES * PAGE_SIZE.

Definition segments_view (segs : list LoadSegment) (a : Z) : option (Z * bool) :=
  (fun s => segment_view s a) <$> List.find (segment_at a) segs.

Definition stack_view (a : Z) : option (Z * bool) :=
  if (STACK_BOTTOM <=? a) && (a <? USER_STACK_TOP) then Some (0, true) else None.

Definition image (elf : ParsedElf) (a : Z) : option (Z * bool) :=
  match segments_view (segments elf) a with Some v => Some v | None => stack_view a end.

Section loading.
Context {X : X86_64} {XS : X86_64_Spec X} {XP : X86_64_Paging X}.

(** [v] where it is defined, the old view elsewhere. *)
Definition shows (l4 : Z) (v : Z -> option (Z * bool)) (m m' : Mem) : Prop :=
  forall a, 0 <= a < 2 ^ 48 ->
    view (ram m') l4 a = match v a with Some x => Some x | None => view (ram m) l4 a end.

Lemma wp_map_err {S E F A} (f : E -> F) (op : ST S (result E A)) Q s :
  wp op (fun r s' => Q (map_err f r) s') s -> wp (st_map_err f op) Q s.
Proof. intros H. apply wp_bind. exact H. Qed.

(** One segment: mapped, copied, and its tail cleared. *)
Definition load_segment_ops (aspace : AddressSpace) (s : LoadSegment) : ST Mem (result ElfLoadError unit) :=
  let* va := virt_addr (map_start s) in
  let? _ := st_map_err map_address_space_error
              (map_user_region aspace va (map_end s - map_start s) (user_flags s)) in
  let* va := virt_addr (vaddr s) in
  let? _ := st_map_err map_user_copy_error (as_copy_to_user aspace va (seg_data s)) in
  if memsz s >? filesz s then
    let* va := virt_addr (vaddr s + filesz s) in
    st_map_err map_user_copy_error (zero_user_range aspace va (memsz s - filesz s))
  else st_ret (Ok tt).

Definition only (s : LoadSegment) (a : Z) : option (Z * bool) :=
  if segment_at a s then Some (segment_view s a) else None.

Lemma segment_copied l4 s m m1 m2 size :
  segment_ok size s ->
  region_added l4 (map_start s) (map_end s) (writable (user_flags s)) m m1 ->
  overwritten l4 (vaddr s) (seg_data s) 0 m1 m2 -> shows l4 (only s) m m2.
Proof.
  intros [Hst Hal Hr Hsz Hend [Hd _] _] RA OW a Ha. rewrite (OW a Ha), (RA a Ha).
  unfold only, segment_at, segment_view.
  destruct (Z.leb_spec (map_start s) a), (Z.ltb_spec a (map_end s)); cbn [andb].
  - rewrite decide_True by lia. rewrite decide_True by lia. by destruct (vget (seg_data s) (a - vaddr s)).
  - rewrite (decide_False (P := map_start s <= a < map_end s)) by lia.
    rewrite (proj2 (vget_None (seg_data s) (a - vaddr s))) by lia. by case_decide.
  - rewrite (decide_False (P := map_start s <= a < map_end s)) by lia. rewrite decide_False by lia. done.
  - lia.
Qed.

Lemma segment_cleared l4 s m m2 m3 size :
  segment_ok size s -> shows l4 (only s) m m2 ->
  overwritten l4 (vaddr s + filesz s) (zeros (memsz s - filesz s)) 0 m2 m3 -> shows l4 (only s) m m3.
Proof.
  intros [Hst Hal Hr Hsz Hend [Hd _] _] SH OW a Ha. rewrite (OW a Ha), (SH a Ha).
  case_decide as D; [|done].
  destruct (vget (zeros (memsz s - filesz s)) (a - (vaddr s + filesz s))) as [b|] eqn:E; [|done].
  pose proof (vget_range _ _ _ E) as Hb. rewrite vlen_zeros in Hb by lia.
  apply vget_elem_of, elem_of_replicate in E as [-> _]. unfold only, segment_at, segment_view.
  rewrite (proj2 (Z.leb_le _ _)), (proj2 (Z.ltb_lt _ _)) by lia. cbn.
  by rewrite (proj2 (vget_None (seg_data s) (a - vaddr s))) by lia.
Qed.

Lemma region_mapped l4 start stop w m m' a n :
  region_added l4 start stop w m m' -> start <= a -> 0 <= start -> a + n <= stop -> stop <= 2 ^ 48 ->
  mapped_range l4 a n m'.
Proof.
  intros RA Ha H0 Hn Hs i Hi. pose proof (RA (a + i) ltac:(lia)) as Hv. rewrite decide_True in Hv by lia.
  unfold view in Hv. by destruct (translate (ram m') l4 (a + i)).
Qed.

Lemma load_segment_run aspace s m R size :
  space_inv m R -> R (level_4_frame aspace) -> segment_ok size s ->
  wp (load_segment_ops aspace s) (fun res m' =>
    local_change 4 R (level_4_frame aspace) m m' /\
    (res = Ok tt -> shows (level_4_frame aspace) (only s) m m')) m.
Proof.
  intros I HR Hok. pose proof Hok as [Hst [Hal1 Hal2] Hr Hsz Hend [Hd _] _].
  pose proof layout as (L1 & L2 & _). unfold load_segment_ops. set (l4 := level_4_frame aspace) in *.
  wp_step. rewrite virt_addr_ok by (apply canonical_low; lia). wp_steps. apply wp_map_err.
  assert ((map_end s - map_start s) mod 4096 = 0) as Hm by (rewrite Zminus_mod, Hal1, Hal2; done).
  eapply wp_mono; [apply (map_user_region_run aspace (map_start s)); (done || lia)|]. fold l4.
  intros r1 m1 [LC1%(lc_weaken 3 4) RA]; [|lia]. destruct r1 as [[]|e]; cbn [map_err]; [|done].
  specialize (RA eq_refl). replace (map_start s + (map_end s - map_start s)) with (map_end s) in RA by lia.
  pose proof (lc_inv _ _ _ _ _ LC1) as I1.
  wp_step. rewrite virt_addr_ok by (apply canonical_low; lia). wp_steps. apply wp_map_err.
  eapply wp_mono; [apply (as_copy_run aspace (vaddr s) (seg_data s) m1 R); (done || lia)|]. fold l4.
  intros r2 m2 [LC2 _ OW _]. pose proof (lc_trans _ _ _ _ _ _ HR LC1 LC2) as LC02.
  destruct r2 as [[]|e]; cbn [map_err]; [|done]. specialize (OW eq_refl).
  pose proof (segment_copied _ _ _ _ _ _ Hok RA OW) as SH. rewrite Z.gtb_ltb.
  destruct (Z.ltb_spec (filesz s) (memsz s)); [|by apply wp_ret].
  wp_step. rewrite virt_addr_ok by (apply canonical_low; lia). wp_steps. apply wp_map_err.
  eapply wp_mono; [apply (zero_range_run aspace _ _ m2 R); [exact (lc_inv _ _ _ _ _ LC2)|done|lia..]|]. fold l4.
  intros r3 m3 [LC3 _ OW3 _]. split; [by apply (lc_trans _ _ _ _ m2)|].
  destruct r3 as [[]|e]; [|done]. intros _. eapply segment_cleared; [done|done|by apply OW3].
Qed.

Lemma load_segments_step aspace s rest m Q :
  wp (load_segment_ops aspace s) (fun r m' => match r with
    | Ok _ => wp (load_segments aspace rest) Q m' | Err e => Q (Err e) m' end) m ->
  wp (load_segments aspace (s :: rest)) Q m.
Proof.
  cbn [load_segments]. cbv beta delta [wp load_segment_ops st_bind st_try st_ret].
  destruct (virt_addr (map_start s) m) as [[a1 m1]|]; [|exact (fun H => H)].
  destruct (st_map_err map_address_space_error (map_user_region aspace a1 (map_end s - map_start s) (user_flags s)) m1) as [[[[]|e] m2]|]; [|exact (fun H => H)..].
  destruct (virt_addr (vaddr s) m2) as [[a2 m3]|]; [|exact (fun H => H)].
  destruct (st_map_err map_user_copy_error (as_copy_to_user aspace a2 (seg_data s)) m3) as [[[[]|e] m4]|]; [|exact (fun H => H)..].
  destruct (memsz s >? filesz s); [|exact (fun H => H)].
  destruct (virt_addr (vaddr s + filesz s) m4) as [[a3 m5]|]; [|exact (fun H => H)].
  destruct (st_map_err map_user_copy_error (zero_user_range aspace a3 (memsz s - filesz s)) m5) as [[[[]|e] m6]|]; exact (fun H => H).
Qed.

Lemma find_disjoint a s segs :
  Forall (segments_disjoint s) segs -> segment_at a s = true -> List.find (segment_at a) segs = None.
Proof.
  induction 1 as [|s' segs Hd _ IH]; intros Hs; [done|]. cbn [List.find].
  destruct (segment_at a s') eqn:E; [|by apply IH]. unfold segment_at, segments_disjoint in *. bool_to_prop. lia.
Qed.

Lemma load_segments_run aspace segs m R size :
  space_inv m R -> R (level_4_frame aspace) -> Forall (segment_ok size) segs ->
  ForallOrdPairs segments_disjoint segs ->
  wp (load_segments aspace segs) (fun res m' =>
    local_change 4 R (level_4_frame aspace) m m' /\
    (res = Ok tt -> shows (level_4_frame aspace) (segments_view segs) m m')) m.
Proof.
  intros I HR Hok. revert m I. induction Hok as [|s segs Hs Hok IH]; intros m I Hd.
  { apply wp_ret. split; [by apply lc_refl|]. by intros _ a _. }
  inversion_clear Hd as [|? ? Hds Hdr]. apply load_segments_step.
  eapply wp_mono; [by apply (load_segment_run aspace s m R size)|]. cbv beta.
  intros [[]|e] m1 [LC1 S1]; [|done]. specialize (S1 eq_refl).
  eapply wp_mono; [by apply IH; [exact (lc_inv _ _ _ _ _ LC1)|]|]. intros res m2 [LC2 S2].
  split; [by apply (lc_trans _ _ _ _ m1)|]. intros E a Ha. rewrite (S2 E a Ha), (S1 a Ha).
  unfold only, segments_view. cbn [List.find]. destruct (segment_at a s) eqn:Es; [|done].
  by rewrite (find_disjoint a s).
Qed.

(** ** The stack *)

Lemma map_stack_run aspace m R :
  space_inv m R -> R (level_4_frame aspace) ->
  wp (map_user_stack aspace) (fun res m' =>
    local_change 4 R (level_4_frame aspace) m m' /\
    (res = Ok tt -> shows (level_4_frame aspace) stack_view m m')) m.
Proof.
  intros I HR. pose proof layout as (_ & _ & _ & L). unfold map_user_stack.
  change (USER_STACK_PAGES * PAGE_SIZE) with 8192. wp_step. rewrite virt_addr_ok by (apply canonical_low; lia).
  wp_steps. eapply wp_mono; [apply (map_user_region_run aspace _ _ _ m R); (done || lia)|].
  intros res m' [LC RA]. split; [apply (lc_weaken 3 4); [lia|done]|]. intros E a Ha. rewrite (RA E a Ha).
  unfold stack_view. change STACK_BOTTOM with (USER_STACK_TOP - 8192).
  replace (USER_STACK_TOP - 8192 + 8192) with USER_STACK_TOP by lia. case_decide as D.
  - by rewrite (proj2 (Z.leb_le _ _)), (proj2 (Z.ltb_lt _ _)) by lia.
  - destruct (Z.leb_spec (USER_STACK_TOP - 8192) a), (Z.ltb_spec a USER_STACK_TOP); cbn; try done; lia.
Qed.

(** ** Loading a program *)

Lemma root_issued m R l : space_inv m R -> R l -> issued_in m l.
Proof. intros [_ F] Hl. by destruct (fo_node _ _ _ F l [] l Hl path_nil eq_refl). Qed.

Lemma same_space_refl l m : same_space l m m.
Proof. by intros a. Qed.

Lemma same_space_trans l m1 m2 m3 : same_space l m1 m2 -> same_space l m2 m3 -> same_space l m1 m3.
Proof.
  intros H1 H2 a. destruct (H1 a) as [T1 B1], (H2 a) as [T2 B2]. split; [by rewrite T2|].
  intros t Ht. rewrite B2, B1; [done|done|by rewrite T1].
Qed.

(** The bytes of a space stay when the pages below its root do. *)
Lemma nodes_same_space l m m' :
  (forall q f x, path q -> walk (ram m) l q = Some f -> f <= x < f + 4096 -> ram m' x = ram m x) ->
  same_space l m m'.
Proof.
  intros Hn a. split.
  - apply translate_agree. intros f x Hf Hxf. destruct (tables_walk _ _ _ _ Hf) as (q & Hq & _ & Hw).
    by apply (Hn q f x).
  - intros t Ht. destruct (translate_node _ _ _ _ Ht) as (q & f & Hq & _ & Hw & Hp).
    pose proof (Z.mod_pos_bound a 4096). apply (Hn q f); [done|done|lia].
Qed.

(** Memory is in order and no space of [R] has changed. *)
Record others_kept (R : Z -> Prop) (m m' : Mem) : Prop := mkOthersKept {
  ok_ctl : same_ctl m m';
  ok_inv : space_inv m' R;
  ok_table : kernel_table m';
  ok_issued f : issued_in m f -> issued_in m' f;
  ok_same l : R l -> same_space l m m'
}.

Lemma space_inv_weaken m R R' : (forall l, R' l -> R l) -> space_inv m R -> space_inv m R'.
Proof. intros H [Ha F]. split; [done|]. by eapply forest_weaken; [|done|exact F]. Qed.

(** A failed [new_user]: 1 is not a frame, so only new frames are written. *)
Lemma failed_others R m m' :
  space_inv m R -> kernel_table m' -> local_change 0 R 1 m m' -> others_kept R m m'.
Proof.
  intros [_ F] K LC. destruct LC as [C I O B N]. constructor; try done. intros l Hl. apply nodes_same_space.
  intros q f x Hq Hw Hx. apply B. intros g [Hg _] Ht Hxg.
  destruct (fo_node _ _ _ F l q f Hl Hq Hw) as [[Hf _] Hi].
  assert (f = g) as -> by (by apply (frames_overlap f g x)).
  destruct Ht as [[? _]|([|] & _ & Hlen & Hw')]; [done| |by cbn in Hlen; lia]. by injection Hw' as <-.
Qed.

Lemma created_others R l4 m m' : space_inv m R -> space_created R l4 m m' -> others_kept R m m'.
Proof.
  intros [_ F] [C1 C2 C3 C4 C5 C6 C7 C8]. constructor; try done.
  { eapply space_inv_weaken; [|exact C2]. by left. }
  intros l Hl. apply nodes_same_space. intros q f x Hq Hw Hxf. apply C6. intros Hxl.
  destruct (fo_node _ _ _ F l q f Hl Hq Hw) as [[Hf _] Hi].
  destruct (fo_node _ _ _ (si_forest _ _ C2) l4 [] l4 (or_intror eq_refl) path_nil eq_refl) as [[Hp _] _].
  by assert (f = l4) as -> by (by apply (frames_overlap f l4 x)).
Qed.

Lemma created_fresh R l4 m m' : space_inv m R -> space_created R l4 m m' -> ~ R l4.
Proof. intros I C Hl. apply (cr_fresh _ _ _ _ C). by apply (root_issued m R). Qed.

(** The spaces of [R] do not see what happens to the new one. *)
Lemma local_others n R l4 m m' :
  space_inv m (with_root R l4) -> kernel_table m -> ~ R l4 -> local_change n (with_root R l4) l4 m m' ->
  others_kept R m m'.
Proof.
  intros I K Hl LC. constructor; [by destruct LC| | |by destruct LC|].
  - eapply space_inv_weaken; [|exact (lc_inv _ _ _ _ _ LC)]. by left.
  - eapply lc_kernel_table; [exact I|by right|done|done].
  - intros l HR. eapply lc_other; [exact I|done|by right|by left|congruence].
Qed.

Lemma others_trans R m1 m2 m3 : others_kept R m1 m2 -> others_kept R m2 m3 -> others_kept R m1 m3.
Proof.
  intros [C1 I1 K1 O1 S1] [C2 I2 K2 O2 S2]. constructor; [by transitivity m2|done|done|auto|].
  intros l Hl. eapply same_space_trans; auto.
Qed.

(** A program is loaded into a new space [l4] that shows [v]. *)
Record program_loaded (R : Z -> Prop) (l4 : Z) (v : Z -> option (Z * bool)) (m m' : Mem) : Prop := mkLoaded {
  ld_others : others_kept R m m';
  ld_inv : space_inv m' (with_root R l4);
  ld_new : ~ R l4;
  ld_fresh : ~ issued_in m l4;
  ld_view a : 0 <= a < 2 ^ 48 -> view (ram m') l4 a = v a
}.

Lemma loaded_empty R l4 m m' : space_inv m R -> space_created R l4 m m' -> program_loaded R l4 (fun _ => None) m m'.
Proof.
  intros I C. pose proof (created_others _ _ _ _ I C). pose proof (created_fresh _ _ _ _ I C).
  destruct C as [C1 C2 C3 C4 C5 C6 C7 C8]. constructor; try done. intros a _. unfold view. by rewrite C7.
Qed.

Definition over (v w : Z -> option (Z * bool)) (a : Z) : option (Z * bool) :=
  match w a with Some x => Some x | None => v a end.

Lemma loaded_change n R l4 v m m1 m2 :
  program_loaded R l4 v m m1 -> local_change n (with_root R l4) l4 m1 m2 -> others_kept R m m2.
Proof.
  intros [O1 I1 N1 F1 V1] LC. eapply others_trans; [exact O1|].
  eapply (local_others n); [exact I1|by destruct O1|done|done].
Qed.

Lemma loaded_step n R l4 v w m m1 m2 :
  program_loaded R l4 v m m1 -> local_change n (with_root R l4) l4 m1 m2 -> shows l4 w m1 m2 ->
  program_loaded R l4 (over v w) m m2.
Proof.
  intros L LC SH. pose proof (loaded_change _ _ _ _ _ _ _ L LC). destruct L as [O1 I1 N1 F1 V1].
  constructor; try done; [exact (lc_inv _ _ _ _ _ LC)|].
  intros a Ha. unfold over. rewrite (SH a Ha). destruct (w a); [done|by apply V1].
Qed.

(** A heap in the user half of the address space. *)
Definition user_heap (h : UserHeap) : Prop :=
  heap_ok h /\ 2 ^ 39 <= heap_start h /\ heap_limit h <= 2 ^ 40.

(** ... of which no page is mapped yet. *)
Definition fresh_heap (h : UserHeap) : Prop := user_heap h /\ heap_mapped_end h = heap_start h.

Lemma fresh_heap_new start limit h :
  2 ^ 39 <= start -> limit <= 2 ^ 40 -> UserHeap_new start limit = Ok h -> fresh_heap h.
Proof.
  intros Hs Hl E. split; [split; [by eapply (UserHeap_new_ok start limit h); [lia|lia|]|]|];
    unfold UserHeap_new in E; (destruct (_ || _); [done|]); by injection E as <-.
Qed.

Definition load_outcome {E} (R : Z -> Prop) (v : Z -> option (Z * bool)) (entry arg0 : Z) (m : Mem)
    (res : result E UserTaskInit) (m' : Mem) : Prop :=
  match res with
  | Ok init =>
      program_loaded R (level_4_frame (init_address_space init)) v m m' /\
      init_entry_point init = entry /\ init_user_stack_top init = USER_STACK_TOP /\
      init_arg0 init = arg0 /\ fresh_heap (init_heap init)
  | Err _ => others_kept R m m'
  end.

Lemma others_refl R m : space_inv m R -> kernel_table m -> others_kept R m m.
Proof. intros I K. constructor; auto. done. intros l _. apply same_space_refl. Qed.

Lemma loaded_ext R l4 v w m m' :
  program_loaded R l4 v m m' -> (forall a, v a = w a) -> program_loaded R l4 w m m'.
Proof. intros [O I N F V] E. constructor; try done. intros a Ha. by rewrite <- E, V. Qed.

Lemma heap_image_run e m : exists r, heap_for_loaded_image e m = Done (r, m) /\ OnOk fresh_heap r.
Proof.
  pose proof layout as (L1 & L2 & L3 & _). unfold heap_for_loaded_image.
  destruct (align_up e PAGE_SIZE) as [start|]; [|by eexists].
  destruct (Z.ltb_spec start USER_ELF_LOAD_START); [by eexists|]. rewrite Z.gtb_ltb.
  destruct (Z.ltb_spec USER_HEAP_LIMIT start); [by eexists|]. cbn [orb].
  rewrite !virt_addr_ok by (apply canonical_low; lia). eexists. split; [done|].
  destruct (UserHeap_new start USER_HEAP_LIMIT) as [h|] eqn:E; [|done].
  eapply fresh_heap_new; [| |exact E]; lia.
Qed.

(** The segments and the stack together make the image. *)
Lemma image_over elf a : over (over (fun _ => None) (segments_view (segments elf))) stack_view a =
  match stack_view a with Some v => Some v | None => segments_view (segments elf) a end.
Proof. unfold over. destruct (stack_view a); [done|]. by destruct (segments_view (segments elf) a). Qed.

Lemma segments_below_stack size segs a :
  Forall (segment_ok size) segs -> is_Some (stack_view a) -> segments_view segs a = None.
Proof.
  pose proof layout as (_ & L2 & _ & L4). intros Hok Hst. unfold segments_view.
  destruct (List.find (segment_at a) segs) as [s|] eqn:E; [|done].
  apply List.find_some in E as [Hin Hs]. rewrite <- list_elem_of_In in Hin.
  rewrite Forall_forall in Hok. destruct (Hok s Hin) as [_ _ Hr _ _ _ _].
  unfold stack_view in Hst. change STACK_BOTTOM with (USER_STACK_TOP - 8192) in Hst.
  destruct (_ && _) eqn:E; [|by destruct Hst]. unfold segment_at in Hs. bool_to_prop. lia.
Qed.

(** [load_user_elf] on an image the parser accepts. *)
Lemma load_user_elf_run bytes arg0 elf m R :
  Forall is_byte bytes -> parse_elf bytes = Ok elf -> space_inv m R -> kernel_table m ->
  wp (load_user_elf bytes arg0) (load_outcome R (image elf) (entry elf) arg0 m) m.
Proof.
  intros Hb Hp I K. pose proof layout as (L1 & L2 & L3 & L4). unfold load_user_elf. rewrite Hp. wp_steps.
  destruct (parse_elf_ok _ _ Hb Hp) as [Hne Hseg Hdis (s & Hs & _ & Hent)].
  destruct (max_segment_end_Some _ _ Hne Hseg) as (e & He & He0). rewrite He. wp_steps.
  eapply wp_expect; [done|]. cbv beta. wp_step. apply wp_map_err.
  destruct (heap_image_run e m) as (rh & Hh & Hheap). eapply wp_intro; [exact Hh|].
  destruct rh as [heap|]; cbn [OnOk] in Hheap; [|by apply others_refl]. cbn [map_err]. wp_step. apply wp_map_err.
  eapply wp_mono; [by apply new_user_run|]. intros [aspace|x] m1 C; cbn [map_err].
  2: { destruct C as [K1 LC]. by apply failed_others. }
  cbn [create_outcome] in C. set (l4 := level_4_frame aspace) in *.
  pose proof (loaded_empty _ _ _ _ I C) as Ld1. wp_step. eapply wp_mono.
  { apply (load_segments_run aspace _ m1 (with_root R l4) (vlen bytes)); [by destruct Ld1|by right|done|done]. }
  intros r2 m2 [LC2 S2]. fold l4 in LC2, S2.
  destruct r2 as [[]|x]; [|by eapply loaded_change; [exact Ld1|exact LC2]].
  pose proof (loaded_step _ _ _ _ _ _ _ _ Ld1 LC2 (S2 eq_refl)) as Ld2. wp_step. apply wp_map_err.
  eapply wp_mono; [by apply (map_stack_run aspace m2 (with_root R l4)); [destruct Ld2|right]|].
  intros r3 m3 [LC3 S3]. fold l4 in LC3, S3.
  destruct r3 as [[]|x]; cbn [map_err]; [|by eapply loaded_change; [exact Ld2|exact LC3]].
  pose proof (loaded_step _ _ _ _ _ _ _ _ Ld2 LC3 (S3 eq_refl)) as Ld3.
  pose proof (proj1 (Forall_forall _ _) Hseg s Hs) as [Hst _ Hr _ Hend _ _].
  rewrite !virt_addr_ok by (apply canonical_low; lia). wp_steps. split; [|done]. fold l4.
  eapply loaded_ext; [exact Ld3|]. intros a. rewrite image_over. unfold image.
  destruct (stack_view a) as [v|] eqn:Ea; [|by destruct (segments_view _ a)].
  by rewrite (segments_below_stack (vlen bytes)).
Qed.

(** An image that is rejected leaves memory alone. *)
Lemma load_user_elf_rejected bytes arg0 e m :
  parse_elf bytes = Err e -> load_user_elf bytes arg0 m = Done (Err e, m).
Proof. intros Hp. unfold load_user_elf. by rewrite Hp. Qed.

(** ** The built-in programs *)

(** A page that starts with [bytes]. *)
Definition page_view (base : Z) (bytes : list Z) (w : bool) (a : Z) : option (Z * bool) :=
  if (base <=? a) && (a <? base + 4096)
  then Some (match vget bytes (a - base) with Some b => b | None => 0 end, w) else None.

Lemma page_filled R l4 address frame fl bytes m m1 :
  space_inv m R -> R l4 -> 0 <= address < 2 ^ 47 -> address mod 4096 = 0 -> vlen bytes <= 4096 ->
  local_change 3 R l4 m m1 -> page_added l4 address frame fl m m1 ->
  let m2 := set_ram (write_bytes (ram m1) frame bytes) m1 in
  local_change 4 R l4 m m2 /\ shows l4 (page_view address bytes (writable_flag fl)) m m2.
Proof.
  intros I HR Ha Hal Hl LC PA m2. pose proof (vlen_nonneg bytes).
  pose proof (pa_at _ _ _ _ _ _ PA address ltac:(lia) eq_refl) as Ht. rewrite Hal, Z.add_0_r in Ht.
  destruct (chunk_written R l4 m1 (write_bytes (ram m1) frame bytes) address (mkTranslation frame fl)
    bytes 0 (vlen bytes)) as (LC2 & _ & V2); try done; try lia.
  { exact (lc_inv _ _ _ _ _ LC). }
  { intros x. rewrite !write_bytes_at. cbn [phys]. rewrite vget_slice by lia. case_decide; [done|].
    by rewrite (proj2 (vget_None _ _)). }
  split; [eapply lc_trans; [done|by apply (lc_weaken 3 4); [lia|]|done]|].
  intros a Hra. cbn [ram set_ram m2]. rewrite V2 by done.
  rewrite (page_added_view R l4 address frame fl m m1 a) by done. rewrite Hal, Z.sub_0_r, Z.add_0_l.
  pose proof (same_page_iff a address Hal) as Hs. unfold page_view.
  destruct (Z.leb_spec address a), (Z.ltb_spec a (address + 4096)); cbn [andb].
  - rewrite (decide_True (P := a - a mod 4096 = address)) by (apply Hs; lia).
    destruct (vget bytes (a - address)) as [b|] eqn:E.
    + pose proof (vget_range _ _ _ E). by rewrite decide_True by lia.
    + by case_decide.
  - rewrite (decide_False (P := a - a mod 4096 = address)) by (rewrite Hs; lia).
    rewrite decide_False by lia. done.
  - rewrite (decide_False (P := a - a mod 4096 = address)) by (rewrite Hs; lia).
    rewrite decide_False by lia. done.
  - lia.
Qed.

Lemma builtin_layout : USER_CODE_BASE = 2 ^ 39 + 4194304 /\ USER_DATA_BASE = 2 ^ 39 + 6291456 /\
  USER_TEST_PAGE_BASE = 2 ^ 39 + 7340032 /\ USER_CODE_BASE mod 4096 = 0 /\
  USER_DATA_BASE mod 4096 = 0 /\ USER_TEST_PAGE_BASE mod 4096 = 0.
Proof. done. Qed.

Lemma map_program_run aspace bytes m R :
  space_inv m R -> R (level_4_frame aspace) -> vlen bytes <= 4096 ->
  wp (map_program aspace bytes) (fun res m' =>
    local_change 4 R (level_4_frame aspace) m m' /\
    (forall e, res = Ok e -> e = USER_CODE_BASE /\
       shows (level_4_frame aspace) (page_view USER_CODE_BASE bytes false) m m')) m.
Proof.
  intros I HR Hl. pose proof builtin_layout as (L1 & _ & _ & A1 & _). unfold map_program.
  rewrite !virt_addr_ok by (apply canonical_low; lia). wp_steps.
  eapply wp_mono; [by apply (map_zeroed_run aspace USER_CODE_BASE _ m R I HR); [lia|]|].
  intros [frame|e] m1 [LC PA]; [|by split; [apply (lc_weaken 3 4); [lia|]|]].
  rewrite (proj2 (Z.leb_le _ _)) by done. unfold write_frame_bytes. rewrite Z.gtb_ltb.
  rewrite (proj2 (Z.ltb_ge _ _)) by done. wp_step.
  destruct (page_filled R _ USER_CODE_BASE frame _ bytes m m1 I HR ltac:(lia) A1 Hl LC PA) as [LC2 S2].
  pose proof (lc_inv _ _ _ _ _ LC) as [(s & Hs & _) _].
  unfold wp. rewrite (with_state_run _ _ _ Hs). cbn. split; [done|]. by intros e [= <-].
Qed.

(** A zeroed data page that starts with one word. *)
Lemma data_page_run {A} aspace address value m R (k : ST Mem (result AddressSpaceError A)) Q :
  space_inv m R -> R (level_4_frame aspace) -> 2 ^ 39 <= address < 2 ^ 40 -> address mod 4096 = 0 ->
  (forall (res : result AddressSpaceError unit) m', local_change 4 R (level_4_frame aspace) m m' ->
     match res with
     | Ok _ => shows (level_4_frame aspace) (page_view address (to_le_bytes 8 value) true) m m' -> wp k Q m'
     | Err e => Q (Err e) m'
     end) ->
  wp (let? frame := map_zeroed_user_page aspace address user_data_flags in
      write_frame_u64 aspace frame value ;;; k) Q m.
Proof.
  intros I HR Ha Hal HQ. wp_step.
  eapply wp_mono; [by apply (map_zeroed_run aspace address _ m R I HR)|].
  intros [frame|e] m1 [LC PA].
  2: { apply (HQ (Err e)). by apply (lc_weaken 3 4); [lia|]. }
  wp_step. pose proof (lc_inv _ _ _ _ _ LC) as [(s & Hs & _) _].
  destruct (page_filled R _ address frame user_data_flags (to_le_bytes 8 value) m m1 I HR ltac:(lia) Hal)
    as [LC2 S2]; [unfold vlen; by rewrite length_to_le_bytes|done|done|].
  unfold wp, write_frame_u64. rewrite (with_state_run _ _ _ Hs). by apply (HQ (Ok tt)).
Qed.

(** What a built-in program sees. *)
Definition builtin_image (bytes : list Z) (test_page_value : option Z) (a : Z) : option (Z * bool) :=
  let code := page_view USER_CODE_BASE bytes false in
  let data := page_view USER_DATA_BASE (to_le_bytes 8 0) true in
  let test := match test_page_value with
              | Some value => page_view USER_TEST_PAGE_BASE (to_le_bytes 8 value) true
              | None => fun _ => None
              end in
  over (over (over code data) test) stack_view a.

Lemma default_heap_run m : exists h, @default_builtin_heap X m = Done (Ok h, m) /\ fresh_heap h.
Proof.
  pose proof builtin_layout as (L1 & L2 & L3 & _). pose proof layout as (_ & _ & L4 & _).
  unfold default_builtin_heap, PAGE_SIZE. rewrite !virt_addr_ok by (apply canonical_low; lia).
  destruct (UserHeap_new (USER_DATA_BASE + 4096) USER_HEAP_LIMIT) as [h|e] eqn:E; [|by vm_compute in E].
  exists h. unfold st_bind, st_ret. rewrite E. split; [done|].
  eapply fresh_heap_new; [| |exact E]; lia.
Qed.

Lemma finish_builtin_run aspace entry arg0 v R m m1 :
  program_loaded R (level_4_frame aspace) v m m1 ->
  wp (let? _ := map_user_stack aspace in
      let* heap := default_builtin_heap in
      let? heap := st_ret (map_err (fun _ => RangeOverflow) heap) in
      let* top := virt_addr USER_STACK_TOP in
      st_ret (Ok (mkUserTaskInit aspace entry top heap arg0)))
    (load_outcome R (over v stack_view) entry arg0 m) m1.
Proof.
  intros Ld. pose proof layout as (_ & _ & _ & L4). set (l4 := level_4_frame aspace) in *. wp_step.
  eapply wp_mono; [by apply (map_stack_run aspace m1 (with_root R l4)); [destruct Ld|right]|].
  intros [[]|e] m2 [LC SH]; fold l4 in LC, SH.
  2: by eapply loaded_change; [exact Ld|exact LC].
  pose proof (loaded_step _ _ _ _ _ _ _ _ Ld LC (SH eq_refl)) as Ld2. wp_step.
  destruct (default_heap_run m2) as (h & Hh & Hok). eapply wp_intro; [exact Hh|]. cbv beta. cbn [map_err]. wp_step.
  wp_steps. rewrite virt_addr_ok by (apply canonical_low; lia). by wp_steps.
Qed.

(** [create_user_task_with_test_page]. *)
Lemma create_user_task_run bytes arg0 test m R :
  vlen bytes <= 4096 -> space_inv m R -> kernel_table m ->
  wp (create_user_task_with_test_page bytes arg0 test)
    (load_outcome R (builtin_image bytes test) USER_CODE_BASE arg0 m) m.
Proof.
  intros Hl I K. pose proof builtin_layout as (L1 & L2 & L3 & A1 & A2 & A3).
  unfold create_user_task_with_test_page. wp_step. eapply wp_mono; [by apply new_user_run|].
  intros [aspace|x] m1 C.
  2: { destruct C as [K1 LC]. by apply failed_others. }
  cbn [create_outcome] in C. pose proof (loaded_empty _ _ _ _ I C) as Ld1. clear C.
  set (l4 := level_4_frame aspace) in *. wp_step.
  eapply wp_mono; [by apply (map_program_run aspace bytes m1 (with_root R l4)); [destruct Ld1|right|]|].
  intros [e|x] m2 [LC2 S2]; fold l4 in LC2, S2.
  2: by eapply loaded_change; [exact Ld1|exact LC2].
  destruct (S2 e eq_refl) as [-> SH2]. pose proof (loaded_step _ _ _ _ _ _ _ _ Ld1 LC2 SH2) as Ld2. clear S2 SH2.
  wp_step. rewrite virt_addr_ok by (apply canonical_low; lia). wp_step. cbv beta.
  apply (data_page_run aspace USER_DATA_BASE 0 m2 (with_root R l4)); [by destruct Ld2|by right|lia|done|].
  fold l4. intros [[]|x] m3 LC3.
  2: by eapply loaded_change; [exact Ld2|exact LC3].
  intros SH3. pose proof (loaded_step _ _ _ _ _ _ _ _ Ld2 LC3 SH3) as Ld3. wp_step.
  destruct test as [value|].
  - wp_step. rewrite virt_addr_ok by (apply canonical_low; lia). wp_step. cbv beta.
    apply (data_page_run aspace USER_TEST_PAGE_BASE value m3 (with_root R l4)); [by destruct Ld3|by right|lia|done|].
    fold l4. intros [[]|x] m4 LC4.
    2: by eapply loaded_change; [exact Ld3|exact LC4].
    intros SH4. pose proof (loaded_step _ _ _ _ _ _ _ _ Ld3 LC4 SH4) as Ld4. wp_step.
    apply finish_builtin_run. eapply loaded_ext; [exact Ld4|]. intros a. unfold over.
    by destruct (page_view USER_CODE_BASE bytes false a).
  - wp_step. apply finish_builtin_run. eapply loaded_ext; [exact Ld3|]. intros a. unfold over.
    by destruct (page_view USER_CODE_BASE bytes false a).
Qed.
End loading.
