(* ===== verification/Scheduler.v ===== *)
(** * The scheduler and the process side of system calls (src/src/scheduler.rs)

    The scheduler owns the tasks, the process table and the open-file table.
    Its operations run in [ST Machine]: besides the scheduler itself they
    touch user memory, trap frames on kernel stacks, CR3, TSS.rsp0 and the
    serial port. An operation that the source ends with [restore_main]
    returns [ToMain] instead of a stack pointer. *)

From S2P Require Import Prelude File Fd X86 Memory AddressSpace UserMemory Process Context.
From S2P Require Import Serial Task Syscall User Elf.

Definition WRITE_CHUNK_SIZE : Z := 256.

Inductive SpawnError : Type :=
| SpawnFull
| SpawnProcess (error : ProcessError)
| ElfLoad (error : ElfLoadError).

Record UserProcessHandle : Type := mkHandle { handle_pid : ProcessId; handle_task_id : TaskId }.

Record Scheduler : Type := mkScheduler {
  tasks : list Task;
  proc_table : ProcessTable;
  open_files : OpenFileTable;
  current : option Z;
  main_context : Context;
  preemption_enabled : bool;
  current_level_4_frame : option Z
}.

Definition Scheduler_new : Scheduler :=
  mkScheduler [] ProcessTable.new OpenFileTable.new None Context_empty false None.

(** The processor state the scheduler reads or writes: the interrupt flag,
    the current CS and SS, TSS.rsp0, and the GDT's user selectors. *)
Record Cpu : Type := mkCpu {
  interrupt_flag : bool;
  cs_reg : Z;
  ss_reg : Z;
  tss_rsp0 : Z;
  gdt_user_code : Z;
  gdt_user_data : Z
}.

Record Machine : Type := mkMachine {
  sched : Scheduler;
  mem : Mem;
  kmem : KMem;
  cpu : Cpu;
  serial : Serial
}.

(** The end of a kernel entry: resume the frame at [rsp], or leave the task
    world through [restore_main]. *)
Inductive Switch : Type :=
| Resume (rsp : Z)
| ToMain.

Definition set_sched (s : Scheduler) (m : Machine) : Machine :=
  mkMachine s (mem m) (kmem m) (cpu m) (serial m).
Definition set_mem (x : Mem) (m : Machine) : Machine :=
  mkMachine (sched m) x (kmem m) (cpu m) (serial m).
Definition set_kmem (k : KMem) (m : Machine) : Machine :=
  mkMachine (sched m) (mem m) k (cpu m) (serial m).
Definition set_cpu (c : Cpu) (m : Machine) : Machine :=
  mkMachine (sched m) (mem m) (kmem m) c (serial m).
Definition set_serial (s : Serial) (m : Machine) : Machine :=
  mkMachine (sched m) (mem m) (kmem m) (cpu m) s.

Definition set_tasks (ts : list Task) (s : Scheduler) : Scheduler :=
  mkScheduler ts (proc_table s) (open_files s) (current s) (main_context s)
              (preemption_enabled s) (current_level_4_frame s).
Definition set_proc_table (t : ProcessTable) (s : Scheduler) : Scheduler :=
  mkScheduler (tasks s) t (open_files s) (current s) (main_context s)
              (preemption_enabled s) (current_level_4_frame s).
Definition set_open_files (f : OpenFileTable) (s : Scheduler) : Scheduler :=
  mkScheduler (tasks s) (proc_table s) f (current s) (main_context s)
              (preemption_enabled s) (current_level_4_frame s).
Definition set_current (c : option Z) (s : Scheduler) : Scheduler :=
  mkScheduler (tasks s) (proc_table s) (open_files s) c (main_context s)
              (preemption_enabled s) (current_level_4_frame s).
Definition set_preemption (b : bool) (s : Scheduler) : Scheduler :=
  mkScheduler (tasks s) (proc_table s) (open_files s) (current s) (main_context s)
              b (current_level_4_frame s).
Definition set_current_l4 (f : option Z) (s : Scheduler) : Scheduler :=
  mkScheduler (tasks s) (proc_table s) (open_files s) (current s) (main_context s)
              (preemption_enabled s) f.

Definition set_main_context (c : Context) (s : Scheduler) : Scheduler :=
  mkScheduler (tasks s) (proc_table s) (open_files s) (current s) c
              (preemption_enabled s) (current_level_4_frame s).

Definition set_rsp0 (top : Z) (c : Cpu) : Cpu :=
  mkCpu (interrupt_flag c) (cs_reg c) (ss_reg c) top (gdt_user_code c) (gdt_user_data c).

(** ** Choosing the next task *)

(** [for offset in 1..=len] of [next_ready_after]. *)
Fixpoint find_ready (ts : list Task) (start offset : Z) (n : nat) : option Z :=
  match n with
  | O => None
  | S n' =>
      let index := (start + offset) mod vlen ts in
      match vget ts index with
      | Some t => if is_ready t then Some index else find_ready ts start (offset + 1) n'
      | None => None
      end
  end.

Definition next_ready_after (ts : list Task) (start : Z) : option Z :=
  match ts with
  | [] => None
  | _ => find_ready ts start 1 (length ts)
  end.

Definition first_ready (ts : list Task) : option Z := position is_ready ts.
Definition finished_count (ts : list Task) : Z := countb is_finished ts.
Definition failed_count (ts : list Task) : Z := countb is_failed ts.
Definition terminal_count (ts : list Task) : Z := countb is_terminal ts.
Definition all_tasks_finished (ts : list Task) : bool :=
  match ts with [] => false | _ => terminal_count ts =? vlen ts end.

(** ** Errors *)

Definition map_file_error (e : FileError) : SysError :=
  match e with
  | FileBadFd => BadFd
  | FileNoEntry => NoEntry
  | TooManySystemFiles => SystemFileLimit
  | TooManyProcessFiles => ProcessFileLimit
  | FileNameTooLong => NameTooLong
  | FileInvalid => Invalid
  | FileFault => Fault
  end.

Definition map_user_memory_error (_ : UserMemoryError) : SysError := Fault.

Definition map_heap_growth_error (e : AddressSpaceError) : SysError :=
  match e with
  | FrameAllocationFailed | MapTo _ => NoMemory
  | KernelUserSlotInUse | RangeOverflow | Unmap _ => Invalid
  end.

(** [usize::try_from] of a [u64] succeeds on a 64-bit machine. *)
Definition virt_to_sys_value (address : Z) : SysResult := Ok address.

(** ** Access to the machine *)

Definition with_mem {A} (m : ST Mem A) : ST Machine A := st_zoom mem set_mem m.
Definition with_serial {A} (m : ST Serial A) : ST Machine A := st_zoom serial set_serial m.
Definition modify_sched (f : Scheduler -> Scheduler) : ST Machine unit :=
  st_modify (fun m => set_sched (f (sched m)) m).
Definition modify_kmem (f : KMem -> KMem) : ST Machine unit :=
  st_modify (fun m => set_kmem (f (kmem m)) m).

(** [self.tasks[index]], whose bounds check can panic. *)
Definition task_at (index : Z) : ST Machine Task :=
  let* m := st_get in
  st_expect (vget (tasks (sched m)) index) "index out of bounds".

Definition modify_task (index : Z) (f : Task -> Task) : ST Machine unit :=
  let* t := task_at index in
  modify_sched (fun s => set_tasks (vset (tasks s) index (f t)) s).

(** [self.tasks[index].set_state(state)] *)
Definition set_task_state (index : Z) (state : TaskState) : ST Machine unit :=
  modify_task index (fun t => set_state t state).

(** [set_saved_rax], [set_saved_rdi] through the task's frame pointer. *)
Definition task_set_saved_rax (index value : Z) : ST Machine unit :=
  let* t := task_at index in modify_kmem (set_saved_rax t value).

Definition processes_of (m : Machine) : ProcessTable := proc_table (sched m).

Section scheduler.
Context {X : X86_64}.

(** ** Spawning

    [stack] is the address the global allocator returns for the boxed
    kernel stack and [trampoline] the address of [task_trampoline].
    [ensure_task_capacity] only reserves memory. *)

Definition initial_rflags (c : Cpu) : Z := if interrupt_flag c then 0x202 else 0x2.

Definition user_code_selector (c : Cpu) : Z := SegmentSelector_set_rpl (gdt_user_code c) 3.
Definition user_data_selector (c : Cpu) : Z := SegmentSelector_set_rpl (gdt_user_data c) 3.

Definition push_task (t : Task) : ST Machine unit :=
  modify_sched (fun s => set_tasks (tasks s ++ [t]) s).

Definition spawn_with (stack trampoline : Z) (entry : TaskEntry) (rflags : Z) :
    ST Machine (result SpawnError TaskId) :=
  let* m := st_get in
  if vlen (tasks (sched m)) >=? MAX_TASKS then st_ret (Err SpawnFull)
  else
    let id := vlen (tasks (sched m)) in
    let '(t, k) := new_kernel (kmem m) stack id entry trampoline rflags
                              (cs_reg (cpu m)) (ss_reg (cpu m)) in
    modify_kmem (fun _ => k) ;;;
    push_task t ;;;
    st_ret (Ok id).

Definition spawn (stack trampoline : Z) (entry : TaskEntry) :
    ST Machine (result SpawnError TaskId) :=
  let* m := st_get in spawn_with stack trampoline entry (initial_rflags (cpu m)).

Definition spawn_user_process_with (stack : Z) (parent : option ProcessId)
    (init : UserTaskInit) (rflags : Z) : ST Machine (result SpawnError UserProcessHandle) :=
  let* m := st_get in
  if vlen (tasks (sched m)) >=? MAX_TASKS then st_ret (Err SpawnFull)
  else
    let? _ := st_ret (map_err SpawnProcess (ProcessTable.can_create (processes_of m) parent)) in
    let id := vlen (tasks (sched m)) in
    let '(r, files) := FdTable.new_with_stdio (open_files (sched m)) in
    modify_sched (set_open_files files) ;;;
    let? table := st_ret (map_err (fun e => SpawnProcess (ProcessFile e)) r) in
    let* r := st_zoom processes_of (fun t m => set_sched (set_proc_table t (sched m)) m)
                (ProcessTable.create parent (init_address_space init) (init_heap init) table id) in
    let? pid := st_ret (map_err SpawnProcess r) in
    let* m := st_get in
    let '(t, k) := Task.new_user (kmem m) stack id pid (init_entry_point init)
                     (init_user_stack_top init) (init_arg0 init) rflags
                     (user_code_selector (cpu m)) (user_data_selector (cpu m)) in
    modify_kmem (fun _ => k) ;;;
    push_task t ;;;
    st_ret (Ok (mkHandle pid id)).

Definition spawn_user_process (stack : Z) (init : UserTaskInit) :
    ST Machine (result SpawnError UserProcessHandle) :=
  let* m := st_get in spawn_user_process_with stack None init (initial_rflags (cpu m)).

(** [spawn_user], [spawn_user_elf], [spawn_user_elf_with_arg] return the
    [task_id] of the handle. *)
Definition spawn_user (stack : Z) (init : UserTaskInit) : ST Machine (result SpawnError TaskId) :=
  let* r := spawn_user_process stack init in st_ret (result_map handle_task_id r).

Definition spawn_user_elf_process_with_arg (stack : Z) (elf_bytes : list Z) (arg0 : Z) :
    ST Machine (result SpawnError UserProcessHandle) :=
  let? init := st_map_err ElfLoad (with_mem (load_user_elf elf_bytes arg0)) in
  spawn_user_process stack init.

Definition spawn_user_elf_with_arg (stack : Z) (elf_bytes : list Z) (arg0 : Z) :
    ST Machine (result SpawnError TaskId) :=
  let* r := spawn_user_elf_process_with_arg stack elf_bytes arg0 in
  st_ret (result_map handle_task_id r).

Definition spawn_user_elf (stack : Z) (elf_bytes : list Z) : ST Machine (result SpawnError TaskId) :=
  spawn_user_elf_with_arg stack elf_bytes 0.

Definition spawn_user_elf_process (stack : Z) (elf_bytes : list Z) :
    ST Machine (result SpawnError UserProcessHandle) :=
  spawn_user_elf_process_with_arg stack elf_bytes 0.

Definition spawn_child_user_elf_process_with_arg (stack : Z) (parent : ProcessId)
    (elf_bytes : list Z) (arg0 : Z) : ST Machine (result SpawnError UserProcessHandle) :=
  let? init := st_map_err ElfLoad (with_mem (load_user_elf elf_bytes arg0)) in
  let* m := st_get in
  spawn_user_process_with stack (Some parent) init (initial_rflags (cpu m)).

Definition spawn_child_user_elf_process (stack : Z) (parent : ProcessId) (elf_bytes : list Z) :
    ST Machine (result SpawnError UserProcessHandle) :=
  spawn_child_user_elf_process_with_arg stack parent elf_bytes 0.

(** ** Dispatching a task *)

Definition load_kernel_stack_for (index : Z) : ST Machine unit :=
  let* t := task_at index in
  st_modify (fun m => set_cpu (set_rsp0 (t_kernel_stack_top t) (cpu m)) m).

(** [Cr3::write] unless the frame is already the current one. *)
Definition switch_cr3 (frame : Z) : ST Machine unit :=
  let* m := st_get in
  if decide (current_level_4_frame (sched m) = Some frame) then st_ret tt
  else
    with_mem (st_modify (set_cr3 frame)) ;;;
    modify_sched (set_current_l4 (Some frame)).

Definition switch_to_task_address_space (index : Z) : ST Machine unit :=
  let* t := task_at index in
  let* m := st_get in
  match process_id t with
  | Some pid =>
      let* aspace := st_expect (ProcessTable.address_space (processes_of m) pid)
                               "runnable user task has no process address space" in
      switch_cr3 (level_4_frame aspace)
  | None => switch_cr3 (kernel_level_4_frame (mem m))
  end.

Definition switch_to_kernel_address_space : ST Machine unit :=
  let* m := st_get in switch_cr3 (kernel_level_4_frame (mem m)).

Definition prepare_to_run (index : Z) : ST Machine unit :=
  load_kernel_stack_for index ;;; switch_to_task_address_space index.

(** The common tail of the exits that pick another task. *)
Definition resume_task (next : Z) : ST Machine Switch :=
  set_task_state next Running ;;;
  modify_sched (set_current (Some next)) ;;;
  prepare_to_run next ;;;
  let* t := task_at next in
  st_ret (Resume (saved_rsp t)).

Definition leave_to_main : ST Machine Switch :=
  modify_sched (set_current None) ;;;
  switch_to_kernel_address_space ;;;
  st_ret ToMain.

Definition resume_next_after (index : Z) : ST Machine Switch :=
  let* m := st_get in
  match next_ready_after (tasks (sched m)) index with
  | Some next => resume_task next
  | None => leave_to_main
  end.

Definition save_current_frame (frame_rsp : Z) : ST Machine (option Z) :=
  let* m := st_get in
  match current (sched m) with
  | None => st_ret None
  | Some cur =>
      let* t := task_at cur in
      if is_running t then
        modify_task cur (fun t => set_saved_rsp t frame_rsp) ;;;
        st_ret (Some cur)
      else st_ret None
  end.

Definition switch_from_interrupt (frame_rsp : Z) : ST Machine Switch :=
  let* cur := save_current_frame frame_rsp in
  match cur with
  | None => st_ret (Resume frame_rsp)
  | Some cur =>
      let* m := st_get in
      match next_ready_after (tasks (sched m)) cur with
      | None => st_ret (Resume frame_rsp)
      | Some next =>
          set_task_state cur Ready ;;;
          resume_task next
      end
  end.

(** [run]: [main_rsp] is the stack pointer that [switch_from_main] stores
    in the main context. [None]: there was nothing to run. *)
Definition run (main_rsp : Z) : ST Machine (option Z) :=
  let* m := st_get in
  match first_ready (tasks (sched m)) with
  | None => st_ret None
  | Some next =>
      modify_sched (set_current (Some next)) ;;;
      set_task_state next Running ;;;
      modify_sched (set_current_l4 (Some (cr3 (mem m)))) ;;;
      prepare_to_run next ;;;
      modify_sched (set_main_context (mkContext main_rsp)) ;;;
      let* t := task_at next in
      st_ret (Some (rsp (t_context t)))
  end.
End scheduler.
