(* ===== verification/SchedulerCalls.v ===== *)
(** * Process exit, waiting and the file and heap calls (src/src/scheduler.rs)

    The part of the scheduler behind system calls and faults: the end of a
    task, [waitpid] with its wake-up, and the [sys_*_current] operations on
    the current process. *)

From S2P Require Import Prelude File Fd X86 Memory AddressSpace UserMemory Process Context.
From S2P Require Import Serial Task Syscall User Elf Scheduler.

(** The first task blocked on [child], with its status pointer
    ([enumerate().find_map(..)]). *)
Fixpoint find_waiter (ts : list Task) (index : Z) (child : ProcessId) : option (Z * option Z) :=
  match ts with
  | [] => None
  | t :: rest =>
      match t_state t with
      | Blocked (ChildExit waited_child status_ptr) =>
          if waited_child =? child then Some (index, status_ptr)
          else find_waiter rest (index + 1) child
      | _ => find_waiter rest (index + 1) child
      end
  end.

(** [exit_code as i32] *)
Definition process_exit_of (final_state : TaskState) (exit_code : option Z) : option ProcessExit :=
  match final_state with
  | Finished => Some (Exited (to_signed 32 (match exit_code with Some c => c | None => 0 end)))
  | Failed => Some Faulted
  | _ => None
  end.

Definition set_procs (t : ProcessTable) : ST Machine unit := modify_sched (set_proc_table t).
Definition set_files (f : OpenFileTable) : ST Machine unit := modify_sched (set_open_files f).

Section calls.
Context {X : X86_64}.

Definition set_frame_rax (frame_rsp value : Z) : ST Machine unit :=
  modify_kmem (fun k => kwrite k (frame_rsp + OFF_RAX) value).

Definition return_sys_error (frame_rsp : Z) (error : SysError) : ST Machine Switch :=
  set_frame_rax frame_rsp (raw_return error) ;;; st_ret (Resume frame_rsp).

Definition validate_wait_status_target (parent : ProcessId) (status_ptr : Z) :
    ST Machine (result UserMemoryError unit) :=
  let* m := st_get in
  let? aspace := st_ret (ok_or (ProcessTable.address_space (processes_of m) parent) Unmapped) in
  with_mem (validate_user_write_range aspace status_ptr wait_status_size).

Definition write_wait_status (parent : ProcessId) (status_ptr : Z) (exit : ProcessExit) :
    ST Machine (result UserMemoryError unit) :=
  let* m := st_get in
  let? aspace := st_ret (ok_or (ProcessTable.address_space (processes_of m) parent) Unmapped) in
  with_mem (copy_to_user aspace status_ptr (wait_status_bytes exit)).

(** ** waitpid *)

Definition complete_wait (parent_task_index : Z) (child : ProcessId) (status_ptr : option Z) :
    ST Machine unit :=
  let* t := task_at parent_task_index in
  match process_id t with
  | None => task_set_saved_rax parent_task_index (raw_return Child)
  | Some parent =>
      let* m := st_get in
      match ProcessTable.state (processes_of m) child with
      | Some (Zombie exit) =>
          let* w := match status_ptr with
                    | Some ptr => write_wait_status parent ptr exit
                    | None => st_ret (Ok tt)
                    end in
          if is_err w then task_set_saved_rax parent_task_index (raw_return Fault)
          else
            let* m := st_get in
            let '(r, procs) := ProcessTable.reap_child (processes_of m) parent child in
            set_procs procs ;;;
            if is_err r then task_set_saved_rax parent_task_index (raw_return Child)
            else task_set_saved_rax parent_task_index child
      | _ => task_set_saved_rax parent_task_index (raw_return Child)
      end
  end.

Definition wake_parent_waiting_for (child : ProcessId) : ST Machine unit :=
  let* m := st_get in
  match find_waiter (tasks (sched m)) 0 child with
  | None => st_ret tt
  | Some (waiter, status_ptr) =>
      complete_wait waiter child status_ptr ;;;
      let* t := task_at waiter in
      if is_blocked t then set_task_state waiter Ready else st_ret tt
  end.

Definition waitpid_from_interrupt (frame_rsp : Z) (child : ProcessId) (status_ptr : option Z)
    (options : Z) : ST Machine Switch :=
  let* m := st_get in
  match current (sched m) with
  | None => return_sys_error frame_rsp Child
  | Some cur =>
    let* t := task_at cur in
    match process_id t with
    | None => return_sys_error frame_rsp Child
    | Some parent =>
      if negb (options =? 0) && negb (options =? WNOHANG)
      then return_sys_error frame_rsp Invalid
      else if (child =? 0) || negb (ProcessTable.is_child (processes_of m) parent child)
      then return_sys_error frame_rsp Child
      else
        let* v := match status_ptr with
                  | Some ptr => validate_wait_status_target parent ptr
                  | None => st_ret (Ok tt)
                  end in
        if is_err v then return_sys_error frame_rsp Fault
        else
          match ProcessTable.state (processes_of m) child with
          | None => return_sys_error frame_rsp Child
          | Some (Zombie _) =>
              modify_task cur (fun t => set_saved_rsp t frame_rsp) ;;;
              complete_wait cur child status_ptr ;;;
              st_ret (Resume frame_rsp)
          | Some PRunning =>
              if options =? WNOHANG then
                set_frame_rax frame_rsp 0 ;;; st_ret (Resume frame_rsp)
              else
                modify_task cur (fun t => set_saved_rsp t frame_rsp) ;;;
                set_task_state cur (Blocked (ChildExit child status_ptr)) ;;;
                resume_next_after cur
          end
    end
  end.

(** ** Exit and faults *)

Definition finish_current_from_interrupt (frame_rsp : Z) (final_state : TaskState)
    (exit_code : option Z) (fault_info : option UserFaultInfo) : ST Machine Switch :=
  let* m := st_get in
  let* cur := st_expect (current (sched m)) "no current task" in
  modify_task cur (fun t => set_saved_rsp t frame_rsp) ;;;
  set_task_state cur final_state ;;;
  match exit_code with
  | Some code => modify_task cur (fun t => set_exit_code t code)
  | None => st_ret tt
  end ;;;
  match fault_info with
  | Some info => modify_task cur (fun t => set_fault_info t info)
  | None => st_ret tt
  end ;;;
  let* t := task_at cur in
  match process_id t with
  | None => st_ret tt
  | Some pid =>
      let* exit := st_expect (process_exit_of final_state exit_code)
                             "process exit must use a terminal task state" in
      let* m := st_get in
      let '(r, procs, files) :=
        ProcessTable.mark_exited (processes_of m) pid exit (open_files (sched m)) in
      set_procs procs ;;;
      set_files files ;;;
      if is_err r then st_panic "current task process disappeared during exit"
      else
        wake_parent_waiting_for pid ;;;
        let* m := st_get in
        set_procs (ProcessTable.reap_orphan_if_zombie (processes_of m) pid)
  end ;;;
  resume_next_after cur.

Definition exit_current_from_interrupt (frame_rsp exit_code : Z) : ST Machine Switch :=
  finish_current_from_interrupt frame_rsp Finished (Some exit_code) None.

Definition fail_current_with_fault (frame_rsp : Z) (info : UserFaultInfo) : ST Machine Switch :=
  finish_current_from_interrupt frame_rsp Failed None (Some info).

(** The end of a kernel task, after its entry function returned. *)
Definition finish_current_task : ST Machine Switch :=
  let* m := st_get in
  let* cur := st_expect (current (sched m)) "no current task" in
  set_task_state cur Finished ;;;
  resume_next_after cur.

(** ** The calls on the current process *)

(** The first code of a kernel task, entered from the trampoline; [call] runs
    the task's function. *)
Definition run_current_task (call : TaskEntry -> ST Machine unit) : ST Machine Switch :=
  let* m := st_get in
  let* current := st_expect (current (sched m)) "no current task" in
  let* t := task_at current in
  let* entry := st_expect (kernel_entry t) "current task is not a kernel task" in
  call entry ;;;
  finish_current_task.

Definition current_process_id : ST Machine (option ProcessId) :=
  let* m := st_get in
  match current (sched m) with
  | None => st_ret None
  | Some cur => let* t := task_at cur in st_ret (process_id t)
  end.

(** [self.current_process_id().ok_or(error)?] and the lookups that follow it. *)
Definition current_pid_or (error : SysError) : ST Machine (result SysError ProcessId) :=
  let* pid := current_process_id in st_ret (ok_or pid error).

Definition address_space_or (pid : ProcessId) (error : SysError) :
    ST Machine (result SysError AddressSpace) :=
  st_gets (fun m => ok_or (ProcessTable.address_space (processes_of m) pid) error).

Definition fd_entry_or (pid : ProcessId) (fd : Z) (error : SysError) :
    ST Machine (result SysError FdEntry) :=
  st_gets (fun m => ok_or (match ProcessTable.fd_table (processes_of m) pid with
                           | Some table => FdTable.get table fd
                           | None => None
                           end) error).

Definition open_file_or (id : OpenFileId) (error : SysError) :
    ST Machine (result SysError OpenFile) :=
  st_gets (fun m => ok_or (OpenFileTable.get (open_files (sched m)) id) error).

Definition sys_open_current (path_ptr path_len flags : Z) : ST Machine SysResult :=
  if negb (flags =? O_RDONLY) then st_ret (Err Invalid)
  else if path_len =? 0 then st_ret (Err NoEntry)
  else if path_len >? MAX_PATH_LEN then st_ret (Err NameTooLong)
  else
    let? pid := current_pid_or BadFd in
    let? aspace := address_space_or pid BadFd in
    let? path := st_map_err map_user_memory_error
                   (with_mem (copy_from_user aspace path_len path_ptr)) in
    let? file_id := st_ret (ok_or (find_embedded_file path) NoEntry) in
    let* m := st_get in
    let '(r, files) :=
      OpenFileTable.alloc (open_files (sched m)) (EmbeddedFileKind file_id) ReadOnly in
    set_files files ;;;
    let? open_file := st_ret (map_err map_file_error r) in
    let* m := st_get in
    match ProcessTable.get (processes_of m) pid with
    | None => st_ret (Err BadFd)
    | Some p =>
        let '(fd, table) := FdTable.allocate_lowest (p_fd_table p) open_file in
        set_procs (ProcessTable.update (processes_of m) pid (set_fd_table p table)) ;;;
        match fd with
        | Ok fd => st_ret (Ok fd)
        | Err error =>
            set_files (OpenFileTable.dec_ref (open_files (sched m)) open_file) ;;;
            st_ret (Err (map_file_error error))
        end
    end.

Definition sys_read_current (fd user_buf len : Z) : ST Machine SysResult :=
  if len =? 0 then st_ret (Ok 0)
  else
    let? pid := current_pid_or BadFd in
    let? entry := fd_entry_or pid fd BadFd in
    let? file := open_file_or (open_file entry) BadFd in
    match of_access file with
    | WriteOnly => st_ret (Err BadFd)
    | ReadOnly =>
        match of_kind file with
        | NullInput => st_ret (Ok 0)
        | ConsoleStdout | ConsoleStderr => st_ret (Err BadFd)
        | EmbeddedFileKind file_id =>
            let? embedded := st_ret (ok_or (embedded_file file_id) BadFd) in
            let offset := of_offset file in
            if offset >=? vlen (bytes embedded) then st_ret (Ok 0)
            else
              let count := Z.min len (vlen (bytes embedded) - offset) in
              let chunk := slice (bytes embedded) offset count in
              let? aspace := address_space_or pid BadFd in
              let? _ := st_map_err map_user_memory_error
                          (with_mem (copy_to_user aspace user_buf chunk)) in
              let* m := st_get in
              let* f := st_expect (OpenFileTable.get (open_files (sched m)) (open_file entry))
                                  "open file disappeared during read" in
              set_files (OpenFileTable.update (open_files (sched m)) (open_file entry)
                           (set_offset f (offset + count))) ;;;
              st_ret (Ok count)
        end
    end.

(** [while written < len]: a 256-byte chunk per turn. *)
Fixpoint write_loop (fuel : nat) (aspace : AddressSpace) (user_buf written len : Z) :
    ST Machine SysResult :=
  match fuel with
  | O => st_panic out_of_fuel
  | S fuel' =>
      if written <? len then
        let count := Z.min WRITE_CHUNK_SIZE (len - written) in
        match checked_add user_buf written with
        | None => st_ret (Err Fault)
        | Some a =>
            let* src := virt_addr a in
            let? buffer := st_map_err map_user_memory_error
                             (with_mem (copy_from_user aspace count src)) in
            with_serial (st_modify (fun s => Serial.write_bytes s buffer)) ;;;
            write_loop fuel' aspace user_buf (written + count) len
        end
      else st_ret (Ok written)
  end.

Definition sys_write_current (fd user_buf len : Z) : ST Machine SysResult :=
  if len =? 0 then st_ret (Ok 0)
  else
    let? pid := current_pid_or BadFd in
    let? entry := fd_entry_or pid fd BadFd in
    let? file := open_file_or (open_file entry) BadFd in
    match of_access file with
    | ReadOnly => st_ret (Err BadFd)
    | WriteOnly =>
        match of_kind file with
        | ConsoleStdout | ConsoleStderr =>
            let? aspace := address_space_or pid BadFd in
            let? _ := st_map_err map_user_memory_error
                        (with_mem (validate_user_read_range aspace user_buf len)) in
            write_loop (Z.to_nat (len / WRITE_CHUNK_SIZE + 2)) aspace user_buf 0 len
        | NullInput | EmbeddedFileKind _ => st_ret (Err BadFd)
        end
    end.

Definition sys_close_current (fd : Z) : ST Machine SysResult :=
  let? pid := current_pid_or BadFd in
  let* m := st_get in
  match ProcessTable.get (processes_of m) pid with
  | None => st_ret (Err BadFd)
  | Some p =>
      let '(r, table, files) := FdTable.close (p_fd_table p) fd (open_files (sched m)) in
      set_procs (ProcessTable.update (processes_of m) pid (set_fd_table p table)) ;;;
      set_files files ;;;
      let? _ := st_ret (map_err map_file_error r) in
      st_ret (Ok 0)
  end.

Definition sys_brk_current (requested : Z) : ST Machine SysResult :=
  let? pid := current_pid_or Invalid in
  let? p := st_gets (fun m => ok_or (ProcessTable.get (processes_of m) pid) Invalid) in
  let heap := p_heap p in
  if requested =? 0 then st_ret (virt_to_sys_value (heap_brk heap))
  else if requested <? heap_start heap then st_ret (Err Invalid)
  else if requested >? heap_limit heap then st_ret (Err NoMemory)
  else
    let* requested_addr := virt_addr requested in
    if requested_addr =? heap_brk heap then st_ret (virt_to_sys_value (heap_brk heap))
    else
      match align_up requested 4096 with
      | None => st_ret (Err Invalid)
      | Some aligned =>
          let* new_mapped_end := virt_addr aligned in
          let? _ :=
            (if requested_addr >? heap_brk heap then
               if new_mapped_end >? heap_mapped_end heap then
                 st_map_err map_heap_growth_error
                   (with_mem (map_user_heap_pages (p_address_space p) (heap_mapped_end heap)
                                                  new_mapped_end))
               else st_ret (Ok tt)
             else if new_mapped_end <? heap_mapped_end heap then
               st_map_err (fun _ => Invalid)
                 (with_mem (unmap_user_heap_pages (p_address_space p) new_mapped_end
                                                  (heap_mapped_end heap)))
             else st_ret (Ok tt)) in
          let* m := st_get in
          set_procs (ProcessTable.update (processes_of m) pid
                       (set_heap p (set_break heap requested_addr new_mapped_end))) ;;;
          st_ret (virt_to_sys_value requested_addr)
      end.

(** ** Entry points of the interrupt handlers and of the boot code *)

Definition on_timer_interrupt (frame_rsp : Z) : ST Machine Switch :=
  let* m := st_get in
  if preemption_enabled (sched m) && negb (OpenFileTable.is_none (current (sched m)))
  then switch_from_interrupt frame_rsp
  else st_ret (Resume frame_rsp).

Definition on_yield_interrupt (frame_rsp : Z) : ST Machine Switch :=
  switch_from_interrupt frame_rsp.

Definition on_syscall_yield (frame_rsp : Z) : ST Machine Switch :=
  switch_from_interrupt frame_rsp.

Definition set_task_initial_arg (task_id : TaskId) (arg0 : Z) : ST Machine bool :=
  let* m := st_get in
  match vget (tasks (sched m)) task_id with
  | None => st_ret false
  | Some t => if is_ready t then modify_kmem (set_saved_rdi t arg0) ;;; st_ret true
              else st_ret false
  end.

Definition enable_preemption : ST Machine unit := modify_sched (set_preemption true).
Definition disable_preemption : ST Machine unit := modify_sched (set_preemption false).

(** [scheduler::copy_to_user], from outside the process. *)
Definition task_copy_to_user (task_id : TaskId) (address : Z) (src : list Z) :
    ST Machine (result UserMemoryError unit) :=
  let* m := st_get in
  let? pid := st_ret (ok_or (match vget (tasks (sched m)) task_id with
                             | Some t => process_id t
                             | None => None
                             end) Unmapped) in
  let? aspace := st_ret (ok_or (ProcessTable.address_space (processes_of m) pid) Unmapped) in
  with_mem (copy_to_user aspace address src).

Definition user_page_is_mapped (pid : ProcessId) (address : Z) : ST Machine bool :=
  let* m := st_get in
  match ProcessTable.address_space (processes_of m) pid with
  | Some aspace => with_mem (user_page_is_accessible aspace address)
  | None => st_ret false
  end.

Definition task_read_user_u64 (task_id : TaskId) (address : Z) : ST Machine (option Z) :=
  let* m := st_get in
  match vget (tasks (sched m)) task_id with
  | None => st_ret None
  | Some t =>
      match process_id t with
      | None => st_ret None
      | Some pid =>
          match ProcessTable.address_space (processes_of m) pid with
          | None => st_ret None
          | Some aspace => with_mem (read_user_u64 aspace address)
          end
      end
  end.
End calls.

(** ** Queries *)

Definition task_exit_code (s : Scheduler) (id : TaskId) : option Z :=
  match vget (tasks s) id with Some t => t_exit_code t | None => None end.
Definition task_fault_info (s : Scheduler) (id : TaskId) : option UserFaultInfo :=
  match vget (tasks s) id with Some t => t_fault_info t | None => None end.
Definition task_process_id (s : Scheduler) (id : TaskId) : option ProcessId :=
  match vget (tasks s) id with Some t => process_id t | None => None end.
Definition process_fd_is_open (s : Scheduler) (pid : ProcessId) (fd : Z) : bool :=
  match ProcessTable.fd_table (proc_table s) pid with
  | Some table => FdTable.is_open table fd
  | None => false
  end.
Definition process_open_fd_count (s : Scheduler) (pid : ProcessId) : Z :=
  match ProcessTable.fd_table (proc_table s) pid with
  | Some table => FdTable.open_count table
  | None => 0
  end.
Definition open_file_count (s : Scheduler) : Z := OpenFileTable.active_count (open_files s).
Definition open_file_offset_for_fd (s : Scheduler) (pid : ProcessId) (fd : Z) : option Z :=
  match ProcessTable.fd_table (proc_table s) pid with
  | Some table =>
      match FdTable.get table fd with
      | Some entry => match OpenFileTable.get (open_files s) (open_file entry) with
                      | Some f => Some (of_offset f)
                      | None => None
                      end
      | None => None
      end
  | None => None
  end.
Definition process_state (s : Scheduler) (pid : ProcessId) : option ProcessState :=
  ProcessTable.state (proc_table s) pid.
Definition process_parent (s : Scheduler) (pid : ProcessId) : option (option ProcessId) :=
  ProcessTable.parent (proc_table s) pid.
Definition process_exists (s : Scheduler) (pid : ProcessId) : bool :=
  ProcessTable.exists_ (proc_table s) pid.
Definition process_heap_start (s : Scheduler) (pid : ProcessId) : option Z :=
  match ProcessTable.heap (proc_table s) pid with Some h => Some (heap_start h) | None => None end.
Definition process_program_break (s : Scheduler) (pid : ProcessId) : option Z :=
  match ProcessTable.heap (proc_table s) pid with Some h => Some (heap_brk h) | None => None end.
Definition process_heap_mapped_end (s : Scheduler) (pid : ProcessId) : option Z :=
  match ProcessTable.heap (proc_table s) pid with Some h => Some (heap_mapped_end h) | None => None end.
Definition process_heap_limit (s : Scheduler) (pid : ProcessId) : option Z :=
  match ProcessTable.heap (proc_table s) pid with Some h => Some (heap_limit h) | None => None end.
Definition finished_task_count (s : Scheduler) : Z := finished_count (tasks s).
Definition failed_task_count (s : Scheduler) : Z := failed_count (tasks s).
