(* ===== verification/Interrupts.v ===== *)
(** * System-call dispatch and interrupt handlers
    (src/src/syscall.rs, src/src/interrupts.rs)

    [dispatch] decodes the trap frame of [int 0x80]; the handlers of
    interrupts.rs wrap it, the timer, the yield interrupt and the two user
    faults. [Kernel] adds the tick counter and the acknowledgements sent to
    the PIC to the machine. *)

From S2P Require Import Prelude File Fd X86 Memory AddressSpace UserMemory Process Context.
From S2P Require Import Serial Task Syscall User Elf Scheduler SchedulerCalls.

Definition PIC_1_OFFSET : Z := 32.
Definition PIC_2_OFFSET : Z := PIC_1_OFFSET + 8.
Definition PIT_FREQUENCY_HZ : Z := 100.
Definition YIELD_VECTOR : Z := PIC_2_OFFSET + 8.
Definition PIT_BASE_FREQUENCY_HZ : Z := 1193182.
Definition PIT_COMMAND_PORT : Z := 0x43.
Definition PIT_CHANNEL_0_PORT : Z := 0x40.
Definition PIT_CHANNEL_0_SQUARE_WAVE : Z := 0x36.

Inductive InterruptIndex : Type := Timer | Keyboard | YieldIndex | SyscallIndex.

Definition as_u8 (i : InterruptIndex) : Z :=
  match i with
  | Timer => PIC_1_OFFSET
  | Keyboard => PIC_1_OFFSET + 1
  | YieldIndex => YIELD_VECTOR
  | SyscallIndex => SYSCALL_VECTOR
  end.

(** The port writes of [init_pit]: the command, then the low and the high
    byte of [(PIT_BASE_FREQUENCY_HZ / PIT_FREQUENCY_HZ) as u16]. *)
Definition pit_divisor : Z := (PIT_BASE_FREQUENCY_HZ / PIT_FREQUENCY_HZ) mod 2 ^ 16.

Definition init_pit : list (Z * Z) :=
  [(PIT_COMMAND_PORT, PIT_CHANNEL_0_SQUARE_WAVE);
   (PIT_CHANNEL_0_PORT, Z.land pit_divisor 0x00ff mod 256);
   (PIT_CHANNEL_0_PORT, Z.shiftr pit_divisor 8 mod 256)].

Definition page_fault_reason (error_code : Z) : string :=
  if contains error_code 1 then "protection violation" else "page not present".
Definition page_fault_access (error_code : Z) : string :=
  if contains error_code 2 then "write" else "read".
Definition page_fault_mode (error_code : Z) : string :=
  if contains error_code 4 then "user" else "supervisor".

(** The machine with [TIMER_TICKS] and the vectors acknowledged to the PIC. *)
Record Kernel : Type := mkKernel {
  machine : Machine;
  timer_ticks : Z;
  eoi : list Z
}.

Definition set_machine (m : Machine) (k : Kernel) : Kernel := mkKernel m (timer_ticks k) (eoi k).

Definition with_machine {A} (m : ST Machine A) : ST Kernel A := st_zoom machine set_machine m.

(** A handler that ends in [hlt_loop]: the kernel halts for good. *)
Definition halted : string := "hlt_loop".

(** [result.map(..).unwrap_or_else(SysError::raw_return)] *)
Definition sys_return (r : SysResult) : Z :=
  match r with Ok v => v | Err e => raw_return e end.

Section dispatch.
Context {X : X86_64}.

(** Running a call and storing its value in [frame.rax]. *)
Definition returning (frame_rsp : Z) (call : ST Machine SysResult) : ST Machine Switch :=
  let* r := call in
  set_frame_rax frame_rsp (sys_return r) ;;;
  st_ret (Resume frame_rsp).

Definition dispatch (frame_rsp : Z) : ST Machine Switch :=
  let* m := st_get in
  let rdi := kmem m (frame_rsp + OFF_RDI) in
  let rsi := kmem m (frame_rsp + OFF_RSI) in
  let rdx := kmem m (frame_rsp + OFF_RDX) in
  match from_raw (kmem m (frame_rsp + OFF_RAX)) with
  | Some Yield =>
      set_frame_rax frame_rsp 0 ;;;
      on_syscall_yield frame_rsp
  | Some Exit => exit_current_from_interrupt frame_rsp rdi
  | Some SysWrite =>
      let* buf := virt_addr rsi in
      returning frame_rsp (sys_write_current rdi buf rdx)
  | Some GetPid =>
      returning frame_rsp
        (let* pid := current_process_id in st_ret (ok_or pid Child))
  | Some WaitPid =>
      let* status_ptr := wait_status_address rsi in
      waitpid_from_interrupt frame_rsp rdi status_ptr rdx
  | Some Open =>
      let* path := virt_addr rdi in
      returning frame_rsp (sys_open_current path rsi rdx)
  | Some SysRead =>
      let* buf := virt_addr rsi in
      returning frame_rsp (sys_read_current rdi buf rdx)
  | Some Close => returning frame_rsp (sys_close_current rdi)
  | Some Brk => returning frame_rsp (sys_brk_current rdi)
  | None =>
      set_frame_rax frame_rsp (raw_return NoSys) ;;;
      st_ret (Resume frame_rsp)
  end.

(** ** The handlers the assembly entries call *)

Definition timer_interrupt_rust (frame_rsp : Z) : ST Kernel Switch :=
  st_modify (fun k => mkKernel (machine k) ((timer_ticks k + 1) mod 2 ^ 64) (eoi k)) ;;;
  let* next_rsp := with_machine (on_timer_interrupt frame_rsp) in
  st_modify (fun k => mkKernel (machine k) (timer_ticks k) (eoi k ++ [as_u8 Timer])) ;;;
  st_ret next_rsp.

Definition yield_interrupt_rust (frame_rsp : Z) : ST Kernel Switch :=
  with_machine (on_yield_interrupt frame_rsp).

Definition syscall_interrupt_rust (frame_rsp : Z) : ST Kernel Switch :=
  with_machine (dispatch frame_rsp).

(** [frame.cs & 0x3 == 0x3]: the fault came from ring 3. *)
Definition from_user (k : KMem) (frame_rsp : Z) : bool :=
  Z.land (k (frame_rsp + OFF_ERR_CS)) 0x3 =? 0x3.

Definition general_protection_rust (frame_rsp : Z) : ST Kernel Switch :=
  let* k := st_get in
  let frame := kmem (machine k) in
  if from_user frame frame_rsp then
    with_machine (fail_current_with_fault frame_rsp
      (mkFaultInfo GeneralProtection None (frame (frame_rsp + OFF_ERROR_CODE))))
  else st_panic halted.

(** [cr2] is the address the processor reports for the fault. *)
Definition page_fault_rust (cr2 frame_rsp : Z) : ST Kernel Switch :=
  let* k := st_get in
  let frame := kmem (machine k) in
  if from_user frame frame_rsp then
    with_machine (fail_current_with_fault frame_rsp
      (mkFaultInfo PageFault (Some cr2) (frame (frame_rsp + OFF_ERROR_CODE))))
  else st_panic halted.

Definition keyboard_interrupt_handler : ST Kernel unit :=
  st_modify (fun k => mkKernel (machine k) (timer_ticks k) (eoi k ++ [as_u8 Keyboard])).
End dispatch.
