(* ===== verification/Boot.v ===== *)
(** * Descriptor tables and devices
    (src/src/gdt.rs, src/src/interrupts.rs, src/src/serial.rs, src/src/qemu.rs)

    The segments, the task state segment, the interrupt descriptor table and
    the port writes that initialise the devices. The global descriptor table
    belongs to the x86_64 crate and is reached through the class [Segments].
    Shown here: user code runs in ring 3 and the kernel in ring 0, the
    system-call vector is the only one a program can raise, and a double
    fault has a stack of its own. *)

From S2P Require Import Prelude X86 Serial Scheduler Interrupts.

(** ** Segments *)

Inductive Descriptor : Type :=
| kernel_code_segment
| kernel_data_segment
| user_data_segment
| user_code_segment
| tss_segment.

(** [GlobalDescriptorTable]: [new], and [add_entry], which returns a selector
    or panics when the table is full. *)
Class Segments : Type := {
  Gdt : Type;
  Gdt_new : Gdt;
  add_entry : Gdt -> Descriptor -> option (Z * Gdt)
}.

(** A new table has the null descriptor and room for seven more words; a
    segment takes one, a TSS two. The selector is the byte offset of the entry
    and, in the low bits, the privilege level of the descriptor. *)
Definition descriptor_words (d : Descriptor) : Z :=
  match d with tss_segment => 2 | _ => 1 end.

Definition descriptor_ring (d : Descriptor) : Z :=
  match d with user_data_segment | user_code_segment => 3 | _ => 0 end.

Class Segments_Spec (G : Segments) : Type := {
  words_used : Gdt -> Z;
  Gdt_new_words : words_used Gdt_new = 1;
  add_entry_spec g d : words_used g + descriptor_words d <= 8 ->
    exists g', add_entry g d = Some (8 * words_used g + descriptor_ring d, g') /\
      words_used g' = words_used g + descriptor_words d
}.

Record Selectors : Type := mkSelectors {
  code_selector : Z;
  data_selector : Z;
  user_code_selector : Z;
  user_data_selector : Z;
  tss_selector : Z
}.

Definition DOUBLE_FAULT_IST_INDEX : Z := 0.
Definition DOUBLE_FAULT_STACK_SIZE : Z := 4096 * 5.

(** [SELECTORS] before [init_gdt]: index 0, with the ring of each segment. *)
Definition Selectors_initial : Selectors := mkSelectors 0 0 3 3 0.

(** The statics of gdt.rs and the registers [load_gdt] sets. *)
Record CpuTables {G : Segments} : Type := mkCpuTables {
  ist : list Z;
  GDT : Gdt;
  SELECTORS : Selectors;
  loaded_cs : Z;
  loaded_ss : Z;
  task_register : Z
}.

Section gdt.
Context {G : Segments} {X : X86_64}.

(** The address of [DOUBLE_FAULT_STACK] is chosen by the linker. *)
Definition init_tss (DOUBLE_FAULT_STACK : Z) : ST CpuTables unit :=
  st_modify (fun t =>
    mkCpuTables G (vset (ist t) DOUBLE_FAULT_IST_INDEX (DOUBLE_FAULT_STACK + DOUBLE_FAULT_STACK_SIZE))
      (GDT t) (SELECTORS t) (loaded_cs t) (loaded_ss t) (task_register t)).

Definition gdt_add_entry (d : Descriptor) : ST CpuTables Z :=
  let* t := st_get in
  match add_entry (GDT t) d with
  | Some (selector, g) =>
      st_put (mkCpuTables G (ist t) g (SELECTORS t) (loaded_cs t) (loaded_ss t) (task_register t)) ;;;
      st_ret selector
  | None => st_panic "GDT full"
  end.

Definition init_gdt : ST CpuTables unit :=
  let* code_selector := gdt_add_entry kernel_code_segment in
  let* data_selector := gdt_add_entry kernel_data_segment in
  let* user_data_selector := gdt_add_entry user_data_segment in
  let* user_code_selector := gdt_add_entry user_code_segment in
  let* tss_selector := gdt_add_entry tss_segment in
  st_modify (fun t =>
    mkCpuTables G (ist t) (GDT t)
      (mkSelectors code_selector data_selector user_code_selector user_data_selector tss_selector)
      (loaded_cs t) (loaded_ss t) (task_register t)).

Definition load_gdt : ST CpuTables unit :=
  st_modify (fun t =>
    mkCpuTables G (ist t) (GDT t) (SELECTORS t)
      (code_selector (SELECTORS t)) (data_selector (SELECTORS t)) (tss_selector (SELECTORS t))).

Definition gdt_init (DOUBLE_FAULT_STACK : Z) : ST CpuTables unit :=
  init_tss DOUBLE_FAULT_STACK ;;; init_gdt ;;; load_gdt.

(** The accessors of the selectors; the user ones go through [with_rpl]. *)
Definition with_rpl (selector rpl : Z) : Z := SegmentSelector_set_rpl selector rpl.
Definition get_kernel_code_selector (t : CpuTables) : Z := code_selector (SELECTORS t).
Definition get_kernel_data_selector (t : CpuTables) : Z := data_selector (SELECTORS t).
Definition get_user_code_selector (t : CpuTables) : Z := with_rpl (user_code_selector (SELECTORS t)) 3.
Definition get_user_data_selector (t : CpuTables) : Z := with_rpl (user_data_selector (SELECTORS t)) 3.

(** The tables before [init]: a TSS with seven empty interrupt stacks. *)
Definition tables_initial (cs ss tr : Z) : CpuTables :=
  mkCpuTables G (replicate 7 0) Gdt_new Selectors_initial cs ss tr.

Context {GS : Segments_Spec G} {XS : X86_64_Spec X}.

Lemma wp_add_entry u d {B} (k : Z -> ST CpuTables B) Q t :
  words_used (GDT t) = u -> u + descriptor_words d <= 8 ->
  (forall g, words_used g = u + descriptor_words d ->
    wp (k (8 * u + descriptor_ring d)) Q
      (mkCpuTables G (ist t) g (SELECTORS t) (loaded_cs t) (loaded_ss t) (task_register t))) ->
  wp (st_bind (gdt_add_entry d) k) Q t.
Proof.
  intros <- Hw H. unfold gdt_add_entry. wp_steps. destruct (add_entry_spec (GDT t) d Hw) as (g & -> & Hg).
  wp_steps. by apply H.
Qed.

(** What [init] leaves: the interrupt stack of double faults, the kernel's
    ring-0 segments loaded, and user selectors of ring 3, all different. *)
Record tables_ready (stack : Z) (t : CpuTables) : Prop := mkTablesReady {
  tr_ist : vget (ist t) DOUBLE_FAULT_IST_INDEX = Some (stack + DOUBLE_FAULT_STACK_SIZE);
  tr_cs : loaded_cs t = get_kernel_code_selector t /\ loaded_cs t mod 4 = 0;
  tr_ss : loaded_ss t = get_kernel_data_selector t /\ loaded_ss t mod 4 = 0;
  tr_user : get_user_code_selector t mod 4 = 3 /\ get_user_data_selector t mod 4 = 3;
  tr_tss : task_register t = tss_selector (SELECTORS t);
  tr_distinct : NoDup [loaded_cs t; loaded_ss t; get_user_code_selector t; get_user_data_selector t;
                       task_register t]
}.

(** Add the next entry, at word [u]. *)
Ltac add_segment u :=
  let g := fresh "g" in let E := fresh "E" in
  apply (wp_add_entry u); [done|cbn; lia|]; intros g E; cbn [ist GDT SELECTORS loaded_cs loaded_ss task_register].

Lemma gdt_init_run stack cs ss tr :
  wp (gdt_init stack) (fun _ t => tables_ready stack t) (tables_initial cs ss tr).
Proof.
  unfold gdt_init, init_tss. wp_steps. unfold init_gdt. pose proof Gdt_new_words.
  add_segment 1. add_segment 2. add_segment 3. add_segment 4. add_segment 5.
  unfold load_gdt. wp_steps. cbn [ist GDT SELECTORS loaded_cs loaded_ss task_register].
  constructor; unfold get_kernel_code_selector, get_kernel_data_selector, get_user_code_selector,
    get_user_data_selector, with_rpl; cbn [ist SELECTORS loaded_cs loaded_ss task_register code_selector
    data_selector user_code_selector user_data_selector tss_selector]; rewrite ?set_rpl_spec by lia; try done.
  by apply (bool_decide_unpack _).
Qed.
End gdt.

(** ** The interrupt descriptor table *)

(** What a gate leads to: the assembly entries of context.rs and the handlers
    of interrupts.rs with the [x86-interrupt] calling convention. *)
Inductive gate_target : Type :=
| breakpoint_handler
| double_fault_handler
| keyboard_handler
| page_fault_entry
| general_protection_entry
| timer_interrupt_entry
| yield_interrupt_entry
| syscall_interrupt_entry.

(** A present interrupt gate; a handler set by address gets privilege level 0
    and the current stack. *)
Record gate : Type := mkGate { gate_target_of : gate_target; gate_dpl : Z; gate_ist : option Z }.

Definition Idt : Type := Z -> option gate.
Definition Idt_new : Idt := fun _ => None.

Definition set_handler (v : Z) (h : gate_target) (idt : Idt) : Idt :=
  fun x => if x =? v then Some (mkGate h 0 None) else idt x.
Definition set_stack_index (v i : Z) (idt : Idt) : Idt :=
  fun x => if x =? v then option_map (fun g => mkGate (gate_target_of g) (gate_dpl g) (Some i)) (idt x) else idt x.
Definition set_privilege_level (v dpl : Z) (idt : Idt) : Idt :=
  fun x => if x =? v then option_map (fun g => mkGate (gate_target_of g) dpl (gate_ist g)) (idt x) else idt x.

(** The exception vectors of the architecture. *)
Definition BREAKPOINT : Z := 3.
Definition DOUBLE_FAULT : Z := 8.
Definition GENERAL_PROTECTION : Z := 13.
Definition PAGE_FAULT : Z := 14.

Definition init_idt (idt : Idt) : Idt :=
  let idt := set_handler BREAKPOINT breakpoint_handler idt in
  let idt := set_handler PAGE_FAULT page_fault_entry idt in
  let idt := set_handler GENERAL_PROTECTION general_protection_entry idt in
  let idt := set_stack_index DOUBLE_FAULT DOUBLE_FAULT_IST_INDEX
               (set_handler DOUBLE_FAULT double_fault_handler idt) in
  let idt := set_handler (as_u8 Timer) timer_interrupt_entry idt in
  let idt := set_handler (as_u8 YieldIndex) yield_interrupt_entry idt in
  let idt := set_privilege_level (as_u8 SyscallIndex) 3
               (set_handler (as_u8 SyscallIndex) syscall_interrupt_entry idt) in
  set_handler (as_u8 Keyboard) keyboard_handler idt.

Definition IDT : Idt := init_idt Idt_new.

(** A software interrupt from ring 3 goes through a gate of privilege level 3
    and is a general protection fault otherwise. *)
Definition user_gate (v : Z) : option gate_target :=
  match IDT v with
  | Some g => if gate_dpl g =? 3 then Some (gate_target_of g) else None
  | None => None
  end.

Lemma user_gate_spec v :
  user_gate v = if v =? as_u8 SyscallIndex then Some syscall_interrupt_entry else None.
Proof.
  unfold user_gate, IDT, init_idt, set_handler, set_privilege_level, set_stack_index, Idt_new, as_u8.
  repeat match goal with |- context [v =? ?x] =>
    tryif is_var x then fail else destruct (Z.eqb_spec v x) as [->|]; [by vm_compute|] end.
  done.
Qed.

(** Every vector the kernel uses has the right handler, and only the double
    fault handler switches stacks. *)
Lemma idt_handlers :
  forall v g, IDT v = Some g ->
    (v, gate_target_of g) ∈
      [(3, breakpoint_handler); (8, double_fault_handler); (13, general_protection_entry);
       (14, page_fault_entry); (32, timer_interrupt_entry); (33, keyboard_handler);
       (48, yield_interrupt_entry); (128, syscall_interrupt_entry)] /\
    (gate_ist g = Some DOUBLE_FAULT_IST_INDEX <-> v = DOUBLE_FAULT).
Proof.
  intros v g. unfold IDT, init_idt, set_handler, set_privilege_level, set_stack_index, Idt_new, as_u8.
  repeat match goal with |- context [v =? ?x] =>
    destruct (Z.eqb_spec v x) as [->|]; [cbn; intros [= <-]; cbn; rewrite !elem_of_cons; split; [auto 20|done]|]
  end.
  done.
Qed.

(** ** Devices *)

(** [pics.initialize()] of the pic8259 crate, the masks, and the bytes sent to
    ports, in the order of the writes. *)
Inductive io : Type :=
| PicsInitialize (offset_1 offset_2 : Z)
| PicsWriteMasks (mask_1 mask_2 : Z)
| PortWrite (port value : Z).

Definition init_pics : list io :=
  [PicsInitialize PIC_1_OFFSET PIC_2_OFFSET; PicsWriteMasks 0xfc 0xff].

Definition pit_writes : list io := map (fun w => PortWrite w.1 w.2) init_pit.

Definition COM1 : Z := 0x3f8.

Definition serial_port_init : list io :=
  [PortWrite (COM1 + 1) 0x00; PortWrite (COM1 + 3) 0x80; PortWrite COM1 0x03; PortWrite (COM1 + 1) 0x00;
   PortWrite (COM1 + 3) 0x03; PortWrite (COM1 + 2) 0xc7; PortWrite (COM1 + 4) 0x0b].

Inductive QemuExitCode : Type := Success | Failed.

Definition QemuExitCode_as_u32 (c : QemuExitCode) : Z :=
  match c with Success => 0x10 | Failed => 0x11 end.

Definition exit_qemu (c : QemuExitCode) : list io := [PortWrite 0xf4 (QemuExitCode_as_u32 c)].

(** An interrupt request line is delivered when its bit is clear. *)
Definition irq_unmasked (masks : Z * Z) (irq : Z) : bool :=
  negb (Z.testbit (if irq <? 8 then masks.1 else masks.2) (irq mod 8)).

(** Of the sixteen lines only the timer and the keyboard are delivered, and
    both vectors have a handler. *)
Lemma delivered_irqs_handled irq :
  0 <= irq < 16 -> irq_unmasked (0xfc, 0xff) irq = true ->
  irq ∈ [0; 1] /\ is_Some (IDT (PIC_1_OFFSET + irq)).
Proof.
  intros Hr H. assert (irq = 0 \/ irq = 1 \/ irq ∈ seqZ 2 14) as [->|[->|Hi]].
  { rewrite elem_of_seqZ. lia. }
  1-2: split; [by apply (bool_decide_unpack _)|by eexists].
  assert (Forall (fun i => irq_unmasked (0xfc, 0xff) i = false) (seqZ 2 14)) as Hm by (by apply (bool_decide_unpack _)).
  rewrite Forall_forall in Hm. by rewrite (Hm _ Hi) in H.
Qed.

(** The PIT channel counts down from the divisor: 1193182 / 11931 is 100 Hz. *)
Lemma pit_rate :
  pit_writes = [PortWrite 0x43 0x36; PortWrite 0x40 (11931 mod 256); PortWrite 0x40 (11931 / 256)] /\
  PIT_BASE_FREQUENCY_HZ / 11931 = PIT_FREQUENCY_HZ.
Proof. by vm_compute. Qed.

(** ** The report of a fatal page fault *)

Definition yes_no (value : bool) : string := if value then "yes" else "no".

Definition MALFORMED_TABLE : Z := 8.
Definition INSTRUCTION_FETCH : Z := 16.

Definition print_page_fault_error (error_code : Z) : list string :=
  ["Page fault details:";
   "  reason: " ++ page_fault_reason error_code;
   "  access: " ++ page_fault_access error_code;
   "  mode: " ++ page_fault_mode error_code;
   "  reserved bit violation: " ++ yes_no (contains error_code MALFORMED_TABLE);
   "  instruction fetch: " ++ yes_no (contains error_code INSTRUCTION_FETCH)]%string.
