(* ===== verification/RoundRobin.v ===== *)
(** * The choice of the next task (src/src/scheduler.rs, [next_ready_after])

    The search visits every slot once, in cyclic order from the slot after
    [start]. It returns the first ready task of that order, and fails only
    when no task is ready. *)

From S2P Require Import Prelude Process Context Task Scheduler.

(** How many steps from [start] to slot [i], between 1 and the number of
    tasks. *)
Definition distance (ts : list Task) (start i : Z) : Z := (i - start - 1) mod vlen ts + 1.

Definition ready_at (ts : list Task) (i : Z) : Prop :=
  exists t, vget ts i = Some t /\ t_state t = Ready.

Lemma is_ready_spec t : is_ready t = true <-> t_state t = Ready.
Proof. unfold is_ready. by destruct (t_state t). Qed.

Lemma find_ready_spec ts start offset n :
  ts <> [] ->
  match find_ready ts start offset n with
  | Some i => exists k, offset <= k < offset + Z.of_nat n /\ i = (start + k) mod vlen ts /\
      ready_at ts i /\ forall k', offset <= k' < k -> ~ ready_at ts ((start + k') mod vlen ts)
  | None => forall k, offset <= k < offset + Z.of_nat n -> ~ ready_at ts ((start + k) mod vlen ts)
  end.
Proof.
  intros Hne. assert (0 < vlen ts) as Hl by (destruct ts; [done|unfold vlen; cbn; lia]).
  revert offset. induction n as [|n IH]; intros offset; cbn [find_ready]; [intros; lia|].
  destruct (vget_is_Some ts ((start + offset) mod vlen ts)) as [t Ht];
    [apply Z.mod_pos_bound; lia|]. rewrite Ht.
  destruct (is_ready t) eqn:E.
  - exists offset. split; [lia|]. split; [done|]. split; [|intros; lia].
    exists t. by rewrite <- is_ready_spec.
  - assert (~ ready_at ts ((start + offset) mod vlen ts)) as Hno.
    { intros (u & Hu & Hs). rewrite Ht in Hu. injection Hu as <-. apply is_ready_spec in Hs. congruence. }
    specialize (IH (offset + 1)). destruct (find_ready ts start (offset + 1) n) as [i|].
    + destruct IH as (k & Hk & Hi & Hr & Hf). exists k. split; [lia|]. split; [done|]. split; [done|].
      intros k' Hk'. destruct (decide (k' = offset)) as [->|]; [done|apply Hf; lia].
    + intros k Hk. destruct (decide (k = offset)) as [->|]; [done|apply IH; lia].
Qed.

Lemma distance_slot ts start k :
  1 <= k <= vlen ts -> distance ts start ((start + k) mod vlen ts) = k.
Proof.
  intros Hk. unfold distance. rewrite <- Z.sub_add_distr, Zminus_mod_idemp_l.
  replace (start + k - (start + 1)) with (k - 1) by lia. rewrite Z.mod_small; lia.
Qed.

Lemma slot_distance ts start i :
  0 <= i < vlen ts -> (start + distance ts start i) mod vlen ts = i.
Proof.
  intros Hi. unfold distance. replace (start + ((i - start - 1) mod vlen ts + 1)) with
    ((start + 1) + (i - start - 1) mod vlen ts) by lia.
  rewrite Zplus_mod_idemp_r. replace (start + 1 + (i - start - 1)) with i by lia.
  by apply Z.mod_small.
Qed.

Lemma distance_range ts start i : 0 < vlen ts -> 1 <= distance ts start i <= vlen ts.
Proof. intros H. unfold distance. pose proof (Z.mod_pos_bound (i - start - 1) (vlen ts)). lia. Qed.

Lemma next_ready_Some ts start i :
  next_ready_after ts start = Some i ->
  ready_at ts i /\
  forall j, 0 <= j < vlen ts -> distance ts start j < distance ts start i -> ~ ready_at ts j.
Proof.
  unfold next_ready_after. destruct ts as [|t0 ts0] eqn:E; [done|]. rewrite <- E in *. intros H.
  pose proof (find_ready_spec ts start 1 (length ts)) as F. rewrite H in F.
  destruct F as (k & Hk & -> & Hr & Hf); [by subst|]. split; [done|].
  assert (1 <= k <= vlen ts) as Hk' by (unfold vlen; lia).
  intros j Hj Hd. rewrite distance_slot in Hd by done. rewrite <- (slot_distance ts start j Hj).
  apply Hf. pose proof (distance_range ts start j). lia.
Qed.

Lemma next_ready_None ts start j :
  next_ready_after ts start = None -> 0 <= j < vlen ts -> ~ ready_at ts j.
Proof.
  unfold next_ready_after. destruct ts as [|t0 ts0] eqn:E; [unfold vlen; cbn; lia|].
  rewrite <- E in *. intros H Hj.
  pose proof (find_ready_spec ts start 1 (length ts)) as F. rewrite H in F.
  rewrite <- (slot_distance ts start j Hj). apply F; [by subst|].
  pose proof (distance_range ts start j). unfold vlen in *. lia.
Qed.

Lemma next_ready_exists ts start j :
  ready_at ts j -> exists i, next_ready_after ts start = Some i.
Proof.
  intros Hr. destruct (next_ready_after ts start) eqn:E; [eauto|].
  destruct Hr as (t & Ht & Hs). pose proof (vget_range _ _ _ Ht).
  destruct (next_ready_None _ _ _ E H). by exists t.
Qed.

Lemma first_ready_Some ts i :
  first_ready ts = Some i -> ready_at ts i /\ forall j, 0 <= j < i -> ~ ready_at ts j.
Proof.
  unfold first_ready. intros (t & Ht & Hr & Hb)%position_Some.
  split; [exists t; by rewrite <- is_ready_spec|].
  intros j Hj (u & Hu & Hs%is_ready_spec). rewrite (Hb j u Hj Hu) in Hs. done.
Qed.

(** The choice depends on the states only. *)
Lemma find_ready_same ts i t t' start offset n :
  vget ts i = Some t -> t_state t' = t_state t ->
  find_ready (vset ts i t') start offset n = find_ready ts start offset n.
Proof.
  intros Hi Hs. revert offset. induction n as [|n IH]; intros offset; cbn [find_ready]; [done|].
  rewrite vlen_vset, vget_vset, IH. case_decide as E; [|done]. destruct E as [<- _]. rewrite Hi.
  unfold is_ready. by rewrite Hs.
Qed.

Lemma next_ready_same ts i t t' start :
  vget ts i = Some t -> t_state t' = t_state t ->
  next_ready_after (vset ts i t') start = next_ready_after ts start.
Proof.
  intros Hi Hs.
  assert (length (vset ts i t') = length ts) as Hl
    by (pose proof (vlen_vset ts i t'); unfold vlen in *; lia).
  pose proof (find_ready_same ts i t t' start 1 (length ts) Hi Hs) as Hf. rewrite <- Hl in Hf at 1.
  unfold next_ready_after. destruct (vset ts i t'), ts; done.
Qed.

(** Moving on to the next ready task brings every other ready task closer. *)
Lemma distance_step ts start n j :
  0 <= n < vlen ts -> 0 <= j < vlen ts -> distance ts start n < distance ts start j ->
  distance ts n j = distance ts start j - distance ts start n.
Proof.
  intros Hn Hj Hlt. pose proof (distance_range ts start n). pose proof (distance_range ts start j).
  rewrite <- (distance_slot ts n (distance ts start j - distance ts start n)) by lia. f_equal.
  rewrite <- (slot_distance ts start n Hn) at 1. rewrite Zplus_mod_idemp_l.
  rewrite <- (slot_distance ts start j Hj) at 1. f_equal. lia.
Qed.

Lemma next_ready_closer ts start n j :
  next_ready_after ts start = Some n -> ready_at ts j -> n <> j ->
  distance ts n j < distance ts start j.
Proof.
  intros H Hj Hne. destruct (next_ready_Some _ _ _ H) as [(u & Hu & _) Hmin].
  pose proof (vget_range _ _ _ Hu) as Hn. pose proof Hj as (v & Hv & Hs).
  pose proof (vget_range _ _ _ Hv) as Hjr. pose proof (distance_range ts start n).
  destruct (Z.lt_trichotomy (distance ts start n) (distance ts start j)) as [Hlt|[Heq|Hgt]].
  - rewrite (distance_step ts start n j Hn Hjr Hlt). lia.
  - destruct Hne. rewrite <- (slot_distance ts start n Hn), <- (slot_distance ts start j Hjr). by rewrite Heq.
  - by destruct (Hmin j Hjr Hgt).
Qed.

(** ** Progress to a ready task *)

(** [distance] with a bound [n] on the number of tasks in place of the
    number itself, so that it does not depend on tasks that are added. *)
Definition distance_in (n start i : Z) : Z := (i - start - 1) mod n + 1.

Lemma distance_in_eq n a b :
  0 <= a < n -> 0 <= b < n -> distance_in n a b = if a <? b then b - a else n + b - a.
Proof.
  intros Ha Hb. unfold distance_in. destruct (Z.ltb_spec a b).
  - rewrite Z.mod_small; lia.
  - rewrite <- (Z.mod_add _ 1) by lia. rewrite Z.mod_small; lia.
Qed.

Lemma distance_in_pos n a b : 0 < n -> 1 <= distance_in n a b <= n.
Proof. intros H. unfold distance_in. pose proof (Z.mod_pos_bound (b - a - 1) n). lia. Qed.

(** The next ready task is closer to every other ready task. *)
Lemma next_ready_nearer n ts start x j :
  vlen ts <= n -> 0 <= start < vlen ts -> next_ready_after ts start = Some x -> ready_at ts j -> x <> j ->
  distance_in n x j < distance_in n start j.
Proof.
  intros Hn Hs H Hj Hne. destruct (next_ready_Some _ _ _ H) as [(u & Hu & _) Hmin].
  pose proof (vget_range _ _ _ Hu) as Hx. pose proof Hj as (v & Hv & _). pose proof (vget_range _ _ _ Hv) as Hjr.
  assert (~ distance ts start j < distance ts start x) as Hle by (intros Hlt; by apply (Hmin j Hjr Hlt)).
  change (distance ts) with (distance_in (vlen ts)) in Hle. rewrite !distance_in_eq in * by lia.
  destruct (Z.ltb_spec start j), (Z.ltb_spec start x), (Z.ltb_spec x j); lia.
Qed.

Lemma ready_at_vset ts i t j : ready_at ts j -> i <> j -> ready_at (vset ts i t) j.
Proof. intros (u & Hu & Hs) Hne. exists u. split; [|done]. rewrite vget_vset_ne; [done|done]. Qed.
