(* ===== verification/Invariant.v ===== *)
(** * The system invariant

    [core ts pt fs run] ties the task list, the process table and the
    open-file table together; [run] is the index of the task that is running,
    if any. [ok m] adds the processor: the running task's page table is
    loaded, its kernel stack is in the TSS, and the scheduler's record of CR3
    is right. Every step of the scheduler is described here by what it does to
    [core]. *)

From S2P Require Import Prelude File Fd X86 Memory AddressSpace UserMemory Process Context.
From S2P Require Import Serial Task Syscall User Elf Scheduler SchedulerCalls.

Import ProcessTableFacts.

(** A process that has not exited. *)
Definition live (pt : ProcessTable) (pid : ProcessId) (p : Process) : Prop :=
  ProcessTable.get pt pid = Some p /\ p_state p = PRunning.

(** The tasks and the process table. [gone] is a child that has exited but
    whose waiter has not been woken yet. *)
Record linked (ts : list Task) (pt : ProcessTable) (run : option Z) (gone : option ProcessId) :
    Prop := mkLinked {
  ln_len : vlen ts <= MAX_TASKS;
  ln_id i t : vget ts i = Some t -> t_id t = i;
  (** exactly the task [run] is running *)
  ln_run i : run = Some i <-> exists t, vget ts i = Some t /\ t_state t = Running;
  (** the process of a task that has not ended is live, and the task is its own *)
  ln_task i t pid : vget ts i = Some t -> process_id t = Some pid -> is_terminal t = false ->
    exists p, live pt pid p /\ p_main_task p = i;
  (** a live process has its task *)
  ln_proc pid p : live pt pid p ->
    exists t, vget ts (p_main_task p) = Some t /\ process_id t = Some pid /\ is_terminal t = false;
  (** a blocked task waits for a child of its process, which is still live,
      and its status pointer was accepted by [VirtAddr::new] *)
  ln_wait i t child ptr : vget ts i = Some t -> t_state t = Blocked (ChildExit child ptr) ->
    (forall a, ptr = Some a -> canonical a) /\
    exists pid p, process_id t = Some pid /\ live pt pid p /\ child ∈ p_children p /\
      (gone = Some child \/ exists q, live pt child q)
}.

(** The reference count of every open file is the number of descriptors
    that name it. *)
Record files_ok (pt : ProcessTable) (fs : OpenFileTable) : Prop := mkFilesOk {
  fl_table : OpenFileTable.table_ok fs;
  fl_refs id : OpenFileTable.rc fs id = total_refs pt id
}.

Record coreg (ts : list Task) (pt : ProcessTable) (fs : OpenFileTable) (run : option Z)
    (gone : option ProcessId) : Prop := mkCore {
  co_table : table_wf pt;
  co_fds : fds_wf pt;
  co_heap pid p : ProcessTable.get pt pid = Some p -> heap_ok (p_heap p);
  co_linked : linked ts pt run gone;
  co_files : files_ok pt fs
}.

Definition core (ts : list Task) (pt : ProcessTable) (fs : OpenFileTable) (run : option Z) : Prop :=
  coreg ts pt fs run None.

(** ** Tasks *)

(** Two tasks that differ in their saved context or their outcome only. *)
Definition same_task (t t' : Task) : Prop :=
  t_id t' = t_id t /\ t_state t' = t_state t /\ t_address_space t' = t_address_space t /\
  t_kernel_stack_top t' = t_kernel_stack_top t.

Lemma same_task_process t t' : same_task t t' -> process_id t' = process_id t.
Proof. intros (_ & _ & H & _). unfold process_id. by rewrite H. Qed.

Lemma same_task_terminal t t' : same_task t t' -> is_terminal t' = is_terminal t.
Proof. intros (_ & H & _). unfold is_terminal. by rewrite H. Qed.

Lemma set_state_process t s : process_id (set_state t s) = process_id t.
Proof. done. Qed.

Lemma linked_same ts pt run gone i t t' :
  linked ts pt run gone -> vget ts i = Some t -> same_task t t' ->
  linked (vset ts i t') pt run gone.
Proof.
  intros L Hi Hs. pose proof (vget_range _ _ _ Hi) as Hr.
  assert (forall j u, vget (vset ts i t') j = Some u ->
    exists v, vget ts j = Some v /\ same_task v u) as Hinv.
  { intros j u. rewrite vget_vset. case_decide as Hj; [|by exists u].
    destruct Hj as [-> _]. intros [= <-]. by exists t. }
  constructor.
  - rewrite vlen_vset. apply L.
  - intros j u (v & Hv & (-> & _))%Hinv. by apply (ln_id _ _ _ _ L).
  - intros j. rewrite (ln_run _ _ _ _ L j). split.
    + intros (u & Hu & Hst). rewrite vget_vset. case_decide as Hj; [|by exists u].
      destruct Hj as [-> _]. exists t'. split; [done|]. destruct Hs as (_ & -> & _). congruence.
    + intros (u & (v & Hv & (_ & E & _))%Hinv & Hst). exists v. by rewrite <- E.
  - intros j u pid (v & Hv & E)%Hinv. rewrite (same_task_process _ _ E), (same_task_terminal _ _ E).
    by apply (ln_task _ _ _ _ L).
  - intros pid p Hp. destruct (ln_proc _ _ _ _ L pid p Hp) as (u & Hu & Hp' & Ht).
    rewrite vget_vset. case_decide as Hj; [|by exists u]. destruct Hj as [E _].
    exists t'. rewrite <- E, Hi in Hu. injection Hu as ->. split; [done|].
    by rewrite (same_task_process _ _ Hs), (same_task_terminal _ _ Hs).
  - intros j u c ptr (v & Hv & E)%Hinv Hst. rewrite (same_task_process _ _ E).
    apply (ln_wait _ _ _ _ L j v c ptr Hv). destruct E as (_ & <- & _). done.
Qed.

(** Changing the state of a task. *)
Lemma vget_set_state ts i t s j u :
  vget ts i = Some t -> vget (vset ts i (set_state t s)) j = Some u ->
  (j = i /\ u = set_state t s) \/ (j <> i /\ vget ts j = Some u).
Proof.
  intros Hi. pose proof (vget_range _ _ _ Hi). rewrite vget_vset.
  case_decide as Hj; [destruct Hj as [-> _]; intros [= <-]; by left|].
  right. split; [|done]. intros ->. tauto.
Qed.

Lemma linked_set_state ts pt run run' gone i t s :
  linked ts pt run gone -> vget ts i = Some t ->
  (forall j, run' = Some j <-> (j = i /\ s = Running) \/ (j <> i /\ run = Some j)) ->
  is_terminal (set_state t s) = is_terminal t ->
  (forall child ptr, s = Blocked (ChildExit child ptr) ->
     (forall a, ptr = Some a -> canonical a) /\
     exists pid p, process_id t = Some pid /\ live pt pid p /\ child ∈ p_children p /\
       (gone = Some child \/ exists q, live pt child q)) ->
  linked (vset ts i (set_state t s)) pt run' gone.
Proof.
  intros L Hi Hrun Hterm Hwait. pose proof (vget_range _ _ _ Hi) as Hr.
  pose proof (fun j u => vget_set_state ts i t s j u Hi) as Hinv.
  constructor.
  - rewrite vlen_vset. apply L.
  - intros j u [[-> ->]|[_ Hu]]%Hinv; [by apply (ln_id _ _ _ _ L _ _ Hi)|by apply (ln_id _ _ _ _ L)].
  - intros j. rewrite (Hrun j). split.
    + intros [[-> ->]|[Hj (u & Hu & Hst)%(ln_run _ _ _ _ L)]].
      * exists (set_state t Running). by rewrite vget_vset_eq.
      * exists u. by rewrite vget_vset_ne.
    + intros (u & [[-> ->]|[Hj Hu]]%Hinv & Hst); [by left|].
      right. split; [done|]. apply (ln_run _ _ _ _ L). eauto.
  - intros j u pid [[-> ->]|[_ Hu]]%Hinv; [|by apply (ln_task _ _ _ _ L)].
    rewrite set_state_process, Hterm. by apply (ln_task _ _ _ _ L).
  - intros pid p Hp. destruct (ln_proc _ _ _ _ L pid p Hp) as (u & Hu & Hp' & Ht).
    rewrite vget_vset. case_decide as Hj; [|by exists u]. destruct Hj as [E _].
    exists (set_state t s). rewrite <- E, Hi in Hu. injection Hu as ->. split; [done|].
    by rewrite set_state_process, Hterm.
  - intros j u c ptr [[-> ->]|[_ Hu]]%Hinv Hst; [by apply Hwait|by apply (ln_wait _ _ _ _ L j u c ptr)].
Qed.

(** ** Exit, waking the waiter, reaping *)

Lemma live_exit pt pid p e pt' q r :
  exit_step pt pid p e pt' -> q <> pid -> live pt q r ->
  exists r', live pt' q r' /\ p_children r' = p_children r /\ p_main_task r' = p_main_task r.
Proof.
  intros E Hne [Hq Hst].
  destruct (exit_step_running _ _ _ _ _ _ _ E Hq Hne Hst) as (r' & H1 & H2 & H3 & H4 & _).
  by exists r'.
Qed.

Lemma live_exit_inv pt pid p e pt' q r' :
  exit_step pt pid p e pt' -> live pt' q r' ->
  q <> pid /\ exists r, live pt q r /\ p_main_task r' = p_main_task r.
Proof.
  intros E [Hq Hst]. apply (exit_step_inv _ _ _ _ _ _ _ E) in Hq as [[-> ->]|(Hne & r & Hr & H)]; [done|].
  split; [done|]. exists r. destruct H as [(_ & Hrun & ->)|[_ ->]]; by split; [split|].
Qed.

Lemma linked_exit ts pt i t pid p e s pt' :
  linked ts pt (Some i) None -> vget ts i = Some t -> process_id t = Some pid ->
  ProcessTable.get pt pid = Some p -> is_terminal (set_state t s) = true ->
  exit_step pt pid p e pt' ->
  linked (vset ts i (set_state t s)) pt' None (Some pid).
Proof.
  intros L Hi Hpid Hp Hterm E.
  pose proof (fun j u => vget_set_state ts i t s j u Hi) as Hinv.
  assert (is_terminal t = false) as Hnt.
  { destruct (proj1 (ln_run _ _ _ _ L i) eq_refl) as (u & Hu & Hst). rewrite Hi in Hu.
    injection Hu as ->. unfold is_terminal. by rewrite Hst. }
  destruct (ln_task _ _ _ _ L i t pid Hi Hpid Hnt) as (p' & [Hp' _] & Hmain).
  rewrite Hp in Hp'. injection Hp' as <-.
  assert (forall q r, live pt q r -> q <> pid -> p_main_task r <> i) as Hother.
  { intros q r Hq Hne Hm. destruct (ln_proc _ _ _ _ L q r Hq) as (u & Hu & Hup & _). congruence. }
  assert (forall j q r, j <> i -> live pt q r -> p_main_task r = j -> q <> pid) as Hpid'.
  { intros j q r Hj [Hq _] Hm ->. congruence. }
  constructor.
  - rewrite vlen_vset. apply L.
  - intros j u [[-> ->]|[_ Hu]]%Hinv; [by apply (ln_id _ _ _ _ L _ _ Hi)|by apply (ln_id _ _ _ _ L)].
  - intros j. split; [done|]. intros (u & [[-> ->]|[Hj Hu]]%Hinv & Hst).
    + cbn in Hst. subst s. done.
    + assert (Some i = Some j) by (apply (ln_run _ _ _ _ L); eauto). congruence.
  - intros j u q [[-> ->]|[Hj Hu]]%Hinv Hq Hnt'; [congruence|].
    destruct (ln_task _ _ _ _ L j u q Hu Hq Hnt') as (r & Hr & Hm).
    destruct (live_exit _ _ _ _ _ _ _ E (Hpid' j q r Hj Hr Hm) Hr) as (r' & Hr' & _ & Hm').
    exists r'. split; [done|]. congruence.
  - intros q r' Hr'. destruct (live_exit_inv _ _ _ _ _ _ _ E Hr') as (Hne & r & Hr & Hm).
    destruct (ln_proc _ _ _ _ L q r Hr) as (u & Hu & Huq & Hut). exists u. rewrite Hm.
    split; [|done]. rewrite vget_vset_ne; [done|]. intros ->. by apply (Hother q r).
  - intros j u c ptr [[-> ->]|[Hj Hu]]%Hinv Hst.
    { cbn in Hst. subst s. done. }
    destruct (ln_wait _ _ _ _ L j u c ptr Hu Hst) as (Hcan & q & r & Hq & Hr & Hc & [?|[x Hx]]); [done|].
    split; [done|].
    assert (q <> pid) as Hne.
    { destruct (ln_task _ _ _ _ L j u q Hu Hq) as (r0 & Hr0 & Hm); [unfold is_terminal; by rewrite Hst|].
      by apply (Hpid' j q r0). }
    destruct (live_exit _ _ _ _ _ _ _ E Hne Hr) as (r' & Hr' & Hch & _).
    exists q, r'. split; [done|]. split; [done|]. rewrite Hch. split; [done|].
    destruct (decide (c = pid)) as [->|Hcne]; [by left|right].
    destruct (live_exit _ _ _ _ _ _ _ E Hcne Hx) as (x' & Hx' & _). by exists x'.
Qed.

Lemma linked_terminal ts pt i t s :
  linked ts pt (Some i) None -> vget ts i = Some t -> process_id t = None ->
  is_terminal (set_state t s) = true -> linked (vset ts i (set_state t s)) pt None None.
Proof.
  intros L Hi Hpid Hterm. pose proof (fun j u => vget_set_state ts i t s j u Hi) as Hinv.
  constructor.
  - rewrite vlen_vset. apply L.
  - intros j u [[-> ->]|[_ Hu]]%Hinv; [by apply (ln_id _ _ _ _ L _ _ Hi)|by apply (ln_id _ _ _ _ L)].
  - intros j. split; [done|]. intros (u & [[-> ->]|[Hj Hu]]%Hinv & Hst).
    + cbn in Hst. subst s. done.
    + assert (Some i = Some j) by (apply (ln_run _ _ _ _ L); eauto). congruence.
  - intros j u q [[-> ->]|[Hj Hu]]%Hinv Hq Hnt'; [congruence|]. by apply (ln_task _ _ _ _ L j u).
  - intros q r Hr. destruct (ln_proc _ _ _ _ L q r Hr) as (u & Hu & Huq & Hut).
    exists u. split; [|done]. rewrite vget_vset_ne; [done|]. intros ->. congruence.
  - intros j u c ptr [[-> ->]|[Hj Hu]]%Hinv Hst; [cbn in Hst; by subst s|].
    by apply (ln_wait _ _ _ _ L j u).
Qed.

(** No task waits for [c]. *)
Definition unawaited (ts : list Task) (c : ProcessId) : Prop :=
  forall j u ptr, vget ts j = Some u -> t_state u <> Blocked (ChildExit c ptr).

Lemma linked_gone ts pt run c : linked ts pt run (Some c) -> unawaited ts c -> linked ts pt run None.
Proof.
  intros L Hu. constructor; try apply L.
  intros j u d ptr Hj Hst.
  destruct (ln_wait _ _ _ _ L j u d ptr Hj Hst) as (Hc & q & r & Hq & Hr & Hin & [[= ->]|H]).
  - by destruct (Hu j u ptr Hj).
  - split; [done|]. exists q, r. eauto.
Qed.

Lemma live_remove pt c z pt' q r :
  ProcessTable.get pt c = Some z -> is_zombie (p_state z) = true -> remove_step pt c pt' ->
  live pt q r ->
  exists r', live pt' q r' /\ p_main_task r' = p_main_task r /\
             forall d, d ∈ p_children r' <-> d ∈ p_children r /\ d <> c.
Proof.
  intros Hz Hzom R [Hq Hst].
  assert (q <> c) as Hne by (intros ->; replace z with r in Hzom by congruence; by rewrite Hst in Hzom).
  destruct (remove_step_get _ _ _ _ _ R Hq Hne) as [r' Hr'].
  destruct (remove_step_inv _ _ _ _ _ R Hr') as (_ & r0 & H0 & _ & _ & Es & _ & _ & Em & _ & _ & Hch).
  rewrite Hq in H0. injection H0 as <-. exists r'. split; [split; congruence|]. by split.
Qed.

Lemma live_remove_inv pt c pt' q r' :
  remove_step pt c pt' -> live pt' q r' ->
  exists r, live pt q r /\ p_main_task r' = p_main_task r.
Proof.
  intros R [Hq Hst].
  destruct (remove_step_inv _ _ _ _ _ R Hq) as (_ & r & Hr & _ & _ & Es & _ & _ & Em & _).
  exists r. split; [split; congruence|done].
Qed.

(** Reaping a zombie nobody waits for. *)
Lemma linked_remove ts pt run c z pt' :
  linked ts pt run None -> unawaited ts c ->
  ProcessTable.get pt c = Some z -> is_zombie (p_state z) = true -> remove_step pt c pt' ->
  linked ts pt' run None.
Proof.
  intros L Hu Hz Hzom R. constructor; try apply L.
  - intros i t pid Hi Hp Ht. destruct (ln_task _ _ _ _ L i t pid Hi Hp Ht) as (p & Hl & Hm).
    destruct (live_remove _ _ _ _ _ _ Hz Hzom R Hl) as (p' & Hl' & Hm' & _).
    exists p'. split; [done|]. congruence.
  - intros pid p' Hl'. destruct (live_remove_inv _ _ _ _ _ R Hl') as (p & Hl & ->).
    by apply (ln_proc _ _ _ _ L).
  - intros i t d ptr Hi Hst.
    destruct (ln_wait _ _ _ _ L i t d ptr Hi Hst) as (Hc & q & r & Hq & Hr & Hin & [?|[x Hx]]); [done|].
    split; [done|]. destruct (live_remove _ _ _ _ _ _ Hz Hzom R Hr) as (r' & Hr' & _ & Hch).
    destruct (live_remove _ _ _ _ _ _ Hz Hzom R Hx) as (x' & Hx' & _).
    exists q, r'. split; [done|]. split; [done|]. split; [|right; eauto].
    apply Hch. split; [done|]. intros ->. by destruct (Hu i t ptr Hi).
Qed.

(** At most one task waits for a given process. *)
Lemma waiter_unique ts pt run gone i t ptr j u ptr' c :
  table_wf pt -> linked ts pt run gone ->
  vget ts i = Some t -> t_state t = Blocked (ChildExit c ptr) ->
  vget ts j = Some u -> t_state u = Blocked (ChildExit c ptr') -> i = j.
Proof.
  intros Hwf L Hi Hti Hj Htj.
  destruct (ln_wait _ _ _ _ L i t c ptr Hi Hti) as (_ & q & r & Hq & [Hr _] & Hin & _).
  destruct (ln_wait _ _ _ _ L j u c ptr' Hj Htj) as (_ & q' & r' & Hq' & [Hr' _] & Hin' & _).
  destruct (wf_children _ Hwf _ _ _ Hr Hin) as (_ & z & Hz & Hzp & _).
  destruct (wf_children _ Hwf _ _ _ Hr' Hin') as (_ & z' & Hz' & Hzp' & _).
  assert (q = q') as <- by congruence.
  destruct (ln_task _ _ _ _ L i t q Hi Hq) as (x & [Hx _] & <-); [unfold is_terminal; by rewrite Hti|].
  destruct (ln_task _ _ _ _ L j u q Hj Hq') as (y & [Hy _] & <-); [unfold is_terminal; by rewrite Htj|].
  congruence.
Qed.

(** ** The same on [core] *)

Lemma core_same ts pt fs run gone i t t' :
  coreg ts pt fs run gone -> vget ts i = Some t -> same_task t t' ->
  coreg (vset ts i t') pt fs run gone.
Proof. intros [] ? ?. constructor; eauto using linked_same. Qed.

(** The running task stops running, without ending. *)
Lemma core_stop ts pt fs i t s :
  core ts pt fs (Some i) -> vget ts i = Some t -> is_terminal (set_state t s) = false ->
  s <> Running ->
  (forall child ptr, s = Blocked (ChildExit child ptr) ->
     (forall a, ptr = Some a -> canonical a) /\
     exists pid p, process_id t = Some pid /\ live pt pid p /\ child ∈ p_children p /\
       exists q, live pt child q) ->
  core (vset ts i (set_state t s)) pt fs None.
Proof.
  intros C Hi Hnt Hs Hwait. destruct C as [Cwf Cfds Cheap L Cfiles].
  destruct (proj1 (ln_run _ _ _ _ L i) eq_refl) as (u & Hu & Hst).
  constructor; try done. eapply linked_set_state; [done|done|..].
  - intros j. split; [done|]. intros [[_ ?]|[? ?]]; congruence.
  - rewrite Hnt. rewrite Hi in Hu. injection Hu as ->. unfold is_terminal. by rewrite Hst.
  - intros c ptr E. destruct (Hwait c ptr E) as (H1 & q & r & H2 & H3 & H4 & H5). split; [done|].
    exists q, r. eauto.
Qed.

(** A ready task starts running. *)
Lemma core_start ts pt fs i t :
  core ts pt fs None -> vget ts i = Some t -> t_state t = Ready ->
  core (vset ts i (set_state t Running)) pt fs (Some i).
Proof.
  intros [Cwf Cfds Cheap L Cfiles] Hi Hst. constructor; try done.
  eapply linked_set_state; [done|done|..].
  - intros j. split; [intros [= <-]; by left|]. by intros [[-> _]|[_ ?]].
  - unfold is_terminal. by rewrite Hst.
  - done.
Qed.

Lemma core_exit ts pt fs i t pid s e :
  core ts pt fs (Some i) -> vget ts i = Some t -> process_id t = Some pid ->
  is_terminal (set_state t s) = true ->
  exists p pt' fs', live pt pid p /\
    ProcessTable.mark_exited pt pid e fs = (Ok tt, pt', fs') /\
    exit_step pt pid p e pt' /\ FdTable.released fs (FdTable.refs (p_fd_table p)) fs' /\
    coreg (vset ts i (set_state t s)) pt' fs' None (Some pid).
Proof.
  intros [Cwf Cfds Cheap L [Ctab Crefs]] Hi Hpid Hterm.
  destruct (proj1 (ln_run _ _ _ _ L i) eq_refl) as (u & Hu & Hst).
  rewrite Hi in Hu. injection Hu as <-.
  destruct (ln_task _ _ _ _ L i t pid Hi Hpid) as (p & [Hp Hrun] & Hm).
  { unfold is_terminal. by rewrite Hst. }
  pose proof (mark_exited_spec pt pid p e fs Cwf Cfds Ctab Hp) as Hme.
  destruct (ProcessTable.mark_exited pt pid e fs) as [[r pt'] fs'].
  destruct Hme as (-> & E & Htab & Hrel & Htot).
  pose proof (FdTable.released_rc _ _ _ Hrel (FdTable.refs_nonneg _) (proj2 Ctab)) as Hrc.
  destruct (exit_step_wf _ _ _ _ _ Cwf Cfds Hp E) as [Hwf' Hfds'].
  exists p, pt', fs'. split; [done|]. split; [done|]. split; [done|]. split; [done|].
  constructor; [done|done| |by eapply linked_exit|constructor; [done|]].
  - intros q r Hr. apply (exit_step_inv _ _ _ _ _ _ _ E) in Hr as [[-> ->]|(_ & r0 & Hr0 & H)].
    + by apply (Cheap _ _ Hp).
    + apply Cheap in Hr0. by destruct H as [(_ & _ & ->)|[_ ->]].
  - intros id. rewrite Hrc, Htot, Crefs. pose proof (total_refs_ge pt pid p id Hp). lia.
Qed.

Lemma core_finish_kernel ts pt fs i t s :
  core ts pt fs (Some i) -> vget ts i = Some t -> process_id t = None ->
  is_terminal (set_state t s) = true -> core (vset ts i (set_state t s)) pt fs None.
Proof. intros [] ? ? ?. constructor; eauto using linked_terminal. Qed.

Lemma remove_heap pt c pt' :
  (forall pid p, ProcessTable.get pt pid = Some p -> heap_ok (p_heap p)) -> remove_step pt c pt' ->
  forall pid p, ProcessTable.get pt' pid = Some p -> heap_ok (p_heap p).
Proof.
  intros H R pid p Hp. destruct (remove_step_shape _ _ _ _ _ R Hp) as (p0 & Hp0 & [->| ->]);
    apply (H _ _ Hp0).
Qed.

Lemma core_remove ts pt fs run c z pt' :
  core ts pt fs run -> ProcessTable.get pt c = Some z -> is_zombie (p_state z) = true ->
  remove_step pt c pt' -> (forall id, total_refs pt' id = total_refs pt id) ->
  core ts pt' fs run.
Proof.
  intros [Cwf Cfds Cheap L [Ctab Crefs]] Hz Hzom R Href.
  destruct (remove_step_wf _ _ _ _ Cwf Cfds Hz Hzom R) as [Hwf' Hfds'].
  constructor; [done|done|by eapply remove_heap| |constructor; [done|intros id; by rewrite Href]].
  eapply linked_remove; try done. intros j u ptr Hj Hst.
  destruct (ln_wait _ _ _ _ L j u c ptr Hj Hst) as (_ & q & r & _ & _ & _ & [?|[x [Hx Hrun]]]); [done|].
  replace z with x in Hzom by congruence. by rewrite Hrun in Hzom.
Qed.

(** The wake-up: the waiter becomes ready. *)
Lemma coreg_wake ts pt fs c w t ptr :
  coreg ts pt fs None (Some c) -> vget ts w = Some t -> t_state t = Blocked (ChildExit c ptr) ->
  core (vset ts w (set_state t Ready)) pt fs None.
Proof.
  intros [Cwf Cfds Cheap L Cfiles] Hw Hst. constructor; try done.
  eapply (linked_gone _ _ _ c).
  - eapply linked_set_state; [done|done|..].
    + intros j. split; [done|]. by intros [[_ ?]|[_ ?]].
    + unfold is_terminal. by rewrite Hst.
    + done.
  - intros j u ptr' [[-> ->]|[Hj Hu]]%(vget_set_state _ _ _ _ _ _ Hw); [done|]. intros Hst'.
    by apply Hj, (waiter_unique ts pt None (Some c) j u ptr' w t ptr c).
Qed.

Lemma coreg_gone ts pt fs c : coreg ts pt fs None (Some c) -> unawaited ts c -> core ts pt fs None.
Proof. intros [] ?. constructor; eauto using linked_gone. Qed.

(** [find_waiter] finds the waiter if there is one. *)
Lemma find_waiter_Some ts k c w ptr :
  find_waiter ts k c = Some (w, ptr) ->
  exists t, vget ts (w - k) = Some t /\ t_state t = Blocked (ChildExit c ptr).
Proof.
  revert k. induction ts as [|t ts IH]; intros k; cbn; [done|].
  assert (find_waiter ts (k + 1) c = Some (w, ptr) ->
    exists t0, vget (t :: ts) (w - k) = Some t0 /\ t_state t0 = Blocked (ChildExit c ptr)) as Hrec.
  { intros (u & Hu & Hs)%IH. pose proof (vget_range _ _ _ Hu). exists u. split; [|done].
    rewrite vget_cons_pos by lia. rewrite <- Hu. f_equal. lia. }
  destruct (t_state t) as [| |[wc wp]| |] eqn:E; try done.
  destruct (Z.eqb_spec wc c) as [->|]; [|done]. intros [= <- <-].
  exists t. by rewrite Z.sub_diag, vget_cons_0.
Qed.

Lemma find_waiter_None ts k c : find_waiter ts k c = None -> unawaited ts c.
Proof.
  revert k. induction ts as [|t ts IH]; intros k H j u ptr Hj.
  { apply vget_range in Hj. unfold vlen in Hj. cbn in Hj. lia. }
  pose proof (vget_range _ _ _ Hj). destruct (decide (j = 0)) as [->|Hj0].
  - rewrite vget_cons_0 in Hj. injection Hj as <-. intros E. cbn in H.
    rewrite E, Z.eqb_refl in H. done.
  - rewrite vget_cons_pos in Hj by lia. eapply (IH (k + 1)); [|done].
    cbn in H. destruct (t_state t) as [| |[wc wp]| |]; try done. by destruct (wc =? c).
Qed.
