(* ===== verification/Switching.v ===== *)
(** * Running the scheduler's steps

    [ok m] is the invariant of the whole machine. The lemmas of this file run
    the operations of Scheduler.v and SchedulerCalls.v: under [ok] none of
    them panics, each restores [ok], and the task that runs next is the one
    the round-robin search picks. *)

From S2P Require Import Prelude File Fd X86 Memory AddressSpace UserMemory Process Context.
From S2P Require Import Serial Task Syscall User Elf Scheduler SchedulerCalls RoundRobin Invariant.

Import ProcessTableFacts.

(** The level-4 table a task runs on. *)
Definition space_of (s : Scheduler) (x : Mem) (t : Task) : option Z :=
  match process_id t with
  | Some pid => level_4_frame <$> ProcessTable.address_space (proc_table s) pid
  | None => Some (kernel_level_4_frame x)
  end.

Lemma space_of_ext s s' x x' t t' :
  proc_table s' = proc_table s -> kernel_level_4_frame x' = kernel_level_4_frame x ->
  process_id t' = process_id t -> space_of s' x' t' = space_of s x t.
Proof. intros E1 E2 E3. unfold space_of. by rewrite E1, E2, E3. Qed.

Definition core_of (s : Scheduler) (run : option Z) : Prop :=
  core (tasks s) (proc_table s) (open_files s) run.

(** The part of [ok] that also holds between two tasks. *)
Record base_ok (m : Machine) : Prop := mkBaseOk {
  bo_mem : mem_ok (mem m);
  bo_cache f : current_level_4_frame (sched m) = Some f -> cr3 (mem m) = f
}.

(** The processor runs [t]: its kernel stack and its page table are loaded. *)
Definition loaded (m : Machine) (t : Task) : Prop :=
  tss_rsp0 (cpu m) = t_kernel_stack_top t /\ space_of (sched m) (mem m) t = Some (cr3 (mem m)).

Record ok (m : Machine) : Prop := mkOk {
  ok_core : core_of (sched m) (current (sched m));
  ok_base : base_ok m;
  ok_loaded i t : current (sched m) = Some i -> vget (tasks (sched m)) i = Some t -> loaded m t
}.

(** ** Rules for the accessors *)

Ltac st_step :=
  first
    [ wp_step
    | lazymatch goal with
      | |- wp (modify_sched _) _ _ => apply wp_modify
      | |- wp (modify_kmem _) _ _ => apply wp_modify
      | |- wp (set_procs _) _ _ => apply wp_modify
      | |- wp (set_files _) _ _ => apply wp_modify
      | |- wp (set_frame_rax _ _) _ _ => apply wp_modify
      | |- wp (with_mem _) _ _ => apply wp_zoom
      | |- wp (with_serial _) _ _ => apply wp_zoom
      end ].
Ltac st_steps := repeat (st_step; cbv beta).

Definition with_task (m : Machine) (i : Z) (t : Task) : Machine :=
  set_sched (set_tasks (vset (tasks (sched m)) i t) (sched m)) m.

Lemma wp_task_at i (Q : Task -> Machine -> Prop) m t :
  vget (tasks (sched m)) i = Some t -> Q t m -> wp (task_at i) Q m.
Proof. intros Hi HQ. unfold task_at. wp_steps. by eapply wp_expect. Qed.

Lemma wp_modify_task i f (Q : unit -> Machine -> Prop) m t :
  vget (tasks (sched m)) i = Some t -> Q tt (with_task m i (f t)) -> wp (modify_task i f) Q m.
Proof. intros Hi HQ. unfold modify_task. wp_step. eapply wp_task_at; [done|]. by st_steps. Qed.

Lemma wp_set_task_state i s (Q : unit -> Machine -> Prop) m t :
  vget (tasks (sched m)) i = Some t -> Q tt (with_task m i (set_state t s)) ->
  wp (set_task_state i s) Q m.
Proof. intros. by apply (wp_modify_task i (fun t => set_state t s) Q m t). Qed.

Lemma wp_set_saved_rax i v (Q : unit -> Machine -> Prop) m t :
  vget (tasks (sched m)) i = Some t ->
  Q tt (set_kmem (kwrite (kmem m) (saved_rsp t + OFF_RAX) v) m) -> wp (task_set_saved_rax i v) Q m.
Proof. intros Hi HQ. unfold task_set_saved_rax. wp_step. eapply wp_task_at; [done|]. by st_steps. Qed.

Section switching.
Context {X : X86_64}.

(** The machine after [prepare_to_run] of a task with stack top [top] and
    page table [f]. *)
Definition prepared (m : Machine) (top f : Z) : Machine :=
  mkMachine (set_current_l4 (Some f) (sched m)) (set_cr3 f (mem m)) (kmem m)
            (set_rsp0 top (cpu m)) (serial m).

Lemma wp_switch_cr3 f (Q : unit -> Machine -> Prop) m :
  (forall g, current_level_4_frame (sched m) = Some g -> cr3 (mem m) = g) ->
  Q tt (mkMachine (set_current_l4 (Some f) (sched m)) (set_cr3 f (mem m)) (kmem m)
                  (cpu m) (serial m)) ->
  wp (switch_cr3 f) Q m.
Proof.
  intros Hc HQ. unfold switch_cr3. st_steps. case_decide as E.
  - apply wp_ret. pose proof (Hc f E) as Hcr. destruct m as [[] [] km c se]. cbn in *. subst.
    exact HQ.
  - st_steps. exact HQ.
Qed.

Lemma wp_prepare_to_run i (Q : unit -> Machine -> Prop) m t f :
  vget (tasks (sched m)) i = Some t ->
  space_of (sched m) (mem m) t = Some f ->
  (forall g, current_level_4_frame (sched m) = Some g -> cr3 (mem m) = g) ->
  Q tt (prepared m (t_kernel_stack_top t) f) -> wp (prepare_to_run i) Q m.
Proof.
  intros Hi Hf Hc HQ. unfold prepare_to_run, load_kernel_stack_for, switch_to_task_address_space.
  st_step. st_step. eapply wp_task_at; [done|]. st_steps. eapply wp_task_at; [done|]. st_steps.
  unfold space_of in Hf. destruct (process_id t) as [pid|]; st_steps.
  - destruct (ProcessTable.address_space _ pid) as [a|] eqn:Ha; [|done]. injection Hf as <-.
    eapply wp_expect; [done|]. by apply wp_switch_cr3.
  - injection Hf as <-. by apply wp_switch_cr3.
Qed.

(** Every task that has not ended has a page table to run on. *)
Lemma space_exists s x run i t :
  core_of s run -> vget (tasks s) i = Some t -> is_terminal t = false ->
  exists f, space_of s x t = Some f.
Proof.
  intros C Hi Ht. unfold space_of. destruct (process_id t) as [pid|] eqn:Hp; [|eauto].
  destruct (ln_task _ _ _ _ (co_linked _ _ _ _ _ C) i t pid Hi Hp Ht) as (p & [Hg _] & _).
  unfold ProcessTable.address_space. rewrite Hg. cbn. eauto.
Qed.

(** What a step leaves alone. *)
Record keeps (m m' : Machine) : Prop := mkKeeps {
  kp_ram : ram (mem m') = ram (mem m);
  kp_state : memory_state (mem m') = memory_state (mem m);
  kp_serial : serial m' = serial m;
  kp_kmem : kmem m' = kmem m;
  kp_procs : proc_table (sched m') = proc_table (sched m);
  kp_files : open_files (sched m') = open_files (sched m);
  kp_preemption : preemption_enabled (sched m') = preemption_enabled (sched m)
}.

(** [resume_task]: a ready task becomes the running one. *)
Lemma resume_task_run n (m : Machine) t :
  core_of (sched m) None -> base_ok m -> vget (tasks (sched m)) n = Some t -> t_state t = Ready ->
  wp (resume_task n) (fun r m' =>
    ok m' /\ r = Resume (saved_rsp t) /\ current (sched m') = Some n /\
    tasks (sched m') = vset (tasks (sched m)) n (set_state t Running) /\ keeps m m') m.
Proof.
  intros C [Bm Bc] Hn Hst. pose proof (vget_range _ _ _ Hn) as Hr.
  pose proof (core_start _ _ _ _ _ C Hn Hst) as C'.
  destruct (space_exists (sched m) (mem m) None n t C Hn) as [f Hf];
    [unfold is_terminal; by rewrite Hst|].
  unfold resume_task. st_step. eapply wp_set_task_state; [done|]. st_steps.
  assert (vget (vset (tasks (sched m)) n (set_state t Running)) n = Some (set_state t Running)) as Hn'
    by (by apply vget_vset_eq).
  eapply wp_prepare_to_run; [exact Hn'|exact Hf|done|]. st_steps.
  eapply wp_task_at; [exact Hn'|]. st_steps. split; [|done].
  constructor; [exact C'|constructor; [done|by intros g [= <-]]|].
  intros i u [= <-] Hu. cbn in Hu. rewrite Hn' in Hu. injection Hu as <-. split; [done|].
  etransitivity; [|exact Hf]. apply space_of_ext; [done|by apply kernel_frame_cr3|done].
Qed.

Lemma leave_to_main_run (m : Machine) :
  core_of (sched m) None -> base_ok m ->
  wp leave_to_main (fun r m' =>
    ok m' /\ r = ToMain /\ current (sched m') = None /\
    tasks (sched m') = tasks (sched m) /\ cr3 (mem m') = kernel_level_4_frame (mem m) /\
    keeps m m') m.
Proof.
  intros C [Bm Bc]. unfold leave_to_main, switch_to_kernel_address_space. st_steps.
  apply wp_switch_cr3; [done|]. st_steps. split; [|done].
  constructor; [done|constructor; [done|by intros g [= <-]]|done].
Qed.

(** What follows a task that stopped: the next ready task in round-robin
    order, or the boot code when none is ready. *)
Definition switched (m : Machine) (from : Z) (r : Switch) (m' : Machine) : Prop :=
  match next_ready_after (tasks (sched m)) from with
  | Some n => exists t, vget (tasks (sched m)) n = Some t /\ r = Resume (saved_rsp t) /\
                        current (sched m') = Some n /\
                        tasks (sched m') = vset (tasks (sched m)) n (set_state t Running)
  | None => r = ToMain /\ current (sched m') = None /\ tasks (sched m') = tasks (sched m) /\
            cr3 (mem m') = kernel_level_4_frame (mem m)
  end.

Lemma resume_next_after_run i (m : Machine) :
  core_of (sched m) None -> base_ok m ->
  wp (resume_next_after i) (fun r m' => ok m' /\ switched m i r m' /\ keeps m m') m.
Proof.
  intros C B. unfold resume_next_after, switched. st_steps.
  destruct (next_ready_after (tasks (sched m)) i) as [n|] eqn:E.
  - destruct (next_ready_Some _ _ _ E) as [(t & Ht & Hs) _].
    eapply wp_mono; [by apply (resume_task_run n m t)|].
    intros r m' (H1 & H2 & H3 & H4 & H5). split; [done|]. split; [by exists t|done].
  - eapply wp_mono; [by apply leave_to_main_run|]. intros r m' (H1 & H2 & H3 & H4 & H5 & H6). done.
Qed.

Lemma ok_with_task m i t t' :
  ok m -> vget (tasks (sched m)) i = Some t -> same_task t t' -> ok (with_task m i t').
Proof.
  intros [C [Bm Bc] L] Hi Hs. constructor; [by eapply core_same|done|].
  intros j u Hj Hu. cbn in Hj, Hu. rewrite vget_vset in Hu.
  case_decide as E; [|by apply (L j)]. destruct E as [<- _]. injection Hu as <-.
  destruct (L i t Hj Hi) as [L1 L2]. split.
  - destruct Hs as (_ & _ & _ & ->). done.
  - etransitivity; [|exact L2]. apply space_of_ext; [done|done|by apply same_task_process].
Qed.

Lemma ok_running m i :
  ok m -> current (sched m) = Some i ->
  exists t, vget (tasks (sched m)) i = Some t /\ t_state t = Running.
Proof. intros K Hc. by apply (ln_run _ _ _ _ (co_linked _ _ _ _ _ (ok_core _ K))). Qed.

Lemma same_saved t r : same_task t (set_saved_rsp t r).
Proof. done. Qed.

(** ** Yield and timer *)

(** The outcome of [switch_from_interrupt] when task [cur] is running: the
    interrupted task keeps its frame and becomes ready, unless no other task
    is ready. *)
Definition yielded (m : Machine) (cur : Z) (t : Task) (frame_rsp : Z) (r : Switch) (m' : Machine) :
    Prop :=
  match next_ready_after (tasks (sched m)) cur with
  | None => r = Resume frame_rsp /\ m' = with_task m cur (set_saved_rsp t frame_rsp)
  | Some n =>
      exists u, vget (tasks (sched m)) n = Some u /\ n <> cur /\ r = Resume (saved_rsp u) /\
        current (sched m') = Some n /\
        tasks (sched m') =
          vset (vset (tasks (sched m)) cur (set_state (set_saved_rsp t frame_rsp) Ready))
               n (set_state u Running)
  end.

Lemma switch_from_interrupt_run frame_rsp (m : Machine) :
  ok m ->
  wp (switch_from_interrupt frame_rsp) (fun r m' =>
    ok m' /\ keeps m m' /\
    match current (sched m) with
    | None => r = Resume frame_rsp /\ m' = m
    | Some cur => exists t, vget (tasks (sched m)) cur = Some t /\
                            yielded m cur t frame_rsp r m'
    end) m.
Proof.
  intros K. unfold switch_from_interrupt, save_current_frame. st_steps.
  destruct (current (sched m)) as [cur|] eqn:Hc; st_steps; [|done].
  destruct (ok_running m cur K Hc) as (t & Ht & Hst). pose proof (vget_range _ _ _ Ht) as Hr.
  eapply wp_task_at; [done|]. unfold is_running. rewrite Hst. st_step.
  eapply wp_modify_task; [done|]. st_steps. unfold yielded.
  set (t1 := set_saved_rsp t frame_rsp). set (m1 := with_task m cur t1).
  assert (ok m1) as K1 by (by eapply ok_with_task).
  assert (tasks (sched m1) = vset (tasks (sched m)) cur t1) as Hts by done.
  assert (vget (tasks (sched m1)) cur = Some t1) as Ht1 by (by apply vget_vset_eq).
  rewrite Hts, (next_ready_same _ _ _ t1 _ Ht) by done.
  destruct (next_ready_after (tasks (sched m)) cur) as [n|] eqn:E.
  2: { st_steps. split; [done|]. split; [done|]. by exists t. }
  destruct (next_ready_Some _ _ _ E) as [(u & Hu & Hus) _].
  assert (n <> cur) as Hne by (intros ->; congruence).
  st_step. eapply wp_set_task_state; [exact Ht1|].
  set (m2 := with_task m1 cur (set_state t1 Ready)).
  assert (tasks (sched m2) = vset (tasks (sched m)) cur (set_state t1 Ready)) as Hts2.
  { cbn. by rewrite vset_vset. }
  assert (core_of (sched m2) None) as C2.
  { pose proof (ok_core _ K1) as C1. rewrite (Hc : current (sched m1) = Some cur) in C1.
    apply (core_stop _ _ _ _ _ Ready C1 Ht1); try done. }
  eapply wp_mono; [apply (resume_task_run n m2 u C2)|].
  - destruct (ok_base _ K1). by constructor.
  - rewrite Hts2, vget_vset_ne; done.
  - done.
  - intros r m' (H1 & H2 & H3 & H4 & H5). split; [done|]. split.
    + by destruct H5.
    + exists t. split; [done|]. exists u. rewrite H4, Hts2. done.
Qed.
End switching.
