(* ===== verification/Exit.v ===== *)
(** * Waiting, exit and faults

    [complete_wait], the wake-up of a waiting parent, the end of a task and
    [waitpid], run under the invariant. *)

From S2P Require Import Prelude File Fd X86 Memory AddressSpace UserMemory Process Context.
From S2P Require Import Serial Task Syscall User Elf Scheduler SchedulerCalls RoundRobin Invariant.
From S2P Require Import Switching.

Import ProcessTableFacts.

Section waiting.
Context {X : X86_64} {XS : X86_64_Spec X}.

Lemma wp_safe {A} (op : ST Mem A) (Q : A -> Machine -> Prop) m :
  Safe op -> mem_ok (mem m) ->
  (forall a x, same_ctl (mem m) x -> Q a (set_mem x m)) -> wp (with_mem op) Q m.
Proof.
  intros Hs Hm HQ. apply wp_zoom. eapply wp_mono; [exact (Hs _ Hm)|]. cbn. intros a x. apply HQ.
Qed.

Lemma write_wait_status_run pid p ptr e (Q : result UserMemoryError unit -> Machine -> Prop) m :
  ProcessTable.get (proc_table (sched m)) pid = Some p -> mem_ok (mem m) -> canonical ptr ->
  (forall r x, same_ctl (mem m) x ->
     copy_to_user (p_address_space p) ptr (wait_status_bytes e) (mem m) = Done (r, x) ->
     Q r (set_mem x m)) ->
  wp (write_wait_status pid ptr e) Q m.
Proof.
  intros Hp Hm Hc HQ. unfold write_wait_status. st_steps.
  unfold ProcessTable.address_space, processes_of. rewrite Hp. cbn [ok_or].
  destruct (wp_done _ _ _ (Safe_copy_to_user (p_address_space p) ptr (wait_status_bytes e) Hc (mem m) Hm))
    as (r & x & E & Hx). apply wp_zoom. eapply wp_intro; [exact E|]. by apply HQ.
Qed.

(** The status of zombie [c] is stored at [ptr] in the memory of process
    [pid], if asked for; [r] says whether that worked. *)
Definition status_stored (m : Machine) (pid c : ProcessId) (ptr : option Z)
    (r : result UserMemoryError unit) (x : Mem) : Prop :=
  match ptr with
  | None => r = Ok tt /\ x = mem m
  | Some a => exists p e, ProcessTable.get (proc_table (sched m)) pid = Some p /\
      ProcessTable.state (proc_table (sched m)) c = Some (Zombie e) /\
      copy_to_user (p_address_space p) a (wait_status_bytes e) (mem m) = Done (r, x)
  end.

(** The outcome of a completed wait of task [t] for zombie [c]: the status
    was stored (if asked for) and the child reaped, or it could not be
    stored and the child stays. *)
Record waited (m : Machine) (t : Task) (c : ProcessId) (ptr : option Z) (m' : Machine) : Prop :=
  mkWaited {
    wt_tasks : tasks (sched m') = tasks (sched m);
    wt_files : open_files (sched m') = open_files (sched m);
    wt_current : current (sched m') = current (sched m);
    wt_preemption : preemption_enabled (sched m') = preemption_enabled (sched m);
    wt_l4 : current_level_4_frame (sched m') = current_level_4_frame (sched m);
    wt_mem : same_ctl (mem m) (mem m');
    wt_cpu : cpu m' = cpu m;
    wt_serial : serial m' = serial m;
    wt_result : exists pid r, process_id t = Some pid /\ status_stored m pid c ptr r (mem m') /\
      match r with
      | Ok _ =>
          remove_step (proc_table (sched m)) c (proc_table (sched m')) /\
          (forall id, total_refs (proc_table (sched m')) id = total_refs (proc_table (sched m)) id) /\
          kmem m' = kwrite (kmem m) (saved_rsp t + OFF_RAX) c
      | Err _ =>
          proc_table (sched m') = proc_table (sched m) /\
          kmem m' = kwrite (kmem m) (saved_rsp t + OFF_RAX) (raw_return Fault)
      end
  }.

(** The process table afterwards, with or without the child. *)
Lemma waited_table m t c ptr m' :
  waited m t c ptr m' ->
  (remove_step (proc_table (sched m)) c (proc_table (sched m')) /\
   forall id, total_refs (proc_table (sched m')) id = total_refs (proc_table (sched m)) id) \/
  proc_table (sched m') = proc_table (sched m).
Proof.
  intros W. destruct (wt_result _ _ _ _ _ W) as (pid & r & _ & _ & H).
  destruct r; [left; by destruct H as (? & ? & _)|right; by destruct H].
Qed.

Lemma complete_wait_run w c ptr (m : Machine) t pid p z e :
  table_wf (proc_table (sched m)) -> fds_wf (proc_table (sched m)) -> mem_ok (mem m) ->
  vget (tasks (sched m)) w = Some t -> process_id t = Some pid ->
  ProcessTable.get (proc_table (sched m)) pid = Some p -> c ∈ p_children p ->
  ProcessTable.get (proc_table (sched m)) c = Some z -> p_state z = Zombie e ->
  (forall a, ptr = Some a -> canonical a) ->
  wp (complete_wait w c ptr) (fun _ m' => waited m t c ptr m') m.
Proof.
  intros Hwf Hf Hm Hw Hpid Hp Hin Hz Hst Hcan. unfold complete_wait.
  st_step. eapply wp_task_at; [done|]. rewrite Hpid. st_steps.
  unfold ProcessTable.state, processes_of. rewrite Hz, Hst.
  assert (forall x, same_ctl (mem m) x -> status_stored m pid c ptr (Ok tt) x ->
    wp (let* m0 := st_get in
        let '(r, procs) := ProcessTable.reap_child (processes_of m0) pid c in
        set_procs procs ;;;
        if is_err r then task_set_saved_rax w (raw_return Child) else task_set_saved_rax w c)
      (fun _ m' => waited m t c ptr m') (set_mem x m)) as Hok.
  { intros x Hx Hss. st_steps. unfold processes_of. cbn [sched set_mem].
    pose proof (reap_child_spec _ pid c Hwf Hf) as Hr.
    destruct (ProcessTable.reap_child (proc_table (sched m)) pid c) as [r pt'].
    assert (ProcessTable.is_child (proc_table (sched m)) pid c = true) as Hchild
      by (apply is_child_spec; eauto).
    destruct r as [e'|[]]; try (by destruct Hr).
    - destruct Hr as (_ & _ & R & Href). st_steps. eapply wp_set_saved_rax; [done|].
      constructor; try done. by exists pid, (Ok tt).
    - destruct Hr as [? _]. congruence.
    - destruct Hr as (_ & Hs & _). unfold ProcessTable.state in Hs. rewrite Hz in Hs. congruence. }
  destruct ptr as [a|]; st_steps.
  - apply (write_wait_status_run pid p); [done|done|by apply Hcan|]. intros r x Hx Hcp.
    assert (status_stored m pid c (Some a) r x) as Hss.
    { exists p, e. unfold ProcessTable.state. by rewrite Hz, <- Hst. }
    destruct r as [[]|err]; cbn [is_err]; [by apply Hok|].
    eapply wp_set_saved_rax; [done|]. constructor; try done. by exists pid, (Err err).
  - cbn [is_err]. pose proof (Hok (mem m)) as Hok'.
    replace (set_mem (mem m) m) with m in Hok' by (by destruct m). by apply Hok'.
Qed.

Lemma waited_core m t c ptr m' z e run :
  waited m t c ptr m' -> core_of (sched m) run ->
  ProcessTable.get (proc_table (sched m)) c = Some z -> p_state z = Zombie e ->
  core_of (sched m') run.
Proof.
  intros W C Hz Hst. unfold core_of. rewrite (wt_tasks _ _ _ _ _ W), (wt_files _ _ _ _ _ W).
  destruct (waited_table _ _ _ _ _ W) as [[R Href]| ->]; [|done].
  eapply (core_remove _ _ _ _ c z); [done|done|by rewrite Hst|done|done].
Qed.

Lemma waited_base m t c ptr m' : waited m t c ptr m' -> base_ok m -> base_ok m'.
Proof.
  intros W [Bm Bc]. destruct (wt_mem _ _ _ _ _ W) as [E1 E2 E3]. constructor; [by apply E3|].
  intros f. rewrite (wt_l4 _ _ _ _ _ W), E1. apply Bc.
Qed.

(** The wake-up of the task that waits for [c]: it becomes ready. *)
Definition woken (m : Machine) (c : ProcessId) (m' : Machine) : Prop :=
  (unawaited (tasks (sched m)) c /\ m' = m) \/
  exists w t ptr m1, vget (tasks (sched m)) w = Some t /\ t_state t = Blocked (ChildExit c ptr) /\
    waited m t c ptr m1 /\ m' = with_task m1 w (set_state t Ready).

Lemma woken_vlen m c m' : woken m c m' -> vlen (tasks (sched m')) = vlen (tasks (sched m)).
Proof.
  intros [[_ ->]|(w & t & ptr & m1 & _ & _ & W & ->)]; [done|]. cbn. rewrite vlen_vset. by rewrite (wt_tasks _ _ _ _ _ W).
Qed.

Lemma wake_parent_run c (m : Machine) z e :
  coreg (tasks (sched m)) (proc_table (sched m)) (open_files (sched m)) None (Some c) ->
  base_ok m -> ProcessTable.get (proc_table (sched m)) c = Some z -> p_state z = Zombie e ->
  wp (wake_parent_waiting_for c)
    (fun _ m' => woken m c m' /\ core_of (sched m') None /\ base_ok m') m.
Proof.
  intros C B Hz Hst. unfold wake_parent_waiting_for, woken. st_steps.
  destruct (find_waiter (tasks (sched m)) 0 c) as [[w ptr]|] eqn:E.
  2: { apply find_waiter_None in E. st_steps. split; [by left|]. split; [|done]. by eapply coreg_gone. }
  destruct (find_waiter_Some _ _ _ _ _ E) as (t & Ht & Hts). rewrite Z.sub_0_r in Ht.
  destruct (ln_wait _ _ _ _ (co_linked _ _ _ _ _ C) w t c ptr Ht Hts)
    as (Hcan & pid & p & Hpid & [Hp _] & Hin & _).
  st_step. eapply wp_mono.
  { apply (complete_wait_run w c ptr m t pid p z e); try done; [apply C|apply C|apply B]. }
  intros [] m1 W. st_steps.
  assert (vget (tasks (sched m1)) w = Some t) as Ht1 by (by rewrite (wt_tasks _ _ _ _ _ W)).
  eapply wp_task_at; [done|]. unfold is_blocked. rewrite Hts. eapply wp_set_task_state; [done|].
  split; [right; by exists w, t, ptr, m1|]. split.
  - pose proof (coreg_wake _ _ _ _ _ _ _ C Ht Hts) as Cw. unfold core_of.
    cbn [with_task sched set_sched set_tasks tasks proc_table open_files].
    rewrite (wt_tasks _ _ _ _ _ W), (wt_files _ _ _ _ _ W).
    destruct (waited_table _ _ _ _ _ W) as [[R Href]| ->]; [|done].
    eapply (core_remove _ _ _ _ c z); [done|done|by rewrite Hst|done|done].
  - destruct (waited_base _ _ _ _ _ W B). by constructor.
Qed.

Lemma reap_orphan_core m run pid :
  core_of (sched m) run ->
  core_of (set_proc_table (ProcessTable.reap_orphan_if_zombie (proc_table (sched m)) pid) (sched m))
          run.
Proof.
  intros C. unfold core_of. cbn.
  destruct (reap_orphan_spec (proc_table (sched m)) pid) as [((z & Hz & _ & Hzom) & R & Href)|[_ E]];
    [apply C|apply C|by eapply core_remove|by rewrite E].
Qed.

(** ** The end of the current task *)

(** The task record of a task that ended. *)
Definition ended (t : Task) (frame_rsp : Z) (s : TaskState) (code : option Z)
    (info : option UserFaultInfo) : Task :=
  let t := set_state (set_saved_rsp t frame_rsp) s in
  let t := match code with Some c => set_exit_code t c | None => t end in
  match info with Some i => set_fault_info t i | None => t end.

(** The table [pt'] after the reaping of process [pid]: a zombie without a
    parent is removed, any other process stays. *)
Definition orphan_reaped (pt : ProcessTable) (pid : ProcessId) (pt' : ProcessTable) : Prop :=
  match ProcessTable.get pt pid with
  | Some z => if p_orphaned z && is_zombie (p_state z) then remove_step pt pid pt' else pt' = pt
  | None => pt' = pt
  end.

Lemma orphan_reaped_spec pt pid :
  table_wf pt -> fds_wf pt -> orphan_reaped pt pid (ProcessTable.reap_orphan_if_zombie pt pid).
Proof.
  intros Hwf Hf. unfold orphan_reaped.
  destruct (reap_orphan_spec pt pid Hwf Hf) as [((z & -> & -> & ->) & R & _)|[Hz E]]; [done|].
  destruct (ProcessTable.get pt pid) as [z|]; [|done].
  destruct (is_zombie (p_state z)) eqn:Ez; [by rewrite (Hz z)|by rewrite andb_false_r].
Qed.

(** The machine once process [pid] of the ended task has exited: it is a
    zombie without descriptors and children, its references to open files
    are given back, its children have no parent (those that are zombies are
    gone), its waiting parent is woken, and an orphan is removed at once. *)
Definition process_ended (m : Machine) (pid : ProcessId) (e : ProcessExit) (m' : Machine) : Prop :=
  exists p pt fs m1 pt',
    live (proc_table (sched m)) pid p /\
    exit_step (proc_table (sched m)) pid p e pt /\
    FdTable.released (open_files (sched m)) (FdTable.refs (p_fd_table p)) fs /\
    woken (set_sched (set_open_files fs (set_proc_table pt (sched m))) m) pid m1 /\
    orphan_reaped (proc_table (sched m1)) pid pt' /\
    m' = set_sched (set_proc_table pt' (sched m1)) m1.

Lemma ended_same t frame_rsp s code info :
  same_task (set_state (set_saved_rsp t frame_rsp) s) (ended t frame_rsp s code info).
Proof. by destruct code, info. Qed.

Lemma ended_process t frame_rsp s code info :
  process_id (ended t frame_rsp s code info) = process_id t.
Proof. by destruct code, info. Qed.

(** The four updates of the task record, in order. *)
Lemma end_task_run cur frame_rsp s code info (k : ST Machine Switch) Q (m : Machine) t :
  vget (tasks (sched m)) cur = Some t ->
  wp k Q (with_task m cur (ended t frame_rsp s code info)) ->
  wp (modify_task cur (fun t => set_saved_rsp t frame_rsp) ;;;
      set_task_state cur s ;;;
      match code with
      | Some c => modify_task cur (fun t => set_exit_code t c)
      | None => st_ret tt
      end ;;;
      match info with
      | Some i => modify_task cur (fun t => set_fault_info t i)
      | None => st_ret tt
      end ;;;
      k) Q m.
Proof.
  intros Ht HQ. pose proof (vget_range _ _ _ Ht) as Hr.
  assert (forall u, vget (tasks (sched (with_task m cur u))) cur = Some u) as Hg.
  { intros u. by apply vget_vset_eq. }
  assert (forall u v, with_task (with_task m cur u) cur v = with_task m cur v) as Hw.
  { intros u v. unfold with_task. cbn. by rewrite vset_vset. }
  st_step. eapply wp_modify_task; [done|]. st_step. eapply wp_set_task_state; [apply Hg|].
  rewrite Hw. st_step. destruct code as [c|].
  - eapply wp_modify_task; [apply Hg|]. rewrite Hw. st_step. destruct info as [i|]; [|done].
    eapply wp_modify_task; [apply Hg|]. by rewrite Hw.
  - st_steps. destruct info as [i|]; [|done]. eapply wp_modify_task; [apply Hg|]. by rewrite Hw.
Qed.

Lemma finish_current_run frame_rsp s code info (m : Machine) cur t :
  ok m -> current (sched m) = Some cur -> vget (tasks (sched m)) cur = Some t ->
  (s = Finished \/ s = Failed) ->
  wp (finish_current_from_interrupt frame_rsp s code info) (fun r m' =>
    ok m' /\ exists m1, keeps m1 m' /\ switched m1 cur r m' /\
      match process_id t, process_exit_of s code with
      | Some pid, Some e => process_ended (with_task m cur (ended t frame_rsp s code info)) pid e m1
      | _, _ => m1 = with_task m cur (ended t frame_rsp s code info)
      end) m.
Proof.
  intros K Hc Ht Hs. pose proof (ok_core _ K) as C. rewrite Hc in C.
  pose proof (vget_range _ _ _ Ht) as Hr.
  unfold finish_current_from_interrupt. st_steps. eapply wp_expect; [exact Hc|].
  eapply end_task_run; [done|]. set (te := ended t frame_rsp s code info).
  set (m0 := with_task m cur te).
  assert (vget (tasks (sched m0)) cur = Some te) as Ht0 by (by apply vget_vset_eq).
  pose proof (core_same _ _ _ _ _ _ _ _ C Ht (same_saved t frame_rsp)) as C1.
  set (t1 := set_saved_rsp t frame_rsp) in *.
  assert (vget (vset (tasks (sched m)) cur t1) cur = Some t1) as Ht1 by (by apply vget_vset_eq).
  assert (is_terminal (set_state t1 s) = true) as Hterm by (destruct Hs as [-> | ->]; done).
  assert (forall pt fs gone, coreg (vset (vset (tasks (sched m)) cur t1) cur (set_state t1 s)) pt fs None gone ->
    coreg (tasks (sched m0)) pt fs None gone) as Hend.
  { intros pt fs gone Hcore. rewrite vset_vset in Hcore.
    eapply (core_same _ _ _ _ _ cur (set_state t1 s) te) in Hcore;
      [by rewrite vset_vset in Hcore|by apply vget_vset_eq|apply ended_same]. }
  assert (base_ok m0) as B0 by (destruct (ok_base _ K); by constructor).
  assert (forall m1, core_of (sched m1) None -> base_ok m1 ->
    match process_id t, process_exit_of s code with
    | Some pid, Some e => process_ended m0 pid e m1
    | _, _ => m1 = m0
    end ->
    wp (resume_next_after cur) (fun r m' => ok m' /\ exists m1, keeps m1 m' /\ switched m1 cur r m' /\
      match process_id t, process_exit_of s code with
      | Some pid, Some e => process_ended m0 pid e m1
      | _, _ => m1 = m0
      end) m1) as Htail.
  { intros m1 C1' B1 H1. eapply wp_mono; [by apply resume_next_after_run|].
    intros r m' (H2 & H3 & H4). split; [done|]. by exists m1. }
  st_step. eapply wp_task_at; [exact Ht0|]. unfold te at 1. rewrite ended_process.
  destruct (process_id t) as [pid|] eqn:Hpid; st_step.
  2: { st_steps. apply Htail; [|done|done]. apply Hend. by apply (core_finish_kernel _ _ _ _ t1). }
  assert (exists e, process_exit_of s code = Some e) as [e He] by (destruct Hs as [-> | ->]; by eexists).
  rewrite He in *. st_step. eapply wp_expect; [done|]. st_steps.
  destruct (core_exit _ _ _ _ t1 pid s e C1 Ht1 Hpid Hterm) as (p & pt & fs & Hl & Hme & E & Hrel & Cg).
  unfold processes_of. change (proc_table (sched m0)) with (proc_table (sched m)).
  change (open_files (sched m0)) with (open_files (sched m)). rewrite Hme. cbn [is_err]. st_steps.
  eapply wp_mono.
  { apply (wake_parent_run pid _ (exited p e) e); [by apply Hend|by destruct B0|apply E|done]. }
  intros [] m1 (W & Cw & Bw). st_steps. apply Htail.
  - by apply reap_orphan_core.
  - by destruct Bw.
  - exists p, pt, fs, m1, (ProcessTable.reap_orphan_if_zombie (proc_table (sched m1)) pid).
    split; [done|]. split; [done|]. split; [done|]. split; [done|]. split; [|done].
    apply orphan_reaped_spec; apply Cw.
Qed.

(** ** waitpid *)

Definition set_rax (m : Machine) (frame_rsp value : Z) : Machine :=
  set_kmem (kwrite (kmem m) (frame_rsp + OFF_RAX) value) m.

(** All bytes of a range are accessible. *)
Definition range_accessible (r : Ram) (as_ : AddressSpace) (access : Access) (a len : Z) : bool :=
  forallb (fun i => negb (is_err (user_byte r as_ access (a + Z.of_nat i)))) (seq 0 (Z.to_nat len)).

Lemma range_accessible_spec r as_ access a len :
  range_accessible r as_ access a len = true <->
  forall i, 0 <= i < len -> accessible r as_ access (a + i).
Proof.
  unfold range_accessible. rewrite forallb_forall. split.
  - intros H i Hi. specialize (H (Z.to_nat i)). rewrite in_seq, Z2Nat.id in H by lia.
    unfold accessible. destruct (user_byte r as_ access (a + i)); [eauto|].
    by discriminate H; lia.
  - intros H n Hn%in_seq. destruct (H (Z.of_nat n)) as [p ->]; [lia|done].
Qed.

(** The error [waitpid] reports to process [parent], if any. *)
Definition wait_error (m : Machine) (parent : ProcessId) (p : Process) (c : ProcessId)
    (ptr : option Z) (options : Z) : option SysError :=
  if negb (options =? 0) && negb (options =? WNOHANG) then Some Invalid
  else if (c =? 0) || negb (ProcessTable.is_child (proc_table (sched m)) parent c) then Some Child
  else match ptr with
       | Some a => if range_accessible (ram (mem m)) (p_address_space p) Write a wait_status_size
                   then None else Some Fault
       | None => None
       end.

Definition waitpid_outcome (m : Machine) (frame_rsp : Z) (cur : Z) (t : Task) (parent : ProcessId)
    (p : Process) (c : ProcessId) (ptr : option Z) (options : Z) (r : Switch) (m' : Machine) : Prop :=
  match wait_error m parent p c ptr options with
  | Some e => r = Resume frame_rsp /\ m' = set_rax m frame_rsp (raw_return e)
  | None =>
      match ProcessTable.state (proc_table (sched m)) c with
      | Some (Zombie _) =>
          r = Resume frame_rsp /\
          waited (with_task m cur (set_saved_rsp t frame_rsp)) (set_saved_rsp t frame_rsp) c ptr m'
      | Some PRunning =>
          if options =? WNOHANG then r = Resume frame_rsp /\ m' = set_rax m frame_rsp 0
          else
            let m1 := with_task m cur
                        (set_state (set_saved_rsp t frame_rsp) (Blocked (ChildExit c ptr))) in
            keeps m1 m' /\ switched m1 cur r m'
      | None => False
      end
  end.

Lemma ok_set_kmem m k : ok m -> ok (set_kmem k m).
Proof. intros [C [] L]. by constructor. Qed.

Lemma ok_process m cur t pid :
  ok m -> current (sched m) = Some cur -> vget (tasks (sched m)) cur = Some t ->
  process_id t = Some pid ->
  exists p, live (proc_table (sched m)) pid p /\ p_main_task p = cur.
Proof.
  intros K Hc Ht Hpid. destruct (ok_running m cur K Hc) as (u & Hu & Hst).
  rewrite Ht in Hu. injection Hu as <-.
  apply (ln_task _ _ _ _ (co_linked _ _ _ _ _ (ok_core _ K)) cur t pid Ht Hpid).
  unfold is_terminal. by rewrite Hst.
Qed.

Lemma validate_target_run pid p a (Q : result UserMemoryError unit -> Machine -> Prop) m :
  ProcessTable.get (proc_table (sched m)) pid = Some p -> mem_ok (mem m) -> is_u64 a ->
  (forall r, is_err r = negb (range_accessible (ram (mem m)) (p_address_space p) Write a
                                wait_status_size) -> Q r m) ->
  wp (validate_wait_status_target pid a) Q m.
Proof.
  intros Hp Hm Ha HQ. unfold validate_wait_status_target. st_steps.
  unfold ProcessTable.address_space, processes_of. rewrite Hp. cbn [ok_or]. st_steps.
  destruct (validate_user_range_run (p_address_space p) a wait_status_size Write (mem m) Hm Ha)
    as (r & E & Hiff); [done|].
  eapply wp_intro; [exact E|]. replace (set_mem (mem m) m) with m by (by destruct m). apply HQ.
  rewrite <- range_accessible_spec in Hiff.
  destruct r as [[]|e], (range_accessible _ _ _ _ _); cbn; try done; exfalso;
    [by discriminate (proj1 Hiff eq_refl)|by discriminate (proj2 Hiff eq_refl)].
Qed.

Lemma canonical_u64 a : canonical a -> is_u64 a.
Proof. unfold canonical, is_u64. lia. Qed.

(** The blocking and the completing branch, after the checks. *)
Lemma waitpid_child_run frame_rsp c ptr options (m : Machine) cur t pid p :
  ok m -> current (sched m) = Some cur -> vget (tasks (sched m)) cur = Some t ->
  process_id t = Some pid -> live (proc_table (sched m)) pid p ->
  (forall a, ptr = Some a -> canonical a) ->
  wait_error m pid p c ptr options = None ->
  wp (match ProcessTable.state (processes_of m) c with
      | None => return_sys_error frame_rsp Child
      | Some (Zombie _) =>
          modify_task cur (fun t => set_saved_rsp t frame_rsp) ;;;
          complete_wait cur c ptr ;;;
          st_ret (Resume frame_rsp)
      | Some PRunning =>
          if options =? WNOHANG then
            set_frame_rax frame_rsp 0 ;;; st_ret (Resume frame_rsp)
          else
            modify_task cur (fun t => set_saved_rsp t frame_rsp) ;;;
            set_task_state cur (Blocked (ChildExit c ptr)) ;;;
            resume_next_after cur
      end) (fun r m' => ok m' /\ waitpid_outcome m frame_rsp cur t pid p c ptr options r m') m.
Proof.
  intros K Hc Ht Hpid [Hp Hrun] Hcan Hnone. pose proof (ok_core _ K) as C. rewrite Hc in C.
  pose proof (vget_range _ _ _ Ht) as Hr.
  unfold waitpid_outcome. rewrite Hnone. unfold processes_of.
  assert (exists q z, ProcessTable.get (proc_table (sched m)) pid = Some q /\ c ∈ p_children q /\
    ProcessTable.get (proc_table (sched m)) c = Some z) as (q & z & Hq & Hin & Hz).
  { unfold wait_error in Hnone. destruct (negb _ && negb _); [done|].
    destruct ((c =? 0) || negb (ProcessTable.is_child (proc_table (sched m)) pid c)) eqn:E; [done|].
    apply orb_false_elim in E as [_ E%negb_false_iff]. apply is_child_spec in E as (q & Hq & Hin).
    destruct (wf_children _ (co_table _ _ _ _ _ C) _ _ _ Hq Hin) as (_ & z & Hz & _). eauto. }
  rewrite Hp in Hq. injection Hq as <-.
  set (t1 := set_saved_rsp t frame_rsp). set (m1 := with_task m cur t1).
  assert (ok m1) as K1 by (by eapply ok_with_task).
  assert (vget (tasks (sched m1)) cur = Some t1) as Ht1 by (by apply vget_vset_eq).
  pose proof (ok_core _ K1) as C1. rewrite (Hc : current (sched m1) = Some cur) in C1.
  unfold ProcessTable.state. rewrite Hz. destruct (p_state z) as [|e] eqn:Hzs.
  - destruct (options =? WNOHANG).
    { st_steps. split; [by apply ok_set_kmem|done]. }
    st_step. eapply wp_modify_task; [done|]. st_step. eapply wp_set_task_state; [exact Ht1|].
    set (s := Blocked (ChildExit c ptr)).
    assert (with_task (with_task m cur t1) cur (set_state t1 s) = with_task m cur (set_state t1 s)) as Hww.
    { unfold with_task. cbn. by rewrite vset_vset. }
    assert (core_of (sched (with_task m1 cur (set_state t1 s))) None) as C2.
    { apply (core_stop _ _ _ _ _ s C1 Ht1); [done|done|].
      intros c' ptr' [= <- <-]. split; [done|]. exists pid, p. split; [done|].
      split; [done|]. split; [done|]. by exists z. }
    eapply wp_mono; [apply resume_next_after_run; [exact C2|destruct (ok_base _ K1); by constructor]|].
    fold t1. rewrite Hww. intros r m' (H1 & H2 & H3). done.
  - st_step. eapply wp_modify_task; [done|]. st_step. eapply wp_mono.
    { apply (complete_wait_run cur c ptr m1 t1 pid p z e); try done; [apply C1|apply C1|apply (ok_base _ K)]. }
    intros [] m' W. st_steps. split; [|done].
    constructor.
    + rewrite (wt_current _ _ _ _ _ W). eapply waited_core; try done.
      by rewrite (Hc : current (sched m1) = Some cur).
    + eapply waited_base; [done|]. apply K1.
    + intros i u Hi Hu. rewrite (wt_current _ _ _ _ _ W) in Hi. rewrite (wt_tasks _ _ _ _ _ W) in Hu.
      destruct (ok_loaded _ K1 i u Hi Hu) as [L1 L2]. destruct (wt_mem _ _ _ _ _ W) as [E1 E2 _].
      split; [by rewrite (wt_cpu _ _ _ _ _ W)|]. rewrite E1, <- L2.
      rewrite (Hc : current (sched m1) = Some cur) in Hi. injection Hi as <-.
      rewrite Ht1 in Hu. injection Hu as <-. unfold space_of. rewrite E2.
      change (process_id t1) with (process_id t). rewrite Hpid. unfold ProcessTable.address_space.
      destruct (waited_table _ _ _ _ _ W) as [[R _]| ->]; [|done].
      assert (pid <> c) as Hne by (intros ->; congruence).
      destruct (remove_step_get _ _ _ _ _ R Hp Hne) as [p' Hp']. rewrite Hp'.
      destruct (remove_step_shape _ _ _ _ _ R Hp') as (p0 & Hp0 & Hsh).
      change (proc_table (sched m1)) with (proc_table (sched m)) in *.
      rewrite Hp in Hp0 |- *. injection Hp0 as <-. by destruct Hsh as [-> | ->].
Qed.

Lemma waitpid_run frame_rsp c ptr options (m : Machine) :
  ok m -> (forall a, ptr = Some a -> canonical a) ->
  wp (waitpid_from_interrupt frame_rsp c ptr options) (fun r m' =>
    ok m' /\
    ((exists cur t pid p, current (sched m) = Some cur /\ vget (tasks (sched m)) cur = Some t /\
        process_id t = Some pid /\ live (proc_table (sched m)) pid p /\
        waitpid_outcome m frame_rsp cur t pid p c ptr options r m') \/
     ((forall cur t, current (sched m) = Some cur -> vget (tasks (sched m)) cur = Some t ->
         process_id t = None) /\
      r = Resume frame_rsp /\ m' = set_rax m frame_rsp (raw_return Child)))) m.
Proof.
  intros K Hcan. unfold waitpid_from_interrupt, return_sys_error. st_steps.
  destruct (current (sched m)) as [cur|] eqn:Hc.
  2: { st_steps. split; [by apply ok_set_kmem|]. right. done. }
  destruct (ok_running m cur K Hc) as (t & Ht & Hst).
  st_step. eapply wp_task_at; [done|]. destruct (process_id t) as [pid|] eqn:Hpid.
  2: { st_steps. split; [by apply ok_set_kmem|]. right. split; [|done]. intros ? u [= <-] Hu. congruence. }
  destruct (ok_process m cur t pid K Hc Ht Hpid) as (p & [Hp Hrun] & _).
  eapply wp_mono; [|intros r m' H; exact (conj (proj1 H) (or_introl (ex_intro _ cur (ex_intro _ t
    (ex_intro _ pid (ex_intro _ p (conj eq_refl (conj Ht (conj Hpid (conj (conj Hp Hrun) (proj2 H)))))))))))].
  unfold waitpid_outcome. destruct (wait_error m pid p c ptr options) as [err|] eqn:Hw.
  - unfold wait_error in Hw. destruct (negb _ && negb _).
    { injection Hw as <-. st_steps. split; [by apply ok_set_kmem|done]. }
    unfold processes_of. destruct ((c =? 0) || _).
    { injection Hw as <-. st_steps. split; [by apply ok_set_kmem|done]. }
    destruct ptr as [a|]; [|done]. st_step.
    apply (validate_target_run pid p); [done|apply (ok_base _ K)|by apply canonical_u64, Hcan|].
    intros r Hr. destruct (range_accessible _ _ _ _ _); [done|]. rewrite Hr. cbn [negb].
    injection Hw as <-. st_steps. split; [by apply ok_set_kmem|done].
  - pose proof (waitpid_child_run frame_rsp c ptr options m cur t pid p K Hc Ht Hpid (conj Hp Hrun) Hcan Hw)
      as Hrest. unfold waitpid_outcome in Hrest. rewrite Hw in Hrest.
    unfold wait_error in Hw. destruct (negb _ && negb _); [done|].
    unfold processes_of in *. destruct ((c =? 0) || _); [done|].
    destruct ptr as [a|]; st_step; [|exact Hrest].
    apply (validate_target_run pid p); [done|apply (ok_base _ K)|by apply canonical_u64, Hcan|].
    intros r Hr. destruct (range_accessible _ _ _ _ _); [|done]. rewrite Hr. exact Hrest.
Qed.
End waiting.
