(* ===== verification/Calls.v ===== *)
(** * The system calls on files and on the heap

    Each [sys_*_current] is run under the invariant: it returns without a
    panic, keeps [ok], and its result and effects are those stated. *)

From S2P Require Import Prelude File Fd X86 Memory AddressSpace UserMemory Process Context.
From S2P Require Import Serial Task Syscall User Elf Scheduler SchedulerCalls RoundRobin Invariant.
From S2P Require Import Switching Exit.

Import ProcessTableFacts.

(** The process of the running task. *)
Definition current_proc (m : Machine) : option ProcessId :=
  match current (sched m) with
  | Some cur => match vget (tasks (sched m)) cur with
                | Some t => process_id t
                | None => None
                end
  | None => None
  end.

(** Two records of a process that differ in descriptors and heap only. *)
Definition same_links (p p' : Process) : Prop :=
  p_pid p' = p_pid p /\ p_parent p' = p_parent p /\ p_children p' = p_children p /\
  p_state p' = p_state p /\ p_address_space p' = p_address_space p /\
  p_main_task p' = p_main_task p /\ p_orphaned p' = p_orphaned p.

Lemma update_inv pt pid p p' i q :
  ProcessTable.get pt pid = Some p -> same_links p p' ->
  ProcessTable.get (ProcessTable.update pt pid p') i = Some q ->
  (i = pid /\ q = p') \/ (i <> pid /\ ProcessTable.get pt i = Some q).
Proof.
  intros Hp _. rewrite (get_update _ _ _ _ _ Hp). case_decide; [intros [= <-]; by left|by right].
Qed.

Lemma update_get pt pid p p' i q :
  ProcessTable.get pt pid = Some p -> same_links p p' -> ProcessTable.get pt i = Some q ->
  exists q', ProcessTable.get (ProcessTable.update pt pid p') i = Some q' /\ same_links q q'.
Proof.
  intros Hp Hs Hi. rewrite (get_update _ _ _ _ _ Hp). case_decide as E.
  - subst i. exists p'. split; [done|]. by replace q with p by congruence.
  - by exists q.
Qed.

Lemma update_inv' pt pid p p' i q' :
  ProcessTable.get pt pid = Some p -> same_links p p' ->
  ProcessTable.get (ProcessTable.update pt pid p') i = Some q' ->
  exists q, ProcessTable.get pt i = Some q /\ same_links q q'.
Proof.
  intros Hp Hs. rewrite (get_update _ _ _ _ _ Hp). case_decide as E.
  - subst i. intros [= <-]. by exists p.
  - by exists q'.
Qed.

Lemma update_wf pt pid p p' :
  table_wf pt -> ProcessTable.get pt pid = Some p -> same_links p p' ->
  table_wf (ProcessTable.update pt pid p').
Proof.
  intros Hwf Hp Hs. constructor.
  - cbn. rewrite vlen_vset. destruct (wf_size _ Hwf) as [E|E]; [|by right].
    apply get_vget in Hp. rewrite E in Hp. apply vget_range in Hp. unfold vlen in Hp. cbn in Hp. lia.
  - apply (wf_next _ Hwf).
  - intros i q' (q & Hq & E1 & _)%(update_inv' _ _ _ _ _ _ Hp Hs). rewrite E1.
    apply (wf_pid _ Hwf _ _ Hq).
  - intros i q' (q & Hq & _ & _ & -> & _)%(update_inv' _ _ _ _ _ _ Hp Hs).
    apply (wf_children_nodup _ Hwf _ _ Hq).
  - intros i q' c (q & Hq & _ & _ & -> & _)%(update_inv' _ _ _ _ _ _ Hp Hs) Hc.
    destruct (wf_children _ Hwf _ _ _ Hq Hc) as (Hlt & z & Hz & Hzp & Hzo). split; [done|].
    destruct (update_get _ _ _ _ _ _ Hp Hs Hz) as (z' & Hz' & _ & Ep & _ & _ & _ & _ & Eo).
    exists z'. split; [done|]. split; congruence.
  - intros c q' i (q & Hq & _ & -> & _)%(update_inv' _ _ _ _ _ _ Hp Hs) Hpar.
    destruct (wf_parent _ Hwf _ _ _ Hq Hpar) as (Hlt & Hin). split; [done|].
    intros z' (z & Hz & _ & _ & -> & _)%(update_inv' _ _ _ _ _ _ Hp Hs). by apply Hin.
  - intros i q' (q & Hq & _ & -> & _ & _ & _ & _ & ->)%(update_inv' _ _ _ _ _ _ Hp Hs).
    apply (wf_orphan _ Hwf _ _ Hq).
Qed.

Lemma update_running_parents pt pid p p' :
  running_parents pt -> ProcessTable.get pt pid = Some p -> same_links p p' ->
  running_parents (ProcessTable.update pt pid p').
Proof.
  intros Hrp Hp Hs c q' i (q & Hq & _ & -> & _)%(update_inv' _ _ _ _ _ _ Hp Hs) Hpar.
  destruct (Hrp _ _ _ Hq Hpar) as (z & Hz & Hst).
  destruct (update_get _ _ _ _ _ _ Hp Hs Hz) as (z' & Hz' & _ & _ & _ & Es & _).
  exists z'. split; congruence.
Qed.

Lemma live_update pt pid p p' i q :
  ProcessTable.get pt pid = Some p -> same_links p p' -> live pt i q ->
  exists q', live (ProcessTable.update pt pid p') i q' /\ same_links q q'.
Proof.
  intros Hp Hs [Hi Hst]. destruct (update_get _ _ _ _ _ _ Hp Hs Hi) as (q' & Hq' & E).
  exists q'. split; [split; [done|]|done]. destruct E as (_ & _ & _ & -> & _). done.
Qed.

Lemma linked_update ts pt run pid p p' :
  linked ts pt run None -> ProcessTable.get pt pid = Some p -> same_links p p' ->
  linked ts (ProcessTable.update pt pid p') run None.
Proof.
  intros L Hp Hs. constructor; try apply L.
  - intros i t q Hi Hq Ht. destruct (ln_task _ _ _ _ L i t q Hi Hq Ht) as (r & Hr & Hm).
    destruct (live_update _ _ _ _ _ _ Hp Hs Hr) as (r' & Hr' & _ & _ & _ & _ & _ & Em & _).
    exists r'. split; [done|]. congruence.
  - intros q r' [Hr' Hst]. destruct (update_inv' _ _ _ _ _ _ Hp Hs Hr') as (r & Hr & E).
    destruct E as (_ & _ & _ & Es & _ & Em & _).
    destruct (ln_proc _ _ _ _ L q r) as (t & Ht); [split; congruence|]. exists t. by rewrite Em.
  - intros i t c ptr Hi Hst.
    destruct (ln_wait _ _ _ _ L i t c ptr Hi Hst) as (Hc & q & r & Hq & Hr & Hin & [?|[x Hx]]); [done|].
    split; [done|].
    destruct (live_update _ _ _ _ _ _ Hp Hs Hr) as (r' & Hr' & _ & _ & Ec & _).
    destruct (live_update _ _ _ _ _ _ Hp Hs Hx) as (x' & Hx' & _).
    exists q, r'. split; [done|]. split; [done|]. rewrite Ec. split; [done|]. right. by exists x'.
Qed.

(** Replacing the record of a live process and the open files together. *)
Definition with_process (m : Machine) (pid : ProcessId) (p : Process) (fs : OpenFileTable) : Machine :=
  set_sched (set_open_files fs
    (set_proc_table (ProcessTable.update (proc_table (sched m)) pid p) (sched m))) m.

Lemma ok_with_process m pid p p' fs :
  ok m -> live (proc_table (sched m)) pid p -> same_links p p' ->
  FdTable.sized (p_fd_table p') -> heap_ok (p_heap p') -> OpenFileTable.table_ok fs ->
  (forall id, OpenFileTable.rc fs id = OpenFileTable.rc (open_files (sched m)) id
      - FdTable.refs (p_fd_table p) id + FdTable.refs (p_fd_table p') id) ->
  ok (with_process m pid p' fs).
Proof.
  intros K [Hp Hrun] Hs Hfd Hh Hok Hrc. destruct K as [[Cwf Cfds Cheap L [Ctab Cref]] [Bm Bc] Ld].
  constructor; [constructor|by constructor|].
  - by eapply update_wf.
  - constructor; intros i q [[-> ->]|[_ Hq]]%(update_inv _ _ _ _ _ _ Hp Hs).
    + done.
    + by apply (fds_sized _ Cfds i).
    + intros Hz. destruct Hs as (_ & _ & _ & Es & _). rewrite Es, Hrun in Hz. done.
    + by apply (fds_zombie _ Cfds i).
  - intros i q [[-> ->]|[_ Hq]]%(update_inv _ _ _ _ _ _ Hp Hs); [done|by apply (Cheap i)].
  - by eapply linked_update.
  - constructor; [done|]. intros id.
    cbn [with_process sched set_sched set_open_files set_proc_table proc_table open_files]. rewrite Hrc, Cref, (total_refs_update _ _ _ _ _ Hp). done.
  - intros i t Hi Ht. destruct (Ld i t Hi Ht) as [L1 L2]. split; [done|].
    etransitivity; [|exact L2]. unfold space_of. destruct (process_id t) as [q|]; [|done].
    unfold ProcessTable.address_space. cbn. rewrite (get_update _ _ _ _ _ Hp).
    case_decide as E; [|done]. subst q. rewrite Hp. cbn. by destruct Hs as (_ & _ & _ & _ & -> & _).
Qed.

Lemma ok_set_mem m x : ok m -> same_ctl (mem m) x -> ok (set_mem x m).
Proof.
  intros [C [Bm Bc] L] [E1 E2 E3]. constructor; [done|constructor|].
  - by apply E3.
  - intros f. cbn. rewrite E1. apply Bc.
  - intros i t Hi Ht. destruct (L i t Hi Ht) as [L1 L2]. split; [done|]. cbn. rewrite E1, <- L2.
    by apply space_of_ext.
Qed.

Lemma ok_set_serial m s : ok m -> ok (set_serial s m).
Proof. intros [C [] L]. by constructor. Qed.

Lemma current_proc_live m pid :
  ok m -> current_proc m = Some pid ->
  exists p, live (proc_table (sched m)) pid p /\ current (sched m) = Some (p_main_task p).
Proof.
  intros K. unfold current_proc. destruct (current (sched m)) as [cur|] eqn:Hc; [|done].
  destruct (vget (tasks (sched m)) cur) as [t|] eqn:Ht; [|done]. intros Hp.
  destruct (ok_process m cur t pid K Hc Ht Hp) as (p & Hl & Hm). exists p. by rewrite Hm.
Qed.

Section calls.
Context {X : X86_64} {XS : X86_64_Spec X}.

Lemma current_process_id_run m :
  ok m -> current_process_id m = Done (current_proc m, m).
Proof.
  intros K. unfold current_process_id, current_proc, st_bind, st_get.
  destruct (current (sched m)) as [cur|] eqn:Hc; [|done].
  destruct (ok_running m cur K Hc) as (t & Ht & _). unfold task_at, st_bind, st_get. by rewrite Ht.
Qed.

Lemma wp_current_pid e {B} (k : ProcessId -> ST Machine (result SysError B)) Q m :
  ok m ->
  match current_proc m with Some pid => wp (k pid) Q m | None => Q (Err e) m end ->
  wp (st_try (current_pid_or e) k) Q m.
Proof.
  intros K H. apply wp_try. unfold current_pid_or. apply wp_bind.
  eapply wp_intro; [by apply current_process_id_run|]. apply wp_ret.
  by destruct (current_proc m).
Qed.

Lemma with_process_same m pid p :
  ProcessTable.get (proc_table (sched m)) pid = Some p ->
  with_process m pid p (open_files (sched m)) = m.
Proof.
  intros Hp%get_vget. unfold with_process, ProcessTable.update, ProcessTable.put_slot.
  rewrite vset_id by done. by destruct m as [[? [] ? ? ? ? ?] ? ? ? ?].
Qed.

Lemma ok_fds m pid p : ok m -> ProcessTable.get (proc_table (sched m)) pid = Some p ->
  FdTable.sized (p_fd_table p) /\ heap_ok (p_heap p).
Proof.
  intros K Hp. split; [by apply (fds_sized _ (co_fds _ _ _ _ _ (ok_core _ K)) pid)|].
  by apply (co_heap _ _ _ _ _ (ok_core _ K) pid).
Qed.

(** An open descriptor names a file of the table. *)
Lemma ok_open_file m pid p fd e :
  ok m -> ProcessTable.get (proc_table (sched m)) pid = Some p ->
  FdTable.get (p_fd_table p) fd = Some e ->
  exists f, OpenFileTable.get (open_files (sched m)) (open_file e) = Some f.
Proof.
  intros K Hp He. destruct (co_files _ _ _ _ _ (ok_core _ K)) as [[_ Hpos] Hrefs].
  apply OpenFileTable.rc_pos; [done|]. rewrite Hrefs.
  pose proof (FdTable.get_refs _ _ _ He). pose proof (total_refs_ge _ _ _ (open_file e) Hp). lia.
Qed.

(** ** close *)

Definition close_outcome (m : Machine) (fd : Z) (r : SysResult) (m' : Machine) : Prop :=
  match current_proc m with
  | None => r = Err BadFd /\ m' = m
  | Some pid =>
      exists p, live (proc_table (sched m)) pid p /\
      match FdTable.get (p_fd_table p) fd with
      | None => r = Err BadFd /\ m' = m
      | Some e =>
          r = Ok 0 /\
          m' = with_process m pid (set_fd_table p (vset (p_fd_table p) fd None))
                 (OpenFileTable.dec_ref (open_files (sched m)) (open_file e))
      end
  end.

Lemma sys_close_run fd m :
  ok m -> wp (sys_close_current fd) (fun r m' => ok m' /\ close_outcome m fd r m') m.
Proof.
  intros K. unfold sys_close_current, close_outcome. apply wp_current_pid; [done|].
  destruct (current_proc m) as [pid|] eqn:Hc; [|done].
  destruct (current_proc_live m pid K Hc) as (p & [Hp Hrun] & _).
  destruct (ok_fds m pid p K Hp) as [Hsz Hh].
  pose proof (fl_table _ _ (co_files _ _ _ _ _ (ok_core _ K))) as Htab.
  st_steps. unfold processes_of. rewrite Hp.
  destruct (FdTable.close (p_fd_table p) fd (open_files (sched m))) as [[r t'] fs'] eqn:E.
  pose proof (FdTable.close_spec _ _ _ _ _ _ Hsz Htab E) as Hcl. do 4 st_step. cbv beta.
  match goal with |- wp _ _ ?x => change x with (with_process m pid (set_fd_table p t') fs') end.
  st_steps. destruct (FdTable.get (p_fd_table p) fd) as [e|] eqn:He.
  - destruct Hcl as (-> & Hsz' & Htab' & -> & _ & _ & Href). cbn [map_err]. st_steps.
    split; [|exists p; rewrite He; split; [done|]; split; [done|]].
    2: { unfold FdTable.close in E. unfold FdTable.get in He.
         destruct (vget (p_fd_table p) fd) as [[e'|]|]; [|done..]. by injection E as <-. }
    unfold FdTable.close in E. unfold FdTable.get in He.
    destruct (vget (p_fd_table p) fd) as [[e'|]|]; [|done..]. injection He as ->. injection E as <-.
    eapply ok_with_process; try done. intros id. rewrite OpenFileTable.rc_dec_ref by apply Htab.
    cbn [set_fd_table p_fd_table]. rewrite Href.
    destruct (co_files _ _ _ _ _ (ok_core _ K)) as [_ Hrc].
    pose proof (total_refs_ge _ _ _ id Hp). rewrite Hrc in *.
    assert (0 <= FdTable.refs (vset (p_fd_table p) fd None) id) by apply FdTable.refs_nonneg.
    rewrite Href in *. decide_lia.
  - destruct Hcl as (-> & -> & ->). cbn [map_err].
    replace (set_fd_table p (p_fd_table p)) with p by (by destruct p).
    rewrite with_process_same by done. split; [done|]. exists p. by rewrite He.
Qed.

(** ** open *)

(** The checks of [open], in order, up to the file to open. *)
Definition open_request (m : Machine) (path_ptr path_len flags : Z) :
    result SysError (ProcessId * EmbeddedFileId) :=
  if negb (flags =? O_RDONLY) then Err Invalid
  else if path_len =? 0 then Err NoEntry
  else if path_len >? MAX_PATH_LEN then Err NameTooLong
  else
    let! pid := ok_or (current_proc m) BadFd in
    let! aspace := ok_or (ProcessTable.address_space (proc_table (sched m)) pid) BadFd in
    let! path := map_err map_user_memory_error
                   (read_user (ram (mem m)) aspace path_ptr (Z.to_nat path_len)) in
    let! id := ok_or (find_embedded_file path) NoEntry in
    Ok (pid, id).

(** The descriptor table has a free slot and the file table too: a fresh
    open file at offset 0 is named by the lowest free descriptor. Otherwise
    nothing changes. *)
Definition opened (m : Machine) (pid : ProcessId) (file_id : EmbeddedFileId) (r : SysResult)
    (m' : Machine) : Prop :=
  exists p fs, live (proc_table (sched m)) pid p /\
  match r with
  | Ok fd =>
      exists id, 0 <= fd < MAX_FDS_PER_PROCESS /\ FdTable.get (p_fd_table p) fd = None /\
        (forall j, 0 <= j < fd -> FdTable.get (p_fd_table p) j <> None) /\
        OpenFileTable.get (open_files (sched m)) id = None /\
        OpenFileTable.get fs id = Some (mkOpenFile (EmbeddedFileKind file_id) ReadOnly 0 1) /\
        (forall j, j <> id -> OpenFileTable.get fs j = OpenFileTable.get (open_files (sched m)) j) /\
        m' = with_process m pid
               (set_fd_table p (vset (p_fd_table p) fd (Some (mkFdEntry id)))) fs
  | Err e =>
      ((e = SystemFileLimit /\
        forall j, 0 <= j < MAX_OPEN_FILES -> OpenFileTable.get (open_files (sched m)) j <> None) \/
       (e = ProcessFileLimit /\
        forall j, 0 <= j < MAX_FDS_PER_PROCESS -> FdTable.get (p_fd_table p) j <> None)) /\
      (forall j, OpenFileTable.get fs j = OpenFileTable.get (open_files (sched m)) j) /\
      m' = with_process m pid p fs
  end.

Definition open_outcome (m : Machine) (path_ptr path_len flags : Z) (r : SysResult) (m' : Machine) :
    Prop :=
  match open_request m path_ptr path_len flags with
  | Err e => r = Err e /\ m' = m
  | Ok (pid, file_id) => opened m pid file_id r m'
  end.

Lemma allocate_lowest_vset t file fd t' :
  FdTable.allocate_lowest t file = (Ok fd, t') -> t' = vset t fd (Some (mkFdEntry file)).
Proof. unfold FdTable.allocate_lowest. destruct (position _ t); [|done]. by intros [= -> <-]. Qed.

(** The part of [open] after its checks. *)
Lemma open_alloc_run m pid p file_id :
  ok m -> live (proc_table (sched m)) pid p ->
  wp (let* m := st_get in
      let '(r, files) :=
        OpenFileTable.alloc (open_files (sched m)) (EmbeddedFileKind file_id) ReadOnly in
      set_files files ;;;
      let? open_file := st_ret (map_err map_file_error r) in
      let* m := st_get in
      match ProcessTable.get (processes_of m) pid with
      | None => st_ret (Err BadFd)
      | Some p =>
          let '(fd, table) := FdTable.allocate_lowest (p_fd_table p) open_file in
          set_procs (ProcessTable.update (processes_of m) pid (set_fd_table p table)) ;;;
          match fd with
          | Ok fd => st_ret (Ok fd)
          | Err error =>
              set_files (OpenFileTable.dec_ref (open_files (sched m)) open_file) ;;;
              st_ret (Err (map_file_error error))
          end
      end) (fun r m' => ok m' /\ opened m pid file_id r m') m.
Proof.
  intros K [Hp Hrun]. destruct (ok_fds m pid p K Hp) as [Hsz Hh].
  destruct (co_files _ _ _ _ _ (ok_core _ K)) as [Htab Hrc]. st_steps.
  destruct (OpenFileTable.alloc _ _ _) as [r fs] eqn:Ea.
  destruct (OpenFileTable.alloc_rc _ _ _ _ _ Htab Ea) as [Htab' Hr]. do 4 st_step.
  assert (forall fs', (forall j, OpenFileTable.get fs' j = OpenFileTable.get (open_files (sched m)) j) ->
    OpenFileTable.table_ok fs' -> ok (with_process m pid p fs')) as Hkeep.
  { intros fs' Hg Ht. eapply ok_with_process; try done. intros id. unfold OpenFileTable.rc.
    rewrite Hg. lia. }
  destruct r as [id|e]; cbn [map_err].
  - destruct Hr as (Hnone & Hnew & Hother & Hrc'). st_steps. unfold processes_of.
    change (proc_table (sched (set_sched (set_open_files fs (sched m)) m))) with (proc_table (sched m)).
    rewrite Hp. destruct (FdTable.allocate_lowest (p_fd_table p) id) as [r t'] eqn:El.
    destruct (FdTable.allocate_lowest_spec _ _ _ _ Hsz El) as [Hsz' Hl]. st_steps.
    destruct r as [fd|e]; st_steps.
    + destruct Hl as (H1 & H2 & H3 & H4 & H5 & H6).
      pose proof (allocate_lowest_vset _ _ _ _ El) as ->.
      split; [|exists p, fs; split; [done|]; exists id; done].
      change (ok (with_process m pid (set_fd_table p (vset (p_fd_table p) fd (Some (mkFdEntry id)))) fs)).
      eapply ok_with_process; try done. intros j. rewrite Hrc'. cbn [set_fd_table p_fd_table].
      rewrite H6. lia.
    + destruct Hl as (-> & -> & H3).
      replace (set_fd_table p (p_fd_table p)) with p by (by destruct p).
      assert (forall j, OpenFileTable.get (OpenFileTable.dec_ref fs id) j =
                        OpenFileTable.get (open_files (sched m)) j) as Hundo.
      { intros j. by eapply FdTable.dec_ref_undo. }
      split; [apply (Hkeep _ Hundo); by apply OpenFileTable.dec_ref_ok|].
      exists p, (OpenFileTable.dec_ref fs id). split; [done|]. split; [by right|]. done.
  - destruct Hr as (-> & Hg).
    destruct (OpenFileTable.alloc_Err _ _ _ _ _ (proj1 Htab) Ea) as (_ & _ & _ & Hfull).
    pose proof (Hkeep fs Hg Htab') as Hok.
    assert (set_sched (set_open_files fs (sched m)) m = with_process m pid p fs) as ->.
    { apply get_vget in Hp. unfold with_process, ProcessTable.update, ProcessTable.put_slot.
      rewrite vset_id by done. by destruct m as [[? [] ? ? ? ? ?] ? ? ? ?]. }
    split; [done|]. exists p, fs. split; [done|]. split; [by left|done].
Qed.

Lemma sys_open_run path_ptr path_len flags m :
  ok m -> canonical path_ptr -> 0 <= path_len ->
  wp (sys_open_current path_ptr path_len flags)
     (fun r m' => ok m' /\ open_outcome m path_ptr path_len flags r m') m.
Proof.
  intros K Hcan Hlen. unfold sys_open_current, open_outcome, open_request.
  destruct (negb (flags =? O_RDONLY)); [by apply wp_ret|].
  destruct (path_len =? 0); [by apply wp_ret|]. destruct (path_len >? MAX_PATH_LEN); [by apply wp_ret|].
  apply wp_current_pid; [done|]. destruct (current_proc m) as [pid|] eqn:Hc; [|done].
  destruct (current_proc_live m pid K Hc) as (p & Hl & _). pose proof Hl as [Hp _].
  cbn [ok_or result_bind]. apply wp_try. unfold address_space_or. st_steps. unfold processes_of.
  assert (ProcessTable.address_space (proc_table (sched m)) pid = Some (p_address_space p)) as ->
    by (unfold ProcessTable.address_space; by rewrite Hp).
  cbn [ok_or result_bind]. apply wp_try. unfold st_map_err. st_steps.
  eapply wp_intro; [apply copy_from_user_run; [apply (ok_base _ K)|done|done]|].
  replace (set_mem (mem m) m) with m by (by destruct m). st_steps.
  destruct (read_user _ _ _ _) as [path|e]; cbn [map_err result_bind]; [|done]. st_steps.
  destruct (find_embedded_file path) as [id|]; cbn [ok_or result_bind]; [|done].
  by eapply open_alloc_run.
Qed.

(** ** read *)

(** The open file behind descriptor [fd] of the current process. *)
Definition fd_file (m : Machine) (fd : Z) :
    result SysError (ProcessId * Process * FdEntry * OpenFile) :=
  let! pid := ok_or (current_proc m) BadFd in
  let! p := ok_or (ProcessTable.get (proc_table (sched m)) pid) BadFd in
  let! e := ok_or (FdTable.get (p_fd_table p) fd) BadFd in
  let! f := ok_or (OpenFileTable.get (open_files (sched m)) (open_file e)) BadFd in
  Ok (pid, p, e, f).

Lemma fd_file_Ok m fd pid p e f :
  ok m -> fd_file m fd = Ok (pid, p, e, f) ->
  current_proc m = Some pid /\ live (proc_table (sched m)) pid p /\
  FdTable.get (p_fd_table p) fd = Some e /\
  OpenFileTable.get (open_files (sched m)) (open_file e) = Some f.
Proof.
  intros K. unfold fd_file. destruct (current_proc m) as [q|] eqn:Hc; [|done]. cbn.
  destruct (current_proc_live m q K Hc) as (p' & [Hp Hrun] & _). rewrite Hp. cbn.
  destruct (FdTable.get (p_fd_table p') fd) as [e'|] eqn:He; [|done]. cbn.
  destruct (OpenFileTable.get _ _) as [f'|] eqn:Hf; [|done]. intros [= <- <- <- <-]. done.
Qed.

(** The lookups that [read] and [write] share. *)
Lemma wp_fd_file {B} fd (k : ProcessId -> FdEntry -> OpenFile -> ST Machine (result SysError B)) Q m :
  ok m ->
  match fd_file m fd with
  | Ok (pid, p, e, f) => wp (k pid e f) Q m
  | Err err => Q (Err err) m
  end ->
  wp (let? pid := current_pid_or BadFd in
      let? entry := fd_entry_or pid fd BadFd in
      let? file := open_file_or (open_file entry) BadFd in
      k pid entry file) Q m.
Proof.
  intros K H. apply wp_current_pid; [done|]. unfold fd_file in H.
  destruct (current_proc m) as [pid|] eqn:Hc; [|done]. cbn in H.
  destruct (current_proc_live m pid K Hc) as (p & [Hp Hrun] & _). rewrite Hp in H. cbn in H.
  unfold fd_entry_or, open_file_or. st_steps. unfold ProcessTable.fd_table, processes_of. rewrite Hp.
  destruct (FdTable.get (p_fd_table p) fd) as [e|]; [|done]. cbn [ok_or result_bind] in *. st_steps.
  by destruct (OpenFileTable.get _ _) as [f|].
Qed.

(** The machine after the offset of an open file moved. *)
Definition with_offset (m : Machine) (id : OpenFileId) (f : OpenFile) (offset : Z) : Machine :=
  set_sched (set_open_files
    (OpenFileTable.update (open_files (sched m)) id (set_offset f offset)) (sched m)) m.

Lemma ok_with_offset m id f offset :
  ok m -> OpenFileTable.get (open_files (sched m)) id = Some f -> ok (with_offset m id f offset).
Proof.
  intros [[Cwf Cfds Cheap L [Ctab Cref]] [] Ld] Hf.
  destruct (OpenFileTable.set_offset_ok _ _ _ offset Ctab Hf) as [Htab Hrc].
  constructor; [constructor; try done|by constructor|done].
  constructor; [done|]. intros id'. cbn [with_offset sched set_sched set_open_files open_files].
  by rewrite Hrc.
Qed.

Definition read_outcome (m : Machine) (fd user_buf len : Z) (r : SysResult) (m' : Machine) : Prop :=
  if len =? 0 then r = Ok 0 /\ m' = m
  else
    match fd_file m fd with
    | Err e => r = Err e /\ m' = m
    | Ok (pid, p, e, f) =>
        match of_access f, of_kind f with
        | ReadOnly, NullInput => r = Ok 0 /\ m' = m
        | ReadOnly, EmbeddedFileKind id =>
            match embedded_file id with
            | None => r = Err BadFd /\ m' = m
            | Some file =>
                let rest := vlen (bytes file) - of_offset f in
                let count := Z.min len rest in
                if rest <=? 0 then r = Ok 0 /\ m' = m
                else
                  exists copied x,
                    copy_to_user (p_address_space p) user_buf
                      (slice (bytes file) (of_offset f) count) (mem m) = Done (copied, x) /\
                    match copied with
                    | Ok _ => r = Ok count /\
                              m' = with_offset (set_mem x m) (open_file e) f (of_offset f + count)
                    | Err _ => r = Err Fault /\ m' = set_mem x m
                    end
            end
        | _, _ => r = Err BadFd /\ m' = m
        end
    end.

Lemma sys_read_run fd user_buf len m :
  ok m -> canonical user_buf ->
  wp (sys_read_current fd user_buf len)
     (fun r m' => ok m' /\ read_outcome m fd user_buf len r m') m.
Proof.
  intros K Hcan. unfold sys_read_current, read_outcome. destruct (len =? 0); [by apply wp_ret|].
  apply (wp_fd_file fd); [done|]. destruct (fd_file m fd) as [[[[pid p] e] f]|err] eqn:Hf; [|done].
  destruct (fd_file_Ok _ _ _ _ _ _ K Hf) as (Hc & [Hp Hrun] & He & Hof).
  destruct (of_access f); [|by apply wp_ret].
  destruct (of_kind f) as [| | |id]; try (by apply wp_ret). st_steps.
  destruct (embedded_file id) as [file|]; cbn [ok_or]; [|done].
  rewrite Z.geb_leb. set (rest := vlen (bytes file) - of_offset f).
  assert ((vlen (bytes file) <=? of_offset f) = (rest <=? 0)) as ->.
  { subst rest. destruct (Z.leb_spec (vlen (bytes file)) (of_offset f)),
      (Z.leb_spec (vlen (bytes file) - of_offset f) 0); lia || done. }
  destruct (rest <=? 0); [by apply wp_ret|].
  unfold address_space_or. st_steps. unfold ProcessTable.address_space, processes_of. rewrite Hp.
  cbn [ok_or]. unfold st_map_err. st_steps.
  destruct (wp_done _ _ _ (Safe_copy_to_user (p_address_space p) user_buf
    (slice (bytes file) (of_offset f) (Z.min len rest)) Hcan (mem m) (bo_mem _ (ok_base _ K))))
    as (copied & x & Ecopy & Hctl).
  eapply wp_intro; [exact Ecopy|]. st_steps.
  pose proof (ok_set_mem m x K Hctl) as Kx.
  destruct copied as [[]|err]; cbn [map_err].
  - st_steps. eapply wp_expect; [exact Hof|]. st_steps.
    split; [exact (ok_with_offset (set_mem x m) (open_file e) f _ Kx Hof)|]. by exists (Ok tt), x.
  - split; [done|]. by exists (Err err), x.
Qed.

(** A positive count: what the process finds in its buffer. *)
Lemma read_delivered m fd user_buf len pid p e f id file count m' :
  ok m -> canonical user_buf ->
  fd_file m fd = Ok (pid, p, e, f) -> of_kind f = EmbeddedFileKind id -> embedded_file id = Some file ->
  separated (ram (mem m)) (level_4_frame (p_address_space p)) ->
  unaliased (ram (mem m)) (p_address_space p) user_buf len -> 0 <= of_offset f ->
  read_outcome m fd user_buf len (Ok count) m' -> 0 < count ->
  count = Z.min len (vlen (bytes file) - of_offset f) /\
  read_user (ram (mem m')) (p_address_space p) user_buf (Z.to_nat count) =
    Ok (slice (bytes file) (of_offset f) count) /\
  OpenFileTable.get (open_files (sched m')) (open_file e) = Some (set_offset f (of_offset f + count)).
Proof.
  intros K Hb Hfd Hk Hfile Hs Hu Ho H Hpos.
  destruct (fd_file_Ok m fd pid p e f K Hfd) as (_ & _ & _ & Hf). unfold read_outcome in H.
  destruct (len =? 0); [destruct H as [[= ->] _]; lia|]. rewrite Hfd, Hk, Hfile in H.
  destruct (of_access f); [|by destruct H].
  destruct (Z.leb_spec (vlen (bytes file) - of_offset f) 0); [destruct H as [[= ->] _]; lia|].
  destruct H as (copied & x & E & H). set (src := slice _ _ _) in E.
  destruct copied as [[]|]; [|by destruct H]. destruct H as [[= ->] ->].
  set (n := Z.min len (vlen (bytes file) - of_offset f)) in *.
  assert (vlen src = n) as El by (apply vlen_slice; lia).
  pose proof (copy_to_user_run (p_address_space p) user_buf src (mem m) (bo_mem _ (ok_base _ K)) Hs Hb) as C.
  unfold wp in C. rewrite E in C. destruct C as (n' & _ & St & _ & ->). split; [done|]. split.
  - cbn [with_offset mem set_sched set_mem]. fold src.
    replace (Z.to_nat n) with (length src) by (unfold vlen in El; lia).
    eapply stored_read_back; [exact St|done|]. intros i j y Hi Hj. apply Hu; lia.
  - cbn [with_offset sched set_sched set_open_files open_files set_mem].
    rewrite (OpenFileTable.file_get_update _ _ _ _ _ Hf). by rewrite decide_True.
Qed.

(** ** write *)

(** [data] was sent to COM1 and, as far as it fits, kept in the buffer. *)
Definition printed (s : Serial) (data : list Z) (s' : Serial) : Prop :=
  com1 s' = com1 s ++ data /\
  (buffer_ok (output_buffer s) ->
   buffer_ok (output_buffer s') /\
   contents (output_buffer s') =
     take (Z.to_nat OUTPUT_BUFFER_SIZE) (contents (output_buffer s) ++ data)).

Lemma contents_length b : buffer_ok b -> (length (contents b) <= Z.to_nat OUTPUT_BUFFER_SIZE)%nat.
Proof. intros [H1 H2]. unfold contents. rewrite length_take. lia. Qed.

Lemma printed_nil s : printed s [] s.
Proof.
  split; [by rewrite app_nil_r|]. intros Hb. split; [done|].
  rewrite app_nil_r, take_ge; [done|by apply contents_length].
Qed.

Lemma printed_app s d1 d2 s' :
  printed (Serial.write_bytes s d1) d2 s' -> printed s (d1 ++ d2) s'.
Proof.
  intros [H1 H2]. split; [rewrite H1; cbn; unfold port_write_bytes; by rewrite app_assoc|].
  intros Hb. destruct (push_bytes_ok _ d1 Hb) as [Hb1 Hc1]. cbn in H2. destruct (H2 Hb1) as [Hb2 Hc2].
  split; [done|]. rewrite Hc2, Hc1, app_assoc. set (c := contents (output_buffer s) ++ d1).
  destruct (Nat.le_gt_cases (length c) (Z.to_nat OUTPUT_BUFFER_SIZE)) as [Hl|Hl].
  - by rewrite (take_ge c).
  - rewrite !take_app_le; [by rewrite take_take, Nat.min_id|lia|rewrite length_take; lia].
Qed.

Definition write_outcome (m : Machine) (fd user_buf len : Z) (r : SysResult) (m' : Machine) : Prop :=
  if len =? 0 then r = Ok 0 /\ m' = m
  else
    match fd_file m fd with
    | Err e => r = Err e /\ m' = m
    | Ok (pid, p, e, f) =>
        match of_access f, of_kind f with
        | WriteOnly, ConsoleStdout | WriteOnly, ConsoleStderr =>
            match read_user (ram (mem m)) (p_address_space p) user_buf (Z.to_nat len) with
            | Ok data => r = Ok len /\ exists s', m' = set_serial s' m /\ printed (serial m) data s'
            | Err _ => r = Err Fault /\ m' = m
            end
        | _, _ => r = Err BadFd /\ m' = m
        end
    end.

Lemma write_loop_run fuel aspace user_buf written len (m : Machine) data :
  mem_ok (mem m) -> 0 <= written <= len -> canonical user_buf ->
  read_user (ram (mem m)) aspace (user_buf + written) (Z.to_nat (len - written)) = Ok data ->
  len - written <= 256 * (Z.of_nat fuel - 1) ->
  wp (write_loop fuel aspace user_buf written len) (fun r m' =>
    r = Ok len /\ exists s', m' = set_serial s' m /\ printed (serial m) data s') m.
Proof.
  intros Hm Hw Hcan. revert written m data Hm Hw.
  induction fuel as [|fuel IH]; intros written m data Hm Hw Hdata Hf; [lia|]. cbn [write_loop].
  destruct (Z.ltb_spec written len) as [Hlt|Hge].
  2: { replace (len - written) with 0 in Hdata by lia. injection Hdata as <-. apply wp_ret.
       split; [f_equal; lia|]. exists (serial m). split; [by destruct m|apply printed_nil]. }
  set (count := Z.min WRITE_CHUNK_SIZE (len - written)).
  assert (0 < count <= 256 /\ count <= len - written) as [Hc1 Hc2] by (subst count; unfold WRITE_CHUNK_SIZE; lia).
  replace (Z.to_nat (len - written)) with (Z.to_nat count + Z.to_nat (len - written - count))%nat in Hdata by lia.
  rewrite read_user_app in Hdata.
  destruct (read_user _ aspace (user_buf + written) (Z.to_nat count)) as [d1|] eqn:H1; [|done].
  cbn in Hdata. rewrite Z2Nat.id in Hdata by lia.
  destruct (read_user _ aspace (user_buf + written + count) _) as [d2|] eqn:H2; [|done].
  injection Hdata as <-.
  assert (canonical (user_buf + written)) as Hcan'.
  { destruct (proj1 (read_user_Ok _ _ _ _) (ex_intro _ d1 H1) 0) as [p Hp]; [lia|].
    rewrite Z.add_0_r in Hp. apply user_byte_Ok in Hp as [Ha _]. apply user_canonical. lia. }
  assert (checked_add user_buf written = Some (user_buf + written)) as ->.
  { apply checked_add_Some. split; [|done]. destruct Hcan'; lia. }
  st_step. rewrite virt_addr_ok by done. st_steps. unfold st_map_err. st_steps.
  eapply wp_intro; [apply copy_from_user_run; [done|lia|done]|].
  replace (set_mem (mem m) m) with m by (by destruct m). rewrite H1. cbn [map_err]. st_steps.
  eapply wp_mono; [apply (IH (written + count) _ d2)|].
  - done.
  - lia.
  - cbn [mem set_serial]. rewrite Z.add_assoc, <- H2. f_equal. lia.
  - subst count. unfold WRITE_CHUNK_SIZE in *. lia.
  - intros r m' (-> & s' & -> & Hp). split; [done|]. exists s'. split; [done|]. by apply printed_app.
Qed.

Lemma sys_write_run fd user_buf len m :
  ok m -> canonical user_buf -> 0 <= len ->
  wp (sys_write_current fd user_buf len)
     (fun r m' => ok m' /\ write_outcome m fd user_buf len r m') m.
Proof.
  intros K Hcan Hlen. unfold sys_write_current, write_outcome. destruct (len =? 0) eqn:Hz; [by apply wp_ret|].
  apply Z.eqb_neq in Hz.
  apply (wp_fd_file fd); [done|]. destruct (fd_file m fd) as [[[[pid p] e] f]|err] eqn:Hf; [|done].
  destruct (fd_file_Ok _ _ _ _ _ _ K Hf) as (Hc & [Hp Hrun] & He & Hof).
  destruct (of_access f); [by apply wp_ret|].
  assert (wp (let? aspace := address_space_or pid BadFd in
              let? _ := st_map_err map_user_memory_error
                          (with_mem (validate_user_read_range aspace user_buf len)) in
              write_loop (Z.to_nat (len / WRITE_CHUNK_SIZE + 2)) aspace user_buf 0 len)
    (fun r m' => ok m' /\ match read_user (ram (mem m)) (p_address_space p) user_buf (Z.to_nat len) with
      | Ok data => r = Ok len /\ exists s', m' = set_serial s' m /\ printed (serial m) data s'
      | Err _ => r = Err Fault /\ m' = m
      end) m) as Hcons.
  { unfold address_space_or. st_steps. unfold ProcessTable.address_space, processes_of. rewrite Hp.
    cbn [ok_or]. unfold st_map_err. st_steps.
    destruct (validate_user_range_run (p_address_space p) user_buf len Read (mem m)
      (bo_mem _ (ok_base _ K)) (canonical_u64 _ Hcan) Hlen) as (v & Ev & Hiff).
    eapply wp_intro; [exact Ev|]. replace (set_mem (mem m) m) with m by (by destruct m). st_steps.
    assert (v = Ok tt <-> exists l, read_user (ram (mem m)) (p_address_space p) user_buf (Z.to_nat len) = Ok l)
      as Hiff' by (rewrite read_user_Ok, Z2Nat.id by lia; exact Hiff).
    clear Hiff. rename Hiff' into Hiff.
    destruct v as [[]|ev]; cbn [map_err].
    - destruct (proj1 Hiff eq_refl) as [data Hdata]. rewrite Hdata.
      eapply wp_mono; [apply (write_loop_run _ _ _ 0 len m data (bo_mem _ (ok_base _ K)))|].
      + lia.
      + done.
      + by rewrite Z.add_0_r, Z.sub_0_r.
      + unfold WRITE_CHUNK_SIZE. pose proof (Z.div_mod len 256). pose proof (Z.mod_pos_bound len 256).
        pose proof (Z.div_pos len 256). lia.
      + intros r m' (-> & s' & -> & Hpr). split; [by apply ok_set_serial|]. split; [done|]. by exists s'.
    - split; [done|]. destruct (read_user _ _ _ _) as [data|]; [|done].
      discriminate (proj2 Hiff (ex_intro _ data eq_refl)). }
  destruct (of_kind f); try (by apply wp_ret); exact Hcons.
Qed.

(** ** brk *)

(** The change of the heap's mapping from [h] to a break whose pages end at
    [stop], on the memory alone. *)
Definition move_mapping (aspace : AddressSpace) (h : UserHeap) (requested stop : Z) :
    ST Mem (result SysError unit) :=
  if requested >? heap_brk h then
    if stop >? heap_mapped_end h
    then st_map_err map_heap_growth_error (map_user_heap_pages aspace (heap_mapped_end h) stop)
    else st_ret (Ok tt)
  else if stop <? heap_mapped_end h
  then st_map_err (fun _ => Invalid) (unmap_user_heap_pages aspace stop (heap_mapped_end h))
  else st_ret (Ok tt).

(** [brk] of process [p]. *)
Definition brk_process (m : Machine) (pid : ProcessId) (p : Process) (requested : Z)
    (r : SysResult) (m' : Machine) : Prop :=
  let h := p_heap p in
  if requested =? 0 then r = Ok (heap_brk h) /\ m' = m
  else if requested <? heap_start h then r = Err Invalid /\ m' = m
  else if requested >? heap_limit h then r = Err NoMemory /\ m' = m
  else if requested =? heap_brk h then r = Ok requested /\ m' = m
  else
    exists stop moved x, align_up requested 4096 = Some stop /\
      move_mapping (p_address_space p) h requested stop (mem m) = Done (moved, x) /\
      match moved with
      | Ok _ => r = Ok requested /\
          m' = with_process (set_mem x m) pid (set_heap p (set_break h requested stop))
                 (open_files (sched m))
      | Err e => r = Err e /\ m' = set_mem x m
      end.

Definition brk_outcome (m : Machine) (requested : Z) (r : SysResult) (m' : Machine) : Prop :=
  match current_proc m with
  | None => r = Err Invalid /\ m' = m
  | Some pid => exists p, live (proc_table (sched m)) pid p /\ brk_process m pid p requested r m'
  end.

Lemma Safe_move_mapping aspace h requested stop :
  heap_ok h -> 0 <= stop <= heap_limit h -> Safe (move_mapping aspace h requested stop).
Proof.
  intros [[] [] ? []] Hs. unfold move_mapping.
  destruct (requested >? heap_brk h), (stop >? heap_mapped_end h), (stop <? heap_mapped_end h);
    auto with kernel; apply Safe_map_err;
    first [apply Safe_map_user_heap_pages|apply Safe_unmap_user_heap_pages]; lia.
Qed.

(** [move_mapping] is the branch of [sys_brk_current]. *)
Lemma move_mapping_run aspace h requested stop moved x (m : Machine)
    (Q : result SysError unit -> Machine -> Prop) :
  move_mapping aspace h requested stop (mem m) = Done (moved, x) -> Q moved (set_mem x m) ->
  wp (if requested >? heap_brk h then
        if stop >? heap_mapped_end h then
          st_map_err map_heap_growth_error
            (with_mem (map_user_heap_pages aspace (heap_mapped_end h) stop))
        else st_ret (Ok tt)
      else if stop <? heap_mapped_end h then
        st_map_err (fun _ => Invalid)
          (with_mem (unmap_user_heap_pages aspace stop (heap_mapped_end h)))
      else st_ret (Ok tt)) Q m.
Proof.
  unfold move_mapping, st_map_err, st_bind, wp, with_mem, st_zoom, st_ret. intros E HQ.
  destruct (requested >? heap_brk h); [destruct (stop >? heap_mapped_end h)|
    destruct (stop <? heap_mapped_end h)].
  - destruct (map_user_heap_pages _ _ _ _) as [[v y]|]; [|done]. by injection E as <- <-.
  - injection E as <- <-. by destruct m.
  - destruct (unmap_user_heap_pages _ _ _ _) as [[v y]|]; [|done]. by injection E as <- <-.
  - injection E as <- <-. by destruct m.
Qed.

Lemma sys_brk_run requested m :
  ok m -> is_u64 requested ->
  wp (sys_brk_current requested) (fun r m' => ok m' /\ brk_outcome m requested r m') m.
Proof.
  intros K Hu. unfold sys_brk_current, brk_outcome. apply wp_current_pid; [done|].
  destruct (current_proc m) as [pid|] eqn:Hc; [|done].
  destruct (current_proc_live m pid K Hc) as (p & [Hp Hrun] & _).
  destruct (ok_fds m pid p K Hp) as [Hsz Hh]. st_steps. unfold processes_of. rewrite Hp. cbn [ok_or].
  eapply (wp_mono _ (fun r m' => ok m' /\ brk_process m pid p requested r m'));
    [|intros r m' [H1 H2]; split; [done|]; by exists p]. unfold brk_process.
  destruct (requested =? 0); [by apply wp_ret|].
  destruct (Z.ltb_spec requested (heap_start (p_heap p))) as [|Hlo]; [by apply wp_ret|].
  rewrite Z.gtb_ltb. destruct (Z.ltb_spec (heap_limit (p_heap p)) requested) as [|Hhi]; [by apply wp_ret|].
  pose proof (hok_start _ Hh) as Hs0. pose proof (hok_limit _ Hh) as Hl0.
  st_step. rewrite virt_addr_ok by (apply canonical_low; lia). st_steps.
  destruct (Z.eqb_spec requested (heap_brk (p_heap p))) as [Heq|Hne].
  { apply wp_ret. by rewrite Heq. }
  assert (align_up requested 4096 = Some (4096 * ((requested + 4095) / 4096))) as Hup.
  { rewrite align_up_spec by done. rewrite (proj2 (Z.ltb_lt _ _)) by lia. done. }
  rewrite Hup. set (stop := 4096 * _) in *.
  destruct (set_break_ok (p_heap p) requested stop Hh) as [Hh' Hlim]; [lia|done|].
  pose proof (align_up_Some _ _ Hu Hup) as (Hst & _).
  st_step. rewrite virt_addr_ok by (apply canonical_low; lia). st_steps.
  destruct (wp_done _ _ _ (Safe_move_mapping (p_address_space p) (p_heap p) requested stop Hh
    ltac:(lia) (mem m) (bo_mem _ (ok_base _ K)))) as (moved & x & Emv & Hctl).
  apply (move_mapping_run (p_address_space p) (p_heap p) requested stop moved x m _ Emv).
  pose proof (ok_set_mem m x K Hctl) as Kx.
  destruct moved as [[]|e].
  - st_steps. split.
    + apply (ok_with_process (set_mem x m) pid p (set_heap p (set_break (p_heap p) requested stop))
               (open_files (sched m)) Kx); try done.
      * apply (co_files _ _ _ _ _ (ok_core _ K)).
      * intros id. cbn [set_heap p_fd_table set_mem sched]. lia.
    + exists stop, (Ok tt), x. split; [done|]. split; [done|]. split; [done|].
      unfold with_process. cbn. by destruct m as [[] ? ? ? ?].
  - split; [done|]. by exists stop, (Err e), x.
Qed.

(** ** What the calls on files and memory leave alone *)

(** They schedule nothing, and change at most the descriptors and the heap
    of one process. *)
Record call_kept (m m' : Machine) : Prop := mkCallKept {
  ck_tasks : tasks (sched m') = tasks (sched m);
  ck_current : current (sched m') = current (sched m);
  ck_preemption : preemption_enabled (sched m') = preemption_enabled (sched m);
  ck_table : proc_table (sched m') = proc_table (sched m) \/
    exists pid p p', ProcessTable.get (proc_table (sched m)) pid = Some p /\ same_links p p' /\
      proc_table (sched m') = ProcessTable.update (proc_table (sched m)) pid p'
}.

Lemma with_process_kept m x pid p p' fs :
  ProcessTable.get (proc_table (sched m)) pid = Some p -> same_links p p' ->
  call_kept m (with_process (set_mem x m) pid p' fs).
Proof. intros Hp Hs. constructor; [done|done|done|right]. by exists pid, p, p'. Qed.

Ltac kept :=
  first [by constructor; [..|left] | match goal with
    | H : ProcessTable.get _ _ = Some ?p |- call_kept ?m _ =>
        first [by apply (with_process_kept m (mem m) _ p)|by eapply (with_process_kept m _ _ p)]
    end].

Lemma write_call_kept m fd buf len r m' : write_outcome m fd buf len r m' -> call_kept m m'.
Proof.
  unfold write_outcome. destruct (len =? 0); [intros [_ ->]; kept|].
  destruct (fd_file m fd) as [[[[pid p] e] f]|]; [|intros [_ ->]; kept].
  destruct (of_access f), (of_kind f); try (intros [_ ->]; kept);
    (destruct (read_user _ _ _ _); [intros (_ & s' & -> & _); kept|intros [_ ->]; kept]).
Qed.

Lemma read_kept m fd buf len r m' : read_outcome m fd buf len r m' -> call_kept m m'.
Proof.
  unfold read_outcome. destruct (len =? 0); [intros [_ ->]; kept|].
  destruct (fd_file m fd) as [[[[pid p] e] f]|]; [|intros [_ ->]; kept].
  destruct (of_access f), (of_kind f) as [| | |id]; try (intros [_ ->]; kept).
  destruct (embedded_file id) as [file|]; [|intros [_ ->]; kept]. cbv zeta.
  destruct (_ <=? 0); [intros [_ ->]; kept|]. intros (copied & x & _ & H).
  destruct copied; destruct H as [_ ->]; kept.
Qed.

Lemma open_kept m path len fl r m' : open_outcome m path len fl r m' -> call_kept m m'.
Proof.
  unfold open_outcome. destruct (open_request m path len fl) as [[pid id]|]; [|intros [_ ->]; kept].
  intros (p & fs & [Hp _] & H). destruct r as [fd|e].
  - destruct H as (i & _ & _ & _ & _ & _ & _ & ->). kept.
  - destruct H as (_ & _ & ->). kept.
Qed.

Lemma close_kept m fd r m' : close_outcome m fd r m' -> call_kept m m'.
Proof.
  unfold close_outcome. destruct (current_proc m) as [pid|]; [|intros [_ ->]; kept].
  intros (p & [Hp _] & H). destruct (FdTable.get _ fd); destruct H as [_ ->]; kept.
Qed.

Lemma brk_kept m req r m' : brk_outcome m req r m' -> call_kept m m'.
Proof.
  unfold brk_outcome. destruct (current_proc m) as [pid|]; [|intros [_ ->]; kept].
  intros (p & [Hp _] & H). revert H. unfold brk_process.
  destruct (req =? 0); [intros [_ ->]; kept|]. destruct (_ <? _); [intros [_ ->]; kept|].
  destruct (_ >? _); [intros [_ ->]; kept|]. destruct (_ =? _); [intros [_ ->]; kept|].
  intros (stop & moved & x & _ & _ & H). destruct moved; destruct H as [_ ->]; kept.
Qed.
End calls.
