(* ===== verification/Spawn.v ===== *)
(** * Spawning and starting tasks

    [spawn], [spawn_user_process] and [run] under the invariant: a spawned
    task is ready, has its own process when it is a user task, and a failed
    spawn leaves everything as it was. *)

From S2P Require Import Prelude File Fd X86 Memory AddressSpace UserMemory Process Context.
From S2P Require Import Serial Task Syscall User Elf Scheduler SchedulerCalls RoundRobin Invariant.
From S2P Require Import Switching Exit Calls.

Import ProcessTableFacts.

(** Appending a ready task. [pt'] is the process table with the process of
    the task, if it has one. *)
Lemma linked_push ts pt pt' run t :
  linked ts pt run None -> vlen ts < MAX_TASKS -> t_id t = vlen ts -> t_state t = Ready ->
  (forall pid, process_id t = Some pid -> exists p, live pt' pid p /\ p_main_task p = vlen ts) ->
  (forall q r', live pt' q r' ->
     (process_id t = Some q /\ p_main_task r' = vlen ts) \/
     exists r, live pt q r /\ p_main_task r' = p_main_task r) ->
  (forall q r, live pt q r ->
     exists r', live pt' q r' /\ p_main_task r' = p_main_task r /\
                forall c, c ∈ p_children r -> c ∈ p_children r') ->
  linked (ts ++ [t]) pt' run None.
Proof.
  intros L Hl Hid Hst Hown Hold Hkeep. pose proof (vlen_nonneg ts) as H0.
  assert (forall i u, vget (ts ++ [t]) i = Some u ->
    vget ts i = Some u \/ (i = vlen ts /\ u = t)) as Hinv.
  { intros i u Hu. pose proof (vget_range _ _ _ Hu) as Hr. rewrite vlen_app in Hr.
    change (vlen [t]) with 1 in Hr. destruct (decide (i = vlen ts)) as [->|Hi].
    - rewrite vget_app_snoc in Hu. injection Hu as <-. by right.
    - left. rewrite <- Hu. symmetry. apply vget_app_l. lia. }
  assert (forall i u, vget ts i = Some u -> vget (ts ++ [t]) i = Some u) as Hlift.
  { intros i u Hu. rewrite vget_app_l; [done|]. apply vget_range in Hu. lia. }
  constructor.
  - rewrite vlen_app. change (vlen [t]) with 1. lia.
  - intros i u [Hu|[-> ->]]%Hinv; [by apply (ln_id _ _ _ _ L)|done].
  - intros i. rewrite (ln_run _ _ _ _ L i). split.
    + intros (u & Hu & Hs). eauto.
    + intros (u & [Hu|[-> ->]]%Hinv & Hs); [eauto|congruence].
  - intros i u pid [Hu|[-> ->]]%Hinv Hp Ht; [|by apply Hown].
    destruct (ln_task _ _ _ _ L i u pid Hu Hp Ht) as (p & Hl' & <-).
    destruct (Hkeep pid p Hl') as (p' & Hp' & Hm & _). eauto.
  - intros pid p' [[Hp Hm]|(p & Hp & Hm)]%Hold.
    + exists t. rewrite Hm, vget_app_snoc. split; [done|]. split; [done|]. unfold is_terminal. by rewrite Hst.
    + destruct (ln_proc _ _ _ _ L pid p Hp) as (u & Hu & Hrest). exists u. rewrite Hm. eauto.
  - intros i u c ptr [Hu|[-> ->]]%Hinv Hs; [|congruence].
    destruct (ln_wait _ _ _ _ L i u c ptr Hu Hs) as (Hc & q & r & Hq & Hr & Hin & [?|[x Hx]]); [done|].
    split; [done|]. destruct (Hkeep q r Hr) as (r' & Hr' & _ & Hch).
    destruct (Hkeep c x Hx) as (x' & Hx' & _). exists q, r'. eauto 10.
Qed.

Section spawning.
Context {X : X86_64} {XS : X86_64_Spec X}.

(** The tasks after a spawn, and what it leaves alone. *)
Record pushed (m : Machine) (t : Task) (m' : Machine) : Prop := mkPushed {
  pu_tasks : tasks (sched m') = tasks (sched m) ++ [t];
  pu_ready : t_state t = Ready;
  pu_id : t_id t = vlen (tasks (sched m));
  pu_current : current (sched m') = current (sched m);
  pu_preemption : preemption_enabled (sched m') = preemption_enabled (sched m);
  pu_mem : mem m' = mem m;
  pu_serial : serial m' = serial m
}.

Lemma new_kernel_fields k stack id entry tr rf cs ss :
  let t := fst (new_kernel k stack id entry tr rf cs ss) in
  t_id t = id /\ t_state t = Ready /\ process_id t = None /\
  t_kernel_stack_top t = stack_top stack TASK_STACK_SIZE.
Proof. done. Qed.

Lemma spawn_with_run stack tr entry rf (m : Machine) :
  ok m ->
  wp (spawn_with stack tr entry rf) (fun r m' =>
    ok m' /\
    match r with
    | Err e => e = SpawnFull /\ MAX_TASKS <= vlen (tasks (sched m)) /\ m' = m
    | Ok id =>
        id = vlen (tasks (sched m)) /\ proc_table (sched m') = proc_table (sched m) /\
        exists t, pushed m t m' /\ process_id t = None /\ kernel_entry t = Some entry
    end) m.
Proof.
  intros K. unfold spawn_with. st_steps. rewrite Z.geb_leb.
  destruct (Z.leb_spec MAX_TASKS (vlen (tasks (sched m)))) as [|Hlt]; [by apply wp_ret|].
  destruct (new_kernel _ _ _ _ _ _ _ _) as [t k] eqn:E.
  assert (t = fst (new_kernel (kmem m) stack (vlen (tasks (sched m))) entry tr rf
                     (cs_reg (cpu m)) (ss_reg (cpu m)))) as Ht by (by rewrite E).
  unfold push_task. st_steps. split; [|split; [done|]; split; [done|]; exists t; by subst t].
  destruct K as [[Cwf Cfds Cheap L Cf] [] Ld]. constructor; [constructor; try done|by constructor|].
  - apply (linked_push _ (proc_table (sched m))); [exact L|exact Hlt|by subst t|by subst t|by subst t|eauto|eauto].
  - intros i u Hi Hu. apply (Ld i u Hi). cbn in Hu.
    destruct (proj1 (ln_run _ _ _ _ L i) Hi) as (v & Hv & _). pose proof (vget_range _ _ _ Hv).
    rewrite vget_app_l in Hu by lia. done.
Qed.

Lemma new_user_fields k stack id pid ep ust a0 rf cs ss :
  let t := fst (Task.new_user k stack id pid ep ust a0 rf cs ss) in
  t_id t = id /\ t_state t = Ready /\ process_id t = Some pid /\
  t_kernel_stack_top t = stack_top stack TASK_STACK_SIZE.
Proof. done. Qed.

(** The process table after [create]. *)
Record created (pt : ProcessTable) (parent : option ProcessId) (p : Process) (pt' : ProcessTable) :
    Prop := mkCreated {
  cr_pid : p_pid p = next_pid pt /\ p_parent p = parent /\ p_state p = PRunning /\ p_children p = [];
  cr_get : ProcessTable.get pt' (next_pid pt) = Some p;
  cr_other j : j <> next_pid pt ->
    ProcessTable.get pt' j = adopt parent (next_pid pt) j <$> ProcessTable.get pt j
}.

Lemma created_live pt parent p pt' q r :
  table_wf pt -> created pt parent p pt' -> live pt q r ->
  exists r', live pt' q r' /\ p_main_task r' = p_main_task r /\
             (forall c, c ∈ p_children r -> c ∈ p_children r') /\
             p_address_space r' = p_address_space r.
Proof.
  intros Hwf Cr [Hq Hst].
  assert (q <> next_pid pt) as Hne by (intros ->; rewrite wf_get_fresh in Hq; [done|done|lia]).
  exists (adopt parent (next_pid pt) q r).
  destruct (adopt_fields parent (next_pid pt) q r) as (_ & _ & Es & _ & _ & Em & Ea).
  split; [split; [by rewrite (cr_other _ _ _ _ Cr), Hq|congruence]|]. split; [done|].
  split; [|done]. intros c Hc. apply elem_of_adopt. by left.
Qed.

Lemma created_inv pt parent p pt' q r' :
  created pt parent p pt' -> live pt' q r' ->
  (q = next_pid pt /\ r' = p) \/ exists r, live pt q r /\ p_main_task r' = p_main_task r.
Proof.
  intros Cr [Hq Hst]. destruct (decide (q = next_pid pt)) as [->|Hne].
  { left. rewrite (cr_get _ _ _ _ Cr) in Hq. split; congruence. }
  right. rewrite (cr_other _ _ _ _ Cr) in Hq by done.
  destruct (ProcessTable.get pt q) as [r|] eqn:Hr; [|done]. injection Hq as <-.
  destruct (adopt_fields parent (next_pid pt) q r) as (_ & _ & Es & _ & _ & Em & _).
  exists r. split; [split; congruence|done].
Qed.

(** The parent passed to a spawn has not exited. The code does not ask for
    it, and only the shape of the process tree depends on it. *)
Definition parent_live (pt : ProcessTable) (parent : option ProcessId) : Prop :=
  forall q p, parent = Some q -> ProcessTable.get pt q = Some p -> p_state p = PRunning.

Lemma create_core m pid parent aspace h fds main pt' t k m' fs :
  ok m -> heap_ok h -> FdTable.sized fds ->
  OpenFileTable.table_ok fs ->
  (forall id, OpenFileTable.rc fs id = OpenFileTable.rc (open_files (sched m)) id + FdTable.refs fds id) ->
  main = vlen (tasks (sched m)) -> vlen (tasks (sched m)) < MAX_TASKS ->
  t_id t = main -> t_state t = Ready -> process_id t = Some pid ->
  ProcessTable.can_create (proc_table (sched m)) parent = Ok tt ->
  pid = next_pid (proc_table (sched m)) -> next_pid pt' = pid + 1 ->
  vlen (processes pt') = MAX_PROCESSES + 1 ->
  ProcessTable.get pt' pid = Some (new_process pid parent aspace h fds main) ->
  (forall j, j <> pid ->
     ProcessTable.get pt' j = adopt parent pid j <$> ProcessTable.get (proc_table (sched m)) j) ->
  (forall id, total_refs pt' id = total_refs (proc_table (sched m)) id + FdTable.refs fds id) ->
  m' = set_sched (set_tasks (tasks (sched m) ++ [t])
         (set_proc_table pt' (set_open_files fs (sched m)))) (set_kmem k m) ->
  ok m'.
Proof.
  intros [[Cwf Cfds Cheap L [Ctab Cref]] [Bm Bc] Ld] Hh Hsz Htab Hrc -> Hlt Hid Hst Hpid Hcc Hp Hn Hl
    Hnew Hold Href ->.
  set (p := new_process pid parent aspace h fds (vlen (tasks (sched m)))) in *.
  assert (created (proc_table (sched m)) parent p pt') as Cr by (subst pid; by constructor).
  destruct (create_wf (proc_table (sched m)) pt' parent pid p Cwf Cfds Hcc Hp Hn Hl) as [Hwf' Hfds'];
    try done.
  constructor; [constructor; [done|done| | |]|by constructor|].
  - intros j q Hq. change (ProcessTable.get pt' j = Some q) in Hq.
    destruct (decide (j = pid)) as [->|Hj]; [rewrite Hnew in Hq; by injection Hq as <-|].
    rewrite Hold in Hq by done. destruct (ProcessTable.get _ j) as [q0|] eqn:Hq0; [|done].
    injection Hq as <-. unfold adopt. case_decide; exact (Cheap j q0 Hq0).
  - apply (linked_push _ (proc_table (sched m))); try done.
    + intros q Hq. rewrite Hpid in Hq. injection Hq as <-. by exists p.
    + intros q r' Hr'. destruct (created_inv _ _ _ _ _ _ Cr Hr') as [[-> ->]|?]; [left|by right].
      split; [congruence|done].
    + intros q r Hr. destruct (created_live _ _ _ _ _ _ Cwf Cr Hr) as (r' & ? & ? & ? & _). eauto.
  - constructor; [done|]. intros id.
    cbn [sched set_sched set_tasks set_proc_table set_open_files set_kmem proc_table open_files].
    by rewrite Hrc, Cref, Href.
  - intros i u Hi Hu.
    destruct (proj1 (ln_run _ _ _ _ L i) Hi) as (v & Hv & Hvs). pose proof (vget_range _ _ _ Hv).
    cbn in Hu. rewrite vget_app_l in Hu by lia. destruct (Ld i u Hi Hu) as [L1 L2]. split; [done|].
    etransitivity; [|exact L2]. unfold space_of. destruct (process_id u) as [q|] eqn:Hq; [|done].
    rewrite Hv in Hu. injection Hu as <-.
    destruct (ln_task _ _ _ _ L i v q Hv Hq) as (r & Hr & _); [unfold is_terminal; by rewrite Hvs|].
    destruct (created_live _ _ _ _ _ _ Cwf Cr Hr) as (r' & [Hr' _] & _ & _ & Ea). destruct Hr as [Hr _].
    unfold ProcessTable.address_space. cbn. by rewrite Hr', Hr, <- Ea.
Qed.

Lemma ok_set_files m fs :
  ok m -> OpenFileTable.table_ok fs ->
  (forall id, OpenFileTable.get fs id = OpenFileTable.get (open_files (sched m)) id) ->
  ok (set_sched (set_open_files fs (sched m)) m).
Proof.
  intros [[Cwf Cfds Cheap L [Ctab Cref]] [] Ld] Htab Hg.
  constructor; [constructor; try done|by constructor|done].
  constructor; [done|]. intros id. rewrite <- Cref. unfold OpenFileTable.rc. by rewrite Hg.
Qed.

(** A spawned user process: a new pid, a ready task of its own, the standard
    descriptors. A failed spawn changes nothing but the representation of
    the open-file table. *)
Definition spawned (m : Machine) (parent : option ProcessId) (init : UserTaskInit)
    (r : result SpawnError UserProcessHandle) (m' : Machine) : Prop :=
  match r with
  | Ok h =>
      handle_task_id h = vlen (tasks (sched m)) /\ handle_pid h = next_pid (proc_table (sched m)) /\
      exists t p, pushed m t m' /\ process_id t = Some (handle_pid h) /\
        live (proc_table (sched m')) (handle_pid h) p /\ p_parent p = parent /\
        p_address_space p = init_address_space init /\ p_heap p = init_heap init /\
        p_main_task p = handle_task_id h /\
        (forall j, j <> handle_pid h -> ProcessTable.get (proc_table (sched m')) j =
           adopt parent (handle_pid h) j <$> ProcessTable.get (proc_table (sched m)) j) /\
        (forall q, parent = Some q -> is_Some (ProcessTable.get (proc_table (sched m)) q)) /\
        exists stdin stdout stderr, p_fd_table p = FdTable.stdio stdin stdout stderr /\
          OpenFileTable.get (open_files (sched m')) stdin = Some (mkOpenFile NullInput ReadOnly 0 1) /\
          OpenFileTable.get (open_files (sched m')) stdout = Some (mkOpenFile ConsoleStdout WriteOnly 0 1) /\
          OpenFileTable.get (open_files (sched m')) stderr = Some (mkOpenFile ConsoleStderr WriteOnly 0 1)
  | Err e =>
      (e = SpawnFull \/ (exists pe, e = SpawnProcess pe)) /\
      exists fs, m' = set_sched (set_open_files fs (sched m)) m /\
        forall id, OpenFileTable.get fs id = OpenFileTable.get (open_files (sched m)) id
  end.

Lemma spawned_same m parent init e :
  (e = SpawnFull \/ exists pe, e = SpawnProcess pe) -> spawned m parent init (Err e) m.
Proof.
  intros He. split; [done|]. exists (open_files (sched m)). split; [|done]. by destruct m as [[] ? ? ? ?].
Qed.

Lemma spawn_user_process_run stack parent init rf (m : Machine) :
  ok m -> heap_ok (init_heap init) ->
  wp (spawn_user_process_with stack parent init rf)
     (fun r m' => ok m' /\ spawned m parent init r m') m.
Proof.
  intros K Hh. unfold spawn_user_process_with. st_steps. rewrite Z.geb_leb.
  destruct (Z.leb_spec MAX_TASKS (vlen (tasks (sched m)))) as [|Hlt].
  { apply wp_ret. split; [done|]. apply spawned_same. by left. }
  unfold processes_of at 1. st_steps.
  destruct (ProcessTable.can_create (proc_table (sched m)) parent) as [[]|pe] eqn:Hcc; cbn [map_err].
  2: { split; [done|]. apply spawned_same. right. by exists pe. }
  pose proof (fl_table _ _ (co_files _ _ _ _ _ (ok_core _ K))) as Htab.
  destruct (FdTable.new_with_stdio (open_files (sched m))) as [r fs] eqn:Efd.
  destruct (FdTable.new_with_stdio_spec _ _ _ Htab Efd) as [Htab' Hr]. do 4 st_step.
  destruct r as [fds|fe]; cbn [map_err].
  2: { destruct Hr as (-> & Hg). split; [by apply ok_set_files|]. split; [right; by eexists|]. by exists fs. }
  destruct Hr as (Hsz & Hrc & Hstd). st_step. apply wp_zoom.
  pose proof (create_spec (proc_table (sched m)) parent (init_address_space init) (init_heap init) fds
    (vlen (tasks (sched m))) (co_table _ _ _ _ _ (ok_core _ K))) as Hcr.
  eapply wp_mono; [exact Hcr|]. clear Hcr. intros r pt' Hr.
  destruct r as [pid|pe]; [|destruct Hr as [Hr _]; congruence].
  destruct Hr as (_ & Hpid & Hn & Hl & Hget & Hold & Href). st_steps. cbn [map_err]. st_steps.
  destruct (Task.new_user _ _ _ _ _ _ _ _ _ _) as [t k] eqn:Et.
  match type of Et with ?x = _ => assert (t = fst x) as Ht by (by rewrite Et) end.
  unfold push_task. st_steps.
  split.
  - eapply (create_core m pid parent (init_address_space init) (init_heap init) fds
      (vlen (tasks (sched m))) pt' t k); try done; by subst t.
  - split; [done|]. split; [done|]. cbn [handle_pid handle_task_id].
    exists t, (new_process pid parent (init_address_space init) (init_heap init) fds (vlen (tasks (sched m)))).
    split; [constructor; by subst t|]. split; [by subst t|]. pose proof (proj2 (can_create_Ok _ _ Hcc)). done.
Qed.

(** A child created under a running parent, or under none, keeps parents
    running. *)
Lemma created_running_parents pt parent pid p pt' :
  table_wf pt -> running_parents pt -> parent_live pt parent -> pid = next_pid pt ->
  (forall q, parent = Some q -> is_Some (ProcessTable.get pt q)) ->
  ProcessTable.get pt' pid = Some p -> p_parent p = parent ->
  (forall j, j <> pid -> ProcessTable.get pt' j = adopt parent pid j <$> ProcessTable.get pt j) ->
  running_parents pt'.
Proof.
  intros Hwf Hrp Hl -> Hex Hnew Hpar Hold.
  assert (forall i z, ProcessTable.get pt i = Some z -> p_state z = PRunning ->
    exists z', ProcessTable.get pt' i = Some z' /\ p_state z' = PRunning) as Hlift.
  { intros i z Hz Hst. assert (i <> next_pid pt) by (intros ->; rewrite wf_get_fresh in Hz; [done|done|lia]).
    rewrite Hold, Hz by done. eexists. split; [done|].
    by destruct (adopt_fields parent (next_pid pt) i z) as (_ & _ & -> & _). }
  intros c q i Hq Hi. destruct (decide (c = next_pid pt)) as [->|Hc].
  - assert (parent = Some i) as Hp by congruence. destruct (Hex i Hp) as [z Hz].
    by apply (Hlift i z); [|apply (Hl i)].
  - rewrite Hold in Hq by done. destruct (ProcessTable.get pt c) as [z|] eqn:Hz; [|done].
    injection Hq as <-. destruct (adopt_fields parent (next_pid pt) c z) as (_ & Ep & _).
    rewrite Ep in Hi. destruct (Hrp c z i Hz Hi) as (w & Hw & Hst). by apply (Hlift i w).
Qed.

(** ** run *)

Lemma run_run main_rsp (m : Machine) :
  ok m -> current (sched m) = None ->
  wp (run main_rsp) (fun r m' =>
    ok m' /\
    match first_ready (tasks (sched m)) with
    | None => r = None /\ m' = m
    | Some n => exists t, vget (tasks (sched m)) n = Some t /\ r = Some (saved_rsp t) /\
        current (sched m') = Some n /\ rsp (main_context (sched m')) = main_rsp /\
        tasks (sched m') = vset (tasks (sched m)) n (set_state t Running) /\ keeps m m'
    end) m.
Proof.
  intros K Hc. unfold run. st_steps.
  destruct (first_ready (tasks (sched m))) as [n|] eqn:E; [|by apply wp_ret].
  destruct (first_ready_Some _ _ E) as [(t & Ht & Hst) _]. pose proof (vget_range _ _ _ Ht) as Hr.
  destruct K as [C [Bm Bc] Ld]. rewrite Hc in C.
  pose proof (core_start _ _ _ _ _ C Ht Hst) as C'.
  destruct (space_exists (sched m) (mem m) None n t C Ht) as [f Hf]; [unfold is_terminal; by rewrite Hst|].
  assert (vget (vset (tasks (sched m)) n (set_state t Running)) n = Some (set_state t Running)) as Ht'
    by (by apply vget_vset_eq).
  st_steps. eapply wp_set_task_state; [exact Ht|]. st_steps.
  eapply wp_prepare_to_run; [exact Ht'|exact Hf|by intros g [= <-]|]. st_steps.
  eapply wp_task_at; [exact Ht'|]. st_steps.
  split; [|exists t; split; [done|]; done].
  constructor; [exact C'|constructor; [done|by intros g [= <-]]|].
  intros i u [= <-] Hu. cbn in Hu. rewrite Ht' in Hu. injection Hu as <-. split; [done|].
  etransitivity; [|exact Hf]. apply space_of_ext; [done|by apply kernel_frame_cr3|done].
Qed.
End spawning.
