(* ===== verification/System.v ===== *)
(** * The whole kernel

    [dispatch] and the interrupt handlers preserve the invariant and do not
    panic, except on a pointer that [VirtAddr::new] rejects, where
    [dispatch] always panics; [reachable] is every machine state that boot
    code, interrupts and user programs can produce. The consequences: tasks
    cannot deadlock in [waitpid], and control returns to the boot code only
    when every task has ended. *)

From S2P Require Import Prelude File Fd X86 Memory AddressSpace UserMemory Process Context.
From S2P Require Import Serial Task Syscall User Elf Scheduler SchedulerCalls Interrupts RoundRobin.
From S2P Require Import Invariant Switching Exit Calls Spawn.

Import ProcessTableFacts.

Section system.
Context {X : X86_64} {XS : X86_64_Spec X}.

(** ** Dispatch *)

Definition arg_rdi (m : Machine) (frame_rsp : Z) : Z := kmem m (frame_rsp + OFF_RDI).
Definition arg_rsi (m : Machine) (frame_rsp : Z) : Z := kmem m (frame_rsp + OFF_RSI).
Definition arg_rdx (m : Machine) (frame_rsp : Z) : Z := kmem m (frame_rsp + OFF_RDX).
Definition arg_rax (m : Machine) (frame_rsp : Z) : Z := kmem m (frame_rsp + OFF_RAX).

(** [VirtAddr::new] does not panic on the pointer of the call. This is not
    checked anywhere: [dispatch_rejects] is what happens otherwise. *)
Definition pointer_accepted (m : Machine) (frame_rsp : Z) : Prop :=
  match from_raw (arg_rax m frame_rsp) with
  | Some SysWrite | Some SysRead => is_Some (VirtAddr_new (arg_rsi m frame_rsp))
  | Some Open => is_Some (VirtAddr_new (arg_rdi m frame_rsp))
  | Some WaitPid => arg_rsi m frame_rsp <> 0 -> is_Some (VirtAddr_new (arg_rsi m frame_rsp))
  | _ => True
  end.

(** [wait_status_address] of the call's second argument. *)
Definition status_pointer (m : Machine) (frame_rsp : Z) : option Z :=
  if arg_rsi m frame_rsp =? 0 then None else VirtAddr_new (arg_rsi m frame_rsp).

(** A trap frame holds 64-bit words. *)
Definition frame_words_ok (m : Machine) (frame_rsp : Z) : Prop :=
  is_u64 (arg_rdi m frame_rsp) /\ is_u64 (arg_rsi m frame_rsp) /\ is_u64 (arg_rdx m frame_rsp).

Lemma wp_virt_addr a {B} (k : Z -> ST Machine B) Q m :
  is_u64 a -> is_Some (VirtAddr_new a) ->
  (forall b, VirtAddr_new a = Some b -> canonical b -> wp (k b) Q m) ->
  wp (st_bind (virt_addr a) k) Q m.
Proof.
  intros Hu [b Hb] H. apply wp_bind. unfold virt_addr. rewrite Hb. apply wp_ret.
  apply H; [done|]. by eapply VirtAddr_new_result.
Qed.

Lemma returning_run frame_rsp call m (O : SysResult -> Machine -> Prop) :
  wp call (fun r m' => ok m' /\ O r m') m ->
  wp (returning frame_rsp call) (fun s m' =>
    ok m' /\ s = Resume frame_rsp /\
    exists r m1, O r m1 /\ m' = set_rax m1 frame_rsp (sys_return r)) m.
Proof.
  intros H. unfold returning. apply wp_bind. eapply wp_mono; [exact H|]. intros r m1 [K O1].
  st_steps. split; [by apply ok_set_kmem|]. split; [done|]. by exists r, m1.
Qed.

(** What each system call does, by its number. *)
Definition syscall_outcome (m : Machine) (frame_rsp : Z) (r : Switch) (m' : Machine) : Prop :=
  let returns (O : SysResult -> Machine -> Prop) :=
    r = Resume frame_rsp /\
    exists v m1, O v m1 /\ m' = set_rax m1 frame_rsp (sys_return v) in
  let rdi := arg_rdi m frame_rsp in
  let rsi := arg_rsi m frame_rsp in
  let rdx := arg_rdx m frame_rsp in
  match from_raw (arg_rax m frame_rsp) with
  | None => r = Resume frame_rsp /\ m' = set_rax m frame_rsp (raw_return NoSys)
  | Some Yield =>
      exists cur t, current (sched m) = Some cur /\ vget (tasks (sched m)) cur = Some t /\
        yielded (set_rax m frame_rsp 0) cur t frame_rsp r m' /\ keeps (set_rax m frame_rsp 0) m'
  | Some Exit =>
      exists cur t m1, current (sched m) = Some cur /\ vget (tasks (sched m)) cur = Some t /\
        keeps m1 m' /\ switched m1 cur r m' /\
        match process_id t with
        | Some pid => process_ended (with_task m cur (ended t frame_rsp Finished (Some rdi) None)) pid
                        (Exited (to_signed 32 rdi)) m1
        | None => m1 = with_task m cur (ended t frame_rsp Finished (Some rdi) None)
        end
  | Some SysWrite => exists buf, VirtAddr_new rsi = Some buf /\ returns (write_outcome m rdi buf rdx)
  | Some GetPid => returns (fun v m1 => m1 = m /\ v = ok_or (current_proc m) Child)
  | Some WaitPid =>
      exists cur t, current (sched m) = Some cur /\ vget (tasks (sched m)) cur = Some t /\
        match process_id t with
        | Some pid =>
            exists p, live (proc_table (sched m)) pid p /\
              waitpid_outcome m frame_rsp cur t pid p rdi (status_pointer m frame_rsp) rdx r m'
        | None => r = Resume frame_rsp /\ m' = set_rax m frame_rsp (raw_return Child)
        end
  | Some Open => exists path, VirtAddr_new rdi = Some path /\ returns (open_outcome m path rsi rdx)
  | Some SysRead => exists buf, VirtAddr_new rsi = Some buf /\ returns (read_outcome m rdi buf rdx)
  | Some Close => returns (close_outcome m rdi)
  | Some Brk => returns (brk_outcome m rdi)
  end.

Lemma wait_status_address_run frame_rsp (m : Machine) :
  (arg_rsi m frame_rsp <> 0 -> is_Some (VirtAddr_new (arg_rsi m frame_rsp))) ->
  wait_status_address (arg_rsi m frame_rsp) m = Done (status_pointer m frame_rsp, m).
Proof.
  intros H. unfold wait_status_address, status_pointer.
  destruct (Z.eqb_spec (arg_rsi m frame_rsp) 0) as [|E]; [done|].
  destruct (H E) as [b Hb]. unfold virt_addr, st_bind. by rewrite Hb.
Qed.

Lemma status_pointer_canonical frame_rsp m a :
  is_u64 (arg_rsi m frame_rsp) -> status_pointer m frame_rsp = Some a -> canonical a.
Proof.
  unfold status_pointer. destruct (arg_rsi m frame_rsp =? 0); [done|]. apply VirtAddr_new_result.
Qed.

(** [dispatch] on a frame of the running task: no panic, the invariant, and
    the outcome of the call. *)
Lemma dispatch_run frame_rsp m :
  ok m -> current (sched m) <> None -> frame_words_ok m frame_rsp -> pointer_accepted m frame_rsp ->
  wp (dispatch frame_rsp) (fun r m' => ok m' /\ syscall_outcome m frame_rsp r m') m.
Proof.
  intros K Hcur (Hdi & Hsi & Hdx) Hptr. destruct (current (sched m)) as [cur|] eqn:Hc; [|done].
  destruct (ok_running m cur K Hc) as (t & Ht & Hst).
  unfold dispatch, syscall_outcome, pointer_accepted in *. st_steps.
  fold (arg_rdi m frame_rsp) (arg_rsi m frame_rsp) (arg_rdx m frame_rsp) (arg_rax m frame_rsp).
  destruct (from_raw (arg_rax m frame_rsp)) as [[]|].
  - unfold on_syscall_yield. st_steps. eapply wp_mono.
    { exact (switch_from_interrupt_run frame_rsp (set_rax m frame_rsp 0) (ok_set_kmem _ _ K)). }
    intros r m' (K' & Hk & H). split; [done|]. change (current (sched (set_rax m frame_rsp 0))) with
      (current (sched m)) in H. rewrite Hc in H. destruct H as (t' & Ht' & Hy).
    change (tasks (sched (set_rax m frame_rsp 0))) with (tasks (sched m)) in Ht'. by exists cur, t'.
  - unfold exit_current_from_interrupt.
    eapply wp_mono; [apply (finish_current_run frame_rsp Finished (Some (arg_rdi m frame_rsp)) None m cur t);
      [done|done|done|by left]|].
    intros r m' (K' & m1 & H1 & H2 & H3). split; [done|]. exists cur, t, m1.
    split; [done|]. split; [done|]. split; [done|]. split; [done|]. by destruct (process_id t).
  - apply wp_virt_addr; [done|done|]. intros b Hb Hcan. eapply wp_mono.
    { apply returning_run, sys_write_run; [done|done|by destruct Hdx]. }
    intros r m' (H1 & H2 & H3). split; [done|]. by exists b.
  - eapply wp_mono; [apply (returning_run _ _ _ (fun v m1 => m1 = m /\ v = ok_or (current_proc m) Child))|done].
    apply wp_bind. eapply wp_intro; [by apply current_process_id_run|]. by apply wp_ret.
  - apply wp_bind. eapply wp_intro; [by apply wait_status_address_run|]. eapply wp_mono.
    { apply waitpid_run; [done|]. intros a. by apply status_pointer_canonical. }
    intros r m' [K' [(cur' & t' & pid & p & H1 & H2 & H3 & H4 & H5)|(H1 & H2)]]; (split; [done|]);
      exists cur, t; (split; [done|]); (split; [done|]).
    + assert (cur' = cur) as -> by congruence. assert (t' = t) as -> by congruence. rewrite H3. eauto.
    + by rewrite (H1 cur t Hc Ht).
  - apply wp_virt_addr; [done|done|]. intros b Hb Hcan. eapply wp_mono.
    { apply returning_run, sys_open_run; [done|done|by destruct Hsi]. }
    intros r m' (H1 & H2 & H3). split; [done|]. by exists b.
  - apply wp_virt_addr; [done|done|]. intros b Hb Hcan. eapply wp_mono.
    { apply returning_run, sys_read_run; done. }
    intros r m' (H1 & H2 & H3). split; [done|]. by exists b.
  - eapply wp_mono; [by apply returning_run, sys_close_run|done].
  - eapply wp_mono; [by apply returning_run, sys_brk_run|done].
  - st_steps. split; [by apply ok_set_kmem|done].
Qed.

Instance pointer_accepted_dec m frame_rsp : Decision (pointer_accepted m frame_rsp).
Proof. unfold pointer_accepted. destruct (from_raw _) as [[]|]; apply _. Qed.

(** A pointer that [VirtAddr::new] rejects panics the kernel. *)
Lemma dispatch_rejects frame_rsp m :
  ~ pointer_accepted m frame_rsp -> exists msg, dispatch frame_rsp m = Panic msg.
Proof.
  unfold pointer_accepted, arg_rax, arg_rsi, arg_rdi. intros H. unfold dispatch, st_bind, st_get.
  destruct (from_raw _) as [[]|]; try (by destruct H);
    unfold wait_status_address, virt_addr, st_expect, st_bind.
  1, 3, 4: destruct (VirtAddr_new _); [destruct H; by eexists|by eexists].
  destruct (Z.eqb_spec (kmem m (frame_rsp + OFF_RSI)) 0) as [E|E]; [by destruct H; intros Hn; destruct Hn|].
  destruct (VirtAddr_new _); [destruct H; intros _; by eexists|by eexists].
Qed.

(** ** No deadlock *)

(** A task that can run or is running. *)
Definition active (ts : list Task) (i : Z) : Prop :=
  exists t, vget ts i = Some t /\ (t_state t = Ready \/ t_state t = Running).

(** Every chain of waiting processes ends in one that is not waiting: a
    process waits only for a child, which has a larger pid. *)
Lemma live_active ts pt fs run q r :
  core ts pt fs run -> live pt q r -> exists i, active ts i.
Proof.
  intros C. remember (Z.to_nat (next_pid pt - q)) as n eqn:En.
  revert q r En. induction n as [n IH] using lt_wf_ind. intros q r -> Hl.
  pose proof (co_linked _ _ _ _ _ C) as L. pose proof (co_table _ _ _ _ _ C) as Hwf.
  destruct (ln_proc _ _ _ _ L q r Hl) as (t & Ht & Hp & Hnt).
  destruct (t_state t) as [| |[c ptr]| |] eqn:Hst; try (by unfold is_terminal in Hnt; rewrite Hst in Hnt).
  - exists (p_main_task r), t. eauto.
  - exists (p_main_task r), t. eauto.
  - destruct (ln_wait _ _ _ _ L _ _ c ptr Ht Hst) as (_ & q' & r' & Hq' & [Hr' _] & Hin & [?|[x Hx]]); [done|].
    assert (q' = q) as -> by congruence.
    destruct (wf_children _ Hwf _ _ _ Hr' Hin) as (Hlt & _).
    destruct (wf_pid _ Hwf _ _ (proj1 Hx)) as [_ Hc].
    apply (IH (Z.to_nat (next_pid pt - c))) with (q := c) (r := x); [lia|done|done].
Qed.

Lemma blocked_active ts pt fs run i t reason :
  core ts pt fs run -> vget ts i = Some t -> t_state t = Blocked reason -> exists j, active ts j.
Proof.
  intros C Hi Hst. destruct reason as [c ptr].
  destruct (ln_wait _ _ _ _ (co_linked _ _ _ _ _ C) i t c ptr Hi Hst) as (_ & q & r & _ & Hl & _).
  by eapply live_active.
Qed.

(** If no task is ready or running, all have ended. *)
Lemma idle_all_terminal ts pt fs i t :
  core ts pt fs None -> (forall j, ~ ready_at ts j) -> vget ts i = Some t -> is_terminal t = true.
Proof.
  intros C Hno Hi.
  assert (forall j, ~ active ts j) as Hna.
  { intros j (u & Hu & [Hs|Hs]); [apply (Hno j); by exists u|].
    assert (None = Some j) by (apply (ln_run _ _ _ _ (co_linked _ _ _ _ _ C)); eauto). done. }
  unfold is_terminal. destruct (t_state t) as [| |reason| |] eqn:Hst; try done.
  - destruct (Hna i). exists t. eauto.
  - destruct (Hna i). exists t. eauto.
  - destruct (blocked_active _ _ _ _ _ _ _ C Hi Hst) as [j Hj]. by destruct (Hna j).
Qed.

Lemma all_terminal_finished ts :
  ts <> [] -> (forall i t, vget ts i = Some t -> is_terminal t = true) -> all_tasks_finished ts = true.
Proof.
  intros Hne H. unfold all_tasks_finished. destruct ts as [|t0 ts0] eqn:E; [done|]. rewrite <- E in *.
  apply Z.eqb_eq. clear E Hne t0 ts0. unfold terminal_count, countb.
  assert (forall l, (forall t, t ∈ l -> is_terminal t = true) ->
    zsum (fun x => if is_terminal x then 1 else 0) l = vlen l) as Hall.
  { induction l as [|u l IH]; intros Hl; [done|]. cbn [zsum]. rewrite (Hl u) by apply list_elem_of_here.
    rewrite IH by (intros v Hv; apply Hl; by apply list_elem_of_further). unfold vlen. cbn. lia. }
  apply Hall. intros t Ht. apply elem_of_vget in Ht as [i Hi]. by apply (H i).
Qed.

(** Leaving to the boot code means that every task has ended. *)
Lemma switched_to_main m from r m' :
  switched m from r m' -> core_of (sched m') (current (sched m')) -> tasks (sched m) <> [] ->
  r = ToMain -> all_tasks_finished (tasks (sched m')) = true.
Proof.
  unfold switched. intros Hs C Hne ->.
  destruct (next_ready_after (tasks (sched m)) from) as [n|] eqn:E; [by destruct Hs as (t & _ & ? & _)|].
  destruct Hs as (_ & Hc & Ht & _). rewrite Hc in C. apply all_terminal_finished; [by rewrite Ht|].
  intros i t Hi. eapply idle_all_terminal; [exact C| |exact Hi].
  intros j (u & Hu & Hs). pose proof (vget_range _ _ _ Hu) as Hr. rewrite Ht in *.
  apply (next_ready_None _ _ _ E Hr). by exists u.
Qed.

(** ** Events and reachable states *)

(** What can happen to the machine. [Elsewhere] stands for everything outside
    the kernel's Rust code: user instructions, the entry stubs that push
    frames, device output. It changes memory contents and registers, and
    leaves the scheduler, CR3, the memory state and TSS.rsp0 alone. *)
Inductive event : Type :=
| Elsewhere (m' : Machine)
| TimerIrq (frame_rsp : Z)
| YieldInt (frame_rsp : Z)
| SyscallInt (frame_rsp : Z)
| UserFault (frame_rsp : Z) (info : UserFaultInfo)
| KernelTaskReturns
| SpawnKernel (stack trampoline : Z) (entry : TaskEntry)
| SpawnUser (stack : Z) (init : UserTaskInit)
| SpawnProgram (stack : Z) (program_bytes : list Z) (arg0 : Z) (test_page_value : option Z)
| SpawnElf (stack : Z) (elf_bytes : list Z) (arg0 : Z)
| SpawnChildElf (stack : Z) (parent : ProcessId) (elf_bytes : list Z) (arg0 : Z)
| SetInitialArg (task : TaskId) (arg0 : Z)
| SetPreemption (enable : bool)
| Run (main_rsp : Z).

Definition untouched (m m' : Machine) : Prop :=
  sched m' = sched m /\ same_ctl (mem m) (mem m') /\ tss_rsp0 (cpu m') = tss_rsp0 (cpu m).

(** When the event can occur. System calls and faults come from the running
    task, a kernel task returns only while it is running, the boot code
    runs only when no task does, a built-in program fits in its page, and
    a task is made of an initialisation record with a proper heap. Nothing
    is asked of the arguments of a system call or of the parent of a
    child. *)
Definition enabled (m : Machine) (e : event) : Prop :=
  match e with
  | Elsewhere m' => untouched m m'
  | TimerIrq _ | YieldInt _ => True
  | SyscallInt frame_rsp =>
      current (sched m) <> None /\ frame_words_ok m frame_rsp
  | UserFault _ _ => current (sched m) <> None
  | KernelTaskReturns => exists cur t, current (sched m) = Some cur /\
      vget (tasks (sched m)) cur = Some t /\ process_id t = None
  | SpawnKernel _ _ _ | SetInitialArg _ _ | SetPreemption _ => True
  | SpawnUser _ init => heap_ok (init_heap init)
  | SpawnProgram _ program_bytes _ _ => vlen program_bytes <= 4096
  | SpawnElf _ elf_bytes _ => Forall is_byte elf_bytes
  | SpawnChildElf _ _ elf_bytes _ => Forall is_byte elf_bytes
  | Run _ => current (sched m) = None
  end.

(** The event passes no pointer that [VirtAddr::new] rejects. *)
Definition accepted (m : Machine) (e : event) : Prop :=
  match e with SyscallInt frame_rsp => pointer_accepted m frame_rsp | _ => True end.

#[global] Instance accepted_dec m e : Decision (accepted m e).
Proof. destruct e; apply _. Qed.

Definition discard {A} (op : ST Machine A) : ST Machine unit := let* _ := op in st_ret tt.

Definition handle (e : event) : ST Machine unit :=
  match e with
  | Elsewhere m' => st_put m'
  | TimerIrq frame_rsp => discard (on_timer_interrupt frame_rsp)
  | YieldInt frame_rsp => discard (on_yield_interrupt frame_rsp)
  | SyscallInt frame_rsp => discard (dispatch frame_rsp)
  | UserFault frame_rsp info => discard (fail_current_with_fault frame_rsp info)
  | KernelTaskReturns => discard finish_current_task
  | SpawnKernel stack trampoline entry => discard (spawn stack trampoline entry)
  | SpawnUser stack init => discard (spawn_user_process stack init)
  | SpawnProgram stack program_bytes arg0 test_page_value =>
      let* r := with_mem (create_user_task_with_test_page program_bytes arg0 test_page_value) in
      match r with
      | Ok init => discard (spawn_user stack init)
      | Err _ => st_ret tt
      end
  | SpawnElf stack elf_bytes arg0 => discard (spawn_user_elf_process_with_arg stack elf_bytes arg0)
  | SpawnChildElf stack parent elf_bytes arg0 =>
      discard (spawn_child_user_elf_process_with_arg stack parent elf_bytes arg0)
  | SetInitialArg task arg0 => discard (set_task_initial_arg task arg0)
  | SetPreemption enable => if enable then enable_preemption else disable_preemption
  | Run main_rsp => discard (run main_rsp)
  end.

(** The machine after boot: nothing spawned, the memory state initialised. *)
Record booted (m : Machine) : Prop := mkBooted {
  bt_sched : sched m = Scheduler_new;
  bt_mem : mem_ok (mem m)
}.

Inductive reachable : Machine -> Prop :=
| reach_boot m : booted m -> reachable m
| reach_step m e m' :
    reachable m -> enabled m e -> handle e m = Done (tt, m') -> reachable m'.

Lemma booted_ok m : booted m -> ok m.
Proof.
  intros [Hs Hm]. destruct new_wf as [Hwf Hfds].
  assert (forall i, ProcessTable.get ProcessTable.new i = None) as Hnone.
  { intros i. destruct (ProcessTable.get ProcessTable.new i) eqn:E; [|done].
    apply (wf_pid _ Hwf) in E. cbn in E. lia. }
  assert (forall i t, vget (@nil Task) i <> Some t) as Hnt.
  { intros i t H%vget_range. unfold vlen in H. cbn in H. lia. }
  constructor; [|constructor; [done|by rewrite Hs]|by rewrite Hs].
  rewrite Hs. constructor; [done|done|intros pid p Hp; cbn in Hp; rewrite Hnone in Hp; done| |].
  - constructor.
    + done.
    + intros i t Hi. by apply Hnt in Hi.
    + intros i. split; [done|]. by intros (t & Hi%Hnt & _).
    + intros i t pid Hi. by apply Hnt in Hi.
    + intros pid p [Hp _]. cbn in Hp. rewrite Hnone in Hp. done.
    + intros i t c ptr Hi. by apply Hnt in Hi.
  - constructor; [apply OpenFileTable.new_ok|]. intros id. vm_compute. by destruct id.
Qed.

Lemma wp_discard {A} (op : ST Machine A) (P : Machine -> Prop) m :
  wp op (fun _ m' => P m') m -> wp (discard op) (fun _ m' => P m') m.
Proof. intros H. apply wp_bind. eapply wp_mono; [exact H|]. intros a m' HP. by apply wp_ret. Qed.

Lemma ok_untouched m m' : ok m -> untouched m m' -> ok m'.
Proof.
  intros [C [Bm Bc] L] (Hs & [E1 E2 E3] & Ht). constructor; [by rewrite Hs|constructor; [by apply E3|]|].
  - intros f. rewrite Hs, E1. apply Bc.
  - intros i t. rewrite Hs. intros Hi Hti. destruct (L i t Hi Hti) as [L1 L2].
    split; [by rewrite Ht|]. rewrite Hs, E1, <- L2. by apply space_of_ext.
Qed.

Lemma spawn_elf_run stack parent elf_bytes arg0 (m : Machine) :
  ok m -> Forall is_byte elf_bytes ->
  wp (let? init := st_map_err ElfLoad (with_mem (load_user_elf elf_bytes arg0)) in
      let* m := st_get in
      spawn_user_process_with stack parent init (initial_rflags (cpu m)))
    (fun r m' => ok m' /\ exists x, same_ctl (mem m) x /\
       match r with
       | Err (ElfLoad e) => m' = set_mem x m
       | _ => exists init, heap_ok (init_heap init) /\ spawned (set_mem x m) parent init r m'
       end) m.
Proof.
  intros K Hb. apply wp_try. unfold st_map_err. apply wp_bind, wp_zoom.
  eapply wp_mono; [exact (load_user_elf_safe elf_bytes arg0 Hb (mem m) (bo_mem _ (ok_base _ K)))|].
  intros r x [Hx Hr]. cbn beta. apply wp_ret. pose proof (ok_set_mem m x K Hx) as Kx.
  destruct r as [init|e]; cbn [map_err].
  - apply wp_bind, wp_get. eapply wp_mono; [by apply spawn_user_process_run|].
    intros r m' [K' Hs]. split; [done|]. exists x. split; [done|].
    destruct r as [h|[| |e]]; try (by exists init). by destruct Hs as [[?|[? ?]] _].
  - split; [done|]. by exists x.
Qed.

(** A kernel task returned from its entry function. *)
Lemma finish_current_task_run (m : Machine) cur t :
  ok m -> current (sched m) = Some cur -> vget (tasks (sched m)) cur = Some t ->
  process_id t = None ->
  wp finish_current_task (fun r m' =>
    ok m' /\ keeps m m' /\ switched (with_task m cur (set_state t Finished)) cur r m') m.
Proof.
  intros K Hc Ht Hpid. pose proof (ok_core _ K) as C. rewrite Hc in C.
  unfold finish_current_task. st_steps. eapply wp_expect; [exact Hc|].
  st_step. eapply wp_set_task_state; [done|]. eapply wp_mono.
  - apply resume_next_after_run.
    + by apply (core_finish_kernel _ _ _ _ t).
    + destruct (ok_base _ K). by constructor.
  - intros r m' (K' & S & []). split; [done|]. split; [by constructor|done].
Qed.

(** The timer tick preempts exactly when preemption is on and a task runs. *)
Lemma on_timer_run frame_rsp (m : Machine) :
  ok m ->
  wp (on_timer_interrupt frame_rsp) (fun r m' =>
    ok m' /\ keeps m m' /\
    match current (sched m) with
    | Some cur =>
        if preemption_enabled (sched m)
        then exists t, vget (tasks (sched m)) cur = Some t /\ yielded m cur t frame_rsp r m'
        else r = Resume frame_rsp /\ m' = m
    | None => r = Resume frame_rsp /\ m' = m
    end) m.
Proof.
  intros K. unfold on_timer_interrupt. st_steps.
  destruct (current (sched m)) as [cur|] eqn:Hc; cbn [OpenFileTable.is_none negb].
  - destruct (preemption_enabled (sched m)); cbn [andb]; [|by apply wp_ret].
    eapply wp_mono; [by apply switch_from_interrupt_run|]. cbn beta. by rewrite Hc.
  - rewrite andb_false_r. by apply wp_ret.
Qed.

Lemma set_initial_arg_run task arg0 (m : Machine) :
  ok m ->
  wp (set_task_initial_arg task arg0) (fun r m' =>
    ok m' /\
    match vget (tasks (sched m)) task with
    | Some t => if is_ready t then r = true /\ m' = set_kmem (set_saved_rdi t arg0 (kmem m)) m
                else r = false /\ m' = m
    | None => r = false /\ m' = m
    end) m.
Proof.
  intros K. unfold set_task_initial_arg. st_steps.
  destruct (vget (tasks (sched m)) task) as [t|]; [|by apply wp_ret].
  destruct (is_ready t); [|by apply wp_ret]. st_steps. split; [by apply ok_set_kmem|done].
Qed.

Lemma ok_set_preemption m b : ok m -> ok (set_sched (set_preemption b (sched m)) m).
Proof. intros [C [] L]. by constructor. Qed.

(** Every event that can occur and passes no rejected pointer is handled
    without a panic, and the machine invariant holds afterwards. *)
Lemma handle_run e (m : Machine) :
  ok m -> enabled m e -> accepted m e -> wp (handle e) (fun _ m' => ok m') m.
Proof.
  intros K He Ha.
  assert (forall A (op : ST Machine A) (Q : A -> Machine -> Prop),
    wp op (fun r m' => ok m' /\ Q r m') m -> wp (discard op) (fun _ m' => ok m') m) as Hd.
  { intros A op Q H. apply wp_discard. eapply wp_mono; [exact H|]. by intros r m' []. }
  destruct e as [m'|rsp|rsp|rsp|rsp info| |stack tr entry|stack init|stack bytes arg0 test|stack bytes arg0|stack parent bytes arg0
                |task arg0|b|rsp]; cbn [handle enabled accepted] in *.
  - apply wp_put. by apply (ok_untouched m).
  - eapply Hd. by apply on_timer_run.
  - eapply Hd. by apply switch_from_interrupt_run.
  - destruct He. eapply Hd. by apply dispatch_run.
  - destruct (current (sched m)) as [cur|] eqn:Hc; [|done].
    destruct (ok_running m cur K Hc) as (t & Ht & _).
    eapply Hd. unfold fail_current_with_fault. eapply finish_current_run; eauto.
  - destruct He as (cur & t & Hc & Ht & Hp). eapply Hd. by eapply finish_current_task_run.
  - eapply Hd. unfold spawn. st_steps. by apply spawn_with_run.
  - eapply Hd. unfold spawn_user_process. st_steps. by apply spawn_user_process_run.
  - apply wp_bind, wp_zoom.
    eapply wp_mono; [exact (create_user_task_safe bytes arg0 test He (mem m) (bo_mem _ (ok_base _ K)))|].
    intros r x [Hx Hr]. pose proof (ok_set_mem m x K Hx) as Kx. destruct r as [init|]; [|by apply wp_ret].
    apply wp_discard. unfold spawn_user, spawn_user_process. st_steps.
    eapply wp_mono; [by apply spawn_user_process_run|]. intros r m' [K' _]. by apply wp_ret.
  - eapply Hd. by apply (spawn_elf_run stack None).
  - eapply Hd. by apply (spawn_elf_run stack (Some parent)).
  - eapply Hd. by apply set_initial_arg_run.
  - destruct b; unfold enable_preemption, disable_preemption; st_steps; by apply ok_set_preemption.
  - eapply Hd. by apply run_run.
Qed.

(** A rejected pointer panics the kernel, so an event that was handled
    passed none. *)
Lemma handle_rejects e (m : Machine) : ~ accepted m e -> exists msg, handle e m = Panic msg.
Proof.
  destruct e; cbn [accepted]; try (by intros []). intros (msg & E)%dispatch_rejects.
  exists msg. cbn [handle]. unfold discard, st_bind. by rewrite E.
Qed.

Lemma handled_accepted e (m : Machine) r : handle e m = Done r -> accepted m e.
Proof.
  intros E. destruct (decide (accepted m e)) as [|Hn]; [done|].
  apply handle_rejects in Hn as [msg Hn]. congruence.
Qed.

Lemma handle_ok e (m m' : Machine) :
  ok m -> enabled m e -> handle e m = Done (tt, m') -> ok m'.
Proof.
  intros K He E. pose proof (handle_run e m K He (handled_accepted _ _ _ E)) as Hwp.
  unfold wp in Hwp. by rewrite E in Hwp.
Qed.

Lemma reachable_ok m : reachable m -> ok m.
Proof. induction 1 as [m Hb|m e m' _ IH He Hrun]; [by apply booted_ok|by eapply handle_ok]. Qed.

(** ** Consequences *)

(** A system call returns to the boot code only when every task has ended. *)
Lemma outcome_to_main frame_rsp m m' :
  ok m' -> syscall_outcome m frame_rsp ToMain m' -> all_tasks_finished (tasks (sched m')) = true.
Proof.
  intros K' H. pose proof (ok_core _ K') as C'.
  assert (forall l i (u : Task), vget l i = Some u -> l <> []) as Hne.
  { intros l i u Hi ->. apply vget_range in Hi. unfold vlen in Hi. cbn in Hi. lia. }
  assert (forall m1 cur, tasks (sched m1) <> [] -> switched m1 cur ToMain m' ->
    all_tasks_finished (tasks (sched m')) = true) as Hsw by (intros; by eapply switched_to_main).
  unfold syscall_outcome in H. destruct (from_raw (arg_rax m frame_rsp)) as [[]|].
  - destruct H as (cur & t & _ & _ & Hy & _). unfold yielded in Hy.
    destruct (next_ready_after _ _); [by destruct Hy as (u & _ & _ & ? & _)|by destruct Hy].
  - destruct H as (cur & t & m1 & Hc & Ht & Hk & Hs & Hend). apply (Hsw m1 cur); [|done].
    intros Hnil. assert (next_ready_after (tasks (sched m1)) cur = None) as Hn by (by rewrite Hnil).
    unfold switched in Hs. rewrite Hn in Hs. destruct Hs as (_ & _ & Htk & _).
    assert (vlen (tasks (sched m1)) = vlen (tasks (sched m))) as Hl.
    { destruct (process_id t); [|subst m1; apply vlen_vset].
      destruct Hend as (z & pt & fs & m2 & pt' & _ & _ & _ & W & _ & ->). cbn. rewrite (woken_vlen _ _ _ W). apply vlen_vset. }
    apply vget_range in Ht. rewrite Hnil in Hl. unfold vlen in *. cbn in Hl. lia.
  - by destruct H as (? & _ & ? & _).
  - by destruct H.
  - destruct H as (cur & t & Hc & Ht & H). destruct (process_id t); [|by destruct H].
    destruct H as (q & _ & H). unfold waitpid_outcome in H.
    destruct (wait_error _ _ _ _ _ _); [by destruct H|].
    destruct (ProcessTable.state _ _) as [[|]|]; [|by destruct H|done].
    destruct (_ =? WNOHANG); [by destruct H|]. destruct H as [_ Hs]. eapply Hsw; [|exact Hs].
    eapply Hne. apply vget_vset_eq. by eapply vget_range.
  - by destruct H as (? & _ & ? & _).
  - by destruct H as (? & _ & ? & _).
  - by destruct H.
  - by destruct H.
  - by destruct H.
Qed.
End system.
