(* ===== verification/Fairness.v ===== *)
(** * Fairness of the scheduler

    What an event does to the tasks: the running task goes on, or the next
    ready task takes its place, and ready tasks stay ready until they run.
    Along a sequence of events, a ready task therefore comes closer to its
    turn with every tick of the timer, and runs after at most as many ticks
    as there are tasks. *)

From S2P Require Import Prelude File Fd X86 Memory AddressSpace UserMemory Process Context.
From S2P Require Import Serial Task Syscall User Elf Scheduler SchedulerCalls Interrupts RoundRobin.
From S2P Require Import Invariant Switching Exit Calls Spawn System.

Import ProcessTableFacts.

Section fairness.
Context {X : X86_64} {XS : X86_64_Spec X}.

(** The next ready task after [cur] was chosen, among at least the tasks
    that were ready. *)
Definition moved_on (s s' : Scheduler) (cur : TaskId) : Prop :=
  exists ts, vlen ts = vlen (tasks s) /\ (forall j, ready_at (tasks s) j -> ready_at ts j) /\
    current s' = next_ready_after ts cur.

Record goes_on (s s' : Scheduler) : Prop := mkGoesOn {
  go_len : vlen (tasks s) <= vlen (tasks s');
  go_ready j : ready_at (tasks s) j -> current s' = Some j \/ ready_at (tasks s') j;
  go_current cur : current s = Some cur -> current s' = Some cur \/ moved_on s s' cur
}.

Lemma goes_on_same s s' : tasks s' = tasks s -> current s' = current s -> goes_on s s'.
Proof. intros Et Ec. constructor; rewrite ?Et, ?Ec; [done|by right|by left]. Qed.

Lemma goes_on_pushed (m m' : Machine) t : pushed m t m' -> goes_on (sched m) (sched m').
Proof.
  intros Pu. constructor.
  - rewrite (pu_tasks _ _ _ Pu). unfold vlen. rewrite length_app. cbn. lia.
  - intros j (u & Hu & Hs). right. exists u. split; [|done]. rewrite (pu_tasks _ _ _ Pu).
    rewrite vget_app_l; [done|by eapply vget_range].
  - intros cur. rewrite (pu_current _ _ _ Pu). by left.
Qed.

(** The same, with preemption left as it was. *)
Definition kept_on (m m' : Machine) : Prop :=
  goes_on (sched m) (sched m') /\ preemption_enabled (sched m') = preemption_enabled (sched m).

Lemma kept_on_same (m m' : Machine) :
  tasks (sched m') = tasks (sched m) -> current (sched m') = current (sched m) ->
  preemption_enabled (sched m') = preemption_enabled (sched m) -> kept_on m m'.
Proof. intros E1 E2 E3. split; [by apply goes_on_same|done]. Qed.

(** The task that runs is not ready. *)
Lemma running_not_ready (m : Machine) cur j :
  ok m -> current (sched m) = Some cur -> ready_at (tasks (sched m)) j -> cur <> j.
Proof.
  intros K Hc (u & Hu & Hs) ->. destruct (ok_running m j K Hc) as (t & Ht & Hst). congruence.
Qed.

Lemma chosen_ready ts n u j :
  vget ts n = Some u -> ready_at ts j -> Some n = Some j \/ ready_at (vset ts n (set_state u Running)) j.
Proof. intros Hn Hj. destruct (decide (n = j)) as [->|Hne]; [by left|right; by apply ready_at_vset]. Qed.

Lemma switched_goes (m m1 : Machine) cur r m' :
  current (sched m) = Some cur -> vlen (tasks (sched m1)) = vlen (tasks (sched m)) ->
  (forall j, ready_at (tasks (sched m)) j -> ready_at (tasks (sched m1)) j) -> switched m1 cur r m' ->
  goes_on (sched m) (sched m').
Proof.
  intros Hc Hl Hr Sw. unfold switched in Sw.
  assert (current (sched m') = next_ready_after (tasks (sched m1)) cur) as Hn.
  { destruct (next_ready_after _ _); [by destruct Sw as (u & _ & _ & ? & _)|by destruct Sw as (_ & ? & _)]. }
  constructor.
  - destruct (next_ready_after _ _); [destruct Sw as (u & _ & _ & _ & ->)|destruct Sw as (_ & _ & -> & _)];
      rewrite ?vlen_vset; lia.
  - intros j Hj%Hr. rewrite Hn. destruct (next_ready_after _ _) as [n|].
    + destruct Sw as (u & Hu & _ & _ & ->). by apply chosen_ready.
    + destruct Sw as (_ & _ & -> & _). by right.
  - intros cur' E. assert (cur' = cur) as -> by congruence. right. by exists (tasks (sched m1)).
Qed.

Lemma yielded_goes (m : Machine) cur t rsp r m' :
  ok m -> current (sched m) = Some cur -> yielded m cur t rsp r m' -> goes_on (sched m) (sched m').
Proof.
  intros K Hc. unfold yielded. destruct (next_ready_after (tasks (sched m)) cur) as [n|] eqn:E.
  - intros (u & Hu & Hne & _ & Ec & Et). constructor.
    + by rewrite Et, !vlen_vset.
    + intros j Hj. pose proof (running_not_ready m cur j K Hc Hj). rewrite Ec, Et.
      apply chosen_ready; [by rewrite vget_vset_ne|by apply ready_at_vset].
    + intros cur' E'. assert (cur' = cur) as -> by congruence. right. exists (tasks (sched m)).
      by rewrite Ec, E.
  - intros [_ ->]. constructor.
    + cbn. by rewrite vlen_vset.
    + intros j Hj. right. cbn. apply ready_at_vset; [done|by apply (running_not_ready m)].
    + by left.
Qed.

(** A kernel call that does not switch. *)
Lemma kept_goes (m m1 : Machine) rsp v : call_kept m m1 -> goes_on (sched m) (sched (set_rax m1 rsp v)).
Proof. intros [Et Ec _ _]. by apply goes_on_same. Qed.

Lemma woken_ready (m : Machine) c m' j :
  woken m c m' -> ready_at (tasks (sched m)) j -> ready_at (tasks (sched m')) j.
Proof.
  intros [[_ ->]|(w & t & ptr & m1 & Ht & _ & W & ->)] Hj; [done|]. cbn. rewrite (wt_tasks _ _ _ _ _ W).
  destruct (decide (w = j)) as [->|Hne]; [|by apply ready_at_vset].
  exists (set_state t Ready). split; [|done]. apply vget_vset_eq. by eapply vget_range.
Qed.

Lemma woken_preemption (m : Machine) c m' :
  woken m c m' -> preemption_enabled (sched m') = preemption_enabled (sched m).
Proof.
  intros [[_ ->]|(w & t & ptr & m1 & _ & _ & W & ->)]; [done|]. cbn. apply (wt_preemption _ _ _ _ _ W).
Qed.

(** The end of the running task, by [exit] or by a fault. *)
Lemma finished_goes (m : Machine) cur t te e m1 r m' :
  ok m -> current (sched m) = Some cur -> vget (tasks (sched m)) cur = Some t ->
  match process_id t with
  | Some pid => process_ended (with_task m cur te) pid e m1
  | None => m1 = with_task m cur te
  end ->
  keeps m1 m' -> switched m1 cur r m' ->
  kept_on m m'.
Proof.
  intros K Hc Ht H Kp Sw. unfold kept_on. rewrite (kp_preemption _ _ Kp).
  assert (forall j, ready_at (tasks (sched m)) j -> ready_at (tasks (sched (with_task m cur te))) j) as Hr.
  { intros j Hj. apply ready_at_vset; [done|by apply (running_not_ready m)]. }
  destruct (process_id t) as [pid|].
  - destruct H as (p & pt & fs & m2 & pt' & _ & _ & _ & W & _ & ->). split.
    + refine (switched_goes m _ cur r m' Hc _ _ Sw).
      * cbn. rewrite (woken_vlen _ _ _ W). cbn. apply vlen_vset.
      * intros j Hj%Hr. cbn. by eapply woken_ready.
    + cbn. by rewrite (woken_preemption _ _ _ W).
  - subst m1. split; [|done]. refine (switched_goes m _ cur r m' Hc _ Hr Sw). apply vlen_vset.
Qed.

Lemma waitpid_goes (m : Machine) rsp cur t pid p c ptr options r m' :
  ok m -> current (sched m) = Some cur -> vget (tasks (sched m)) cur = Some t ->
  waitpid_outcome m rsp cur t pid p c ptr options r m' ->
  kept_on m m'.
Proof.
  intros K Hc Ht. unfold waitpid_outcome.
  assert (forall u j, ready_at (tasks (sched m)) j -> ready_at (tasks (sched (with_task m cur u))) j) as Hr.
  { intros u j Hj. apply ready_at_vset; [done|by apply (running_not_ready m)]. }
  destruct (wait_error _ _ _ _ _ _); [intros [_ ->]; by apply kept_on_same|].
  destruct (ProcessTable.state _ _) as [[|ex]|]; [|intros [_ W]|done].
  - destruct (_ =? WNOHANG); [intros [_ ->]; by apply kept_on_same|].
    intros [Kp Sw]. split; [|by rewrite (kp_preemption _ _ Kp)].
    refine (switched_goes m _ cur r m' Hc _ (Hr _) Sw). apply vlen_vset.
  - split; [|apply (wt_preemption _ _ _ _ _ W)]. constructor.
    + rewrite (wt_tasks _ _ _ _ _ W). cbn. by rewrite vlen_vset.
    + intros j Hj. right. rewrite (wt_tasks _ _ _ _ _ W). by apply Hr.
    + intros cur'. rewrite (wt_current _ _ _ _ _ W). by left.
Qed.

Lemma dispatch_goes (m : Machine) rsp r m' :
  ok m -> syscall_outcome m rsp r m' ->
  kept_on m m'.
Proof.
  intros K H. unfold syscall_outcome in H.
  assert (forall (O : SysResult -> Machine -> Prop), (forall v m1, O v m1 -> call_kept m m1) ->
    r = Resume rsp /\ (exists v m1, O v m1 /\ m' = set_rax m1 rsp (sys_return v)) ->
    kept_on m m') as Hret.
  { intros O HO (_ & v & m1 & Hk%HO & ->). split; [by apply kept_goes|apply Hk]. }
  destruct (from_raw (arg_rax m rsp)) as [[]|].
  - destruct H as (cur & t & Hc & _ & Hy & Kp). split; [|apply (kp_preemption _ _ Kp)].
    by apply (yielded_goes (set_rax m rsp 0) cur t rsp r); [apply ok_set_kmem| |].
  - destruct H as (cur & t & m1 & Hc & Ht & Kp & Sw & H). by eapply finished_goes.
  - destruct H as (b & _ & H). eapply Hret; [|exact H]. intros v m1. apply write_call_kept.
  - eapply Hret; [|exact H]. intros v m1 [-> _]. constructor; try done. by left.
  - destruct H as (cur & t & Hc & Ht & H). destruct (process_id t) as [pid|].
    + destruct H as (p & _ & H). by eapply waitpid_goes.
    + destruct H as [_ ->]. by apply kept_on_same.
  - destruct H as (b & _ & H). eapply Hret; [|exact H]. intros v m1. apply open_kept.
  - destruct H as (b & _ & H). eapply Hret; [|exact H]. intros v m1. apply read_kept.
  - eapply Hret; [|exact H]. intros v m1. apply close_kept.
  - eapply Hret; [|exact H]. intros v m1. apply brk_kept.
  - destruct H as [_ ->]. by apply kept_on_same.
Qed.

Lemma spawned_goes (m : Machine) parent init r m' :
  spawned m parent init r m' ->
  kept_on m m'.
Proof.
  destruct r as [h|e].
  - intros (_ & _ & t & p & Pu & _). split; [by eapply goes_on_pushed|apply (pu_preemption _ _ _ Pu)].
  - intros (_ & fs & -> & _). by apply kept_on_same.
Qed.

Lemma spawn_elf_goes stack parent elf_bytes arg0 (m : Machine) :
  ok m -> Forall is_byte elf_bytes ->
  wp (let? init := st_map_err ElfLoad (with_mem (load_user_elf elf_bytes arg0)) in
      let* m := st_get in
      spawn_user_process_with stack parent init (initial_rflags (cpu m)))
    (fun _ m' => kept_on m m') m.
Proof.
  intros K Hb. eapply wp_mono; [by apply spawn_elf_run|]. intros r m' (_ & x & _ & H).
  assert (forall init, spawned (set_mem x m) parent init r m' ->
    kept_on m m') as Hs.
  { intros init. exact (spawned_goes (set_mem x m) parent init r m'). }
  destruct r as [h|[| |e]]; [destruct H as (init & _ & H); by apply (Hs init)..|subst m'].
  by apply kept_on_same.
Qed.

(** The boot code calls [run] when no task runs. *)
Lemma run_goes main_rsp (m : Machine) :
  ok m -> current (sched m) = None ->
  wp (run main_rsp) (fun _ m' => kept_on m m') m.
Proof.
  intros K Hc. eapply wp_mono; [by apply run_run|]. intros r m' [_ H].
  destruct (first_ready (tasks (sched m))) as [n|]; [|destruct H as [_ ->]; by apply kept_on_same].
  destruct H as (t & Ht & _ & Ec & _ & Et & Kp). split; [|apply (kp_preemption _ _ Kp)]. constructor.
  - by rewrite Et, vlen_vset.
  - intros j Hj. rewrite Ec, Et. by apply chosen_ready.
  - intros cur. by rewrite Hc.
Qed.

Lemma pushed_goes (m m' : Machine) t : pushed m t m' -> kept_on m m'.
Proof. intros Pu. split; [by eapply goes_on_pushed|apply (pu_preemption _ _ _ Pu)]. Qed.

Lemma switch_goes (m : Machine) frame_rsp :
  ok m -> wp (switch_from_interrupt frame_rsp) (fun _ m' => kept_on m m') m.
Proof.
  intros K. eapply wp_mono; [by apply switch_from_interrupt_run|]. intros r m' (_ & Kp & H).
  split; [|apply (kp_preemption _ _ Kp)].
  destruct (current (sched m)) as [cur|] eqn:Hc; [|destruct H as [_ ->]; by apply goes_on_same].
  destruct H as (t & _ & Hy). by eapply yielded_goes.
Qed.

Lemma fault_goes (m : Machine) frame_rsp info :
  ok m -> current (sched m) <> None ->
  wp (fail_current_with_fault frame_rsp info) (fun _ m' => kept_on m m') m.
Proof.
  intros K He. destruct (current (sched m)) as [cur|] eqn:Hc; [|done].
  destruct (ok_running m cur K Hc) as (t & Ht & _). unfold fail_current_with_fault.
  eapply wp_mono; [eapply finish_current_run; eauto|]. intros r m' (_ & m1 & Kp & Sw & H).
  refine (finished_goes m cur t (ended t frame_rsp Failed None (Some info)) Faulted m1 r m' K Hc Ht _ Kp Sw).
  destruct (process_id t); exact H.
Qed.

Lemma task_returns_goes (m : Machine) cur t :
  ok m -> current (sched m) = Some cur -> vget (tasks (sched m)) cur = Some t -> process_id t = None ->
  wp finish_current_task (fun _ m' => kept_on m m') m.
Proof.
  intros K Hc Ht Hp. eapply wp_mono; [by eapply finish_current_task_run|].
  intros r m' (_ & Kp & Sw). split; [|apply (kp_preemption _ _ Kp)].
  refine (switched_goes m _ cur r m' Hc _ _ Sw); [apply vlen_vset|]. intros j Hj.
  apply ready_at_vset; [done|by apply (running_not_ready m)].
Qed.

Lemma spawn_program_goes stack bytes arg0 test (m : Machine) :
  ok m -> vlen bytes <= 4096 ->
  wp (handle (SpawnProgram stack bytes arg0 test)) (fun _ m' => kept_on m m') m.
Proof.
  intros K Hl. cbn [handle]. apply wp_bind, wp_zoom.
  eapply wp_mono; [exact (create_user_task_safe bytes arg0 test Hl (mem m) (bo_mem _ (ok_base _ K)))|].
  intros r x [Hx Hr]. pose proof (ok_set_mem m x K Hx) as Kx.
  destruct r as [init|]; [|apply wp_ret; by apply kept_on_same].
  apply wp_discard. unfold spawn_user, spawn_user_process. st_steps.
  eapply wp_mono; [by apply spawn_user_process_run|]. intros r m' [_ H]. apply wp_ret.
  exact (spawned_goes (set_mem x m) None init r m' H).
Qed.

(** Every event but the switch of preemption. *)
Lemma handle_goes e (m : Machine) :
  ok m -> enabled m e -> accepted m e -> (forall b, e <> SetPreemption b) ->
  wp (handle e) (fun _ m' => kept_on m m') m.
Proof.
  intros K He Ha Hp.
  destruct e as [m'|rsp|rsp|rsp|rsp info| |stack tr entry|stack init|stack bytes arg0 test|stack bytes arg0
                |stack parent bytes arg0|task arg0|b|rsp]; cbn [handle enabled accepted] in *;
    try apply wp_discard.
  - apply wp_put. destruct He as (Es & _). apply kept_on_same; by rewrite Es.
  - unfold on_timer_interrupt. st_steps. destruct (_ && _); [by apply switch_goes|].
    apply wp_ret. by apply kept_on_same.
  - by apply switch_goes.
  - destruct He as [Hc Hw]. eapply wp_mono; [by apply dispatch_run|]. intros r m' [_ H]. by eapply dispatch_goes.
  - by apply fault_goes.
  - destruct He as (cur & t & Hc & Ht & Hn). by eapply task_returns_goes.
  - unfold spawn. st_steps. eapply wp_mono; [by apply spawn_with_run|]. intros r m' [_ H].
    destruct r as [id|e]; [destruct H as (_ & _ & t & Pu & _); by eapply pushed_goes|].
    destruct H as (_ & _ & ->). by apply kept_on_same.
  - unfold spawn_user_process. st_steps. eapply wp_mono; [by apply spawn_user_process_run|].
    intros r m' [_ H]. by eapply spawned_goes.
  - by apply spawn_program_goes.
  - by apply (spawn_elf_goes stack None).
  - by apply (spawn_elf_goes stack (Some parent)).
  - eapply wp_mono; [by apply set_initial_arg_run|]. intros r m' [_ H].
    destruct (vget _ _) as [t|]; [destruct (is_ready t)|]; destruct H as [_ ->]; by apply kept_on_same.
  - by destruct (Hp b).
  - by apply run_goes.
Qed.

(** ** Sequences of events *)

(** The events of [l] happen one after the other. *)
Inductive trace : Machine -> list event -> Machine -> Prop :=
| trace_nil m : trace m [] m
| trace_cons m e m1 l m' :
    enabled m e -> handle e m = Done (tt, m1) -> trace m1 l m' -> trace m (e :: l) m'.

Definition is_tick (e : event) : bool := match e with TimerIrq _ => true | _ => false end.

(** The number of timer interrupts. *)
Definition ticks (l : list event) : Z := countb is_tick l.

Lemma step_goes e (m m' : Machine) :
  ok m -> enabled m e -> handle e m = Done (tt, m') ->
  goes_on (sched m) (sched m') /\
  (e <> SetPreemption false -> preemption_enabled (sched m) = true -> preemption_enabled (sched m') = true).
Proof.
  intros K He E.
  assert ((exists b, e = SetPreemption b) \/ forall b, e <> SetPreemption b) as [[b ->]|Hp].
  { destruct e; try (by right). left. by eexists. }
  - destruct b; injection E as <-; (split; [by apply goes_on_same|done]).
  - pose proof (handle_goes e m K He (handled_accepted _ _ _ E) Hp) as H. unfold wp in H. rewrite E in H.
    destruct H as [H1 H2]. split; [done|]. by rewrite H2.
Qed.

Lemma trace_ok (m : Machine) l m' : trace m l m' -> ok m -> ok m'.
Proof. induction 1 as [|m e m1 l m' He E _ IH]; [done|]. intros K. apply IH. by eapply handle_ok. Qed.

Lemma trace_len (m : Machine) l m' :
  trace m l m' -> ok m -> vlen (tasks (sched m)) <= vlen (tasks (sched m')).
Proof.
  induction 1 as [|m e m1 l m' He E _ IH]; [done|]. intros K.
  pose proof (go_len _ _ (proj1 (step_goes e m m1 K He E))). pose proof (IH (handle_ok e m m1 K He E)). lia.
Qed.

(** Task [j] is ready, another task runs, and the timer preempts: at most
    [d] ticks are left, in a table of at most [n] tasks. *)
Definition waiting_turn (n : Z) (j : TaskId) (d : Z) (m : Machine) : Prop :=
  ok m /\ preemption_enabled (sched m) = true /\ ready_at (tasks (sched m)) j /\
  exists cur, current (sched m) = Some cur /\ distance_in n cur j <= d.

Lemma current_range (m : Machine) cur :
  ok m -> current (sched m) = Some cur -> 0 <= cur < vlen (tasks (sched m)).
Proof. intros K Hc. destruct (ok_running m cur K Hc) as (t & Ht & _). by eapply vget_range. Qed.

Lemma moved_nearer (s s' : Scheduler) n cur j :
  moved_on s s' cur -> vlen (tasks s) <= n -> 0 <= cur < vlen (tasks s) -> ready_at (tasks s) j ->
  current s' = Some j \/ exists x, current s' = Some x /\ distance_in n x j < distance_in n cur j.
Proof.
  intros (ts & Hl & Hr & ->) Hn Hc Hj%Hr. destruct (next_ready_exists ts cur j Hj) as [x Hx]. rewrite Hx.
  destruct (decide (x = j)) as [->|Hne]; [by left|right]. exists x. split; [done|].
  by apply (next_ready_nearer n ts cur x j); [lia|lia|..].
Qed.

(** A tick with a ready task switches. *)
Lemma tick_moves frame_rsp (m m' : Machine) cur j :
  ok m -> current (sched m) = Some cur -> preemption_enabled (sched m) = true ->
  ready_at (tasks (sched m)) j -> handle (TimerIrq frame_rsp) m = Done (tt, m') ->
  moved_on (sched m) (sched m') cur.
Proof.
  intros K Hc Hp Hj E.
  assert (wp (handle (TimerIrq frame_rsp)) (fun _ m' => moved_on (sched m) (sched m') cur) m) as H.
  { cbn [handle]. apply wp_discard. eapply wp_mono; [by apply on_timer_run|]. rewrite Hc, Hp.
    intros r x (_ & _ & t & _ & Hy). destruct (next_ready_exists (tasks (sched m)) cur j Hj) as [n Hn].
    unfold yielded in Hy. rewrite Hn in Hy. destruct Hy as (u & _ & _ & _ & Ec & _).
    exists (tasks (sched m)). by rewrite Ec, Hn. }
  unfold wp in H. by rewrite E in H.
Qed.

Lemma waiting_step n j d e (m m' : Machine) :
  waiting_turn n j d m -> enabled m e -> handle e m = Done (tt, m') -> e <> SetPreemption false ->
  vlen (tasks (sched m)) <= n ->
  current (sched m') = Some j \/ waiting_turn n j (if is_tick e then d - 1 else d) m'.
Proof.
  intros (K & Hp & Hj & cur & Hc & Hd) He E Hne Hn. destruct (step_goes e m m' K He E) as [G Gp].
  pose proof (current_range m cur K Hc) as Hr. pose proof (handle_ok e m m' K He E) as K'.
  assert (moved_on (sched m) (sched m') cur \/ is_tick e = false /\ current (sched m') = Some cur) as Hcase.
  { destruct (is_tick e) eqn:Et.
    - left. destruct e as [|rsp| | | | | | | | | | | |]; try done. by apply (tick_moves rsp m m' cur j).
    - destruct (go_current _ _ G cur Hc) as [?|?]; [by right|by left]. }
  destruct (go_ready _ _ G j Hj) as [?|Hj']; [by left|].
  destruct Hcase as [Hm|[-> Hc']].
  - destruct (moved_nearer _ _ n cur j Hm Hn Hr Hj) as [?|(x & Hx & Hlt)]; [by left|right].
    split; [done|]. split; [by apply Gp|]. split; [done|]. exists x. split; [done|]. destruct (is_tick e); lia.
  - right. split; [done|]. split; [by apply Gp|]. split; [done|]. by exists cur.
Qed.

(** A ready task runs after at most as many ticks as there are tasks. *)
Lemma fair (m : Machine) l m' n j d :
  trace m l m' -> waiting_turn n j d m -> SetPreemption false ∉ l -> vlen (tasks (sched m')) <= n ->
  d <= ticks l ->
  exists l1 l2 m1, l = l1 ++ l2 /\ trace m l1 m1 /\ trace m1 l2 m' /\ ticks l1 <= d /\
    current (sched m1) = Some j.
Proof.
  intros T. revert d. induction T as [m|m e m1 l m' He E T IH]; intros d W Hl Hn Hd.
  - destruct W as (K & _ & _ & cur & Hc & Hd'). pose proof (current_range m cur K Hc).
    pose proof (distance_in_pos n cur j). unfold ticks, countb in Hd. cbn in Hd. lia.
  - apply not_elem_of_cons in Hl as [Hne Hl]. pose proof (proj1 W) as K.
    assert (ticks (e :: l) = (if is_tick e then 1 else 0) + ticks l) as Ht by done.
    pose proof (trace_len m (e :: l) m' (trace_cons m e m1 l m' He E T) K).
    assert (d >= 1) as Hd1.
    { destruct W as (_ & _ & _ & cur & Hc & Hd'). pose proof (current_range m cur K Hc).
      pose proof (distance_in_pos n cur j). lia. }
    destruct (waiting_step n j d e m m1 W He E) as [Hc|W1]; [done|lia| |].
    + exists [e], l, m1. split; [done|]. split; [by econstructor; [..|constructor]|].
      split; [done|]. split; [|done]. unfold ticks, countb. cbn. destruct (is_tick e); lia.
    + destruct (IH (if is_tick e then d - 1 else d) W1 Hl Hn) as (l1 & l2 & m2 & -> & T1 & T2 & H1 & H2).
      { destruct (is_tick e); lia. }
      exists (e :: l1), l2, m2. split; [done|]. split; [by econstructor|]. split; [done|]. split; [|done].
      assert (ticks (e :: l1) = (if is_tick e then 1 else 0) + ticks l1) as -> by done. destruct (is_tick e); lia.
Qed.
End fairness.
