(* ===== verification/ProcessTree.v ===== *)
(** * The process tree

    The machines reached when children are spawned under running parents
    only. In these every parent is a running process of the table: a process
    that exits gives up its children, and a zombie that is removed has
    none. *)

From S2P Require Import Prelude File Fd X86 Memory AddressSpace UserMemory Process Context.
From S2P Require Import Serial Task Syscall User Elf Scheduler SchedulerCalls Interrupts RoundRobin.
From S2P Require Import Invariant Switching Exit Calls Spawn System.

Import ProcessTableFacts.

Section process_tree.
Context {X : X86_64} {XS : X86_64_Spec X}.

(** A child is spawned under a process that has not exited. *)
Definition lawful_spawn (m : Machine) (e : event) : Prop :=
  match e with
  | SpawnChildElf _ parent _ _ => parent_live (proc_table (sched m)) (Some parent)
  | _ => True
  end.

Inductive orderly : Machine -> Prop :=
| orderly_boot m : booted m -> orderly m
| orderly_step m e m' :
    orderly m -> enabled m e -> lawful_spawn m e -> handle e m = Done (tt, m') -> orderly m'.

Lemma orderly_reachable m : orderly m -> reachable m.
Proof. induction 1 as [m H|m e m' _ IH He _ E]; [by apply reach_boot|by eapply reach_step]. Qed.

(** Parents run, if they did. *)
Definition tree_kept (m m' : Machine) : Prop :=
  running_parents (proc_table (sched m)) -> running_parents (proc_table (sched m')).

Lemma tree_kept_same m m' : proc_table (sched m') = proc_table (sched m) -> tree_kept m m'.
Proof. by intros E H; rewrite E. Qed.

#[local] Hint Extern 0 (tree_kept _ _) => apply tree_kept_same; reflexivity : core.

Lemma tree_kept_keeps m m' : keeps m m' -> tree_kept m m'.
Proof. intros Kp. apply tree_kept_same, Kp. Qed.

Lemma call_tree m m' rsp v : call_kept m m' -> tree_kept m (set_rax m' rsp v).
Proof.
  intros [_ _ _ [E|(pid & p & p' & Hp & Hs & E)]] H; cbn; rewrite E; [done|].
  by eapply update_running_parents.
Qed.

Lemma waited_tree m t c ptr m' z :
  waited m t c ptr m' -> ProcessTable.get (proc_table (sched m)) c = Some z ->
  is_zombie (p_state z) = true -> tree_kept m m'.
Proof.
  intros W Hz Hzom H. destruct (waited_table _ _ _ _ _ W) as [[R _]| ->]; [|done].
  by eapply remove_step_running_parents.
Qed.

Lemma woken_tree m c m' z :
  woken m c m' -> ProcessTable.get (proc_table (sched m)) c = Some z ->
  is_zombie (p_state z) = true -> tree_kept m m'.
Proof.
  intros [[_ ->]|(w & t & ptr & m1 & _ & _ & W & ->)] Hz Hzom; [done|]. exact (waited_tree _ _ _ _ _ _ W Hz Hzom).
Qed.

Lemma reaped_tree pt pid pt' : orphan_reaped pt pid pt' -> running_parents pt -> running_parents pt'.
Proof.
  unfold orphan_reaped. destruct (ProcessTable.get pt pid) as [z|] eqn:Hz; [|by intros ->].
  destruct (p_orphaned z && is_zombie (p_state z)) eqn:E; [|by intros ->].
  apply andb_prop in E as [_ E]. intros R H. by eapply remove_step_running_parents.
Qed.

Lemma ended_tree m cur te pid e m1 :
  ok m -> process_ended (with_task m cur te) pid e m1 -> tree_kept m m1.
Proof.
  intros K (p & pt & fs & m2 & pt' & [Hp _] & Ex & _ & W & Hr & ->) H. cbn in *.
  apply (reaped_tree _ _ _ Hr). refine (woken_tree _ _ _ (exited p e) W _ _ _).
  - apply (es_self _ _ _ _ _ Ex).
  - done.
  - cbn. eapply exit_step_running_parents; [apply (co_table _ _ _ _ _ (ok_core _ K))|done|done|exact Ex].
Qed.

Lemma finished_tree m cur t te e m1 m' :
  ok m ->
  match process_id t with
  | Some pid => process_ended (with_task m cur te) pid e m1
  | None => m1 = with_task m cur te
  end -> keeps m1 m' -> tree_kept m m'.
Proof.
  intros K H Kp Ht. apply (tree_kept_keeps _ _ Kp). destruct (process_id t); [by eapply ended_tree|by subst m1].
Qed.

Lemma waitpid_tree m rsp cur t pid p c ptr options r m' :
  waitpid_outcome m rsp cur t pid p c ptr options r m' -> tree_kept m m'.
Proof.
  unfold waitpid_outcome. destruct (wait_error _ _ _ _ _ _); [by intros [_ ->]|].
  unfold ProcessTable.state. destruct (ProcessTable.get (proc_table (sched m)) c) as [z|] eqn:Hz; [|done].
  destruct (p_state z) as [|ex] eqn:Hst; [|intros [_ W]].
  - destruct (_ =? WNOHANG); [by intros [_ ->]|]. intros [Kp _]. exact (tree_kept_keeps _ _ Kp).
  - exact (waited_tree _ _ _ _ _ z W Hz (f_equal is_zombie Hst)).
Qed.

Lemma dispatch_tree m rsp r m' : ok m -> syscall_outcome m rsp r m' -> tree_kept m m'.
Proof.
  intros K H. unfold syscall_outcome in H.
  assert (forall (O : SysResult -> Machine -> Prop), (forall v m1, O v m1 -> call_kept m m1) ->
    r = Resume rsp /\ (exists v m1, O v m1 /\ m' = set_rax m1 rsp (sys_return v)) -> tree_kept m m') as Hret.
  { intros O HO (_ & v & m1 & Hk%HO & ->). by apply call_tree. }
  destruct (from_raw (arg_rax m rsp)) as [[]|].
  - destruct H as (cur & t & _ & _ & _ & Kp). exact (tree_kept_keeps _ _ Kp).
  - destruct H as (cur & t & m1 & _ & _ & Kp & _ & H). by eapply finished_tree.
  - destruct H as (b & _ & H). eapply Hret; [|exact H]. intros v m1. apply write_call_kept.
  - eapply Hret; [|exact H]. intros v m1 [-> _]. constructor; try done. by left.
  - destruct H as (cur & t & _ & _ & H). destruct (process_id t) as [pid|]; [|by destruct H as [_ ->]].
    destruct H as (p & _ & H). by eapply waitpid_tree.
  - destruct H as (b & _ & H). eapply Hret; [|exact H]. intros v m1. apply open_kept.
  - destruct H as (b & _ & H). eapply Hret; [|exact H]. intros v m1. apply read_kept.
  - eapply Hret; [|exact H]. intros v m1. apply close_kept.
  - eapply Hret; [|exact H]. intros v m1. apply brk_kept.
  - by destruct H as [_ ->].
Qed.

Lemma spawned_tree m parent init r m' :
  ok m -> parent_live (proc_table (sched m)) parent -> spawned m parent init r m' -> tree_kept m m'.
Proof.
  intros K Hl S H. destruct r as [h|e].
  - destruct S as (_ & Hpid & t & p & _ & _ & [Hp _] & Hpar & _ & _ & _ & Hold & Hex & _).
    eapply created_running_parents; [apply (co_table _ _ _ _ _ (ok_core _ K))|done|exact Hl|exact Hpid
      |exact Hex|exact Hp|done|exact Hold].
  - by destruct S as (_ & fs & -> & _).
Qed.

Lemma spawn_elf_tree stack parent elf_bytes arg0 (m : Machine) :
  ok m -> Forall is_byte elf_bytes -> parent_live (proc_table (sched m)) parent ->
  wp (let? init := st_map_err ElfLoad (with_mem (load_user_elf elf_bytes arg0)) in
      let* m := st_get in
      spawn_user_process_with stack parent init (initial_rflags (cpu m)))
    (fun _ m' => tree_kept m m') m.
Proof.
  intros K Hb Hl. eapply wp_mono; [by apply spawn_elf_run|]. intros r m' (_ & x & Hx & H).
  pose proof (ok_set_mem m x K Hx) as Kx.
  destruct r as [h|[| |e]]; [destruct H as (init & _ & H); exact (spawned_tree _ parent init _ m' Kx Hl H)..|by subst m'].
Qed.

Lemma no_parent_live pt : parent_live pt None.
Proof. by intros q p. Qed.

Lemma fault_tree rsp info (m : Machine) :
  ok m -> current (sched m) <> None -> wp (fail_current_with_fault rsp info) (fun _ m' => tree_kept m m') m.
Proof.
  intros K He. destruct (current (sched m)) as [cur|] eqn:Hc; [|done].
  destruct (ok_running m cur K Hc) as (t & Ht & _). unfold fail_current_with_fault.
  eapply wp_mono; [eapply finish_current_run; eauto|]. intros r m' (_ & m1 & Kp & _ & H).
  refine (finished_tree m cur t (ended t rsp Failed None (Some info)) Faulted m1 m' K _ Kp).
  destruct (process_id t); exact H.
Qed.

Lemma spawn_program_tree stack bytes arg0 test (m : Machine) :
  ok m -> vlen bytes <= 4096 ->
  wp (handle (SpawnProgram stack bytes arg0 test)) (fun _ m' => tree_kept m m') m.
Proof.
  intros K Hl. cbn [handle]. apply wp_bind, wp_zoom.
  eapply wp_mono; [exact (create_user_task_safe bytes arg0 test Hl (mem m) (bo_mem _ (ok_base _ K)))|].
  intros r x [Hx Hr]. pose proof (ok_set_mem m x K Hx) as Kx. destruct r as [init|]; [|by apply wp_ret].
  apply wp_discard. unfold spawn_user, spawn_user_process. st_steps.
  eapply wp_mono; [by apply spawn_user_process_run|]. intros r m' [_ H]. apply wp_ret.
  exact (spawned_tree (set_mem x m) None init r m' Kx (no_parent_live _) H).
Qed.

Lemma handle_tree e (m : Machine) :
  ok m -> enabled m e -> accepted m e -> lawful_spawn m e -> wp (handle e) (fun _ m' => tree_kept m m') m.
Proof.
  intros K He Ha Hl. pose proof (no_parent_live (proc_table (sched m))) as Hno.
  destruct e as [m'|rsp|rsp|rsp|rsp info| |stack tr entry|stack init|stack bytes arg0 test|stack bytes arg0
                |stack parent bytes arg0|task arg0|b|rsp]; cbn [handle enabled accepted lawful_spawn] in *;
    try apply wp_discard.
  - apply wp_put. destruct He as (Es & _). apply tree_kept_same. by rewrite Es.
  - eapply wp_mono; [by apply on_timer_run|]. intros r m' (_ & Kp & _). exact (tree_kept_keeps _ _ Kp).
  - eapply wp_mono; [by apply switch_from_interrupt_run|]. intros r m' (_ & Kp & _). exact (tree_kept_keeps _ _ Kp).
  - destruct He as [Hc Hw]. eapply wp_mono; [by apply dispatch_run|]. intros r m' [_ H]. by eapply dispatch_tree.
  - by apply fault_tree.
  - destruct He as (cur & t & Hc & Ht & Hp). eapply wp_mono; [by eapply finish_current_task_run|].
    intros r m' (_ & Kp & _). exact (tree_kept_keeps _ _ Kp).
  - unfold spawn. st_steps. eapply wp_mono; [by apply spawn_with_run|]. intros r m' [_ H].
    destruct r as [id|e]; [by destruct H as (_ & Ep & _); apply tree_kept_same|by destruct H as (_ & _ & ->)].
  - unfold spawn_user_process. st_steps. eapply wp_mono; [by apply spawn_user_process_run|].
    intros r m' [_ H]. by eapply spawned_tree.
  - by apply spawn_program_tree.
  - by apply (spawn_elf_tree stack None).
  - by apply (spawn_elf_tree stack (Some parent)).
  - eapply wp_mono; [by apply set_initial_arg_run|]. intros r m' [_ H].
    destruct (vget _ _) as [t|]; [destruct (is_ready t)|]; by destruct H as [_ ->].
  - destruct b; unfold enable_preemption, disable_preemption; st_steps; by apply tree_kept_same.
  - eapply wp_mono; [by apply run_run|]. intros r m' [_ H].
    destruct (first_ready _); [|by destruct H as [_ ->]]. destruct H as (t & _ & _ & _ & _ & _ & Kp).
    exact (tree_kept_keeps _ _ Kp).
Qed.

Lemma orderly_running_parents m : orderly m -> running_parents (proc_table (sched m)).
Proof.
  induction 1 as [m [Hs _]|m e m' Ho IH He Hl E].
  - rewrite Hs. intros c q i Hq. destruct new_wf as [Hwf _]. apply (wf_pid _ Hwf) in Hq. cbn in Hq. lia.
  - pose proof (handle_tree e m (reachable_ok _ (orderly_reachable _ Ho)) He (handled_accepted _ _ _ E) Hl) as H.
    unfold wp in H. rewrite E in H. by apply H.
Qed.
End process_tree.
