(* ===== verification/Isolation.v ===== *)
(** * Processes are isolated

    The memory of a process is its address space. The invariant [isolated]
    says that the page tables of the processes form a forest of distinct
    allocated frames. Every event of the machine preserves it, and changes
    the memory of a process only when that process runs, makes a system call,
    or is a parent that waits for the status of a child that ends. *)

From S2P Require Import Prelude File Fd X86 Memory AddressSpace PageTables Spaces SpaceOps.
From S2P Require Import UserMemory Process Context Serial Task Syscall User Elf Loading.
From S2P Require Import Scheduler SchedulerCalls Interrupts RoundRobin.
From S2P Require Import Invariant Switching Exit Calls Spawn System.

Import ProcessTableFacts.

Section isolation.
Context {X : X86_64} {XS : X86_64_Spec X} {XP : X86_64_Paging X}.

(** ** Writes through user translations *)

(** A byte behind a user address of [l4] is in a page of [l4], which is not
    a table and not part of another space. *)
Lemma user_byte_node R l4 m a t l q h :
  space_inv m R -> R l4 -> R l -> translate (ram m) l4 a = Some t ->
  path q -> walk (ram m) l q = Some h -> h <= phys t < h + 4096 -> l = l4 /\ length q = 4%nat.
Proof.
  intros [_ F] HR Hl Ht Hq Hw Hx.
  destruct (translate_node _ _ _ _ Ht) as (q' & f & Hq' & H4 & Hw' & Hp).
  destruct (fo_node _ _ _ F l q h Hl Hq Hw) as [[Hh _] _].
  destruct (fo_node _ _ _ F l4 q' f HR Hq' Hw') as [[Hf _] _].
  pose proof (Z.mod_pos_bound a 4096).
  assert (h = f) as <- by (apply (frames_overlap h f (phys t)); lia).
  by destruct (fo_inj _ _ _ F l l4 q q' h Hl HR Hq Hq' Hw Hw') as [-> ->].
Qed.

Lemma user_update_local R l4 m r' :
  space_inv m R -> R l4 -> user_update (ram m) l4 r' -> local_change 4 R l4 m (set_ram r' m).
Proof.
  intros I HR Hu. pose proof I as [Ha F].
  destruct (forest_data (ram m) r' R (issued_in m) F) as (F1 & W & _).
  { intros l q h x Hl Hq H3 Hw Hx. destruct (Hu x) as [E|(a & t & _ & Ht & <-)]; [done|].
    destruct (user_byte_node R l4 m a t l q h I HR Hl Ht Hq Hw Hx). lia. }
  constructor; [done|by split|done| |].
  - intros x Hx. destruct (Hu x) as [E|(a & t & Ha' & Ht & <-)]; [done|].
    destruct (translate_node _ _ _ _ Ht) as (q & f & Hq & H4 & Hw & Hp). pose proof (Z.mod_pos_bound a 4096).
    destruct (fo_node _ _ _ F l4 q f HR Hq Hw) as [Hf _].
    destruct (Hx f Hf); [|lia]. right. exists q. split; [done|]. split; [lia|done].
  - intros l q f Hl Hq Hw. left. by rewrite <- W.
Qed.

(** [copy_to_user] of the system calls. *)
Lemma copy_to_user_local as_ dst src m R r x :
  space_inv m R -> R (level_4_frame as_) -> canonical dst ->
  copy_to_user as_ dst src m = Done (r, x) ->
  local_change 4 R (level_4_frame as_) m x /\
  forall a, translate (ram x) (level_4_frame as_) a = translate (ram m) (level_4_frame as_) a.
Proof.
  intros I HR Hc E. pose proof I as [(s & Hs & _) F].
  pose proof (copy_to_user_run as_ dst src m ltac:(by exists s) (forest_separated _ _ _ _ F HR) Hc) as H.
  unfold wp in H. rewrite E in H. destruct H as (n & _ & St & -> & _).
  pose proof (stored_user_update _ _ _ _ _ _ St) as Hu. split; [by apply user_update_local|].
  intros a. apply user_update_translate; [by eapply forest_separated|done].
Qed.

(** ** What an event does to memory *)

(** [x'] is [x] up to CR3 and a change of the space [l], if any. *)
Definition effect (R : Z -> Prop) (l : option Z) (x x' : Mem) : Prop :=
  exists y, match l with
            | None => y = x
            | Some l4 => R l4 /\ local_change 4 R l4 x y /\
                         forall a, translate (ram y) l4 a = translate (ram x) l4 a
            end /\
    ram x' = ram y /\ memory_state x' = memory_state y.

Lemma space_inv_same m m' R :
  ram m' = ram m -> memory_state m' = memory_state m -> space_inv m R -> space_inv m' R.
Proof.
  intros Er Es [Ha F]. split; [by rewrite Es|]. rewrite Er.
  eapply forest_weaken; [done| |exact F]. intros f. unfold issued_in. by rewrite Es.
Qed.

Lemma kernel_table_same m m' :
  ram m' = ram m -> memory_state m' = memory_state m -> kernel_table m -> kernel_table m'.
Proof. intros Er Es (s & Hs & Hb). exists s. by rewrite Es, Er. Qed.

Definition same_translations (R : Z -> Prop) (x x' : Mem) : Prop :=
  forall l, R l -> forall a, translate (ram x') l a = translate (ram x) l a.

Lemma effect_spec R l x x' :
  space_inv x R -> kernel_table x -> effect R l x x' ->
  space_inv x' R /\ kernel_table x' /\ same_translations R x x' /\
  forall l0, R l0 -> l <> Some l0 -> same_space l0 x x'.
Proof.
  intros I K (y & Hy & Er & Es). unfold same_translations. rewrite Er.
  assert (space_inv y R /\ kernel_table y /\ same_translations R x y /\
    forall l0, R l0 -> l <> Some l0 -> same_space l0 x y) as (Iy & Ky & Ty & Sy).
  { destruct l as [l4|]; [|subst y; split; [done|]; split; [done|]; split; [done|]; intros; apply same_space_refl].
    destruct Hy as (HR & LC & HT). split; [exact (lc_inv _ _ _ _ _ LC)|].
    split; [by apply (lc_kernel_table 4 R l4 x)|].
    assert (forall l0, R l0 -> Some l4 <> Some l0 -> same_space l0 x y) as Hoth.
    { intros l0 H0 Hne. apply (lc_other 4 R l4); try done. congruence. }
    split; [|done]. intros l0 H0 a. destruct (decide (l0 = l4)) as [->|Hne]; [done|].
    apply Hoth; [done|congruence]. }
  split; [by apply (space_inv_same y)|]. split; [by apply (kernel_table_same y)|]. split; [done|].
  intros l0 H0 Hne a. destruct (Sy l0 H0 Hne a) as [T B]. rewrite Er. done.
Qed.

(** ** The invariant *)

Definition root (p : Process) : Z := level_4_frame (p_address_space p).

Definition roots (pt : ProcessTable) (l : Z) : Prop :=
  exists pid p, ProcessTable.get pt pid = Some p /\ root p = l.

(** The pages of the heap are mapped. *)
Definition heap_mapped (p : Process) (x : Mem) : Prop :=
  mapped_range (root p) (heap_start (p_heap p)) (heap_mapped_end (p_heap p) - heap_start (p_heap p)) x.

Record isolated (m : Machine) : Prop := mkIsolated {
  is_space : space_inv (mem m) (roots (proc_table (sched m)));
  is_table : kernel_table (mem m);
  is_distinct pid pid' p p' :
    ProcessTable.get (proc_table (sched m)) pid = Some p ->
    ProcessTable.get (proc_table (sched m)) pid' = Some p' -> root p = root p' -> pid = pid';
  is_heap pid p : ProcessTable.get (proc_table (sched m)) pid = Some p ->
    user_heap (p_heap p) /\ heap_mapped p (mem m)
}.

(** Processes may end, but none gets new memory. *)
Definition shrunk (pt pt' : ProcessTable) : Prop :=
  forall pid p', ProcessTable.get pt' pid = Some p' ->
    exists p, ProcessTable.get pt pid = Some p /\ p_address_space p' = p_address_space p /\
      p_heap p' = p_heap p.

Lemma shrunk_refl pt : shrunk pt pt.
Proof. intros pid p Hp. by exists p. Qed.

Lemma shrunk_trans pt1 pt2 pt3 : shrunk pt1 pt2 -> shrunk pt2 pt3 -> shrunk pt1 pt3.
Proof.
  intros H1 H2 pid p3 H3. destruct (H2 pid p3 H3) as (p2 & Hp2 & E2 & U2).
  destruct (H1 pid p2 Hp2) as (p1 & Hp1 & E1 & U1). exists p1. by rewrite E2, U2.
Qed.

Lemma shrunk_roots pt pt' l : shrunk pt pt' -> roots pt' l -> roots pt l.
Proof.
  intros H (pid & p' & Hp' & <-). destruct (H pid p' Hp') as (p & Hp & E & _). exists pid, p.
  unfold root. by rewrite E.
Qed.

(** The memory of the processes outside [A] is unchanged. *)
Definition quiet (A : ProcessId -> Prop) (m m' : Machine) : Prop :=
  forall q p, ProcessTable.get (proc_table (sched m)) q = Some p -> ~ A q ->
    same_space (root p) (mem m) (mem m').

Definition steps (A : ProcessId -> Prop) (m m' : Machine) : Prop := isolated m' /\ quiet A m m'.

Lemma isolated_table m pt' x' :
  isolated m -> shrunk (proc_table (sched m)) pt' ->
  space_inv x' (roots (proc_table (sched m))) -> kernel_table x' ->
  same_translations (roots (proc_table (sched m))) (mem m) x' ->
  forall m', proc_table (sched m') = pt' -> mem m' = x' -> isolated m'.
Proof.
  intros [I K D H] Hs I' K' T m' <- <-. constructor; [|done| |].
  - eapply space_inv_weaken; [|exact I']. intros l. by apply shrunk_roots.
  - intros pid pid' p p' Hp Hp' E. destruct (Hs _ _ Hp) as (q & Hq & Eq & _).
    destruct (Hs _ _ Hp') as (q' & Hq' & Eq' & _). apply (D pid pid' q q' Hq Hq').
    unfold root in *. congruence.
  - intros pid p Hp. destruct (Hs _ _ Hp) as (q & Hq & Ea & Eh). destruct (H pid q Hq) as [Hu Hm].
    rewrite Eh. split; [done|]. unfold heap_mapped, root. rewrite Ea, Eh. intros i Hi.
    rewrite T by (by exists pid, q). by apply Hm.
Qed.

(** The general step: memory changes in the space of process [a] only. *)
Lemma step_effect m m' l (A : ProcessId -> Prop) :
  isolated m -> shrunk (proc_table (sched m)) (proc_table (sched m')) ->
  effect (roots (proc_table (sched m))) l (mem m) (mem m') ->
  (forall l4, l = Some l4 -> exists pid p, A pid /\ ProcessTable.get (proc_table (sched m)) pid = Some p /\ root p = l4) ->
  steps A m m'.
Proof.
  intros Is Hs He Ha. destruct (effect_spec _ _ _ _ (is_space _ Is) (is_table _ Is) He) as (I' & K' & T & S).
  split; [by eapply isolated_table|]. intros q p Hq HA. apply S; [by exists q, p|].
  intros El. destruct (Ha _ El) as (pid & p0 & Hpid & Hp0 & E).
  by rewrite (is_distinct _ Is q pid p p0 Hq Hp0) in HA by done.
Qed.

Lemma step_same m m' A :
  isolated m -> shrunk (proc_table (sched m)) (proc_table (sched m')) ->
  ram (mem m') = ram (mem m) -> memory_state (mem m') = memory_state (mem m) -> steps A m m'.
Proof.
  intros Is Hs Er Es. apply (step_effect m m' None); [done|done| |done]. by exists (mem m).
Qed.

Lemma step_keeps m m' A : isolated m -> keeps m m' -> steps A m m'.
Proof. intros Is [K1 K2 _ _ K5 _ _]. apply step_same; try done. rewrite K5. apply shrunk_refl. Qed.

(** Only the parts named here matter. *)
Lemma steps_ext A m m1 m2 m' :
  mem m = mem m1 -> proc_table (sched m) = proc_table (sched m1) ->
  ram (mem m') = ram (mem m2) -> memory_state (mem m') = memory_state (mem m2) ->
  proc_table (sched m') = proc_table (sched m2) ->
  steps A m1 m2 -> steps A m m'.
Proof.
  intros E1 E2 E3 E4 E5 [Is Q]. split.
  - apply (isolated_table m2 (proc_table (sched m')) (mem m')); try done.
    + rewrite E5. apply shrunk_refl.
    + apply (space_inv_same (mem m2)); [done|done|apply Is].
    + apply (kernel_table_same (mem m2)); [done|done|apply Is].
    + intros l _ a. by rewrite E3.
  - intros q p Hq HA a. rewrite E2 in Hq. rewrite E1, E3. by apply (Q q p).
Qed.

(** ** System calls *)

Lemma steps_mono (A B : ProcessId -> Prop) m m' :
  (forall q, A q -> B q) -> steps A m m' -> steps B m m'.
Proof. intros H [Is Q]. split; [done|]. intros q p Hq HB. apply (Q q p Hq). auto. Qed.

Lemma shrunk_update pt pid p p' :
  ProcessTable.get pt pid = Some p -> p_address_space p' = p_address_space p -> p_heap p' = p_heap p ->
  shrunk pt (ProcessTable.update pt pid p').
Proof.
  intros Hp Ea Hh i q. rewrite (get_update _ _ _ _ _ Hp). case_decide as D; [|by exists q].
  intros [= <-]. subst i. by exists p.
Qed.

Lemma shrunk_remove pt c pt' : remove_step pt c pt' -> shrunk pt pt'.
Proof.
  intros R pid p' Hp'. destruct (remove_step_shape _ _ _ _ _ R Hp') as (p & Hp & H). exists p.
  by destruct H as [-> | ->].
Qed.

Lemma shrunk_exit pt pid p e pt' :
  ProcessTable.get pt pid = Some p -> exit_step pt pid p e pt' -> shrunk pt pt'.
Proof.
  intros Hp E j p' Hj. destruct (decide (j = pid)) as [->|Hne].
  - rewrite (es_self _ _ _ _ _ E) in Hj. injection Hj as <-. by exists p.
  - rewrite (es_other _ _ _ _ _ E) in Hj by done.
    destruct (ProcessTable.get pt j) as [q|]; [|done]. exists q.
    case_decide; [destruct (is_zombie (p_state q)); [done|]|]; by injection Hj as <-.
Qed.

Lemma shrunk_reaped pt pid pt' : orphan_reaped pt pid pt' -> shrunk pt pt'.
Proof.
  unfold orphan_reaped. destruct (ProcessTable.get pt pid) as [z|]; [|intros ->; apply shrunk_refl].
  destruct (p_orphaned z && is_zombie (p_state z)); [apply shrunk_remove|intros ->; apply shrunk_refl].
Qed.

(** The memory of the calling process changes, and no other. *)
Definition only_current (m : Machine) (q : ProcessId) : Prop := current_proc m = Some q.

Lemma wp_result {S A} (op : ST S A) Q s a s' : wp op Q s -> op s = Done (a, s') -> Q a s'.
Proof. unfold wp. intros H E. by rewrite E in H. Qed.

Lemma process_effect m pid p x A :
  isolated m -> ProcessTable.get (proc_table (sched m)) pid = Some p -> A pid ->
  local_change 4 (roots (proc_table (sched m))) (root p) (mem m) x ->
  (forall a, translate (ram x) (root p) a = translate (ram (mem m)) (root p) a) -> steps A m (set_mem x m).
Proof.
  intros Is Hp HA LC T. apply (step_effect m _ (Some (root p))); [done|apply shrunk_refl| |].
  - exists x. split; [|done]. split; [by exists pid, p|done].
  - intros l4 [= <-]. by exists pid, p.
Qed.

Lemma root_in m pid p : ProcessTable.get (proc_table (sched m)) pid = Some p ->
  roots (proc_table (sched m)) (level_4_frame (p_address_space p)).
Proof. intros Hp. by exists pid, p. Qed.

Lemma read_steps m fd buf len r m' :
  ok m -> isolated m -> canonical buf -> read_outcome m fd buf len r m' -> steps (only_current m) m m'.
Proof.
  intros K Is Hb. unfold read_outcome.
  assert (forall A, steps A m m) as Hrefl by (intros A; apply step_same; [done|apply shrunk_refl|done|done]).
  destruct (len =? 0); [by intros [_ ->]|].
  destruct (fd_file m fd) as [[[[pid p] e] f]|] eqn:E; [|by intros [_ ->]].
  destruct (fd_file_Ok m fd pid p e f K E) as (Hc & [Hp _] & _).
  destruct (of_access f); [|by intros [_ ->]].
  destruct (of_kind f) as [| | |id]; [by intros [_ ->]..|].
  destruct (embedded_file id) as [file|]; [|by intros [_ ->]]. cbv zeta.
  destruct (_ <=? 0); [by intros [_ ->]|]. intros (copied & x & Ecp & H).
  pose proof (copy_to_user_local _ _ _ _ _ _ _ (is_space _ Is) (root_in _ _ _ Hp) Hb Ecp) as [LC T].
  pose proof (process_effect m pid p x (only_current m) Is Hp Hc LC T) as St.
  destruct copied; destruct H as [_ ->]; [|done]. by apply (steps_ext _ m m (set_mem x m)).
Qed.

Lemma write_steps m fd buf len r m' :
  isolated m -> write_outcome m fd buf len r m' -> steps (only_current m) m m'.
Proof.
  intros Is. unfold write_outcome.
  assert (forall m1, mem m1 = mem m -> sched m1 = sched m -> steps (only_current m) m m1) as H.
  { intros m1 E1 E2. apply step_same; [done|rewrite E2; apply shrunk_refl|by rewrite E1|by rewrite E1]. }
  destruct (len =? 0); [by intros [_ ->]; apply H|].
  destruct (fd_file m fd) as [[[[pid p] e] f]|]; [|by intros [_ ->]; apply H].
  destruct (of_access f); [by intros [_ ->]; apply H|].
  assert (match read_user (ram (mem m)) (p_address_space p) buf (Z.to_nat len) with
    | Ok data => r = Ok len /\ exists s', m' = set_serial s' m /\ printed (serial m) data s'
    | Err _ => r = Err Fault /\ m' = m end -> steps (only_current m) m m') as Hw.
  { destruct (read_user _ _ _ _); [intros [_ (s' & -> & _)]|intros [_ ->]]; by apply H. }
  destruct (of_kind f); try done; by intros [_ ->]; apply H.
Qed.

Lemma with_process_steps m pid p p' fs A :
  isolated m -> ProcessTable.get (proc_table (sched m)) pid = Some p ->
  p_address_space p' = p_address_space p -> p_heap p' = p_heap p ->
  steps A m (with_process m pid p' fs).
Proof.
  intros Is Hp Ea Hh. apply step_same; [done| |done|done].
  cbn [with_process sched set_sched set_open_files set_proc_table proc_table]. by eapply shrunk_update.
Qed.

Lemma close_steps m fd r m' : isolated m -> close_outcome m fd r m' -> steps (only_current m) m m'.
Proof.
  intros Is. unfold close_outcome.
  assert (steps (only_current m) m m) as Hrefl by (apply step_same; [done|apply shrunk_refl|done|done]).
  destruct (current_proc m) as [pid|]; [|by intros [_ ->]]. intros (p & [Hp _] & H).
  destruct (FdTable.get (p_fd_table p) fd) as [e|]; destruct H as [_ ->]; [|done].
  by apply (with_process_steps _ _ p).
Qed.

Lemma open_steps m path len fl r m' :
  isolated m -> open_outcome m path len fl r m' -> steps (only_current m) m m'.
Proof.
  intros Is. unfold open_outcome.
  assert (steps (only_current m) m m) as Hrefl by (apply step_same; [done|apply shrunk_refl|done|done]).
  destruct (open_request m path len fl) as [[pid id]|]; [|by intros [_ ->]].
  intros (p & fs & [Hp _] & H). destruct r as [fd|e].
  - destruct H as (i & _ & _ & _ & _ & _ & _ & ->). by apply (with_process_steps _ _ p).
  - destruct H as (_ & _ & ->). by apply (with_process_steps _ _ p).
Qed.

(** ** brk *)

Lemma mapped_view l4 start n m :
  mapped_range l4 start n m <-> forall i, 0 <= i < n -> is_Some (view (ram m) l4 (start + i)).
Proof.
  unfold mapped_range, view. split; intros H i Hi; specialize (H i Hi);
    destruct (translate (ram m) l4 (start + i)); by destruct H.
Qed.

(** The heap's pages end at [stop] instead of [old]: new pages are zeroed
    and writable, dropped pages are gone. *)
Definition moved_view (l4 old stop : Z) (m m' : Mem) : Prop :=
  forall a, 0 <= a < 2 ^ 48 -> view (ram m') l4 a =
    if decide (old <= a < stop) then Some (0, true)
    else if decide (stop <= a < old) then None else view (ram m) l4 a.

Definition move_outcome {E} (l4 : Z) (h : UserHeap) (requested stop : Z) (m : Mem)
    (moved : result E unit) (m' : Mem) : Prop :=
  match moved with
  | Ok _ => moved_view l4 (heap_mapped_end h) stop m m'
  | Err _ => heap_brk h < requested /\ same_view l4 m m'
  end.

Lemma moved_view_same l4 e m : moved_view l4 e e m m.
Proof. intros a _. by rewrite !decide_False by lia. Qed.

Lemma wp_map_err_unit {S E F} (f : E -> F) (op : ST S (result E unit)) (P : bool -> S -> Prop) s r s' :
  wp op (fun r s' => P (is_err r) s') s -> st_map_err f op s = Done (r, s') -> P (is_err r) s'.
Proof.
  intros H E'. assert (wp (st_map_err f op) (fun r s' => P (is_err r) s') s) as H'.
  { apply wp_map_err. eapply wp_mono; [exact H|]. by intros []. }
  exact (wp_result _ _ _ _ _ H' E').
Qed.

Lemma move_mapping_spec aspace h requested stop m R moved x :
  space_inv m R -> R (level_4_frame aspace) -> user_heap h -> is_u64 requested ->
  mapped_range (level_4_frame aspace) (heap_start h) (heap_mapped_end h - heap_start h) m ->
  heap_start h <= requested <= heap_limit h -> align_up requested 4096 = Some stop ->
  move_mapping aspace h requested stop m = Done (moved, x) ->
  local_change 4 R (level_4_frame aspace) m x /\
  move_outcome (level_4_frame aspace) h requested stop m moved x.
Proof.
  intros I HR [Hh [Hlo Hhi]] Hu Hmap Hr Hup E. set (l4 := level_4_frame aspace) in *.
  pose proof (align_up_Some _ _ Hu Hup) as (Hst & Hsm & _).
  pose proof (hok_mapped _ Hh) as [Hme Hmm]. pose proof (hok_brk _ Hh) as Hbrk.
  destruct (hok_limit _ Hh) as [_ Hlm]. destruct (hok_start _ Hh) as [_ Hsta].
  pose proof (page_end_below _ _ _ (proj2 Hbrk) Hme Hmm Hlm).
  pose proof (page_end_below _ _ _ (proj2 Hr) Hst Hsm Hlm).
  assert (local_change 4 R l4 m m) as Hrefl by (by apply lc_refl).
  unfold move_mapping in E. rewrite !Z.gtb_ltb in E.
  destruct (Z.ltb_spec (heap_brk h) requested) as [Hg|Hg].
  - pose proof (page_end_mono (heap_brk h) requested _ _ ltac:(lia) Hme Hst Hmm Hsm).
    destruct (Z.ltb_spec (heap_mapped_end h) stop) as [Hlt|Hge].
    2: { injection E as <- <-. split; [done|]. cbn. replace stop with (heap_mapped_end h) by lia. apply moved_view_same. }
    apply (wp_map_err_unit _ _ (fun err y => local_change 4 R l4 m y /\
      if err then same_view l4 m y else moved_view l4 (heap_mapped_end h) stop m y)) in E.
    { destruct E as [LC Hv]. split; [done|]. by destruct moved. }
    eapply wp_mono; [apply (map_heap_run aspace (heap_mapped_end h) stop m R); (done || lia)|].
    intros res y [LC Ho]. fold l4 in LC, Ho. split; [by apply (lc_weaken 3 4); [lia|]|].
    destruct res as [[]|e]; cbn [heap_outcome is_err] in *; [|done].
    intros a Ha. rewrite (proj2 Ho a Ha). by case_decide; [|rewrite decide_False by lia].
  - pose proof (page_end_mono requested (heap_brk h) _ _ Hg Hst Hme Hsm Hmm).
    destruct (Z.ltb_spec stop (heap_mapped_end h)) as [Hlt|Hge].
    2: { injection E as <- <-. split; [done|]. cbn. replace stop with (heap_mapped_end h) by lia. apply moved_view_same. }
    apply (wp_map_err_unit _ _ (fun err y => local_change 4 R l4 m y /\ err = false /\
      moved_view l4 (heap_mapped_end h) stop m y)) in E.
    { destruct E as (LC & He & Hv). split; [done|]. by destruct moved. }
    eapply wp_mono; [apply (unmap_heap_run aspace stop (heap_mapped_end h) m R); (done || lia)|].
    intros res y (LC & RR & Tot). fold l4 in LC, RR, Tot.
    assert (res = Ok tt) as ->.
    { apply Tot. intros i Hi. destruct (Hmap (stop - heap_start h + i)) as [t Ht]; [lia|].
      exists t. by replace (stop + i) with (heap_start h + (stop - heap_start h + i)) by lia. }
    split; [by apply (lc_weaken 3 4); [lia|]|]. split; [done|]. intros a Ha.
    rewrite (region_removed_view R l4 stop (heap_mapped_end h) m y a) by auto.
    by rewrite (decide_False (P := heap_mapped_end h <= a < stop)) by lia.
Qed.

(** The pages of the heap are mapped afterwards. *)
Lemma moved_mapped l4 h requested stop m x :
  user_heap h -> 0 <= requested <= heap_limit h -> stop <= heap_limit h ->
  mapped_range l4 (heap_start h) (heap_mapped_end h - heap_start h) m ->
  moved_view l4 (heap_mapped_end h) stop m x -> mapped_range l4 (heap_start h) (stop - heap_start h) x.
Proof.
  intros [_ [Hlo Hhi]] Hr Hs Hm Hv. apply mapped_view. intros i Hi. rewrite Hv by lia.
  case_decide; [by eexists|]. rewrite decide_False by lia.
  apply (proj1 (mapped_view l4 (heap_start h) _ m) Hm). lia.
Qed.

Lemma same_view_mapped l4 start n m x :
  0 <= start -> start + n <= 2 ^ 48 -> mapped_range l4 start n m -> same_view l4 m x -> mapped_range l4 start n x.
Proof.
  intros Hs Hn Hm Hv. apply mapped_view. intros i Hi. rewrite Hv by lia.
  by apply (proj1 (mapped_view l4 start n m) Hm).
Qed.

(** Memory and heap of process [pid] change together. *)
Lemma heap_step m m' pid p p' x :
  isolated m -> ProcessTable.get (proc_table (sched m)) pid = Some p ->
  p_address_space p' = p_address_space p -> user_heap (p_heap p') -> heap_mapped p' x ->
  local_change 4 (roots (proc_table (sched m))) (root p) (mem m) x ->
  mem m' = x -> proc_table (sched m') = ProcessTable.update (proc_table (sched m)) pid p' ->
  steps (fun q => q = pid) m m'.
Proof.
  intros Is Hp Ea Hu Hm LC <- Ept.
  assert (roots (proc_table (sched m)) (root p)) as Hl by (by exists pid, p).
  assert (forall q r, ProcessTable.get (proc_table (sched m)) q = Some r -> q <> pid ->
    same_space (root r) (mem m) (mem m')) as Hoth.
  { intros q r Hq Hne. eapply lc_other; [apply (is_space _ Is)|exact LC|done|by exists q, r|].
    intros E. by apply Hne, (is_distinct _ Is q pid r p). }
  assert (forall q r, ProcessTable.get (proc_table (sched m')) q = Some r ->
    (q = pid /\ r = p') \/ (q <> pid /\ ProcessTable.get (proc_table (sched m)) q = Some r)) as Hget.
  { intros q r. rewrite Ept, (get_update _ _ _ _ _ Hp). case_decide; [intros [= <-]; by left|by right]. }
  assert (root p' = root p) as Er by (unfold root; by rewrite Ea).
  split; [|by intros q r Hq Hne; apply (Hoth q r)]. constructor.
  - eapply space_inv_weaken; [|exact (lc_inv _ _ _ _ _ LC)].
    intros l (q & r & [[-> ->]|[_ Hq]]%Hget & <-); [by rewrite Er|by exists q, r].
  - eapply lc_kernel_table; [apply (is_space _ Is)|exact Hl|exact LC|apply (is_table _ Is)].
  - intros q q' r r' [[-> ->]|[Hn Hq]]%Hget [[-> ->]|[Hn' Hq']]%Hget E; [done| | |].
    + apply (is_distinct _ Is pid q' p r'); [done|done|congruence].
    + apply (is_distinct _ Is q pid r p); [done|done|congruence].
    + by apply (is_distinct _ Is q q' r r').
  - intros q r [[-> ->]|[Hn Hq]]%Hget; [done|]. destruct (is_heap _ Is q r Hq) as [Hu' Hm']. split; [done|].
    intros i Hi. destruct (Hoth q r Hq Hn (heap_start (p_heap r) + i)) as [T _]. rewrite T. by apply Hm'.
Qed.

Lemma brk_steps m requested r m' :
  isolated m -> is_u64 requested -> brk_outcome m requested r m' -> steps (only_current m) m m'.
Proof.
  intros Is Hu. unfold brk_outcome.
  assert (steps (only_current m) m m) as Hrefl by (apply step_same; [done|apply shrunk_refl|done|done]).
  destruct (current_proc m) as [pid|] eqn:Hc; [|by intros [_ ->]]. intros (p & [Hp _] & H). revert H.
  unfold brk_process. destruct (requested =? 0); [by intros [_ ->]|].
  destruct (Z.ltb_spec requested (heap_start (p_heap p))); [by intros [_ ->]|]. rewrite Z.gtb_ltb.
  destruct (Z.ltb_spec (heap_limit (p_heap p)) requested); [by intros [_ ->]|].
  destruct (requested =? heap_brk (p_heap p)); [by intros [_ ->]|]. intros (stop & moved & x & Hup & Emv & H').
  destruct (is_heap _ Is _ _ Hp) as [Huh Hmap]. pose proof Huh as [Hok [Hlo Hhi]].
  destruct (move_mapping_spec _ _ _ _ _ _ _ _ (is_space _ Is) (root_in _ _ _ Hp) Huh Hu Hmap ltac:(lia) Hup Emv)
    as [LC Ho].
  destruct (set_break_ok _ _ _ Hok (conj H H0) Hup) as [Hh' Hlim].
  eapply (steps_mono (fun q => q = pid)); [by intros q ->|].
  destruct moved as [[]|e]; destruct H' as [_ ->]; cbn [move_outcome] in Ho.
  - eapply (heap_step m _ pid p (set_heap p (set_break (p_heap p) requested stop)) x); try done.
    by apply (moved_mapped (root p) (p_heap p) requested stop (mem m)); [|lia| | |].
  - eapply (heap_step m _ pid p p x); try done.
    + apply (same_view_mapped _ _ _ (mem m)); [lia| |done|by destruct Ho].
      pose proof (hok_mapped _ Hok) as [Hme _]. pose proof (hok_limit _ Hok). pose proof (hok_brk _ Hok). lia.
    + pose proof (with_process_same m pid p Hp) as Ew. by rewrite <- Ew at 1.
Qed.

(** ** Delivering an exit status *)

(** Process [q] waits for child [c]. *)
Definition awaits (m : Machine) (q c : ProcessId) : Prop :=
  exists w t ptr, vget (tasks (sched m)) w = Some t /\ process_id t = Some q /\
    t_state t = Blocked (ChildExit c ptr).

Lemma stored_effect m ma q c ptr r x :
  isolated m -> mem ma = mem m -> shrunk (proc_table (sched m)) (proc_table (sched ma)) ->
  (forall a, ptr = Some a -> canonical a) -> status_stored ma q c ptr r x ->
  exists l, effect (roots (proc_table (sched m))) l (mem m) x /\
    forall l4, l = Some l4 -> exists p, ProcessTable.get (proc_table (sched m)) q = Some p /\ root p = l4.
Proof.
  intros Is Em Hs Hc. destruct ptr as [a|]; cbn [status_stored].
  - intros (p' & e & Hp' & _ & Ecp). destruct (Hs q p' Hp') as (p & Hp & Ea & _). rewrite Em, Ea in Ecp.
    exists (Some (root p)). split; [|intros l4 [= <-]; by exists p].
    exists x. split; [|done]. split; [by apply (root_in _ q)|].
    eapply copy_to_user_local; [apply (is_space _ Is)|by apply (root_in _ q)|by apply (Hc a)|done].
  - intros [_ ->]. exists None. split; [|done]. exists (mem m). by rewrite Em.
Qed.

Lemma waited_steps m ma t c ptr m' A :
  isolated m -> mem ma = mem m -> shrunk (proc_table (sched m)) (proc_table (sched ma)) ->
  (forall a, ptr = Some a -> canonical a) -> (forall q, process_id t = Some q -> A q) ->
  waited ma t c ptr m' -> steps A m m'.
Proof.
  intros Is Em Hs Hc HA W. destruct (wt_result _ _ _ _ _ W) as (q & r & Hq & Hst & _).
  destruct (stored_effect m ma q c ptr r (mem m') Is Em Hs Hc Hst) as (l & He & Hl).
  apply (step_effect m m' l); [done| |done|].
  - eapply shrunk_trans; [exact Hs|].
    destruct (waited_table _ _ _ _ _ W) as [[R _]| ->]; [by eapply shrunk_remove|apply shrunk_refl].
  - intros l4 El. destruct (Hl l4 El) as (p & Hp & Er). exists q, p. split; [by apply HA|done].
Qed.

Lemma steps_shrink A m m1 m' :
  steps A m m1 -> shrunk (proc_table (sched m1)) (proc_table (sched m')) ->
  ram (mem m') = ram (mem m1) -> memory_state (mem m') = memory_state (mem m1) -> steps A m m'.
Proof.
  intros [Is Q] Hs Er Es. destruct (step_same m1 m' A Is Hs Er Es) as [Is' _]. split; [done|].
  intros q p Hq HA a. rewrite Er. by apply (Q q p).
Qed.

Lemma ended_state t rsp s code info : t_state (ended t rsp s code info) = s.
Proof. by destruct code, info. Qed.

(** The end of process [pid], the running one. *)
Lemma process_ended_steps m cur t pid rsp s code info e m1 :
  ok m -> isolated m -> current (sched m) = Some cur -> vget (tasks (sched m)) cur = Some t ->
  process_id t = Some pid -> (s = Finished \/ s = Failed) ->
  process_ended (with_task m cur (ended t rsp s code info)) pid e m1 ->
  steps (fun q => awaits m q pid) m m1.
Proof.
  intros K Is Hc Ht Hpid Hs (p & pt & fs & m2 & pt' & [Hp _] & Hex & _ & W & Hor & ->).
  pose proof (ok_core _ K) as C. pose proof (shrunk_exit _ _ _ _ _ Hp Hex) as Hsh.
  set (ma := set_sched _ _) in W.
  assert (steps (fun q => awaits m q pid) m m2) as St2.
  { destruct W as [[_ ->]|(w & u & ptr & m3 & Hu & Hus & W & ->)]; [by apply step_same|].
    assert (w <> cur /\ vget (tasks (sched m)) w = Some u) as [_ Hw].
    { change (tasks (sched ma)) with (vset (tasks (sched m)) cur (ended t rsp s code info)) in Hu.
      rewrite vget_vset in Hu. case_decide as D; [|split; [intros ->; apply D; split; [done|by eapply vget_range]|done]].
      injection Hu as <-. rewrite ended_state in Hus. by destruct Hs as [-> | ->]. }
    destruct (ln_wait _ _ _ _ (co_linked _ _ _ _ _ C) w u pid ptr Hw Hus) as (Hcan & _).
    apply (steps_ext _ m m m3); [done..|].
    eapply (waited_steps m ma u pid ptr m3); [done|done|done|done| |done]. intros q Hq. by exists w, u, ptr. }
  eapply steps_shrink; [exact St2| |done|done].
  cbn [sched set_sched set_proc_table proc_table]. by eapply shrunk_reaped.
Qed.

(** The processes whose memory a system call or a fault of the running task
    may change: its own, and a parent that waits for it. *)
Definition involved (m : Machine) (q : ProcessId) : Prop :=
  current_proc m = Some q \/ exists c, current_proc m = Some c /\ awaits m q c.

Lemma current_proc_task m cur t :
  current (sched m) = Some cur -> vget (tasks (sched m)) cur = Some t -> current_proc m = process_id t.
Proof. intros Hc Ht. unfold current_proc. by rewrite Hc, Ht. Qed.

Lemma finished_steps m cur t rsp s code info e m1 m' :
  ok m -> isolated m -> current (sched m) = Some cur -> vget (tasks (sched m)) cur = Some t ->
  (s = Finished \/ s = Failed) ->
  match process_id t with
  | Some pid => process_ended (with_task m cur (ended t rsp s code info)) pid e m1
  | None => m1 = with_task m cur (ended t rsp s code info)
  end -> keeps m1 m' -> steps (involved m) m m'.
Proof.
  intros K Is Hc Ht Hs H [K1 K2 _ _ K5 _ _]. pose proof (current_proc_task m cur t Hc Ht) as Hcp.
  assert (steps (involved m) m m1) as St.
  { destruct (process_id t) as [pid|] eqn:Hpid.
    - eapply steps_mono; [|eapply process_ended_steps; eauto]. intros q Hq. right. by exists pid.
    - subst m1. apply step_same; [done|apply shrunk_refl|done|done]. }
  eapply steps_shrink; [exact St|rewrite K5; apply shrunk_refl|done|done].
Qed.

Lemma waitpid_steps m rsp cur t pid p c ptr options r m' :
  ok m -> isolated m -> current (sched m) = Some cur -> vget (tasks (sched m)) cur = Some t ->
  process_id t = Some pid -> (forall a, ptr = Some a -> canonical a) ->
  waitpid_outcome m rsp cur t pid p c ptr options r m' -> steps (involved m) m m'.
Proof.
  intros K Is Hc Ht Hpid Hcan. pose proof (current_proc_task m cur t Hc Ht) as Hcp. unfold waitpid_outcome.
  assert (forall v, steps (involved m) m (set_rax m rsp v)) as Hrax.
  { intros v. apply step_same; [done|apply shrunk_refl|done|done]. }
  destruct (wait_error _ _ _ _ _ _); [by intros [_ ->]|].
  destruct (ProcessTable.state _ _) as [[|ex]|]; [|intros [_ W]|done].
  - destruct (_ =? WNOHANG); [by intros [_ ->]|]. intros [[K1 K2 _ _ K5 _ _] _].
    apply step_same; [done|rewrite K5; apply shrunk_refl|done|done].
  - eapply (waited_steps m _ _ c ptr m'); [done| | |done| |exact W]; [done|apply shrunk_refl|].
    intros q Hq. left. by rewrite Hcp.
Qed.

Lemma dispatch_steps m rsp r m' :
  ok m -> isolated m -> frame_words_ok m rsp -> syscall_outcome m rsp r m' -> steps (involved m) m m'.
Proof.
  intros K Is (Hdi & Hsi & Hdx) H. unfold syscall_outcome in H.
  assert (forall q, only_current m q -> involved m q) as Hcur by (by left).
  assert (forall (O : SysResult -> Machine -> Prop), (forall v m1, O v m1 -> steps (only_current m) m m1) ->
    (exists v m1, O v m1 /\ m' = set_rax m1 rsp (sys_return v)) -> steps (involved m) m m') as Hret.
  { intros O HO (v & m1 & H1 & ->). eapply steps_mono; [exact Hcur|].
    apply (steps_ext _ m m m1); try done. by apply (HO v). }
  destruct (from_raw (arg_rax m rsp)) as [[]|].
  - destruct H as (cur & t & _ & _ & _ & [K1 K2 _ _ K5 _ _]).
    apply step_same; [done|rewrite K5; apply shrunk_refl|done|done].
  - destruct H as (cur & t & m1 & Hc & Ht & Hk & _ & H). apply (finished_steps m cur t rsp Finished (Some (arg_rdi m rsp)) None (Exited (to_signed 32 (arg_rdi m rsp))) m1); auto.
  - destruct H as (b & Hb & _ & H). eapply Hret; [|exact H]. intros v m1. by apply write_steps.
  - destruct H as [_ H]. eapply Hret; [|exact H]. intros v m1 [-> _].
    apply step_same; [done|apply shrunk_refl|done|done].
  - destruct H as (cur & t & Hc & Ht & H). destruct (process_id t) as [pid|] eqn:Hpid.
    + destruct H as (p & _ & H). eapply waitpid_steps; eauto. intros a. by apply status_pointer_canonical.
    + destruct H as [_ ->]. apply step_same; [done|apply shrunk_refl|done|done].
  - destruct H as (b & Hb & _ & H). eapply Hret; [|exact H]. intros v m1. by apply open_steps.
  - destruct H as (b & Hb & _ & H). eapply Hret; [|exact H]. intros v m1. apply read_steps; [done|done|].
    exact (VirtAddr_new_result _ _ Hsi Hb).
  - destruct H as [_ H]. eapply Hret; [|exact H]. intros v m1. by apply close_steps.
  - destruct H as [_ H]. eapply Hret; [|exact H]. intros v m1. by apply brk_steps.
  - destruct H as [_ ->]. apply step_same; [done|apply shrunk_refl|done|done].
Qed.

(** ** Spawning *)

Lemma others_steps m m' x A :
  isolated m -> others_kept (roots (proc_table (sched m))) (mem m) x ->
  mem m' = x -> proc_table (sched m') = proc_table (sched m) -> steps A m m'.
Proof.
  intros Is [_ I K _ S] <- Ep. split.
  - eapply isolated_table; [exact Is|apply shrunk_refl|exact I|done| |done|done].
    intros l Hl a. by apply S.
  - intros q p Hq _. apply S. by exists q, p.
Qed.

Lemma spawned_steps m x v parent init r m' :
  isolated m ->
  program_loaded (roots (proc_table (sched m))) (level_4_frame (init_address_space init)) v (mem m) x ->
  fresh_heap (init_heap init) -> spawned (set_mem x m) parent init r m' -> steps (fun _ => False) m m'.
Proof.
  intros Is L Hh. destruct L as [O I N F V]. destruct r as [h|e]; cbn [spawned].
  2: { intros (_ & fs & -> & _). by eapply others_steps. }
  intros (_ & _ & t & p & Pu & _ & [Hp _] & _ & Ea & Eh & _ & Hold & _).
  pose proof (pu_mem _ _ _ Pu) as Em. cbn [mem set_mem] in Em. cbn [sched set_mem] in Hold.
  assert (forall pid q, ProcessTable.get (proc_table (sched m')) pid = Some q -> pid <> handle_pid h ->
    exists q0, ProcessTable.get (proc_table (sched m)) pid = Some q0 /\ root q = root q0 /\
      p_heap q = p_heap q0) as Hinv.
  { intros pid q Hq Hne. rewrite Hold in Hq by done.
    destruct (ProcessTable.get (proc_table (sched m)) pid) as [q0|]; [|done]. injection Hq as <-.
    exists q0. unfold adopt, root. by case_decide. }
  split; [|intros q p0 Hq _; rewrite Em; apply (ok_same _ _ _ O); by exists q, p0].
  assert (root p = level_4_frame (init_address_space init)) as Er by (unfold root; by rewrite Ea).
  constructor; [| | |].
  - rewrite Em. eapply space_inv_weaken; [|exact I]. intros l (pid & q & Hq & <-).
    destruct (decide (pid = handle_pid h)) as [->|Hne]; [right; congruence|left].
    destruct (Hinv pid q Hq Hne) as (q0 & Hq0 & E & _). exists pid, q0. by rewrite E.
  - rewrite Em. apply O.
  - assert (forall pid q, ProcessTable.get (proc_table (sched m')) pid = Some q -> pid <> handle_pid h ->
      root q <> root p) as Hnew.
    { intros pid q Hq Hne E. destruct (Hinv pid q Hq Hne) as (q0 & Hq0 & E0 & _). apply N.
      exists pid, q0. split; [done|]. congruence. }
    intros pid pid' q q' Hq Hq' E.
    destruct (decide (pid = handle_pid h)) as [->|Hne], (decide (pid' = handle_pid h)) as [->|Hne']; [done| | |].
    + assert (q = p) as -> by congruence. by destruct (Hnew pid' q' Hq' Hne').
    + assert (q' = p) as -> by congruence. by destruct (Hnew pid q Hq Hne).
    + destruct (Hinv pid q Hq Hne) as (q0 & Hq0 & E0 & _), (Hinv pid' q' Hq' Hne') as (q0' & Hq0' & E0' & _).
      apply (is_distinct _ Is pid pid' q0 q0'); [done|done|congruence].
  - intros pid q Hq. destruct (decide (pid = handle_pid h)) as [->|Hne].
    + rewrite Hp in Hq. injection Hq as <-. destruct Hh as [Hu Hend]. unfold heap_mapped. rewrite Eh, Hend.
      split; [done|]. intros i Hi. lia.
    + destruct (Hinv pid q Hq Hne) as (q0 & Hq0 & Er' & Eh').
      destruct (is_heap _ Is pid q0 Hq0) as [Hu Hm]. unfold heap_mapped. rewrite Eh', Er', Em. split; [done|].
      intros i Hi. destruct (ok_same _ _ _ O (root q0) ltac:(by exists pid, q0) (heap_start (p_heap q0) + i)) as [-> _].
      by apply Hm.
Qed.

(** ** Code outside the model *)

(** A byte of the kernel's level-4 table, of a page table of a process or of
    one of its pages. *)
Definition kernel_l4_byte (m : Machine) (x : Z) : Prop :=
  exists s, memory_state (mem m) = Some s /\
    ms_kernel_level_4_frame s <= x < ms_kernel_level_4_frame s + 4096.

Definition owned_byte (m : Machine) (x : Z) : Prop :=
  exists l q f, roots (proc_table (sched m)) l /\ path q /\ walk (ram (mem m)) l q = Some f /\
    f <= x < f + 4096.

(** A byte that the running user task can store to: the processor translates
    its addresses through CR3 and requires the writable bit. *)
Definition user_store (m : Machine) (x : Z) : Prop :=
  current_proc m <> None /\
  exists a t, translate (ram (mem m)) (cr3 (mem m)) a = Some t /\
    contains (flags t) WRITABLE = true /\ phys t = x.

(** User instructions store through the page tables, and the rest of the
    kernel writes neither page tables nor pages of a process. *)
Definition mmu_respected (m m' : Machine) : Prop :=
  memory_state (mem m') = memory_state (mem m) /\
  forall x, owned_byte m x \/ kernel_l4_byte m x -> ram (mem m') x = ram (mem m) x \/ user_store m x.

Lemma running_root m pid p :
  ok m -> current_proc m = Some pid -> ProcessTable.get (proc_table (sched m)) pid = Some p ->
  cr3 (mem m) = root p.
Proof.
  intros K Hc Hp. unfold current_proc in Hc. destruct (current (sched m)) as [cur|] eqn:Hcur; [|done].
  destruct (vget (tasks (sched m)) cur) as [t|] eqn:Ht; [|done].
  destruct (ok_loaded _ K cur t Hcur Ht) as [_ Hs]. unfold space_of in Hs. rewrite Hc in Hs.
  unfold ProcessTable.address_space in Hs. rewrite Hp in Hs. by injection Hs as <-.
Qed.

(** What a user store can reach. *)
Lemma user_store_own m x :
  ok m -> isolated m -> user_store m x ->
  exists pid p a t, current_proc m = Some pid /\ ProcessTable.get (proc_table (sched m)) pid = Some p /\
    translate (ram (mem m)) (root p) a = Some t /\ phys t = x.
Proof.
  intros K Is (Hc & a & t & Ht & _ & Hx). destruct (current_proc m) as [pid|] eqn:Hcp; [|done].
  destruct (current_proc_live m pid K Hcp) as (p & [Hp _] & _).
  exists pid, p, a, t. by rewrite <- (running_root m pid p).
Qed.

Lemma kernel_frame_not_node m R s l q f :
  space_inv m R -> memory_state m = Some s -> R l -> path q -> walk (ram m) l q = Some f ->
  f <> ms_kernel_level_4_frame s.
Proof.
  intros [(s' & Hs' & [_ _ _ [_ Hu]]) F] Hs Hl Hq Hw ->. assert (s' = s) as -> by congruence.
  destruct (fo_node _ _ _ F l q _ Hl Hq Hw) as [_ Hi]. apply (issued_in_state _ _ _ Hs) in Hi as (i & _ & Hv).
  apply Hu. by eapply vget_elem_of.
Qed.

Lemma elsewhere_steps m m' :
  ok m -> isolated m -> sched m' = sched m -> mmu_respected m m' -> steps (only_current m) m m'.
Proof.
  intros K Is Es [Ems Hr]. pose proof (is_space _ Is) as I. pose proof I as [Ha F].
  assert (forall l q f x, roots (proc_table (sched m)) l -> path q -> walk (ram (mem m)) l q = Some f ->
    f <= x < f + 4096 -> ram (mem m') x = ram (mem m) x \/
    exists pid p, current_proc m = Some pid /\ ProcessTable.get (proc_table (sched m)) pid = Some p /\
      l = root p /\ length q = 4%nat) as Hnode.
  { intros l q f x Hl Hq Hw Hx. destruct (Hr x) as [E|Hu]; [left; by exists l, q, f|by left|right].
    destruct (user_store_own m x K Is Hu) as (pid & p & a & t & Hc & Hp & Ht & <-). exists pid, p.
    split; [done|]. split; [done|].
    by apply (user_byte_node _ (root p) (mem m) a t l q f I); [by exists pid, p|..]. }
  assert (kernel_table (mem m')) as Hk.
  { destruct (is_table _ Is) as (s & Hs & Hb). exists s. split; [by rewrite Ems|]. intros x Hx.
    destruct (Hr x) as [->|Hu]; [right; by exists s|by apply Hb|].
    destruct (user_store_own m x K Is Hu) as (pid & p & a & t & Hc & Hp & Ht & <-).
    destruct (translate_node _ _ _ _ Ht) as (q & f & Hq & _ & Hw & Hph). pose proof (Z.mod_pos_bound a 4096).
    assert (roots (proc_table (sched m)) (root p)) as Hl by (by exists pid, p).
    destruct (kernel_frame_not_node _ _ _ _ _ _ I Hs Hl Hq Hw).
    destruct (fo_node _ _ _ F _ q f Hl Hq Hw) as [[Hf _] _].
    destruct Ha as (s' & Hs' & [_ _ _ [[Hk0 _] _]]). assert (s' = s) as -> by congruence.
    apply (frames_overlap f _ (phys t)); (done || lia). }
  destruct (forest_data (ram (mem m)) (ram (mem m')) _ (issued_in (mem m)) F) as (F1 & _ & L1).
  { intros l q h x Hl Hq H3 Hw Hx. destruct (Hnode l q h x Hl Hq Hw Hx) as [?|(? & ? & _ & _ & _ & H4)]; [done|].
    lia. }
  split.
  - eapply (isolated_table m (proc_table (sched m)) (mem m')); try done;
      [apply shrunk_refl| | |by rewrite Es].
    + split; [by rewrite Ems|].
      eapply forest_weaken; [done| |exact F1]. intros f. unfold issued_in. by rewrite Ems.
    + intros l Hl a. apply translate_leaf. destruct (page_path_ok (Page_containing_address a)) as [Hpa _].
      by apply L1.
  - intros q p Hq HA. apply nodes_same_space. intros q' f x Hq' Hw Hx.
    destruct (Hnode (root p) q' f x) as [?|(pid & p' & Hc & Hp' & E & _)]; try done; [by exists q, p|].
    destruct HA. unfold only_current. by rewrite (is_distinct _ Is q pid p p' Hq Hp' E).
Qed.

Lemma spawn_loaded_steps (m : Machine) x v parent init stack rf :
  ok (set_mem x m) -> isolated m ->
  program_loaded (roots (proc_table (sched m))) (level_4_frame (init_address_space init)) v (mem m) x ->
  fresh_heap (init_heap init) ->
  wp (spawn_user_process_with stack parent init rf) (fun _ m' => steps (fun _ => False) m m') (set_mem x m).
Proof.
  intros K Is L Hh. eapply wp_mono; [apply spawn_user_process_run; [done|by destruct Hh as [[] _]]|].
  intros r m' [_ S]. by eapply spawned_steps.
Qed.

Lemma spawn_elf_steps stack parent elf_bytes arg0 (m : Machine) :
  ok m -> isolated m -> Forall is_byte elf_bytes ->
  wp (let? init := st_map_err ElfLoad (with_mem (load_user_elf elf_bytes arg0)) in
      let* m := st_get in
      spawn_user_process_with stack parent init (initial_rflags (cpu m)))
    (fun _ m' => steps (fun _ => False) m m') m.
Proof.
  intros K Is Hb. apply wp_try. unfold st_map_err. apply wp_bind, wp_zoom.
  destruct (parse_elf elf_bytes) as [elf|e] eqn:Hp.
  2: { eapply wp_intro; [by apply load_user_elf_rejected|]. cbn beta. apply wp_ret. cbn [map_err].
       apply step_same; [done|apply shrunk_refl|done|done]. }
  eapply wp_mono.
  { apply wp_and; [exact (load_user_elf_safe elf_bytes arg0 Hb (mem m) (bo_mem _ (ok_base _ K)))|].
    apply (load_user_elf_run elf_bytes arg0 elf (mem m) _ Hb Hp (is_space _ Is) (is_table _ Is)). }
  intros r x [[Hx _] H]. cbn beta. apply wp_ret. pose proof (ok_set_mem m x K Hx) as Kx.
  destruct r as [init|e]; cbn [map_err load_outcome] in *.
  - destruct H as (L & _ & _ & _ & Hh). apply wp_bind, wp_get. by eapply spawn_loaded_steps.
  - by eapply others_steps.
Qed.

Lemma spawn_program_steps stack bytes arg0 test (m : Machine) :
  ok m -> isolated m -> vlen bytes <= 4096 ->
  wp (handle (SpawnProgram stack bytes arg0 test)) (fun _ m' => steps (fun _ => False) m m') m.
Proof.
  intros K Is Hl. cbn [handle]. apply wp_bind, wp_zoom. eapply wp_mono.
  { apply wp_and; [exact (create_user_task_safe bytes arg0 test Hl (mem m) (bo_mem _ (ok_base _ K)))|].
    apply (create_user_task_run bytes arg0 test (mem m) _ Hl (is_space _ Is) (is_table _ Is)). }
  intros r x [[Hx _] H]. pose proof (ok_set_mem m x K Hx) as Kx. destruct r as [init|e]; cbn [load_outcome] in H.
  - destruct H as (L & _ & _ & _ & Hh). apply wp_discard. unfold spawn_user, spawn_user_process. st_steps.
    eapply wp_mono; [by eapply (spawn_loaded_steps m x _ None)|]. intros r m' S. by apply wp_ret.
  - apply wp_ret. by eapply others_steps.
Qed.

(** ** Events *)

(** Memory outside the model is used as [mmu_respected] says, and user tasks
    are made by [create_user_task] or from an ELF image. *)
Definition disciplined (m : Machine) (e : event) : Prop :=
  match e with
  | Elsewhere m' => mmu_respected m m'
  | SpawnUser _ _ => False
  | _ => True
  end.

(** The processes whose memory an event may change. *)
Definition affected (m : Machine) (e : event) (q : ProcessId) : Prop :=
  match e with
  | Elsewhere _ => only_current m q
  | SyscallInt _ | UserFault _ _ => involved m q
  | _ => False
  end.

Lemma fault_steps rsp info (m : Machine) :
  ok m -> isolated m -> current (sched m) <> None ->
  wp (fail_current_with_fault rsp info) (fun _ m' => steps (involved m) m m') m.
Proof.
  intros K Is Hc. destruct (current (sched m)) as [cur|] eqn:Hcur; [|done].
  destruct (ok_running m cur K Hcur) as (t & Ht & _). unfold fail_current_with_fault. eapply wp_mono.
  { eapply finish_current_run; eauto. }
  intros r m' (_ & m1 & Hk & _ & H).
  eapply (finished_steps m cur t rsp Failed None (Some info)); [done|done|done|done|by right| |exact Hk].
  destruct (process_id t); [exact H|done].
Qed.

Lemma handle_steps e (m : Machine) :
  ok m -> isolated m -> enabled m e -> disciplined m e -> accepted m e ->
  wp (handle e) (fun _ m' => steps (affected m e) m m') m.
Proof.
  intros K Is He Hd Ha.
  assert (forall A m', keeps m m' -> steps A m m') as Hk by (intros; by apply step_keeps).
  assert (forall A m', ram (mem m') = ram (mem m) -> memory_state (mem m') = memory_state (mem m) ->
    proc_table (sched m') = proc_table (sched m) -> steps A m m') as Hs.
  { intros A m' E1 E2 E3. apply step_same; [done|rewrite E3; apply shrunk_refl|done|done]. }
  destruct e as [m'|rsp|rsp|rsp|rsp info| |stack tr entry|stack init|stack bytes arg0 test|stack bytes arg0
                |stack parent bytes arg0|task arg0|b|rsp]; cbn [handle enabled disciplined affected accepted] in *.
  - apply wp_put. destruct He as (Es & _). by apply elsewhere_steps.
  - apply wp_discard. eapply wp_mono; [by apply on_timer_run|]. intros r m' (_ & H & _). auto.
  - apply wp_discard. eapply wp_mono; [by apply switch_from_interrupt_run|]. intros r m' (_ & H & _). auto.
  - destruct He as (Hc & Hw). apply wp_discard. eapply wp_mono; [by apply dispatch_run|].
    intros r m' [_ H]. by eapply dispatch_steps.
  - apply wp_discard. by apply fault_steps.
  - destruct He as (cur & t & Hc & Ht & Hp). apply wp_discard.
    eapply wp_mono; [by eapply finish_current_task_run|]. intros r m' (_ & H & _). auto.
  - apply wp_discard. unfold spawn. st_steps. eapply wp_mono; [by apply spawn_with_run|]. intros r m' [_ H].
    destruct r as [id|e]; [destruct H as (_ & Ep & t & Pu & _)|destruct H as (_ & _ & ->); by apply Hs].
    apply Hs; by rewrite (pu_mem _ _ _ Pu) || done.
  - done.
  - by apply spawn_program_steps.
  - apply wp_discard. by apply (spawn_elf_steps stack None).
  - apply wp_discard. by apply (spawn_elf_steps stack (Some parent)).
  - apply wp_discard. eapply wp_mono; [by apply set_initial_arg_run|]. intros r m' [_ H].
    destruct (vget _ _) as [t|]; [destruct (is_ready t)|]; destruct H as [_ ->]; by apply Hs.
  - destruct b; unfold enable_preemption, disable_preemption; st_steps; by apply Hs.
  - apply wp_discard. eapply wp_mono; [by apply run_run|]. intros r m' [_ H].
    destruct (first_ready _); [destruct H as (t & _ & _ & _ & _ & _ & H); auto|destruct H as [_ ->]; by apply Hs].
Qed.

(** The machine after boot, with the memory map of the bootloader. *)
Record booted_memory (m : Machine) : Prop := mkBootedMemory {
  bm_booted : booted m;
  bm_alloc : exists s, memory_state (mem m) = Some s /\
               alloc_ok (ms_kernel_level_4_frame s) (frame_allocator s);
  bm_table : kernel_table (mem m)
}.

Inductive confined : Machine -> Prop :=
| conf_boot m : booted_memory m -> confined m
| conf_step m e m' :
    confined m -> enabled m e -> disciplined m e -> handle e m = Done (tt, m') -> confined m'.

Lemma confined_reachable m : confined m -> reachable m.
Proof. induction 1 as [m []|m e m' _ IH He _ Hrun]; [by apply reach_boot|by eapply reach_step]. Qed.

Lemma booted_isolated m : booted_memory m -> isolated m.
Proof.
  intros [[Hs Hm] Ha K]. destruct new_wf as [Hwf _].
  assert (forall pid p, ProcessTable.get (proc_table (sched m)) pid <> Some p) as Hnone.
  { rewrite Hs. intros i p E. apply (wf_pid _ Hwf) in E. cbn in E. lia. }
  constructor; [|done| |].
  - split; [done|]. constructor.
    + intros l q f (pid & p & Hp & _). by apply Hnone in Hp.
    + intros l l' q q' f (pid & p & Hp & _). by apply Hnone in Hp.
    + intros l q t i (pid & p & Hp & _). by apply Hnone in Hp.
    + intros l i (pid & p & Hp & _). by apply Hnone in Hp.
  - intros pid pid' p p' Hp. by apply Hnone in Hp.
  - intros pid p Hp. by apply Hnone in Hp.
Qed.

Lemma confined_isolated m : confined m -> isolated m.
Proof.
  induction 1 as [m Hb|m e m' Hc IH He Hd Hrun]; [by apply booted_isolated|].
  pose proof (handle_steps e m (reachable_ok m (confined_reachable m Hc)) IH He Hd
    (handled_accepted _ _ _ Hrun)) as H.
  exact (proj1 (wp_result _ _ _ _ _ H Hrun)).
Qed.

(** Bytes of different processes are different bytes of memory, and none of
    them is a byte of a page table. *)
Lemma isolated_bytes m q q' p p' a b t u :
  isolated m -> ProcessTable.get (proc_table (sched m)) q = Some p ->
  ProcessTable.get (proc_table (sched m)) q' = Some p' ->
  translate (ram (mem m)) (root p) a = Some t -> translate (ram (mem m)) (root p') b = Some u ->
  0 <= a < 2 ^ 48 -> 0 <= b < 2 ^ 48 -> phys t = phys u -> q = q' /\ a = b.
Proof.
  intros Is Hq Hq' Ht Hu Ha Hb E. pose proof (is_space _ Is) as I.
  destruct (translate_node _ _ _ _ Hu) as (qq & f & Hqq & _ & Hw & Hp). pose proof (Z.mod_pos_bound b 4096).
  assert (roots (proc_table (sched m)) (root p) /\ roots (proc_table (sched m)) (root p')) as [Hl Hl'].
  { split; [by exists q, p|by exists q', p']. }
  destruct (user_byte_node _ (root p) (mem m) a t (root p') qq f I Hl Hl' Ht Hqq Hw) as [Er _]; [lia|].
  split; [by rewrite (is_distinct _ Is q q' p p' Hq Hq')|].
  rewrite Er in Hu. destruct I as [_ F]. by eapply (translate_inj _ _ _ (root p) a b t u).
Qed.

Lemma isolated_tables m q q' p p' a b t f :
  isolated m -> ProcessTable.get (proc_table (sched m)) q = Some p ->
  ProcessTable.get (proc_table (sched m)) q' = Some p' ->
  translate (ram (mem m)) (root p) a = Some t -> f ∈ tables (ram (mem m)) (root p') b ->
  ~ (f <= phys t < f + 4096).
Proof.
  intros Is Hq Hq' Ht Hf Hx. destruct (tables_walk _ _ _ _ Hf) as (qq & Hqq & H3 & Hw).
  assert (roots (proc_table (sched m)) (root p) /\ roots (proc_table (sched m)) (root p')) as [Hl Hl'].
  { split; [by exists q, p|by exists q', p']. }
  destruct (user_byte_node _ (root p) (mem m) a t (root p') qq f (is_space _ Is) Hl Hl' Ht Hqq Hw Hx). lia.
Qed.
End isolation.
