(* ===== verification/Confinement.v ===== *)
(** * What a confined machine guarantees its processes

    On a machine whose processes are isolated, the copies between kernel and
    user memory are exact without further assumptions: what is copied to a
    process is what it reads, [waitpid] delivers the status, [brk] changes
    exactly the pages between the old and the new end of the heap, and a
    spawned program finds its image. *)

From S2P Require Import Prelude File Fd X86 Memory AddressSpace PageTables Spaces SpaceOps.
From S2P Require Import UserMemory Process Context Serial Task Syscall User Elf Loading.
From S2P Require Import Scheduler SchedulerCalls Interrupts RoundRobin.
From S2P Require Import Invariant Switching Exit Calls Spawn System Isolation.

Import ProcessTableFacts.

Section confinement.
Context {X : X86_64} {XS : X86_64_Spec X} {XP : X86_64_Paging X}.

Lemma confined_ok m : confined m -> ok m.
Proof. intros Hm. by apply reachable_ok, confined_reachable. Qed.

(** ** Copies *)

Lemma isolated_separated m pid p :
  isolated m -> ProcessTable.get (proc_table (sched m)) pid = Some p -> separated (ram (mem m)) (root p).
Proof. intros Is Hp. destruct (is_space _ Is) as [_ F]. eapply forest_separated; [exact F|]. by exists pid, p. Qed.

Lemma user_byte_translated r as_ access a x :
  user_byte r as_ access a = Ok x ->
  0 <= a < 2 ^ 48 /\ exists t, translate r (level_4_frame as_) a = Some t /\ phys t = x.
Proof.
  unfold user_byte. destruct (_ && _) eqn:E; [|done]. rewrite andb_true_iff, Z.leb_le, Z.ltb_lt in E.
  change USER_BASE with (2 ^ 39) in E. change USER_STACK_TOP with (2 ^ 39 + 0x800000) in E.
  destruct (translate _ _ a) as [t|]; [|done]. intros H. split; [lia|]. exists t. split; [done|].
  destruct access; [by injection H|]. destruct (contains _ _); [by injection H|done].
Qed.

Lemma isolated_unaliased m pid p dst n :
  isolated m -> ProcessTable.get (proc_table (sched m)) pid = Some p ->
  unaliased (ram (mem m)) (p_address_space p) dst n.
Proof.
  intros Is Hp i j x Hi Hj Hx Hy.
  apply user_byte_translated in Hx as (Ha & t & Ht & Ex). apply user_byte_translated in Hy as (Hb & u & Hu & Ey).
  destruct (isolated_bytes m pid pid p p _ _ t u Is Hp Hp Ht Hu Ha Hb) as [_ E]; [congruence|lia].
Qed.

(** Bytes copied to writable memory of a process are what it reads there. *)
Lemma isolated_copy m pid p dst src r x :
  ok m -> isolated m -> ProcessTable.get (proc_table (sched m)) pid = Some p -> canonical dst ->
  copy_to_user (p_address_space p) dst src (mem m) = Done (r, x) ->
  match r with
  | Ok _ => read_user (ram x) (p_address_space p) dst (length src) = Ok src
  | Err e => exists i, 0 <= i < vlen src /\ user_byte (ram (mem m)) (p_address_space p) Write (dst + i) = Err e
  end.
Proof.
  intros K Is Hp Hc E. pose proof (isolated_separated m pid p Is Hp) as Hs.
  pose proof (copy_to_user_run (p_address_space p) dst src (mem m) (bo_mem _ (ok_base _ K)) Hs Hc) as H.
  apply (wp_result _ _ _ _ _ H) in E as (n & Hn & St & _ & Hr). destruct r as [[]|e].
  - subst n. apply (stored_read_back _ _ _ _ _ St Hs). by eapply isolated_unaliased.
  - destruct Hr as [Hlt He]. exists n. split; [lia|done].
Qed.

(** ** The status of a child *)

Lemma wait_status_length e : vlen (wait_status_bytes e) = wait_status_size.
Proof. done. Qed.

(** A completed wait that may write the status has written it. *)
Lemma waited_status m t pid p c e a m' :
  ok m -> isolated m -> process_id t = Some pid -> ProcessTable.get (proc_table (sched m)) pid = Some p ->
  ProcessTable.state (proc_table (sched m)) c = Some (Zombie e) -> canonical a ->
  range_accessible (ram (mem m)) (p_address_space p) Write a wait_status_size = true ->
  waited m t c (Some a) m' ->
  read_user (ram (mem m')) (p_address_space p) a 8 = Ok (wait_status_bytes e) /\
  kmem m' (saved_rsp t + OFF_RAX) = c /\ ProcessTable.get (proc_table (sched m')) c = None.
Proof.
  intros K Is Hpid Hp Hst Hc Hacc W. destruct (wt_result _ _ _ _ _ W) as (pid' & r & Hpid' & Hs & Hr).
  assert (pid' = pid) as -> by congruence. destruct Hs as (p' & e' & Hp' & Hst' & E).
  assert (p' = p) as -> by congruence. assert (e' = e) as -> by congruence.
  pose proof (isolated_copy m pid p a _ r _ K Is Hp Hc E) as Hcopy. destruct r as [[]|err].
  - destruct Hr as (Hrem & _ & Hk). split; [exact Hcopy|]. split; [|exact (rs_gone _ _ _ Hrem)].
    rewrite Hk. unfold kwrite. by rewrite Z.eqb_refl.
  - destruct Hcopy as (i & Hi & He). rewrite wait_status_length in Hi.
    destruct (proj1 (range_accessible_spec _ _ _ _ _) Hacc i Hi) as [x Hx]. congruence.
Qed.

(** Changing tasks leaves the processes and their memory alone. *)
Lemma isolated_task m i t : isolated m -> isolated (with_task m i t).
Proof. intros []. by constructor. Qed.

Lemma waitpid_status frame_rsp child a options (m : Machine) cur t pid p e :
  ok m -> isolated m -> current (sched m) = Some cur -> vget (tasks (sched m)) cur = Some t ->
  process_id t = Some pid -> ProcessTable.get (proc_table (sched m)) pid = Some p -> canonical a ->
  wait_error m pid p child (Some a) options = None ->
  ProcessTable.state (proc_table (sched m)) child = Some (Zombie e) ->
  exists m', waitpid_from_interrupt frame_rsp child (Some a) options m = Done (Resume frame_rsp, m') /\
    kmem m' (frame_rsp + OFF_RAX) = child /\
    read_user (ram (mem m')) (p_address_space p) a 8 = Ok (wait_status_bytes e) /\
    ProcessTable.get (proc_table (sched m')) child = None.
Proof.
  intros K Is Hc Ht Hpid Hp Ha Hw Hst.
  assert (forall b, Some a = Some b -> canonical b) as Hcan by (by intros b [= <-]).
  pose proof (waitpid_run frame_rsp child (Some a) options m K Hcan) as H.
  apply wp_done in H as (r & m' & E & _ & [(cur' & t' & pid' & p' & H1 & H2 & H3 & [H4 _] & O)|[Hn _]]).
  2: { by rewrite (Hn cur t Hc Ht) in Hpid. }
  assert (cur' = cur) as -> by congruence. assert (t' = t) as -> by congruence.
  assert (pid' = pid) as -> by congruence. assert (p' = p) as -> by congruence.
  unfold waitpid_outcome in O. rewrite Hw, Hst in O. destruct O as [-> W]. exists m'. split; [done|].
  unfold wait_error in Hw. destruct (_ && _); [done|]. destruct (_ || _); [done|].
  destruct (range_accessible _ _ _ _ _) eqn:Hr; [|done].
  assert (ok (with_task m cur (set_saved_rsp t frame_rsp))) as K1 by (by eapply ok_with_task).
  destruct (waited_status _ (set_saved_rsp t frame_rsp) pid p child e a m' K1
    (isolated_task m _ _ Is) Hpid Hp Hst Ha Hr W) as (W1 & W2 & W3). done.
Qed.

(** ** The heap *)

(** The memory of a process after [brk]: zeroed writable pages where the heap
    grew, none where it shrank, the rest as before. *)
Lemma brk_view m requested r m' pid p :
  isolated m -> is_u64 requested -> current_proc m = Some pid ->
  ProcessTable.get (proc_table (sched m)) pid = Some p -> brk_outcome m requested r m' ->
  exists p', ProcessTable.get (proc_table (sched m')) pid = Some p' /\ root p' = root p /\
    moved_view (root p) (heap_mapped_end (p_heap p)) (heap_mapped_end (p_heap p')) (mem m) (mem m').
Proof.
  intros Is Hu Hc Hp O. unfold brk_outcome in O. rewrite Hc in O. destruct O as (p0 & [Hp0 _] & O).
  assert (p0 = p) as -> by congruence.
  assert (forall x, same_view (root p) (mem m) x ->
    moved_view (root p) (heap_mapped_end (p_heap p)) (heap_mapped_end (p_heap p)) (mem m) x) as Hsame.
  { intros x Hx a Ha. rewrite !decide_False by lia. by apply Hx. }
  assert (forall m'', proc_table (sched m'') = proc_table (sched m) -> same_view (root p) (mem m) (mem m'') ->
    exists p', ProcessTable.get (proc_table (sched m'')) pid = Some p' /\ root p' = root p /\
    moved_view (root p) (heap_mapped_end (p_heap p)) (heap_mapped_end (p_heap p')) (mem m) (mem m'')) as Hkept.
  { intros m'' E Hv. exists p. rewrite E. auto. }
  assert (same_view (root p) (mem m) (mem m)) as Hrefl by done.
  unfold brk_process in O. destruct (requested =? 0); [destruct O as [_ ->]; auto|].
  destruct (Z.ltb_spec requested (heap_start (p_heap p))); [destruct O as [_ ->]; auto|]. rewrite Z.gtb_ltb in O.
  destruct (Z.ltb_spec (heap_limit (p_heap p)) requested); [destruct O as [_ ->]; auto|].
  destruct (requested =? heap_brk (p_heap p)); [destruct O as [_ ->]; auto|].
  destruct O as (stop & moved & x & Hup & Emv & O). destruct (is_heap _ Is _ _ Hp) as [Huh Hmap].
  destruct (move_mapping_spec _ _ _ _ _ _ _ _ (is_space _ Is) (root_in _ _ _ Hp) Huh Hu Hmap ltac:(lia) Hup Emv)
    as [_ Ho]. destruct moved as [[]|e]; destruct O as [_ ->]; cbn [move_outcome] in Ho.
  - set (p' := set_heap p (set_break (p_heap p) requested stop)). exists p'. split; [|by split].
    change (ProcessTable.get (ProcessTable.update (proc_table (sched m)) pid p') pid = Some p').
    by rewrite (get_update _ _ p), decide_True.
  - apply Hkept; [done|]. by destruct Ho.
Qed.

(** ** A spawned program *)

(** The new process finds the image at its addresses and nothing elsewhere. *)
Definition elf_spawned (elf : ParsedElf) (r : result SpawnError UserProcessHandle) (m' : Machine) : Prop :=
  match r with
  | Ok h => exists p, live (proc_table (sched m')) (handle_pid h) p /\
      fresh_heap (p_heap p) /\
      forall a, 0 <= a < 2 ^ 48 -> view (ram (mem m')) (root p) a = image elf a
  | Err _ => True
  end.

Lemma spawn_elf_image stack elf_bytes elf arg0 (m : Machine) :
  ok m -> isolated m -> Forall is_byte elf_bytes -> parse_elf elf_bytes = Ok elf ->
  wp (spawn_user_elf_process_with_arg stack elf_bytes arg0)
    (fun r m' => elf_spawned elf r m' /\ quiet (fun _ => False) m m') m.
Proof.
  intros K Is Hb Hp. apply wp_and.
  2: { eapply wp_mono; [by apply (spawn_elf_steps stack None)|]. by intros r m' [_ Q]. }
  unfold spawn_user_elf_process_with_arg. apply wp_try. unfold st_map_err. apply wp_bind, wp_zoom.
  eapply wp_mono.
  { apply wp_and; [exact (load_user_elf_safe elf_bytes arg0 Hb (mem m) (bo_mem _ (ok_base _ K)))|].
    apply (load_user_elf_run elf_bytes arg0 elf (mem m) _ Hb Hp (is_space _ Is) (is_table _ Is)). }
  intros r x [[Hx _] H]. cbn beta. apply wp_ret. pose proof (ok_set_mem m x K Hx) as Kx.
  destruct r as [init|e]; cbn [map_err load_outcome] in *; [|done].
  destruct H as (L & _ & _ & _ & Hh). apply wp_bind, wp_get.
  eapply wp_mono; [apply spawn_user_process_run; [done|by destruct Hh as [[] _]]|].
  intros [h|e] m' [_ S]; [|done]. destruct S as (_ & _ & t & p & Pu & _ & Hl & _ & Ea & Eh & _).
  exists p. split; [done|]. split; [by rewrite Eh|]. unfold root. rewrite Ea, (pu_mem _ _ _ Pu).
  exact (ld_view _ _ _ _ _ L).
Qed.

(** ** The kernel's table *)

Lemma isolated_kernel_table m q p a t s :
  isolated m -> ProcessTable.get (proc_table (sched m)) q = Some p ->
  translate (ram (mem m)) (root p) a = Some t -> memory_state (mem m) = Some s ->
  ~ (ms_kernel_level_4_frame s <= phys t < ms_kernel_level_4_frame s + 4096).
Proof.
  intros Is Hp Ht Hs Hx. pose proof (is_space _ Is) as I.
  destruct (translate_node _ _ _ _ Ht) as (qq & f & Hq & _ & Hw & Hph). pose proof (Z.mod_pos_bound a 4096).
  assert (roots (proc_table (sched m)) (root p)) as Hl by (by exists q, p).
  destruct (kernel_frame_not_node _ _ _ _ _ _ I Hs Hl Hq Hw).
  destruct I as [(s' & Hs' & [_ _ _ [[Hk0 _] _]]) F]. assert (s' = s) as -> by congruence.
  destruct (fo_node _ _ _ F _ qq f Hl Hq Hw) as [[Hf _] _].
  apply (frames_overlap f _ (phys t)); (done || lia).
Qed.
End confinement.
