(* ===== verification/KernelHeap.v ===== *)
(** * The kernel heap and the boot of a test kernel
    (src/src/allocator.rs, src/src/memory.rs)

    [init_heap] maps the pages of the kernel heap with the bootloader's frame
    allocator; [init_global] then hands that allocator to the memory state of
    the kernel. Shown here: the heap's pages are mapped to different fresh
    frames that user mode cannot reach, nothing else of memory changes, and
    the memory afterwards is one from which the theorems on isolation start. *)

From S2P Require Import Prelude File Fd X86 Memory AddressSpace PageTables Spaces SpaceOps UserMemory.
From S2P Require Import Process Context Serial Task Syscall User Elf Scheduler SchedulerCalls System Isolation.

Definition HEAP_START : Z := 0x555555550000.
Definition HEAP_SIZE : Z := 100 * 1024.

(** The state before [init_global]: memory, the allocator in the boot code's
    local variable, and the range of the [#[global_allocator]]. *)
Record Early : Type := mkEarly {
  early_ram : Ram;
  early_alloc : BootInfoFrameAllocator;
  ALLOCATOR : option (Z * Z)
}.

(** [Page::range_inclusive] *)
Definition page_range (first last : Z) : list Z :=
  map (fun i => first + 4096 * i) (seqZ 0 ((last - first) / 4096 + 1)).

Section init_heap.
Context {X : X86_64}.

Definition heap_flags : Z := Z.lor PRESENT WRITABLE.

(** [for page in page_range], on the page table in [l4]. *)
Fixpoint map_heap_pages (l4 : Z) (pages : list Z) : ST Early (result MapToError unit) :=
  match pages with
  | [] => st_ret (Ok tt)
  | page :: rest =>
      let* e := st_get in
      let '(frame, a) := allocate_frame (early_alloc e) in
      st_put (mkEarly (early_ram e) a (ALLOCATOR e)) ;;;
      match frame with
      | None => st_ret (Err MapFrameAllocationFailed)
      | Some frame =>
          let '(r, ram, a) := map_to allocate_frame (early_ram e) a l4 page frame heap_flags in
          st_put (mkEarly ram a (ALLOCATOR e)) ;;;
          match r with
          | Ok _ => map_heap_pages l4 rest
          | Err error => st_ret (Err error)
          end
      end
  end.

Definition init_heap (l4 : Z) : ST Early (result MapToError unit) :=
  let* heap_start := virt_addr HEAP_START in
  let heap_end := heap_start + HEAP_SIZE - 1 in
  let heap_start_page := Page_containing_address heap_start in
  let heap_end_page := Page_containing_address heap_end in
  let? _ := map_heap_pages l4 (page_range heap_start_page heap_end_page) in
  st_modify (fun e => mkEarly (early_ram e) (early_alloc e) (Some (HEAP_START, HEAP_SIZE))) ;;;
  st_ret (Ok tt).
End init_heap.

(** ** What [init_heap] does *)

Section heap.
Context {X : X86_64} {XS : X86_64_Spec X} {XP : X86_64_Paging X}.

(** The kernel's level-4 table, and the indices of the path to the heap. *)
Context (k : Z).

Definition I4 : Z := 170.
Definition I3 : Z := 341.
Definition I2 : Z := 170.
Definition I1 : Z := 336.
Definition PAGES : Z := 25.

Lemma heap_pages : page_range (Page_containing_address HEAP_START)
    (Page_containing_address (HEAP_START + HEAP_SIZE - 1)) = map (fun j => HEAP_START + 4096 * j) (seqZ 0 PAGES).
Proof. by rewrite !page_containing_address_spec by done. Qed.

Lemma heap_index j : 0 <= j < PAGES ->
  let page := HEAP_START + 4096 * j in
  p4_index page = I4 /\ p3_index page = I3 /\ p2_index page = I2 /\ p1_index page = I1 + j.
Proof.
  intros Hj page. assert (0 <= page) as Hp by (unfold page, HEAP_START; lia).
  destruct (page_index_spec page Hp) as (-> & -> & -> & ->). subst page.
  assert (j ∈ seqZ 0 PAGES) as Hi by (apply elem_of_seqZ; lia). revert j Hj Hp Hi.
  assert (Forall (fun j => let page := HEAP_START + 4096 * j in
    page / 2 ^ 39 mod 512 = I4 /\ page / 2 ^ 30 mod 512 = I3 /\ page / 2 ^ 21 mod 512 = I2 /\
    page / 2 ^ 12 mod 512 = I1 + j) (seqZ 0 PAGES)) as H by (by repeat constructor).
  intros j _ _ Hi. rewrite Forall_forall in H. by apply H.
Qed.

(** Entry [i] of table [t] maps [f] for the kernel only. *)
Definition maps (r : Ram) (t i f : Z) : Prop := maps_frame (read_entry r t i) f heap_flags.

Lemma issued_usable a f : issued a f -> f ∈ usable_frames a.
Proof. intros (i & _ & H). by eapply vget_elem_of. Qed.

Lemma issued_phys a f : alloc_ok k a -> issued a f -> phys_frame f.
Proof. intros Ha Hf. by apply (usable_phys k a), issued_usable. Qed.

Lemma issued_not_kernel a f : alloc_ok k a -> issued a f -> f <> k.
Proof. intros [_ _ _ [_ H]] Hf ->. by apply H, issued_usable. Qed.

(** What may change up to the allocator state [a]: frames it has given out
    and the level-4 entry of the heap. The bytes of the kernel's table stay
    bytes. *)
Definition in_frame (f x : Z) : Prop := f <= x < f + 4096.

Definition kept (a : BootInfoFrameAllocator) (r r' : Ram) : Prop :=
  (forall x, (forall f, issued a f -> ~ in_frame f x) -> ~ (k + 8 * I4 <= x < k + 8 * I4 + 8) -> r' x = r x) /\
  ((forall x, in_frame k x -> is_byte (r x)) -> forall x, in_frame k x -> is_byte (r' x)).

Lemma kept_refl a r r' : ram_eq r' r -> kept a r r'.
Proof. intros H. split; [by intros|]. intros Hb x Hx. rewrite H. by apply Hb. Qed.

Lemma kept_trans a a' r1 r2 r3 :
  (forall f, issued a f -> issued a' f) -> kept a r1 r2 -> kept a' r2 r3 -> kept a' r1 r3.
Proof.
  intros Hi [A1 B1] [A2 B2]. split; [|by auto]. intros x Hx He. rewrite A2, A1; auto.
Qed.

(** The entry is in a table of the allocator or is the heap's level-4 entry. *)
Definition heap_entry (a : BootInfoFrameAllocator) (t i : Z) : Prop :=
  issued a t \/ (t = k /\ i = I4).

Lemma heap_entry_aligned a t i : alloc_ok k a -> heap_entry a t i -> t mod 4096 = 0.
Proof.
  intros Ha [Ht|[-> _]]; [by destruct (issued_phys a t Ha Ht)|]. by destruct (al_kernel _ _ Ha) as [[? _] _].
Qed.

Lemma kernel_apart a f x : alloc_ok k a -> issued a f -> in_frame k x -> ~ in_frame f x.
Proof.
  intros Ha Hf Hx Hfx. destruct (al_kernel _ _ Ha) as [[Hk _] _]. destruct (issued_phys a f Ha Hf) as [Hf0 _].
  apply (issued_not_kernel a f Ha Hf). by apply (frames_overlap f k x).
Qed.

Lemma write_kept a r t i e :
  alloc_ok k a -> heap_entry a t i -> 0 <= i < 512 -> kept a r (write_entry r t i e).
Proof.
  intros Ha He Hi. pose proof (length_to_le_bytes 8 e) as Hl.
  assert (forall x, ~ (t + 8 * i <= x < t + 8 * i + 8) -> write_entry r t i e x = r x) as Hw.
  { intros x Hx. rewrite write_entry_at, (proj2 (vget_None _ _)); [done|].
    unfold vlen. rewrite Hl. lia. }
  assert (forall x, is_byte (r x) -> is_byte (write_entry r t i e x)) as Hb.
  { intros x Hx. rewrite write_entry_at. destruct (vget _ _) as [b|] eqn:E; [|done].
    apply vget_elem_of in E. pose proof (to_le_bytes_byte 8 e) as H. rewrite Forall_forall in H. by apply H. }
  split; [|auto]. intros x Hx Hne. apply Hw. destruct He as [Ht|[-> ->]]; [|done].
  specialize (Hx t Ht). unfold in_frame in Hx. lia.
Qed.

Lemma fill_kept a r f : alloc_ok k a -> issued a f -> kept a r (fill_bytes r f 4096 0).
Proof.
  intros Ha Hf. split; [intros x Hx _; apply fill_other, (Hx f Hf)|].
  intros Hb x Hx. rewrite fill_other; [by apply Hb|]. by apply (kernel_apart a f x).
Qed.

(** ** One level down *)

Record stepped (r : Ram) (a : BootInfoFrameAllocator) (t i next : Z) (r' : Ram) (a' : BootInfoFrameAllocator) :
    Prop := mkStepped {
  sp_alloc : alloc_ok k a';
  sp_issued : forall f, issued a f -> issued a' f;
  sp_kept : kept a' r r';
  sp_maps : maps r' t i next;
  sp_other : forall h j, issued a h \/ h = k -> 0 <= j < 512 -> ~ (h = t /\ j = i) ->
    read_entry r' h j = read_entry r h j
}.

Lemma table_aligned a h : alloc_ok k a -> issued a h \/ h = k -> h mod 4096 = 0.
Proof.
  intros Ha [Ht| ->]; [by destruct (issued_phys a h Ha Ht)|]. by destruct (al_kernel _ _ Ha) as [[? _] _].
Qed.

(** An unused entry gets a fresh, empty table. *)
Lemma next_new r a t i next r' a' :
  alloc_ok k a -> heap_entry a t i -> 0 <= i < 512 -> read_entry r t i = 0 ->
  next_table allocate_frame heap_flags r a t i next r' a' ->
  stepped r a t i next r' a' /\ issued a' next /\ ~ issued a next /\
  forall j, 0 <= j < 512 -> read_entry r' next j = 0.
Proof.
  intros Ha He Hi Hz. unfold next_table. rewrite entry_unused_zero, Hz. cbn [Z.eqb].
  intros (Hal & e & M & Hr). pose proof (heap_entry_aligned a t i Ha He) as Hta.
  destruct (fs_some _ _ _ (boot_frame_source k) a next a' Ha Hal) as (Ha' & [Hn _] & Hfresh & Hown).
  assert (forall f, issued a f -> issued a' f) as Hmono by (intros; apply Hown; by left).
  assert (issued a' next) as Hnext by (apply Hown; by right).
  assert (t <> next) as Hne.
  { intros ->. destruct He as [?|[-> _]]; [done|]. by apply (issued_not_kernel a' k Ha' Hnext). }
  assert (forall h j, h mod 4096 = 0 -> 0 <= j < 512 -> read_entry r' h j =
    if decide (h = next) then 0 else if decide (h = t /\ j = i) then e else read_entry r h j) as E.
  { intros h j Hh Hj. rewrite (read_entry_ext _ _ h j Hr), read_fill_entry by done. case_decide; [done|].
    by apply read_write_entry; [apply M|..]. }
  split; [|split; [done|split; [done|]]].
  - constructor; [done|done| | |].
    + eapply (kept_trans a' a'); [done|apply (write_kept a' r t i e Ha'); [|done]|].
      * destruct He as [?|?]; [left; by apply Hmono|by right].
      * eapply (kept_trans a' a'); [done|by apply fill_kept|by apply kept_refl].
    + unfold maps. rewrite E by done. by rewrite decide_False, decide_True by done.
    + intros h j Hh Hj Hd. rewrite E by (done || by apply (table_aligned a)). rewrite decide_False.
      * by rewrite decide_False.
      * intros ->. destruct Hh as [?| ->]; [done|]. by apply (issued_not_kernel a' k Ha' Hnext).
  - intros j Hj. rewrite E by done. by rewrite decide_True.
Qed.

(** A used entry is followed. *)
Lemma next_old r a t i f next r' a' :
  alloc_ok k a -> heap_entry a t i -> 0 <= i < 512 -> maps r t i f ->
  next_table allocate_frame heap_flags r a t i next r' a' ->
  stepped r a t i next r' a' /\ next = f /\ a' = a.
Proof.
  intros Ha He Hi M. pose proof M as [Hu Hf Hfl]. unfold next_table. rewrite entry_unused_zero.
  destruct (Z.eqb_spec (read_entry r t i) 0) as [Hz|Hz].
  { rewrite Hz, entry_frame_zero in Hf. done. }
  intros (-> & Hnx & Hcase). assert (f = next) as <- by (by apply Hnx). split; [|done].
  pose proof (heap_entry_aligned a t i Ha He) as Hta.
  destruct Hcase as [[_ Hr]|(e & Me & Hr)].
  - constructor; [done|done|by apply kept_refl| |].
    + unfold maps. by rewrite (read_entry_ext _ _ t i Hr).
    + intros h j _ _ _. by apply read_entry_ext.
  - rewrite Hfl in Me. change (Z.lor heap_flags heap_flags) with heap_flags in Me.
    assert (forall h j, h mod 4096 = 0 -> 0 <= j < 512 ->
      read_entry r' h j = if decide (h = t /\ j = i) then e else read_entry r h j) as E.
    { intros h j Hh Hj. rewrite (read_entry_ext _ _ h j Hr). apply read_write_entry; try done. apply Me. }
    constructor; [done|done| | |].
    + eapply (kept_trans a a); [done|by apply (write_kept a r t i e)|by apply kept_refl].
    + unfold maps. rewrite E by done. by rewrite decide_True.
    + intros h j Hh Hj Hd. rewrite E by (done || by apply (table_aligned a)). by rewrite decide_False.
Qed.
(** ** The path to the heap *)

(** The entries along [indices] from table [t] are used down to some level,
    through the tables [ts], and then unused. *)
Inductive ready (r : Ram) (a : BootInfoFrameAllocator) : Z -> list Z -> list Z -> Prop :=
| ready_nil t : ready r a t [] []
| ready_new t i indices : read_entry r t i = 0 -> ready r a t (i :: indices) []
| ready_old t i f indices ts :
    maps r t i f -> issued a f -> t ∉ f :: ts -> ready r a f indices ts ->
    ready r a t (i :: indices) (f :: ts).

Lemma ready_change r r' a a' t indices ts :
  (forall f, issued a f -> issued a' f) -> Forall (fun i => 0 <= i < 512) indices ->
  (forall h j, h ∈ t :: ts -> 0 <= j < 512 -> read_entry r' h j = read_entry r h j) ->
  ready r a t indices ts -> ready r' a' t indices ts.
Proof.
  intros Hm Hi He H. induction H as [t|t i l Hz|t i f l ts M Hf Hn _ IH]; [constructor| |].
  - apply Forall_cons in Hi as [Hi _]. constructor. rewrite He; [done|by left|done].
  - apply Forall_cons in Hi as [Hi Hl]. constructor; [|by apply Hm|done|].
    + unfold maps. rewrite He; [done|by left|done].
    + apply IH; [done|]. intros h j Hh. apply He. by right.
Qed.

Lemma ready_issued r a t indices ts : ready r a t indices ts -> Forall (issued a) ts.
Proof. induction 1; constructor; done. Qed.

(** Going down part of the path keeps the rest ready. *)
Lemma descend_ready indices rest r a t r' a' t' ts :
  descend allocate_frame heap_flags indices r a t r' a' t' ->
  alloc_ok k a -> Forall (fun i => 0 <= i < 512) (indices ++ rest) ->
  (forall i, head (indices ++ rest) = Some i -> heap_entry a t i) ->
  ready r a t (indices ++ rest) ts ->
  alloc_ok k a' /\ (forall f, issued a f -> issued a' f) /\ kept a' r r' /\
  (exists ts', ready r' a' t' rest ts') /\ (forall i, head rest = Some i -> heap_entry a' t' i).
Proof.
  intros D. revert ts. induction D as [r a t|i l r a t next r1 a1 r' a' t' N D IH]; intros ts Ha Hb Hh H.
  { split; [done|]. split; [done|]. split; [by apply kept_refl|]. split; [by exists ts|done]. }
  cbn [app] in *. apply Forall_cons in Hb as [Hi Hb]. pose proof (Hh i eq_refl) as He.
  assert (exists ts1, stepped r a t i next r1 a1 /\ issued a1 next /\ ready r1 a1 next (l ++ rest) ts1)
    as (ts1 & S & Hn & H1).
  { inversion H as [|? ? ? Hz|? ? f ? ts0 M Hf Hnin Hr]; subst.
    - destruct (next_new r a t i next r1 a1 Ha He Hi Hz N) as (S & Hn & _ & Hz1). exists [].
      split; [done|]. split; [done|]. destruct (l ++ rest) as [|j l']; constructor.
      apply Hz1. by apply Forall_cons in Hb as [? _].
    - destruct (next_old r a t i f next r1 a1 Ha He Hi M N) as (S & -> & ->). exists ts0.
      split; [done|]. split; [done|]. apply (ready_change r r1 a a); [done|done| |done].
      intros h j Hin Hj. apply (sp_other _ _ _ _ _ _ _ S); [|done|by intros [-> _]]. left.
      apply elem_of_cons in Hin as [->|Hin]; [done|]. pose proof (ready_issued _ _ _ _ _ Hr) as F.
      rewrite Forall_forall in F. by apply F. }
  destruct (IH ts1 (sp_alloc _ _ _ _ _ _ _ S) Hb) as (Ha' & Hm' & K' & R' & E'); [by left|done|].
  destruct S as [_ Hm K _ _]. split; [done|]. split; [by auto|]. split; [by eapply kept_trans|done].
Qed.

(** The tables of the heap and the frames of its first pages. *)
Record heap_tables (r : Ram) (a : BootInfoFrameAllocator) (l3 l2 l1 : Z) (frames : list Z) : Prop := mkTables {
  tb_4 : maps r k I4 l3;
  tb_3 : maps r l3 I3 l2;
  tb_2 : maps r l2 I2 l1;
  tb_pages : forall j f, vget frames j = Some f -> maps r l1 (I1 + j) f;
  tb_free : forall j, vlen frames <= j < PAGES -> read_entry r l1 (I1 + j) = 0;
  tb_issued : Forall (issued a) (l3 :: l2 :: l1 :: frames);
  tb_nodup : NoDup (l3 :: l2 :: l1 :: frames)
}.

Definition heap_state (r : Ram) (a : BootInfoFrameAllocator) (frames : list Z) : Prop :=
  (frames = [] /\ read_entry r k I4 = 0) \/ exists l3 l2 l1, heap_tables r a l3 l2 l1 frames.

Lemma heap_state_ready r a frames :
  alloc_ok k a -> heap_state r a frames -> exists ts, ready r a k [I4; I3; I2] ts.
Proof.
  intros Ha [[_ Hz]|(l3 & l2 & l1 & T)]; [exists []; by constructor|]. exists [l3; l2; l1].
  destruct T as [T4 T3 T2 _ _ Hi Hd].
  rewrite !Forall_cons in Hi. destruct Hi as (H3 & H2 & H1 & _). rewrite !NoDup_cons, !not_elem_of_cons in Hd.
  assert (forall f, issued a f -> k <> f) as Hk by (intros f Hf E; by apply (issued_not_kernel a f Ha)).
  destruct Hd as ((N32 & N31 & _) & (N21 & _) & _). pose proof (not_elem_of_nil (A:=Z)).
  apply ready_old; [done|done|rewrite !not_elem_of_cons; auto|].
  apply ready_old; [done|done|rewrite !not_elem_of_cons; auto|].
  apply ready_old; [done|done|rewrite !not_elem_of_cons; auto|]. constructor.
Qed.
Lemma heap_bounds : 0 <= I4 < 512 /\ 0 <= I3 < 512 /\ 0 <= I2 < 512.
Proof. by vm_compute. Qed.

Lemma page_entry_bounds j : 0 <= j < PAGES -> 0 <= I1 + j < 512.
Proof. unfold PAGES, I1. lia. Qed.

(** The entry belongs to another table. *)
Ltac other_table := let H := fresh in intros [H _]; congruence.

(** The first descent creates the three tables. *)
Lemma descend_first r a r' a' t' :
  alloc_ok k a -> read_entry r k I4 = 0 -> descend allocate_frame heap_flags [I4; I3; I2] r a k r' a' t' ->
  exists l3 l2, heap_tables r' a' l3 l2 t' [] /\ ~ issued a l3 /\ ~ issued a l2 /\ ~ issued a t'.
Proof.
  intros Ha Hz D. destruct heap_bounds as (B4 & B3 & B2).
  inversion D as [|? ? ? ? ? l3 ra aa ? ? ? N1 D1]; subst. inversion D1 as [|? ? ? ? ? l2 rb ab ? ? ? N2 D2]; subst.
  inversion D2 as [|? ? ? ? ? l1 rc ac ? ? ? N3 D3]; subst. inversion D3; subst. clear D D1 D2 D3.
  destruct (next_new _ _ _ _ _ _ _ Ha (or_intror (conj eq_refl eq_refl)) B4 Hz N1) as ([Ha1 M1 _ P1 O1] & H3 & F3 & Z3).
  destruct (next_new _ _ _ _ _ _ _ Ha1 (or_introl H3) B3 (Z3 _ B3) N2) as ([Ha2 M2 _ P2 O2] & H2 & F2 & Z2).
  destruct (next_new _ _ _ _ _ _ _ Ha2 (or_introl H2) B2 (Z2 _ B2) N3) as ([Ha3 M3 _ P3 O3] & H1 & F1 & Z1).
  assert (l3 <> k) as K3 by (by apply (issued_not_kernel _ _ Ha1)).
  assert (l2 <> k) as K2 by (by apply (issued_not_kernel _ _ Ha2)).
  assert (l2 <> l3 /\ t' <> l3 /\ t' <> l2) as (N32 & N31 & N21) by (split_and!; intros ->; auto).
  exists l3, l2. split; [|split; [done|split; auto]]. constructor.
  - unfold maps. rewrite O3, O2; [done|by right|done|other_table|by right|done|other_table].
  - unfold maps. rewrite O3; [done|by left; auto|done|]. intros [? _]. congruence.
  - done.
  - intros j f Hj. by rewrite vget_nil in Hj.
  - intros j Hj. apply Z1. apply page_entry_bounds. unfold vlen in Hj. cbn in Hj. lia.
  - repeat constructor; auto.
  - repeat constructor; rewrite ?not_elem_of_cons; pose proof (not_elem_of_nil (A:=Z)); auto.
Qed.

(** Later descents follow them. *)
Lemma descend_again r a l3 l2 l1 frames r' a' t' :
  alloc_ok k a -> heap_tables r a l3 l2 l1 frames -> vlen frames <= PAGES ->
  descend allocate_frame heap_flags [I4; I3; I2] r a k r' a' t' ->
  heap_tables r' a' l3 l2 l1 frames /\ t' = l1.
Proof.
  intros Ha T Hlen D. destruct heap_bounds as (B4 & B3 & B2).
  inversion D as [|? ? ? ? ? l3' ra aa ? ? ? N1 D1]; subst. inversion D1 as [|? ? ? ? ? l2' rb ab ? ? ? N2 D2]; subst.
  inversion D2 as [|? ? ? ? ? l1' rc ac ? ? ? N3 D3]; subst. inversion D3; subst. clear D D1 D2 D3.
  destruct T as [T4 T3 T2 TP TF Hi Hd]. pose proof Hi as Hi0. pose proof Hd as Hd0.
  rewrite !Forall_cons in Hi. destruct Hi as (H3 & H2 & H1 & _). rewrite !NoDup_cons, !not_elem_of_cons in Hd.
  destruct Hd as ((N32 & N31 & _) & (N21 & _) & _).
  assert (forall f, issued a f -> f <> k) as HK by (intros f; by apply issued_not_kernel).
  pose proof (HK _ H3). pose proof (HK _ H2). pose proof (HK _ H1).
  destruct (next_old _ _ _ _ _ _ _ _ Ha (or_intror (conj eq_refl eq_refl)) B4 T4 N1) as ([_ _ _ P1 O1] & -> & ->).
  assert (maps ra l3 I3 l2) as T3a by (unfold maps; rewrite O1; [done|by left|done|other_table]).
  destruct (next_old _ _ _ _ _ _ _ _ Ha (or_introl H3) B3 T3a N2) as ([_ _ _ P2 O2] & -> & ->).
  assert (maps rb l2 I2 l1) as T2b.
  { unfold maps. rewrite O2, O1; [done|by left|done|other_table|by left|done|other_table]. }
  destruct (next_old _ _ _ _ _ _ _ _ Ha (or_introl H2) B2 T2b N3) as ([_ _ _ P3 O3] & -> & ->).
  assert (forall j, 0 <= j < 512 -> read_entry r' l1 j = read_entry r l1 j) as Hl1.
  { intros j Hj. rewrite O3, O2, O1; try done; try (by left); intros [? _]; congruence. }
  split; [|done]. constructor; [| |done| | |done|done].
  - unfold maps. rewrite O3, O2; [done|by right|done|other_table|by right|done|other_table].
  - unfold maps. rewrite O3; [done|by left|done|]. intros [? _]. congruence.
  - intros j f Hj. unfold maps. rewrite Hl1; [by apply TP|]. apply vget_range in Hj.
    apply page_entry_bounds. lia.
  - intros j Hj. pose proof (vlen_nonneg frames). rewrite Hl1; [by apply TF|]. apply page_entry_bounds. lia.
Qed.
(** The entry of the next page is written. *)
Lemma page_written_heap r a l3 l2 l1 frames e frame r' :
  alloc_ok k a -> heap_tables r a l3 l2 l1 frames -> vlen frames < PAGES ->
  issued a frame -> frame ∉ l3 :: l2 :: l1 :: frames ->
  maps_frame e frame heap_flags -> ram_eq r' (write_entry r l1 (I1 + vlen frames) e) ->
  heap_tables r' a l3 l2 l1 (frames ++ [frame]) /\ kept a r r'.
Proof.
  intros Ha [T4 T3 T2 TP TF Hi Hd] Hlen Hfr Hn Me Hr. pose proof (vlen_nonneg frames).
  destruct heap_bounds as (B4 & B3 & B2). pose proof Hi as Hi0. pose proof Hd as Hd0.
  rewrite !Forall_cons in Hi. destruct Hi as (H3 & H2 & H1 & _). rewrite !NoDup_cons, !not_elem_of_cons in Hd.
  destruct Hd as ((N32 & N31 & _) & (N21 & _) & _).
  assert (0 <= I1 + vlen frames < 512) as Bj by (apply page_entry_bounds; lia).
  assert (forall h j, issued a h \/ h = k -> 0 <= j < 512 -> read_entry r' h j =
    if decide (h = l1 /\ j = I1 + vlen frames) then e else read_entry r h j) as E.
  { intros h j Hh Hj. rewrite (read_entry_ext _ _ h j Hr).
    apply read_write_entry; [apply Me| |by apply (table_aligned a)|done|done]. apply (table_aligned a); auto. }
  pose proof (issued_not_kernel a l1 Ha H1) as Hk.
  split.
  - constructor.
    + unfold maps. rewrite E, decide_False; [done|other_table|by right|done].
    + unfold maps. rewrite E, decide_False; [done|other_table|by left|done].
    + unfold maps. rewrite E, decide_False; [done|other_table|by left|done].
    + intros j f Hj. pose proof (vget_range _ _ _ Hj) as Hjr. rewrite vlen_app in Hjr. unfold vlen in Hjr at 2.
      cbn in Hjr. unfold maps. rewrite E by ((by left) || (apply page_entry_bounds; lia)).
      destruct (decide (j = vlen frames)) as [->|Hne].
      * rewrite vget_app_snoc in Hj. injection Hj as <-. by rewrite decide_True.
      * rewrite decide_False by lia. rewrite vget_app_l in Hj by lia. by apply TP.
    + intros j Hj. rewrite vlen_app in Hj. unfold vlen in Hj at 2. cbn in Hj.
      rewrite E by ((by left) || (apply page_entry_bounds; lia)). rewrite decide_False by lia. apply TF. lia.
    + change (l3 :: l2 :: l1 :: frames ++ [frame]) with ((l3 :: l2 :: l1 :: frames) ++ [frame]).
      apply Forall_app. split; [done|by constructor].
    + change (l3 :: l2 :: l1 :: frames ++ [frame]) with ((l3 :: l2 :: l1 :: frames) ++ [frame]).
      apply NoDup_app. split; [done|]. split; [|apply NoDup_singleton].
      intros x Hx ->%list_elem_of_singleton. done.
  - eapply (kept_trans a a); [done|apply (write_kept a r l1 (I1 + vlen frames) e Ha); [by left|done]|by apply kept_refl].
Qed.

(** One turn of the loop, after the frame of the page has been taken. *)
Lemma map_heap_page r a frames frame a1 :
  alloc_ok k a -> heap_state r a frames -> vlen frames < PAGES -> allocate_frame a = (Some frame, a1) ->
  let '(res, r', a') := map_to allocate_frame r a1 k (HEAP_START + 4096 * vlen frames) frame heap_flags in
  alloc_ok k a' /\ (forall f, issued a f -> issued a' f) /\ kept a' r r' /\
  match res with Ok _ => heap_state r' a' (frames ++ [frame]) | Err _ => True end.
Proof.
  intros Ha Hs Hlen Hal. pose proof (vlen_nonneg frames).
  destruct (fs_some _ _ _ (boot_frame_source k) a frame a1 Ha Hal) as (Ha1 & Hphys & Hfresh & Hown).
  assert (forall f, issued a f -> issued a1 f) as M1 by (intros; apply Hown; by left).
  assert (issued a1 frame) as Hfr by (apply Hown; by right).
  destruct (heap_index (vlen frames)) as (E4 & E3 & E2 & E1); [lia|].
  assert (heap_state r a1 frames) as Hs1.
  { destruct Hs as [?|(l3 & l2 & l1 & [? ? ? ? ? Hi ?])]; [by left|right]. exists l3, l2, l1.
    constructor; try done. eapply Forall_impl; [exact Hi|exact M1]. }
  destruct (heap_state_ready r a1 frames Ha1 Hs1) as (ts & Hready). destruct heap_bounds as (B4 & B3 & B2).
  assert (Forall (fun i => 0 <= i < 512) [I4; I3; I2]) as HB by (by repeat constructor).
  pose proof (fs_allocates _ _ _ (boot_frame_source k)) as HA.
  assert (0 <= heap_flags < 128 /\ contains heap_flags PRESENT = true) as [HF1 HF2] by done.
  destruct (map_to _ _ _ _ _ _ _) as [[res r'] a'] eqn:Em.
  assert (forall indices rest r1 a2 t, [I4; I3; I2] = indices ++ rest ->
    descend allocate_frame heap_flags indices r a1 k r1 a2 t ->
    alloc_ok k a2 /\ (forall f, issued a f -> issued a2 f) /\ kept a2 r r1 /\ exists ts, ready r1 a2 t rest ts) as HD.
  { intros indices rest r1 a2 t Hsp D.
    destruct (descend_ready indices rest r a1 k r1 a2 t ts D Ha1) as (? & M & ? & ? & _);
      [by rewrite <- Hsp| |by rewrite <- Hsp|].
    - intros i Hi. rewrite <- Hsp in Hi. injection Hi as <-. by right.
    - by split_and!; auto. }
  destruct res as [[]|error].
  - destruct (map_to_Ok _ _ _ _ _ _ _ _ _ _ HA Ha1 Hphys HF1 HF2 Em) as (r1 & l1 & e & D & _ & Me & Hr).
    change (Z.land heap_flags _) with heap_flags in D. rewrite E4, E3, E2, E1 in *.
    destruct (HD [I4; I3; I2] [] r1 a' l1 eq_refl D) as (Ha' & M' & K & _).
    assert (exists l3 l2, heap_tables r1 a' l3 l2 l1 frames /\ frame ∉ l3 :: l2 :: l1 :: frames) as (l3 & l2 & T & Hn).
    { destruct Hs as [[-> Hz]|(l3 & l2 & l1' & T)].
      - destruct (descend_first r a1 r1 a' l1 Ha1 Hz D) as (l3 & l2 & T & F3 & F2 & F1). exists l3, l2.
        split; [done|]. rewrite !not_elem_of_cons. split_and!; try (by intros ->). apply not_elem_of_nil.
      - destruct Hs1 as [[-> Hz]|_].
        { exfalso. destruct T as [[_ T4 _] _ _ _ _ _ _]. by rewrite Hz, entry_frame_zero in T4. }
        assert (heap_tables r a1 l3 l2 l1' frames) as T1.
        { destruct T as [? ? ? ? ? Hi ?]. constructor; try done. eapply Forall_impl; [exact Hi|exact M1]. }
        destruct (descend_again r a1 l3 l2 l1' frames r1 a' l1 Ha1 T1 ltac:(lia) D) as [T' ->]. exists l3, l2.
        split; [done|]. intros Hin. apply Hfresh. pose proof (tb_issued _ _ _ _ _ _ T) as Hi.
        rewrite Forall_forall in Hi. by apply Hi. }
    assert (issued a' frame) as Hfr'.
    { destruct (descend_ready [I4; I3; I2] [] r a1 k r1 a' l1 ts D Ha1) as (_ & M & _); try done; [|by apply M].
      intros i [= <-]. by right. }
    destruct (page_written_heap r1 a' l3 l2 l1 frames e frame r' Ha' T Hlen Hfr' Hn Me Hr) as [T' K'].
    split; [done|]. split; [done|]. split; [eapply (kept_trans a' a'); [done|exact K|exact K']|].
    right. by exists l3, l2, l1.
  - destruct (map_to_Err _ _ _ _ _ _ _ _ _ _ _ HA Ha1 Hphys HF1 HF2 Em)
      as (indices & rest & r1 & a2 & t & Hsp & D & Hend).
    change (Z.land heap_flags _) with heap_flags in D. rewrite E4, E3, E2 in Hsp.
    destruct (HD indices rest r1 a2 t Hsp D) as (Ha2 & M2 & K2 & ts2 & R2).
    destruct rest as [|i rest].
    + destruct Hend as [-> Hr]. split; [done|]. split; [done|]. split; [|done].
      eapply kept_trans; [|exact K2|by apply kept_refl]; done.
    + destruct Hend as [[Hnone Hr]|(-> & Hused & Hf & _)].
      * destruct (fs_none _ _ _ (boot_frame_source k) _ _ Ha2 Hnone) as [Ha' Ho].
        split; [done|]. split; [intros f Hf; apply Ho; auto|]. split; [|done].
        eapply kept_trans; [|exact K2|by apply kept_refl]. intros f Hf. by apply Ho.
      * exfalso. rewrite entry_unused_zero in Hused.
        inversion R2 as [|? ? ? Hz|? ? f ? ? Hm]; subst; [by rewrite Hz in Hused|].
        destruct Hm as [_ Hm _]. by rewrite Hm in Hf.
Qed.
(** ** The whole range *)

(** The heap is mapped: its 25 pages go to different frames of the allocator,
    for the kernel only. *)
Record heap_mapped_at (r : Ram) (a : BootInfoFrameAllocator) (frames : list Z) : Prop := mkHeapMapped {
  hm_pages : forall j f, vget frames j = Some f -> exists l3 l2 l1,
    let page := HEAP_START + 4096 * j in
    maps r k (p4_index page) l3 /\ maps r l3 (p3_index page) l2 /\ maps r l2 (p2_index page) l1 /\
    maps r l1 (p1_index page) f;
  hm_length : vlen frames = HEAP_SIZE / 4096;
  hm_issued : Forall (issued a) frames;
  hm_nodup : NoDup frames
}.

Lemma map_heap_pages_run n frames e :
  alloc_ok k (early_alloc e) -> heap_state (early_ram e) (early_alloc e) frames ->
  vlen frames + Z.of_nat n = PAGES ->
  wp (map_heap_pages k (map (fun j => HEAP_START + 4096 * j) (seqZ (vlen frames) (Z.of_nat n)))) (fun res e' =>
    alloc_ok k (early_alloc e') /\ (forall f, issued (early_alloc e) f -> issued (early_alloc e') f) /\
    kept (early_alloc e') (early_ram e) (early_ram e') /\ ALLOCATOR e' = ALLOCATOR e /\
    match res with
    | Ok _ => exists more, heap_state (early_ram e') (early_alloc e') (frames ++ more) /\
                vlen more = Z.of_nat n
    | Err _ => True
    end) e.
Proof.
  revert frames e. induction n as [|n IH]; intros frames e Ha Hs Hn.
  { cbn. apply wp_ret. split; [done|]. split; [done|]. split; [by apply kept_refl|]. split; [done|].
    exists []. by rewrite app_nil_r. }
  pose proof (vlen_nonneg frames) as Hv. rewrite seqZ_cons by lia.
  replace (Z.succ (vlen frames)) with (vlen frames + 1) by lia. replace (Z.pred (Z.of_nat (S n))) with (Z.of_nat n) by lia.
  cbn [map map_heap_pages]. wp_steps. destruct (allocate_frame (early_alloc e)) as [[frame|] a1] eqn:Hal.
  - wp_steps. pose proof (map_heap_page (early_ram e) (early_alloc e) frames frame a1 Ha Hs ltac:(lia) Hal) as H.
    destruct (map_to _ _ _ _ _ _ _) as [[res r'] a']. destruct H as (Ha' & M & K & Hs'). wp_steps.
    destruct res as [[]|error]; [|by apply wp_ret].
    assert (vlen (frames ++ [frame]) = vlen frames + 1) as El by (by rewrite vlen_app).
    specialize (IH (frames ++ [frame]) (mkEarly r' a' (ALLOCATOR e)) Ha' Hs' ltac:(lia)).
    rewrite El in IH. eapply wp_mono; [exact IH|]. cbn [early_ram early_alloc ALLOCATOR].
    intros res e' (A' & M' & K' & E' & Hr). split; [done|]. split; [by auto|].
    split; [eapply kept_trans; [|exact K|exact K']; done|]. split; [done|]. destruct res as [[]|]; [|done].
    destruct Hr as (more & Hm & Hlm). exists (frame :: more). rewrite <- app_assoc in Hm. split; [done|].
    unfold vlen in *. cbn [length]. lia.
  - destruct (fs_none _ _ _ (boot_frame_source k) _ _ Ha Hal) as [Ha1 Ho]. wp_steps. apply wp_ret.
    cbn [early_ram early_alloc ALLOCATOR]. split; [done|]. split; [intros f Hf; by apply Ho|].
    split; [by apply kept_refl|done].
Qed.
Lemma init_heap_run e :
  alloc_ok k (early_alloc e) -> read_entry (early_ram e) k I4 = 0 ->
  wp (init_heap k) (fun res e' =>
    alloc_ok k (early_alloc e') /\ kept (early_alloc e') (early_ram e) (early_ram e') /\
    match res with
    | Ok _ => ALLOCATOR e' = Some (HEAP_START, HEAP_SIZE) /\
              exists frames, heap_mapped_at (early_ram e') (early_alloc e') frames
    | Err _ => ALLOCATOR e' = ALLOCATOR e
    end) e.
Proof.
  intros Ha Hz. unfold init_heap. rewrite virt_addr_ok by (left; done). wp_step. wp_step. cbv beta.
  rewrite heap_pages. wp_step.
  eapply wp_mono; [apply (map_heap_pages_run (Z.to_nat PAGES) [] e Ha); [by left|done]|].
  intros [[]|error] e' (Ha' & _ & K & E & H); [|by split_and!]. wp_steps.
  cbn [early_ram early_alloc ALLOCATOR]. split; [done|]. split; [done|]. split; [done|].
  destruct H as (frames & Hs & Hlen). cbn [app] in Hs. exists frames.
  destruct Hs as [[-> _]|(l3 & l2 & l1 & T)]; [done|]. destruct T as [T4 T3 T2 TP _ Hi Hd].
  constructor; [|done| |].
  - intros j f Hj. exists l3, l2, l1. cbn zeta. pose proof (vget_range _ _ _ Hj).
    destruct (heap_index j) as (-> & -> & -> & ->); [lia|]. by split_and!; try apply TP.
  - rewrite !Forall_cons in Hi. tauto.
  - rewrite !NoDup_cons in Hd. tauto.
Qed.
End heap.

(** ** Boot *)

Section boot.
Context {X : X86_64} {XS : X86_64_Spec X} {XP : X86_64_Paging X}.

(** The boot code of a test kernel from [BootInfoFrameAllocator::init] to
    [init_global]: the heap is mapped in the active page table, and the
    allocator moves into the memory state. *)
Definition boot_memory_init (physical_memory_offset : Z) (map : MemoryMap) : ST Machine unit :=
  let* m := st_get in
  match init_heap (cr3 (mem m)) (mkEarly (ram (mem m)) (allocator_init map) None) with
  | Done (Ok _, e) =>
      st_put (set_mem (set_ram (early_ram e) (mem m)) m) ;;;
      with_mem (init_global physical_memory_offset (early_alloc e))
  | Done (Err _, _) => st_panic "heap initialization failed"
  | Panic msg => st_panic msg
  end.

(** What the bootloader leaves: a memory map that does not offer the active
    level-4 table, whose entry for the heap is free. *)
Record handed_over (map : MemoryMap) (m : Machine) : Prop := mkHandedOver {
  ho_sched : sched m = Scheduler_new;
  ho_map : alloc_ok (cr3 (mem m)) (allocator_init map);
  ho_heap : read_entry (ram (mem m)) (cr3 (mem m)) I4 = 0;
  ho_bytes : forall x, in_frame (cr3 (mem m)) x -> is_byte (ram (mem m) x)
}.

(** The boot code either stops because the heap cannot be mapped, or leaves a
    machine from which every run is confined. *)
Lemma boot_memory_init_run offset map m :
  handed_over map m ->
  (exists error e, init_heap (cr3 (mem m)) (mkEarly (ram (mem m)) (allocator_init map) None) = Done (Err error, e)) \/
  exists m' e frames, boot_memory_init offset map m = Done (tt, m') /\ booted_memory m' /\
    ram (mem m') = early_ram e /\ ALLOCATOR e = Some (HEAP_START, HEAP_SIZE) /\
    heap_mapped_at (cr3 (mem m)) (ram (mem m')) (early_alloc e) frames.
Proof.
  intros [Hs Ha Hz Hb]. set (e0 := mkEarly (ram (mem m)) (allocator_init map) None).
  pose proof (init_heap_run (cr3 (mem m)) e0 Ha Hz) as H. apply wp_done in H as (res & e & E & Ha' & [_ K] & H).
  destruct res as [[]|error]; [right|left; by exists error, e]. destruct H as (HA & frames & Hm).
  eexists _, e, frames. split; [unfold boot_memory_init, st_bind, st_get; fold e0; by rewrite E|].
  split; [|by split_and!]. constructor.
  - constructor; [done|]. by eexists.
  - by eexists.
  - eexists. split; [done|]. cbn. by apply K.
Qed.
End boot.
