(* ===== verification/KernelMain.v ===== *)
(** * The boot sequence and the demo tasks (src/src/main.rs)

    [kernel_main] as the sequence of its calls on the state of the machine,
    the descriptor tables, the devices, and the lines printed. The two demo
    tasks are the lists of what they do between scheduling points; they run on
    the scheduler of the kernel, so that the order in which their lines appear
    is the order the scheduler gives. *)

From S2P Require Import Prelude X86 Memory AddressSpace Process Context Serial Task User Scheduler SchedulerCalls.
From S2P Require Import Interrupts Boot System KernelHeap.

(** What is printed: constant lines, and the lines with addresses. *)
Inductive line : Type :=
| Text (s : string)
| PhysicalMemoryOffset (offset : Z)
| Mapping (label : string) (virtual_address physical_address : Z)
| NotMapped (label : string) (virtual_address : Z)
| UsableRegions (n : Z)
| StackFrame.

(** ** The demo tasks *)

(** What a kernel task does: print a line or call [scheduler::yield_now]. *)
Inductive action : Type :=
| Println (s : string)
| YieldNow.

Definition demo_task_a : list action :=
  [Println "task A: 0"; YieldNow; Println "task A: 1"; YieldNow].

Definition demo_task_b : list action :=
  [Println "task B: 0"; YieldNow; Println "task B: 1"; YieldNow].

(** ** The state of the boot code *)

Record BootInfo : Type := mkBootInfo { bi_physical_memory_offset : Z; boot_memory_map : MemoryMap }.

Record BootState {G : Segments} : Type := mkBootState {
  bs_machine : Machine;
  bs_tables : CpuTables;
  bs_idt : Idt;
  bs_io : list io;
  bs_heap : option (Z * Z);
  bs_log : list line;
  bs_todo : list (list action)
}.

Section main.
Context {G : Segments} {X : X86_64}.

Definition set_boot_machine (m : Machine) (b : BootState) : BootState :=
  mkBootState G m (bs_tables b) (bs_idt b) (bs_io b) (bs_heap b) (bs_log b) (bs_todo b).

Definition on_machine {A} (op : ST Machine A) : ST BootState A := st_zoom bs_machine set_boot_machine op.

Definition println (l : line) : ST BootState unit :=
  st_modify (fun b => mkBootState G (bs_machine b) (bs_tables b) (bs_idt b) (bs_io b) (bs_heap b)
                        (bs_log b ++ [l]) (bs_todo b)).

Definition device (l : list io) : ST BootState unit :=
  st_modify (fun b => mkBootState G (bs_machine b) (bs_tables b) (bs_idt b) (bs_io b ++ l) (bs_heap b)
                        (bs_log b) (bs_todo b)).

(** [gdt::init], with the address of the double-fault stack. The selectors
    become those the scheduler builds frames with. *)
Definition init_gdt_tables (DOUBLE_FAULT_STACK : Z) : ST BootState unit :=
  let* b := st_get in
  match gdt_init DOUBLE_FAULT_STACK (bs_tables b) with
  | Panic msg => st_panic msg
  | Done (_, t) =>
      let m := bs_machine b in
      let c := mkCpu (interrupt_flag (cpu m)) (loaded_cs t) (loaded_ss t) (tss_rsp0 (cpu m))
                 (get_user_code_selector t) (get_user_data_selector t) in
      st_put (mkBootState G (set_cpu c m) t (bs_idt b) (bs_io b) (bs_heap b) (bs_log b) (bs_todo b)) ;;;
      println (Text "GDT initialized")
  end.

Definition init_idt_table : ST BootState unit :=
  st_modify (fun b => mkBootState G (bs_machine b) (bs_tables b) (init_idt (bs_idt b)) (bs_io b) (bs_heap b)
                        (bs_log b) (bs_todo b)) ;;;
  println (Text "IDT initialized").

Definition enable_interrupts : ST BootState unit :=
  on_machine (st_modify (fun m =>
    let c := cpu m in
    set_cpu (mkCpu true (cs_reg c) (ss_reg c) (tss_rsp0 c) (gdt_user_code c) (gdt_user_data c)) m)) ;;;
  println (Text "CPU interrupts enabled").

(** [int3] goes through the breakpoint gate. *)
Definition int3 : ST BootState unit :=
  let* b := st_get in
  match bs_idt b BREAKPOINT with
  | Some g =>
      match gate_target_of g with
      | breakpoint_handler => println (Text "EXCEPTION: BREAKPOINT") ;;; println StackFrame
      | _ => st_panic "wrong handler"
      end
  | None => st_panic "double fault"
  end.

(** *** Memory *)

(** [active_level_4_table]: the table in CR3, reached through the mapping of
    all physical memory at the offset. [virt_add] is the addition of the
    crate's [VirtAddr], [None] its panic. *)
Definition active_level_4_table (virt_add : Z -> Z -> option Z) (physical_memory_offset : Z) : ST BootState Z :=
  let* b := st_get in
  let phys := cr3 (mem (bs_machine b)) in
  let* _ := st_expect (virt_add physical_memory_offset phys) "address overflow" in
  st_ret phys.

(** [memory::init]: the mapper is its level-4 table. *)
Definition memory_init (virt_add : Z -> Z -> option Z) (physical_memory_offset : Z) : ST BootState Z :=
  active_level_4_table virt_add physical_memory_offset.

(** [mapper.translate_addr] of the crate, on the memory and the level-4
    table of the mapper, is an argument. *)
Definition print_translation (translate_addr : Ram -> Z -> Z -> option Z) (mapper : Z) (label : string)
    (virtual_address : Z) : ST BootState unit :=
  let* b := st_get in
  match translate_addr (ram (mem (bs_machine b))) mapper virtual_address with
  | Some physical_address => println (Mapping label virtual_address physical_address)
  | None => println (NotMapped label virtual_address)
  end.

Definition print_memory_diagnostics (boot_info : BootInfo) (boot_info_address kernel_main_address : Z)
    (translate_addr : Ram -> Z -> Z -> option Z) (mapper physical_memory_offset : Z) : ST BootState unit :=
  let usable_regions := vlen (List.filter usable (boot_memory_map boot_info)) in
  println (Text "Memory diagnostics:") ;;;
  println (PhysicalMemoryOffset physical_memory_offset) ;;;
  let* vga := virt_addr 0xb8000 in
  print_translation translate_addr mapper "VGA" vga ;;;
  let* kernel_main := virt_addr kernel_main_address in
  print_translation translate_addr mapper "kernel_main" kernel_main ;;;
  let* boot_info_pointer := virt_addr boot_info_address in
  print_translation translate_addr mapper "BootInfo" boot_info_pointer ;;;
  println (UsableRegions usable_regions).

(** [init_heap] with the allocator of the memory map. *)
Definition init_kernel_heap (mapper : Z) (boot_info : BootInfo) : ST BootState unit :=
  let* b := st_get in
  let m := bs_machine b in
  match init_heap mapper (mkEarly (ram (mem m)) (allocator_init (boot_memory_map boot_info)) None) with
  | Done (Ok _, e) =>
      st_put (mkBootState G (set_mem (set_ram (early_ram e) (mem m)) m) (bs_tables b) (bs_idt b) (bs_io b)
                (ALLOCATOR e) (bs_log b) (bs_todo b)) ;;;
      println (Text "Heap initialized")
  | Done (Err _, _) => st_panic "heap initialization failed"
  | Panic msg => st_panic msg
  end.

(** *** Running kernel tasks *)

Definition set_todo (l : list (list action)) : ST BootState unit :=
  st_modify (fun b => mkBootState G (bs_machine b) (bs_tables b) (bs_idt b) (bs_io b) (bs_heap b) (bs_log b) l).

(** The running task goes on until the scheduler returns to the boot code. A
    task whose function returns ends in [finish_current_task]. [frame] is
    where the interrupt of a yield leaves the frame of each task; a turn does
    one action of the running task, so the fuel bounds the actions and
    returns of all tasks. *)
Fixpoint run_kernel_tasks (frame : TaskId -> Z) (fuel : nat) : ST BootState unit :=
  match fuel with
  | O => st_panic out_of_fuel
  | S fuel =>
      let* b := st_get in
      let continue (r : Switch) := match r with Resume _ => run_kernel_tasks frame fuel | ToMain => st_ret tt end in
      let* cur := st_expect (current (sched (bs_machine b))) "no current task" in
      match vget (bs_todo b) cur with
      | None => st_panic "no such task"
      | Some [] => let* r := on_machine finish_current_task in continue r
      | Some (Println s :: rest) =>
          println (Text s) ;;; set_todo (vset (bs_todo b) cur rest) ;;; run_kernel_tasks frame fuel
      | Some (YieldNow :: rest) =>
          set_todo (vset (bs_todo b) cur rest) ;;;
          let* r := on_machine (on_yield_interrupt (frame cur)) in
          continue r
      end
  end.

Definition expect_spawn (op : ST Machine (result SpawnError TaskId)) (msg : string) : ST BootState unit :=
  let* r := on_machine op in
  match r with Ok _ => st_ret tt | Err _ => st_panic msg end.

(** Addresses chosen by the linker, the bootloader and the heap allocator. *)
Record Layout : Type := mkLayout {
  lo_double_fault_stack : Z;
  lo_kernel_main : Z;
  lo_boot_info : Z;
  lo_trampoline : Z;
  lo_demo_task_a : Z;
  lo_demo_task_b : Z;
  lo_stack_a : Z;
  lo_stack_b : Z;
  lo_frame : TaskId -> Z;
  lo_main_rsp : Z
}.

(** The two tasks have eight actions and two returns. *)
Definition run_demo_tasks (layout : Layout) : ST BootState unit :=
  println (Text "Starting cooperative task demo") ;;;
  expect_spawn (spawn (lo_stack_a layout) (lo_trampoline layout) (lo_demo_task_a layout))
    "failed to spawn demo task A" ;;;
  expect_spawn (spawn (lo_stack_b layout) (lo_trampoline layout) (lo_demo_task_b layout))
    "failed to spawn demo task B" ;;;
  set_todo [demo_task_a; demo_task_b] ;;;
  let* first := on_machine (run (lo_main_rsp layout)) in
  match first with Some _ => run_kernel_tasks (lo_frame layout) 10 | None => st_ret tt end ;;;
  println (Text "Cooperative task demo complete").

(** *** [kernel_main], up to [hlt_loop] *)

Definition kernel_main (layout : Layout) (boot_info : BootInfo) (virt_add : Z -> Z -> option Z)
    (translate_addr : Ram -> Z -> Z -> option Z) : ST BootState unit :=
  println (Text "Hello from vladOS!") ;;;
  init_gdt_tables (lo_double_fault_stack layout) ;;;
  init_idt_table ;;;
  device init_pics ;;;
  println (Text "PICs initialized at offsets 32 and 40") ;;;
  device pit_writes ;;;
  println (Text "PIT initialized at 100 Hz") ;;;
  let* physical_memory_offset := virt_addr (bi_physical_memory_offset boot_info) in
  let* mapper := memory_init virt_add physical_memory_offset in
  print_memory_diagnostics boot_info (lo_boot_info layout) (lo_kernel_main layout) translate_addr mapper
    physical_memory_offset ;;;
  init_kernel_heap mapper boot_info ;;;
  enable_interrupts ;;;
  int3 ;;;
  println (Text "Still alive after breakpoint") ;;;
  run_demo_tasks layout.
End main.
