(* ===== verification/Handlers.v ===== *)
(** * The interrupt handlers (src/src/interrupts.rs)

    What the functions the assembly entries call do on every machine that
    satisfies the invariant: the timer counts, schedules and acknowledges,
    a fault in user mode ends the faulting process only, and a fault in
    kernel mode stops the machine. A system call whose pointer argument is
    not a canonical address is a kernel panic. *)

From S2P Require Import Prelude File Fd X86 Memory AddressSpace UserMemory Process Context.
From S2P Require Import Serial Task Syscall User Elf Scheduler SchedulerCalls Interrupts RoundRobin.
From S2P Require Import Invariant Switching Exit Calls Spawn System.

Section handlers.
Context {X : X86_64} {XS : X86_64_Spec X}.

Lemma wp_with_machine {A} (op : ST Machine A) (Q : A -> Machine -> Prop) (k : Kernel) :
  wp op Q (machine k) ->
  wp (with_machine op) (fun r k' => Q r (machine k') /\ timer_ticks k' = timer_ticks k /\ eoi k' = eoi k) k.
Proof. intros H. unfold with_machine. apply wp_zoom. eapply wp_mono; [exact H|]. done. Qed.

(** What a tick does to the machine. *)
Definition tick_outcome (m : Machine) (frame_rsp : Z) (r : Switch) (m' : Machine) : Prop :=
  match current (sched m) with
  | Some cur =>
      if preemption_enabled (sched m)
      then exists t, vget (tasks (sched m)) cur = Some t /\ yielded m cur t frame_rsp r m'
      else r = Resume frame_rsp /\ m' = m
  | None => r = Resume frame_rsp /\ m' = m
  end.

Lemma timer_handler_run frame_rsp (k : Kernel) :
  ok (machine k) ->
  wp (timer_interrupt_rust frame_rsp) (fun r k' =>
    ok (machine k') /\ tick_outcome (machine k) frame_rsp r (machine k') /\
    timer_ticks k' = (timer_ticks k + 1) mod 2 ^ 64 /\ eoi k' = eoi k ++ [as_u8 Timer]) k.
Proof.
  intros K. unfold timer_interrupt_rust. apply wp_bind, wp_modify, wp_bind.
  eapply wp_mono; [apply wp_with_machine, (on_timer_run frame_rsp (machine k) K)|].
  intros r k1 ((K1 & _ & H) & Ht & He). apply wp_bind, wp_modify, wp_ret. cbn in *.
  split; [done|]. split; [done|]. split; [done|]. by rewrite He.
Qed.

(** The end of the process that faulted. *)
Definition fault_outcome (m : Machine) (frame_rsp : Z) (info : UserFaultInfo) (m' : Machine) : Prop :=
  exists cur t r m1, current (sched m) = Some cur /\ vget (tasks (sched m)) cur = Some t /\
    keeps m1 m' /\ switched m1 cur r m' /\
    match process_id t with
    | Some pid => process_ended (with_task m cur (ended t frame_rsp Failed None (Some info))) pid
                    Faulted m1
    | None => m1 = with_task m cur (ended t frame_rsp Failed None (Some info))
    end.

Lemma fail_current_run frame_rsp info (m : Machine) :
  ok m -> current (sched m) <> None ->
  wp (fail_current_with_fault frame_rsp info) (fun _ m' =>
    ok m' /\ fault_outcome m frame_rsp info m') m.
Proof.
  intros K Hne. destruct (current (sched m)) as [cur|] eqn:Hc; [|done].
  destruct (ok_running m cur K Hc) as (t & Ht & _). unfold fail_current_with_fault.
  eapply wp_mono; [apply (finish_current_run frame_rsp Failed None (Some info) m cur t); auto|].
  intros r m' (K' & m1 & H1 & H2 & H3). split; [done|]. exists cur, t, r, m1.
  split; [done|]. split; [done|]. split; [done|]. split; [done|]. by destruct (process_id t).
Qed.

Lemma page_fault_run cr2 frame_rsp (k : Kernel) :
  ok (machine k) -> current (sched (machine k)) <> None ->
  from_user (kmem (machine k)) frame_rsp = true ->
  wp (page_fault_rust cr2 frame_rsp) (fun _ k' =>
    ok (machine k') /\
    fault_outcome (machine k) frame_rsp
      (mkFaultInfo PageFault (Some cr2) (kmem (machine k) (frame_rsp + OFF_ERROR_CODE))) (machine k')) k.
Proof.
  intros K Hc Hu. unfold page_fault_rust. apply wp_bind, wp_get. cbv zeta. rewrite Hu.
  eapply wp_mono; [by apply wp_with_machine, fail_current_run|]. by intros r k' ((? & ?) & _).
Qed.

Lemma general_protection_run frame_rsp (k : Kernel) :
  ok (machine k) -> current (sched (machine k)) <> None ->
  from_user (kmem (machine k)) frame_rsp = true ->
  wp (general_protection_rust frame_rsp) (fun _ k' =>
    ok (machine k') /\
    fault_outcome (machine k) frame_rsp
      (mkFaultInfo GeneralProtection None (kmem (machine k) (frame_rsp + OFF_ERROR_CODE))) (machine k')) k.
Proof.
  intros K Hc Hu. unfold general_protection_rust. apply wp_bind, wp_get. cbv zeta. rewrite Hu.
  eapply wp_mono; [by apply wp_with_machine, fail_current_run|]. by intros r k' ((? & ?) & _).
Qed.

(** A fault in kernel mode is not recovered from. *)
Lemma kernel_fault_halts cr2 frame_rsp (k : Kernel) :
  from_user (kmem (machine k)) frame_rsp = false ->
  page_fault_rust cr2 frame_rsp k = Panic halted /\ general_protection_rust frame_rsp k = Panic halted.
Proof.
  intros Hu. unfold page_fault_rust, general_protection_rust, st_bind, st_get. by rewrite Hu.
Qed.

(** ** Pointers that are not addresses *)

(** The pointer arguments [dispatch] converts with [VirtAddr::new]. *)
Definition raw_pointer (m : Machine) (frame_rsp : Z) : option Z :=
  match from_raw (arg_rax m frame_rsp) with
  | Some SysWrite | Some SysRead | Some WaitPid => Some (arg_rsi m frame_rsp)
  | Some Open => Some (arg_rdi m frame_rsp)
  | _ => None
  end.

Lemma dispatch_bad_pointer frame_rsp m a :
  raw_pointer m frame_rsp = Some a -> is_u64 a -> 2 ^ 48 <= a < 2 ^ 64 - 2 ^ 47 ->
  exists msg, dispatch frame_rsp m = Panic msg.
Proof.
  intros Hp Hu Hr. pose proof (VirtAddr_new_panics a Hu Hr) as Hn.
  assert (a <> 0) as Ha by lia.
  unfold raw_pointer, arg_rax, arg_rsi, arg_rdi in Hp. unfold dispatch, st_bind, st_get.
  destruct (from_raw _) as [[]|]; try done; injection Hp as Hp; rewrite Hp;
    unfold wait_status_address, virt_addr, st_expect, st_bind;
    rewrite ?(proj2 (Z.eqb_neq a 0) Ha), Hn; by eexists.
Qed.
End handlers.
