(* ===== verification/Stubs.v ===== *)
(** * The assembly of src/src/arch/x86_64/context.rs

    The [global_asm!] block as lists of instructions and an interpreter for
    the dozen instructions it uses. [interrupt_entry] is the path of every
    interrupt: the processor pushes the return state, the stub pushes the
    registers, a Rust handler picks the frame to resume, and the registers of
    that frame are popped. The theorems: the stub builds exactly the
    [TrapFrame] struct the Rust code reads, the restore path loads it back,
    and a task that is switched away and resumed sees its own registers. *)

From S2P Require Import Prelude Memory Process Context Task X86 Scheduler SchedulerCalls Interrupts.
From S2P Require Import RoundRobin Invariant Switching Exit.

Inductive reg : Type :=
| RAX | RBX | RCX | RDX | RBP | RDI | RSI | R8 | R9 | R10 | R11 | R12 | R13 | R14 | R15 | RSP.

#[export] Instance reg_eq_dec : EqDecision reg.
Proof. solve_decision. Defined.

Record CpuState : Type := mkCpuState { regs : reg -> Z; c_rip : Z; c_cs : Z; c_rflags : Z; c_ss : Z }.

Definition reg_set (c : CpuState) (r : reg) (v : Z) : CpuState :=
  mkCpuState (fun x => if decide (x = r) then v else regs c x) (c_rip c) (c_cs c) (c_rflags c) (c_ss c).

Inductive instr : Type :=
| Push (r : reg)
| Pop (r : reg)
| Mov (dst src : reg)
| Load (dst base : reg)
| Store (base src : reg)
| And16 (r : reg)
| Cld
| Iretq
| Ret.

Definition step (i : instr) (s : CpuState * KMem) : CpuState * KMem :=
  let '(c, k) := s in
  let sp := regs c RSP in
  match i with
  | Push r =>
      let sp' := (sp - 8) mod 2 ^ 64 in
      (reg_set c RSP sp', kwrite k sp' (regs c r))
  | Pop r => (reg_set (reg_set c RSP ((sp + 8) mod 2 ^ 64)) r (k sp), k)
  | Mov dst src => (reg_set c dst (regs c src), k)
  | Load dst base => (reg_set c dst (k (regs c base)), k)
  | Store base src => (c, kwrite k (regs c base) (regs c src))
  | And16 r => (reg_set c r (align_16 (regs c r)), k)
  | Cld => (mkCpuState (regs c) (c_rip c) (c_cs c) (Z.land (c_rflags c) (not64 0x400)) (c_ss c), k)
  | Iretq =>
      (mkCpuState (fun x => if decide (x = RSP) then k (sp + 24) else regs c x)
         (k sp) (k (sp + 8)) (k (sp + 16)) (k (sp + 32)), k)
  | Ret =>
      let c := reg_set c RSP ((sp + 8) mod 2 ^ 64) in
      (mkCpuState (regs c) (k sp) (c_cs c) (c_rflags c) (c_ss c), k)
  end.

Definition exec_all (l : list instr) (s : CpuState * KMem) : CpuState * KMem := fold_left (fun s i => step i s) l s.

(** ** The stubs *)

(** The registers every entry pushes, in order. *)
Definition saved_regs : list reg :=
  [RAX; RBX; RCX; RDX; RBP; RDI; RSI; R8; R9; R10; R11; R12; R13; R14; R15].

(** From the first [push] to the [call] of an entry. The five entries
    differ only in the function they call. *)
Definition entry_save : list instr :=
  map Push saved_regs ++ [Cld; Mov RDI RSP; Mov RBP RSP; And16 RSP].

Definition restore_interrupt_context : list instr :=
  [Pop R15; Pop R14; Pop R13; Pop R12; Pop R11; Pop R10; Pop R9; Pop R8;
   Pop RSI; Pop RDI; Pop RBP; Pop RDX; Pop RCX; Pop RBX; Pop RAX; Iretq].

(** After the [call]. *)
Definition entry_resume : list instr := Mov RSP RAX :: restore_interrupt_context.

Definition switch_from_main_to_task : list instr :=
  [Push RBP; Push RBX; Push R12; Push R13; Push R14; Push R15; Store RDI RSP; Load RSP RSI] ++
  restore_interrupt_context.

Definition restore_task_context : list instr := Load RSP RDI :: restore_interrupt_context.

Definition restore_main_context : list instr :=
  [Load RSP RDI; Pop R15; Pop R14; Pop R13; Pop R12; Pop RBX; Pop RBP; Ret].

(** What the processor does on an interrupt through an interrupt gate: switch
    to TSS.rsp0 when it comes from ring 3, align, push the return state,
    disable interrupts, and continue at the gate's target. *)
Definition cpu_interrupt (tss_rsp0 gate_cs gate_rip : Z) (s : CpuState * KMem) : CpuState * KMem :=
  let '(c, k) := s in
  let base := align_16 (if Z.land (c_cs c) 3 =? 3 then tss_rsp0 else regs c RSP) in
  let k := kwrite k (base - 8) (c_ss c) in
  let k := kwrite k (base - 16) (regs c RSP) in
  let k := kwrite k (base - 24) (c_rflags c) in
  let k := kwrite k (base - 32) (c_cs c) in
  let k := kwrite k (base - 40) (c_rip c) in
  let c' := reg_set c RSP (base - 40) in
  (mkCpuState (regs c') gate_rip gate_cs (Z.land (c_rflags c) (not64 0x300)) (c_ss c), k).

(** An exception with an error code, which is pushed last. *)
Definition cpu_exception (tss_rsp0 gate_cs gate_rip error_code : Z) (s : CpuState * KMem) :
    CpuState * KMem :=
  let '(c, k) := cpu_interrupt tss_rsp0 gate_cs gate_rip s in
  (reg_set c RSP (regs c RSP - 8), kwrite k (regs c RSP - 8) error_code).

(** An entry stub that calls [handler], from the state the processor leaves:
    the handler gets the frame pointer in RDI and returns the frame to resume
    in RAX, with the other registers as [left]. [None]: control went to the
    boot code. *)
Definition run_entry (handler : Z -> ST Machine Switch) (left : CpuState) (s : CpuState * KMem) :
    ST Machine (option CpuState) :=
  let '(c1, k1) := exec_all entry_save s in
  let* m := st_get in
  st_put (set_kmem k1 m) ;;;
  let* next := handler (regs c1 RDI) in
  match next with
  | Resume rsp =>
      let* m' := st_get in
      let '(c2, k2) := exec_all entry_resume (reg_set left RAX rsp, kmem m') in
      st_put (set_kmem k2 m') ;;;
      st_ret (Some c2)
  | ToMain => st_ret None
  end.

(** [timer_interrupt_entry], [yield_interrupt_entry], [syscall_interrupt_entry]. *)
Definition interrupt_entry (gate_cs gate_rip : Z) (handler : Z -> ST Machine Switch) (left c : CpuState) :
    ST Machine (option CpuState) :=
  let* m := st_get in
  run_entry handler left (cpu_interrupt (tss_rsp0 (cpu m)) gate_cs gate_rip (c, kmem m)).

(** [general_protection_entry], [page_fault_entry]. *)
Definition exception_entry (gate_cs gate_rip error_code : Z) (handler : Z -> ST Machine Switch)
    (left c : CpuState) : ST Machine (option CpuState) :=
  let* m := st_get in
  run_entry handler left (cpu_exception (tss_rsp0 (cpu m)) gate_cs gate_rip error_code (c, kmem m)).

(** ** The frame a state is saved in *)

Definition frame_of (c : CpuState) : TrapFrame :=
  let r := regs c in
  mkTrapFrame (r R15) (r R14) (r R13) (r R12) (r R11) (r R10) (r R9) (r R8) (r RSI) (r RDI) (r RBP)
    (r RDX) (r RCX) (r RBX) (r RAX) (c_rip c) (c_cs c) (c_rflags c) (r RSP) (c_ss c).

Definition tf_reg (f : TrapFrame) (r : reg) : Z :=
  match r with
  | RAX => tf_rax f | RBX => tf_rbx f | RCX => tf_rcx f | RDX => tf_rdx f | RBP => tf_rbp f
  | RDI => tf_rdi f | RSI => tf_rsi f | R8 => tf_r8 f | R9 => tf_r9 f | R10 => tf_r10 f
  | R11 => tf_r11 f | R12 => tf_r12 f | R13 => tf_r13 f | R14 => tf_r14 f | R15 => tf_r15 f
  | RSP => tf_rsp f
  end.

(** [c] is the processor state the frame describes. *)
Record resumes (f : TrapFrame) (c : CpuState) : Prop := mkResumes {
  rs_regs : forall r, regs c r = tf_reg f r;
  rs_rip : c_rip c = tf_rip f;
  rs_cs : c_cs c = tf_cs f;
  rs_rflags : c_rflags c = tf_rflags f;
  rs_ss : c_ss c = tf_ss f
}.

(** Same registers, pointer by pointer. *)
Record cpu_eq (c c' : CpuState) : Prop := mkCpuEq {
  ce_regs : forall r, regs c r = regs c' r;
  ce_rip : c_rip c = c_rip c';
  ce_cs : c_cs c = c_cs c';
  ce_rflags : c_rflags c = c_rflags c';
  ce_ss : c_ss c = c_ss c'
}.

Lemma resumes_frame_of c c' : resumes (frame_of c) c' -> cpu_eq c' c.
Proof. intros [H ? ? ? ?]. constructor; try done. intros r. rewrite H. by destruct r. Qed.

(** ** Pushing and popping *)

Lemma regs_set_eq c r v : regs (reg_set c r v) r = v.
Proof. cbn. by rewrite decide_True. Qed.

Lemma regs_set_ne c r v x : x <> r -> regs (reg_set c r v) x = regs c x.
Proof. intros H. cbn. by rewrite decide_False. Qed.

Lemma kwrite_eq k a v : kwrite k a v a = v.
Proof. unfold kwrite. by rewrite Z.eqb_refl. Qed.

Lemma kwrite_ne k a v x : x <> a -> kwrite k a v x = k x.
Proof. intros H. unfold kwrite. by rewrite (proj2 (Z.eqb_neq x a)). Qed.

(** The state outside the general-purpose registers. *)
Definition same_rest (c c' : CpuState) : Prop :=
  c_rip c' = c_rip c /\ c_cs c' = c_cs c /\ c_rflags c' = c_rflags c /\ c_ss c' = c_ss c.

Record pushed_regs (rs : list reg) (c : CpuState) (k : KMem) (c' : CpuState) (k' : KMem) : Prop := mkPushedRegs {
  pu_rsp : regs c' RSP = regs c RSP - 8 * vlen rs;
  pu_regs : forall r, r <> RSP -> regs c' r = regs c r;
  pu_rest : same_rest c c';
  pu_words : forall i r, vget rs i = Some r -> k' (regs c RSP - 8 * (i + 1)) = regs c r;
  pu_other : forall x, regs c RSP <= x \/ x < regs c RSP - 8 * vlen rs -> k' x = k x
}.

Lemma pushes_run rs c k :
  RSP ∉ rs -> 8 * vlen rs <= regs c RSP < 2 ^ 64 ->
  let s := exec_all (map Push rs) (c, k) in pushed_regs rs c k (fst s) (snd s).
Proof.
  revert c k. induction rs as [|r rs IH]; intros c k Hn Hb; cbn zeta.
  - constructor; cbn; try done; [unfold vlen; cbn; lia|]. intros i r H%vget_range.
    unfold vlen in H. cbn in H. lia.
  - apply not_elem_of_cons in Hn as [Hr Hn].
    assert (vlen (r :: rs) = vlen rs + 1) as El by (unfold vlen; cbn; lia). rewrite El in *.
    assert (0 <= vlen rs) by (unfold vlen; lia).
    cbn [map exec_all fold_left step]. rewrite Z.mod_small by lia.
    set (c1 := reg_set c RSP (regs c RSP - 8)). set (k1 := kwrite k (regs c RSP - 8) (regs c r)).
    assert (regs c1 RSP = regs c RSP - 8) as E1 by apply regs_set_eq.
    destruct (IH c1 k1 Hn) as [P1 P2 P3 P4 P5]; [rewrite E1; lia|]. fold (exec_all (map Push rs) (c1, k1)).
    rewrite E1 in *. constructor; [rewrite El; lia| |done| |].
    + intros x Hx. rewrite P2 by done. by apply regs_set_ne.
    + intros i x Hx. pose proof (vget_range _ _ _ Hx). destruct (decide (i = 0)) as [->|Hi].
      * rewrite vget_cons_0 in Hx. injection Hx as <-. rewrite P5 by lia. apply kwrite_eq.
      * rewrite vget_cons_pos in Hx by lia. specialize (P4 _ _ Hx).
        replace (regs c RSP - 8 * (i + 1)) with (regs c RSP - 8 - 8 * (i - 1 + 1)) by lia.
        rewrite P4. apply regs_set_ne. intros ->. apply Hn. by eapply vget_elem_of.
    + rewrite El. intros x Hx. rewrite P5 by lia. apply kwrite_ne. lia.
Qed.

Record popped_regs (rs : list reg) (c : CpuState) (k : KMem) (c' : CpuState) : Prop := mkPoppedRegs {
  po_rsp : regs c' RSP = regs c RSP + 8 * vlen rs;
  po_words : forall i r, vget rs i = Some r -> regs c' r = k (regs c RSP + 8 * i);
  po_regs : forall r, r <> RSP -> r ∉ rs -> regs c' r = regs c r;
  po_rest : same_rest c c'
}.

Lemma pops_run rs c k :
  RSP ∉ rs -> NoDup rs -> 0 <= regs c RSP -> regs c RSP + 8 * vlen rs < 2 ^ 64 ->
  let s := exec_all (map Pop rs) (c, k) in popped_regs rs c k (fst s) /\ snd s = k.
Proof.
  revert c. induction rs as [|r rs IH]; intros c Hn Hd H0 Hb; cbn zeta.
  - split; [|done]. constructor; cbn; try done; [unfold vlen; cbn; lia|]. intros i r H%vget_range.
    unfold vlen in H. cbn in H. lia.
  - apply not_elem_of_cons in Hn as [Hr Hn]. apply NoDup_cons in Hd as [Hr' Hd].
    assert (vlen (r :: rs) = vlen rs + 1) as El by (unfold vlen; cbn; lia). rewrite El in *.
    assert (0 <= vlen rs) by (unfold vlen; lia).
    cbn [map exec_all fold_left step]. rewrite Z.mod_small by lia.
    set (c1 := reg_set _ r _).
    assert (regs c1 RSP = regs c RSP + 8) as E1.
    { unfold c1. rewrite regs_set_ne by done. apply regs_set_eq. }
    destruct (IH c1 Hn Hd) as [[P1 P2 P3 P4] Pk]; [lia|lia|]. fold (exec_all (map Pop rs) (c1, k)).
    rewrite E1 in *. split; [|done]. constructor; [rewrite El; lia| | |done].
    + intros i x Hx. pose proof (vget_range _ _ _ Hx). destruct (decide (i = 0)) as [->|Hi].
      * rewrite vget_cons_0 in Hx. injection Hx as <-. rewrite (P3 r) by congruence.
        unfold c1. rewrite regs_set_eq. f_equal. lia.
      * rewrite vget_cons_pos in Hx by lia. rewrite (P2 _ _ Hx). f_equal. lia.
    + intros x Hx [Hxr Hxs]%not_elem_of_cons. rewrite P3 by done. unfold c1.
      rewrite regs_set_ne by done. by apply regs_set_ne.
Qed.

(** ** The frame is built and consumed as the struct says *)

(** The top of the stack the interrupt uses. *)
Definition interrupt_stack (tss_rsp0 : Z) (c : CpuState) : Z :=
  align_16 (if Z.land (c_cs c) 3 =? 3 then tss_rsp0 else regs c RSP).

Record saved_state (base : Z) (c : CpuState) (k : KMem) (c1 : CpuState) (k1 : KMem) : Prop := mkSaved {
  sv_frame : read_frame k1 (base - TRAP_FRAME_SIZE) = frame_of c;
  sv_arg : regs c1 RDI = base - TRAP_FRAME_SIZE;
  sv_aligned : regs c1 RSP = align_16 (base - TRAP_FRAME_SIZE);
  sv_other : forall x, base <= x \/ x < base - TRAP_FRAME_SIZE -> k1 x = k x
}.

Lemma exec_all_app l l' s : exec_all (l ++ l') s = exec_all l' (exec_all l s).
Proof. apply fold_left_app. Qed.

Lemma exec_all_cons i l s : exec_all (i :: l) s = exec_all l (step i s).
Proof. done. Qed.

Lemma interrupt_pushes tss gate_cs gate_rip c k :
  let base := interrupt_stack tss c in
  let s := cpu_interrupt tss gate_cs gate_rip (c, k) in
  regs (fst s) RSP = base - 40 /\
  (forall r, r <> RSP -> regs (fst s) r = regs c r) /\
  (snd s (base - 40) = c_rip c /\ snd s (base - 32) = c_cs c /\ snd s (base - 24) = c_rflags c /\
   snd s (base - 16) = regs c RSP /\ snd s (base - 8) = c_ss c) /\
  forall x, base <= x \/ x < base - 40 -> snd s x = k x.
Proof.
  cbn zeta. unfold cpu_interrupt. fold (interrupt_stack tss c). cbn [fst snd].
  split; [apply regs_set_eq|]. split; [intros r Hr; by apply regs_set_ne|].
  split; [|intros x Hx; by rewrite !kwrite_ne by lia].
  repeat split; repeat (rewrite kwrite_ne by lia); apply kwrite_eq.
Qed.

Lemma entry_saves tss gate_cs gate_rip c k :
  let base := interrupt_stack tss c in
  TRAP_FRAME_SIZE <= base < 2 ^ 64 ->
  let s := exec_all entry_save (cpu_interrupt tss gate_cs gate_rip (c, k)) in
  saved_state base c k (fst s) (snd s).
Proof.
  intros base Hb. destruct (interrupt_pushes tss gate_cs gate_rip c k) as (I1 & I2 & I3 & I4).
  fold base in I1, I3, I4. destruct (cpu_interrupt tss gate_cs gate_rip (c, k)) as [c0 k0].
  cbn [fst snd] in *. unfold entry_save. cbn zeta. rewrite exec_all_app.
  assert (vlen saved_regs = 15) as El by reflexivity. unfold TRAP_FRAME_SIZE in *.
  destruct (pushes_run saved_regs c0 k0) as [P1 P2 P3 P4 P5]; [by apply (bool_decide_unpack _)|lia|].
  destruct (exec_all (map Push saved_regs) (c0, k0)) as [c1 k1]. cbn [fst snd] in *.
  rewrite El, I1 in *. replace (base - 40 - 8 * 15) with (base - 160) in P1 by lia.
  assert (forall j r, vget saved_regs (14 - j) = Some r -> r <> RSP -> k1 (base - 160 + 8 * j) = regs c r) as Hw.
  { intros j r Hr Hne. rewrite <- (I2 r Hne), <- (P4 _ _ Hr). f_equal. lia. }
  assert (forall j v, 15 <= j -> k0 (base - 160 + 8 * j) = v -> k1 (base - 160 + 8 * j) = v) as Ht.
  { intros j v Hj <-. apply P5. lia. }
  cbn [exec_all fold_left step fst snd]. constructor; cbn [regs reg_set].
  - destruct I3 as (F1 & F2 & F3 & F4 & F5). unfold read_frame, frame_of.
    f_equal; try (by apply Hw); apply Ht; try lia.
    + by rewrite <- F1; f_equal; lia.
    + by rewrite <- F2; f_equal; lia.
    + by rewrite <- F3; f_equal; lia.
    + by rewrite <- F4; f_equal; lia.
    + by rewrite <- F5; f_equal; lia.
  - done.
  - change TRAP_FRAME_SIZE with 160. by rewrite <- P1.
  - unfold TRAP_FRAME_SIZE. intros x Hx. rewrite P5 by lia. apply I4. lia.
Qed.

(** With an error code the frame is a [TrapFrameWithErrorCode], one word
    longer; the handlers read the error code and the code selector from it. *)
Lemma exception_saves tss gate_cs gate_rip err c k :
  let base := interrupt_stack tss c in
  TRAP_FRAME_SIZE + 8 <= base < 2 ^ 64 ->
  let s := exec_all entry_save (cpu_exception tss gate_cs gate_rip err (c, k)) in
  let frame := base - TRAP_FRAME_SIZE - 8 in
  regs (fst s) RDI = frame /\ snd s (frame + OFF_ERROR_CODE) = err /\
  snd s (frame + OFF_ERR_CS) = c_cs c /\ (forall x, base <= x \/ x < frame -> snd s x = k x).
Proof.
  intros base Hb. destruct (interrupt_pushes tss gate_cs gate_rip c k) as (I1 & I2 & I3 & I4).
  fold base in I1, I3, I4. unfold cpu_exception.
  destruct (cpu_interrupt tss gate_cs gate_rip (c, k)) as [c0 k0]. cbn [fst snd] in *.
  unfold entry_save, TRAP_FRAME_SIZE, OFF_ERROR_CODE, OFF_ERR_CS in *. cbn zeta. rewrite exec_all_app, I1.
  set (ce := reg_set c0 RSP (base - 40 - 8)). set (ke := kwrite k0 (base - 40 - 8) err).
  assert (regs ce RSP = base - 48) as E by (unfold ce; rewrite regs_set_eq; lia).
  assert (vlen saved_regs = 15) as El by reflexivity.
  destruct (pushes_run saved_regs ce ke) as [P1 _ _ _ P5]; [by apply (bool_decide_unpack _)|lia|].
  destruct (exec_all (map Push saved_regs) (ce, ke)) as [c1 k1]. cbn [fst snd] in *.
  rewrite El, E in *. replace (base - 48 - 8 * 15) with (base - 168) in P1 by lia.
  cbn [exec_all fold_left step fst snd]. change (regs _ RDI) with (regs c1 RSP). rewrite P1.
  split; [lia|]. split; [|split].
  - rewrite P5 by lia. unfold ke. replace (base - 160 - 8 + 120) with (base - 40 - 8) by lia. apply kwrite_eq.
  - rewrite P5 by lia. unfold ke. rewrite kwrite_ne by lia. destruct I3 as (_ & <- & _). f_equal. lia.
  - intros x Hx. rewrite P5 by lia. unfold ke. rewrite kwrite_ne by lia. apply I4. lia.
Qed.

Definition restored_regs : list reg :=
  [R15; R14; R13; R12; R11; R10; R9; R8; RSI; RDI; RBP; RDX; RCX; RBX; RAX].

Lemma restore_run c k :
  0 <= regs c RSP -> regs c RSP + TRAP_FRAME_SIZE < 2 ^ 64 ->
  let s := exec_all restore_interrupt_context (c, k) in
  resumes (read_frame k (regs c RSP)) (fst s) /\ snd s = k.
Proof.
  intros H0 Hb. unfold TRAP_FRAME_SIZE in Hb.
  change restore_interrupt_context with (map Pop restored_regs ++ [Iretq]). cbn zeta.
  rewrite exec_all_app. assert (vlen restored_regs = 15) as El by reflexivity.
  destruct (pops_run restored_regs c k) as [[P1 P2 _ P4] Pk];
    [by apply (bool_decide_unpack _)|by apply (bool_decide_unpack _)|done|lia|].
  destruct (exec_all (map Pop restored_regs) (c, k)) as [c1 k1]. cbn [fst snd] in *. subst k1.
  rewrite El in P1. cbn [exec_all fold_left step fst snd]. rewrite P1. split; [|done].
  unfold read_frame. cbn zeta. constructor; cbn [regs c_rip c_cs c_rflags c_ss tf_rip tf_cs tf_rflags tf_ss];
    try (f_equal; lia).
  intros r. destruct (decide (r = RSP)) as [->|Hr]; [cbn; f_equal; lia|].
  destruct r; try done; cbn [tf_reg tf_rax tf_rbx tf_rcx tf_rdx tf_rbp tf_rdi tf_rsi tf_r8 tf_r9 tf_r10 tf_r11
    tf_r12 tf_r13 tf_r14 tf_r15]; by apply P2.
Qed.

Lemma resume_run left k a :
  0 <= a -> a + TRAP_FRAME_SIZE < 2 ^ 64 ->
  let s := exec_all entry_resume (reg_set left RAX a, k) in
  resumes (read_frame k a) (fst s) /\ snd s = k.
Proof.
  intros H0 Hb. unfold entry_resume. cbn zeta. rewrite exec_all_cons. cbn [step]. set (c1 := reg_set (reg_set left RAX a) RSP (regs (reg_set left RAX a) RAX)).
  assert (regs c1 RSP = a) as E by (unfold c1; by rewrite !regs_set_eq).
  rewrite <- E in *. by apply restore_run.
Qed.

(** ** Switching tasks preserves registers *)

(** Saved frames lie below 2^64. *)
Definition frame_in_range (a : Z) : Prop := 0 <= a /\ a + TRAP_FRAME_SIZE < 2 ^ 64.

Lemma set_kmem_same m : set_kmem (kmem m) m = m.
Proof. by destruct m. Qed.

Section switching.
Context {X : X86_64} {XS : X86_64_Spec X}.

(** What an interrupt that goes through [switch_from_interrupt] leaves: the
    interrupted state is the saved frame of the interrupted task, and the
    processor continues with the saved frame of the task that now runs. *)
Definition interrupted (m : Machine) (cur : TaskId) (c : CpuState) (r : option CpuState) (m' : Machine) : Prop :=
  exists c' n t' u, r = Some c' /\
    current (sched m') = Some n /\ vget (tasks (sched m')) n = Some u /\
    resumes (read_frame (kmem m') (saved_rsp u)) c' /\
    vget (tasks (sched m')) cur = Some t' /\ read_frame (kmem m') (saved_rsp t') = frame_of c /\
    forall x, let base := interrupt_stack (tss_rsp0 (cpu m)) c in
      base <= x \/ x < base - TRAP_FRAME_SIZE -> kmem m' x = kmem m x.

Lemma yield_entry_run gate_cs gate_rip left c (m : Machine) cur :
  ok m -> current (sched m) = Some cur ->
  TRAP_FRAME_SIZE <= interrupt_stack (tss_rsp0 (cpu m)) c < 2 ^ 64 ->
  (forall i u, vget (tasks (sched m)) i = Some u -> t_state u = Ready -> frame_in_range (saved_rsp u)) ->
  wp (interrupt_entry gate_cs gate_rip on_yield_interrupt left c)
    (fun r m' => ok m' /\ interrupted m cur c r m') m.
Proof.
  intros K Hc Hb Hf. set (base := interrupt_stack (tss_rsp0 (cpu m)) c) in *.
  unfold interrupt_entry, run_entry. st_step. st_step.
  pose proof (entry_saves (tss_rsp0 (cpu m)) gate_cs gate_rip c (kmem m) Hb) as S.
  destruct (exec_all entry_save _) as [c1 k1]. cbn [fst snd] in S. destruct S as [S1 S2 _ S4].
  fold base in S1, S2, S4. st_steps. unfold on_yield_interrupt.
  eapply wp_mono; [apply switch_from_interrupt_run, ok_set_kmem, K|].
  intros r m' (K' & Hk & Hy). change (current (sched (set_kmem k1 m))) with (current (sched m)) in Hy.
  rewrite Hc in Hy. destruct Hy as (t & Ht & Hy). change (sched (set_kmem k1 m)) with (sched m) in Ht.
  pose proof (vget_range _ _ _ Ht) as Hcr.
  assert (kmem m' = k1) as Ek by apply (kp_kmem _ _ Hk).
  assert (forall n u t' a, current (sched m') = Some n -> vget (tasks (sched m')) n = Some u ->
    vget (tasks (sched m')) cur = Some t' -> saved_rsp t' = base - TRAP_FRAME_SIZE -> a = saved_rsp u ->
    frame_in_range a -> r = Resume a ->
    wp match r with
       | Resume rsp => let* m' := st_get in
           let '(c2, k2) := exec_all entry_resume (reg_set left RAX rsp, kmem m') in
           st_put (set_kmem k2 m') ;;; st_ret (Some c2)
       | ToMain => st_ret None
       end (fun r m' => ok m' /\ interrupted m cur c r m') m') as Hend.
  { intros n u t' a Hn Hu Ht' Hs -> [Ha Hb'] ->. st_steps.
    pose proof (resume_run left (kmem m') (saved_rsp u) Ha Hb') as R.
    destruct (exec_all entry_resume _) as [c2 k2]. cbn [fst snd] in R. destruct R as [R1 ->].
    st_steps. rewrite set_kmem_same. split; [done|]. exists c2, n, t', u.
    rewrite Hs, Ek. rewrite Ek in R1. done. }
  unfold yielded in Hy. change (sched (set_kmem k1 m)) with (sched m) in Hy. rewrite S2 in Hy.
  destruct (next_ready_after (tasks (sched m)) cur) as [n|] eqn:En.
  - destruct Hy as (u & Hu & Hne & Hr & Hcur & Hts). destruct (next_ready_Some _ _ _ En) as [(u' & Hu' & Hst) _].
    assert (u' = u) as -> by congruence. pose proof (vget_range _ _ _ Hu) as Hnr.
    apply (Hend n (set_state u Running) (set_state (set_saved_rsp t (base - TRAP_FRAME_SIZE)) Ready)
      (saved_rsp u) Hcur); [| |done|done|by eapply Hf|exact Hr]; rewrite Hts.
    + apply vget_vset_eq. by rewrite vlen_vset.
    + rewrite vget_vset_ne by done. by apply vget_vset_eq.
  - destruct Hy as [Hr Hm']. set (t' := set_saved_rsp t (base - TRAP_FRAME_SIZE)) in *.
    assert (vget (tasks (sched m')) cur = Some t') as Ht' by (rewrite Hm'; by apply vget_vset_eq).
    apply (Hend cur t' t' (base - TRAP_FRAME_SIZE)); [by rewrite Hm'|done|done|done|done| |exact Hr].
    unfold frame_in_range, TRAP_FRAME_SIZE in *. lia.
Qed.
End switching.

(** ** To the first task and back *)

Definition main_regs : list reg := [RBP; RBX; R12; R13; R14; R15].

(** [switch_from_main_to_task] up to the point where it leaves the boot
    stack: the callee-saved registers are pushed and [main_context] filled. *)
Definition main_save : list instr := map Push main_regs ++ [Store RDI RSP].

Lemma switch_from_main_prefix :
  switch_from_main_to_task = main_save ++ Load RSP RSI :: restore_interrupt_context.
Proof. reflexivity. Qed.

(** Whatever runs in between, if the boot stack and [main_context] are as
    they were left, [restore_main_context] returns to the caller of
    [switch_from_main_to_task] with its callee-saved registers. *)
Lemma main_round_trip c (k : KMem) c2 (k2 : KMem) :
  let sp := regs c RSP in
  let ctx := regs c RDI in
  let k1 := snd (exec_all main_save (c, k)) in
  48 <= sp -> sp + 8 < 2 ^ 64 -> (ctx < sp - 48 \/ sp + 8 <= ctx) ->
  (forall x, sp - 48 <= x < sp + 8 \/ x = ctx -> k2 x = k1 x) ->
  regs c2 RDI = ctx ->
  let c3 := fst (exec_all restore_main_context (c2, k2)) in
  regs c3 RSP = sp + 8 /\ c_rip c3 = k sp /\ forall r, r ∈ main_regs -> regs c3 r = regs c r.
Proof.
  intros sp ctx k1 Hsp Htop Hctx Hk Hdi.
  assert (vlen main_regs = 6) as El by reflexivity.
  destruct (pushes_run main_regs c k) as [P1 P2 _ P4 P5]; [by apply (bool_decide_unpack _)|lia|].
  subst k1. unfold main_save in Hk. rewrite exec_all_app in Hk. fold sp in P1, P4, P5.
  destruct (exec_all (map Push main_regs) (c, k)) as [c1 k1]. cbn [fst snd exec_all fold_left step] in *.
  rewrite (P2 RDI) in Hk by done. fold ctx in Hk. rewrite P1, El in *.
  assert (k2 ctx = sp - 48) as Hc2 by (rewrite (Hk ctx) by lia; rewrite kwrite_eq; lia).
  assert (forall x, sp - 48 <= x < sp + 8 -> k2 x = k1 x) as Hk2.
  { intros x Hx. rewrite Hk by lia. apply kwrite_ne. lia. }
  change restore_main_context with (Load RSP RDI :: map Pop (rev main_regs) ++ [Ret]).
  rewrite exec_all_cons, exec_all_app. cbn [step]. rewrite Hdi, Hc2.
  set (c2' := reg_set c2 RSP (sp - 48)).
  assert (regs c2' RSP = sp - 48) as E2 by apply regs_set_eq.
  assert (vlen (rev main_regs) = 6) as Er by reflexivity.
  destruct (pops_run (rev main_regs) c2' k2) as [[Q1 Q2 _ _] Qk];
    [by apply (bool_decide_unpack _)|by apply (bool_decide_unpack _)|lia|rewrite Er; lia|].
  destruct (exec_all (map Pop (rev main_regs)) (c2', k2)) as [c3 k3]. cbn [fst snd] in *. subst k3.
  rewrite Er, E2 in *. cbn [exec_all fold_left step fst]. rewrite Q1.
  replace (sp - 48 + 8 * 6) with sp by lia. cbn [regs c_rip]. rewrite Z.mod_small by lia.
  split; [apply regs_set_eq|]. split; [rewrite Hk2 by lia; apply P5; lia|].
  intros r Hr. apply elem_of_vget in Hr as [i Hi]. pose proof (vget_range _ _ _ Hi) as Hir.
  rewrite regs_set_ne. 2: { intros ->. apply vget_elem_of in Hi. revert Hi. by apply (bool_decide_unpack _). }
  assert (vget (rev main_regs) (5 - i) = Some r) as Hri.
  { assert (i = 0 \/ i = 1 \/ i = 2 \/ i = 3 \/ i = 4 \/ i = 5) as Hcase by lia.
    destruct Hcase as [->|[->|[->|[->|[->| ->]]]]]; exact Hi. }
  rewrite (Q2 _ _ Hri), Hk2 by lia. rewrite <- (P4 _ _ Hi). f_equal. lia.
Qed.
