(* ===== verification/UserCode.v ===== *)
(** * User programs
    (the assembly of src/src/user.rs, the code emitted by src/build.rs)

    The instructions the repository's programs are made of, their encoding,
    and what they do on a processor in ring 3 that translates every address
    through the page tables in CR3. [user_round] is one instruction and, when
    it traps, the way through the entry stub and the kernel back to user mode.
    The theorems: decoding inverts encoding, and an instruction changes only
    bytes that the page tables let the program write, so that the assumption
    Isolation.v makes of user code holds of it. *)

From S2P Require Import Prelude File Fd X86 Memory AddressSpace UserMemory Process Context.
From S2P Require Import Serial Task Syscall User Elf Scheduler SchedulerCalls Interrupts Boot RoundRobin.
From S2P Require Import Invariant Switching Exit Calls Spawn System PageTables Spaces Isolation Handlers Stubs.

(** ** Instructions *)

Inductive operand : Type :=
| Register (r : reg)
| Memory (base : reg) (disp : Z).

(** Names follow the operands: [RM] is a register from a register or memory,
    [MR] the other way round; immediates are sign-extended to 64 bits unless
    the name says otherwise. *)
Inductive uinstr : Type :=
| MovImm64 (dst : reg) (imm : Z)
| MovImm (dst : operand) (imm : Z)
| MovImm8 (dst : operand) (imm : Z)
| MovRM (dst : reg) (src : operand)
| MovMR (dst : operand) (src : reg)
| AddImm (dst : operand) (imm : Z)
| Inc (dst : operand)
| XorMR (dst : operand) (src : reg)
| CmpMR (a : operand) (b : reg)
| CmpRM (a : reg) (b : operand)
| CmpImm32 (a : operand) (imm : Z)
| CmpImm8 (a : operand) (imm : Z)
| TestMR (a : operand) (b : reg)
| Jmp (rel : Z)
| Je (rel : Z)
| Jne (rel : Z)
| Int (vector : Z)
| Hlt.

(** *** Encoding *)

Definition low_regs : list reg := [RAX; RCX; RDX; RBX; RSP; RBP; RSI; RDI].

Definition reg_number (r : reg) : Z :=
  match r with
  | RAX => 0 | RCX => 1 | RDX => 2 | RBX => 3 | RSP => 4 | RBP => 5 | RSI => 6 | RDI => 7
  | R8 => 8 | R9 => 9 | R10 => 10 | R11 => 11 | R12 => 12 | R13 => 13 | R14 => 14 | R15 => 15
  end.

(** A two's-complement integer of [n] bytes. *)
Definition signed (n : Z) (z : Z) : Z := if z <? 256 ^ n / 2 then z else z - 256 ^ n.

(** The byte with the operand's mode and the displacement. *)
Definition modrm (field : Z) (o : operand) : list Z :=
  match o with
  | Register r => [0xc0 + 8 * field + reg_number r]
  | Memory b d => if d =? 0 then [8 * field + reg_number b]
                  else [0x40 + 8 * field + reg_number b; d mod 256]
  end.

Definition encode (i : uinstr) : list Z :=
  match i with
  | MovImm64 dst imm => [0x48; 0xb8 + reg_number dst] ++ to_le_bytes 8 imm
  | MovImm dst imm => [0x48; 0xc7] ++ modrm 0 dst ++ to_le_bytes 4 imm
  | MovImm8 dst imm => [0xc6] ++ modrm 0 dst ++ to_le_bytes 1 imm
  | MovRM dst src => [0x48; 0x8b] ++ modrm (reg_number dst) src
  | MovMR dst src => [0x48; 0x89] ++ modrm (reg_number src) dst
  | AddImm dst imm => [0x48; 0x81] ++ modrm 0 dst ++ to_le_bytes 4 imm
  | Inc dst => [0x48; 0xff] ++ modrm 0 dst
  | XorMR dst src => [0x48; 0x31] ++ modrm (reg_number src) dst
  | CmpMR a b => [0x48; 0x39] ++ modrm (reg_number b) a
  | CmpRM a b => [0x48; 0x3b] ++ modrm (reg_number a) b
  | CmpImm32 a imm => [0x81] ++ modrm 7 a ++ to_le_bytes 4 imm
  | CmpImm8 a imm => [0x80] ++ modrm 7 a ++ to_le_bytes 1 imm
  | TestMR a b => [0x48; 0x85] ++ modrm (reg_number b) a
  | Jmp rel => 0xeb :: to_le_bytes 1 rel
  | Je rel => 0x74 :: to_le_bytes 1 rel
  | Jne rel => 0x75 :: to_le_bytes 1 rel
  | Int v => [0xcd; v]
  | Hlt => [0xf4]
  end.

(** *** Decoding *)

(** An [n]-byte integer at the front of the bytes. *)
Definition immediate (n : nat) (l : list Z) : option (Z * list Z) :=
  if (n <=? length l)%nat then Some (from_le_bytes (take n l), drop n l) else None.

Definition signed_immediate (n : nat) (l : list Z) : option (Z * list Z) :=
  option_map (fun p => (signed (Z.of_nat n) p.1, p.2)) (immediate n l).

Definition decode_modrm (l : list Z) : option (Z * operand * list Z) :=
  match l with
  | [] => None
  | b :: rest =>
      match vget low_regs (b mod 8) with
      | None => None
      | Some r =>
          let field := b / 8 mod 8 in
          match b / 64 with
          | 3 => Some (field, Register r, rest)
          | 0 => if decide (r = RSP \/ r = RBP) then None else Some (field, Memory r 0, rest)
          | 1 => if decide (r = RSP) then None
                 else match signed_immediate 1 rest with
                      | Some (d, rest) => Some (field, Memory r d, rest)
                      | None => None
                      end
          | _ => None
          end
      end
  end.

Definition is_memory (o : operand) : bool := match o with Memory _ _ => true | Register _ => false end.

(** An operand followed by an immediate, for the opcodes that select the
    operation with the register field. *)
Definition decode_imm (field : Z) (n : nat) (memory_only : bool) (k : operand -> Z -> uinstr) (l : list Z) :
    option (uinstr * list Z) :=
  match decode_modrm l with
  | Some (f, o, rest) =>
      if (f =? field) && (negb memory_only || is_memory o) then
        option_map (fun p => (k o p.1, p.2)) (signed_immediate n rest)
      else None
  | None => None
  end.

(** An operand and the register of the register field. *)
Definition decode_reg (k : operand -> reg -> uinstr) (l : list Z) : option (uinstr * list Z) :=
  match decode_modrm l with
  | Some (f, o, rest) => option_map (fun r => (k o r, rest)) (vget low_regs f)
  | None => None
  end.

Definition decode_wide (l : list Z) : option (uinstr * list Z) :=
  match l with
  | [] => None
  | op :: rest =>
      match op with
      | 0xc7 => decode_imm 0 4 false MovImm rest
      | 0x81 => decode_imm 0 4 false AddImm rest
      | 0x8b => decode_reg (fun o r => MovRM r o) rest
      | 0x89 => decode_reg MovMR rest
      | 0x31 => decode_reg XorMR rest
      | 0x39 => decode_reg CmpMR rest
      | 0x3b => decode_reg (fun o r => CmpRM r o) rest
      | 0x85 => decode_reg TestMR rest
      | 0xff => match decode_modrm rest with Some (0, o, rest) => Some (Inc o, rest) | _ => None end
      | _ => match vget low_regs (op - 0xb8), immediate 8 rest with
             | Some r, Some (imm, rest) => Some (MovImm64 r imm, rest)
             | _, _ => None
             end
      end
  end.

Definition decode (l : list Z) : option (uinstr * list Z) :=
  match l with
  | [] => None
  | op :: rest =>
      match op with
      | 0x48 => decode_wide rest
      | 0xc6 => decode_imm 0 1 true MovImm8 rest
      | 0x81 => decode_imm 7 4 true CmpImm32 rest
      | 0x80 => decode_imm 7 1 true CmpImm8 rest
      | 0xeb => option_map (fun p => (Jmp p.1, p.2)) (signed_immediate 1 rest)
      | 0x74 => option_map (fun p => (Je p.1, p.2)) (signed_immediate 1 rest)
      | 0x75 => option_map (fun p => (Jne p.1, p.2)) (signed_immediate 1 rest)
      | 0xcd => option_map (fun p => (Int p.1, p.2)) (immediate 1 rest)
      | 0xf4 => Some (Hlt, rest)
      | _ => None
      end
  end.

(** ** The programs of src/src/user.rs *)

Definition userspace_yield_exit_entry : list uinstr :=
  [MovImm (Memory RDI 0) 1; MovImm (Register RAX) 0; Int 0x80; MovImm (Memory RDI 8) 1;
   XorMR (Register RDI) RDI; MovImm (Register RAX) 1; Int 0x80; Jmp (-2)].

Definition userspace_privileged_hlt_entry : list uinstr :=
  [MovImm (Memory RDI 16) 1; Hlt; MovImm (Memory RDI 24) 1; MovImm (Register RAX) 1; Int 0x80; Jmp (-2)].

Definition userspace_busy_counter_entry : list uinstr :=
  [MovRM RAX (Memory RDI 32); Inc (Register RAX); MovMR (Memory RDI 32) RAX; Jmp (-9)].

Definition userspace_write_read_aa_entry : list uinstr :=
  [MovImm (Memory RDI 0) 0xaa; MovImm (Register RAX) 0; Int 0x80; MovRM RDI (Memory RDI 0);
   MovImm (Register RAX) 1; Int 0x80; Jmp (-2)].

Definition userspace_write_read_bb_entry : list uinstr :=
  [MovImm (Memory RDI 0) 0xbb; MovImm (Register RAX) 0; Int 0x80; MovRM RDI (Memory RDI 0);
   MovImm (Register RAX) 1; Int 0x80; Jmp (-2)].

Definition userspace_read_arg_exit_entry : list uinstr :=
  [MovRM RDI (Memory RDI 0); MovImm (Register RAX) 1; Int 0x80; Jmp (-2)].

Definition program_code (p : UserProgram) : list uinstr :=
  match p with
  | YieldThenExit => userspace_yield_exit_entry
  | PrivilegedHlt => userspace_privileged_hlt_entry
  | BusyCounter => userspace_busy_counter_entry
  | WriteReadAa => userspace_write_read_aa_entry
  | WriteReadBb => userspace_write_read_bb_entry
  | ReadArgExit => userspace_read_arg_exit_entry
  end.

(** [UserProgram::bytes]: the code between the two labels. *)
Definition program_bytes (p : UserProgram) : list Z := concat (map encode (program_code p)).

(** ** The processor in ring 3 *)

Inductive fault : Type :=
| PageFaulted (address error_code : Z)
| Protected (error_code : Z).

Definition canonicalb (a : Z) : bool := (a <? 2 ^ 47) || (2 ^ 64 - 2 ^ 47 <=? a).

Section cpu.
Context {X : X86_64}.

(** The page walk: every entry must be present; [ok] collects whether they
    all allow the access. [None] when an entry is not present. *)
Definition permits (access : Access) (fl : Z) : bool :=
  contains fl USER_ACCESSIBLE && match access with Read => true | Write => contains fl WRITABLE end.

Fixpoint page_walk (r : Ram) (access : Access) (table : Z) (indices : list Z) (ok : bool) : option (Z * bool) :=
  match indices with
  | [] => Some (table, ok)
  | i :: rest =>
      let e := read_entry r table i in
      if contains (entry_flags e) PRESENT then
        match entry_frame e with
        | Some next => page_walk r access next rest (ok && permits access (entry_flags e))
        | None => None
        end
      else None
  end.

(** The error code of a fault in ring 3: bit 0 for a protection violation,
    bit 1 for a write, bit 2 for user mode. *)
Definition error_code (access : Access) (present : bool) : Z :=
  4 + (match access with Write => 2 | Read => 0 end) + (if present then 1 else 0).

Definition mmu (r : Ram) (l4 : Z) (access : Access) (a : Z) : result Z Z :=
  let page := Page_containing_address a in
  match page_walk r access l4 [p4_index page; p3_index page; p2_index page; p1_index page] true with
  | Some (frame, true) => Ok (frame + Z.land a 0xfff)
  | Some (_, false) => Err (error_code access true)
  | None => Err (error_code access false)
  end.

(** Where the [n] bytes at [a] are: at most two runs of physical bytes. *)
Definition user_range (r : Ram) (l4 : Z) (access : Access) (a n : Z) : result fault (list (Z * Z)) :=
  if canonicalb a && canonicalb (a + n - 1) then
    let first := Z.min n (4096 - a mod 4096) in
    match mmu r l4 access a with
    | Err e => Err (PageFaulted a e)
    | Ok p =>
        if first =? n then Ok [(p, n)]
        else match mmu r l4 access (a + first) with
             | Err e => Err (PageFaulted (a + first) e)
             | Ok q => Ok [(p, first); (q, n - first)]
             end
    end
  else Err (Protected 0).

Definition load_bytes (r : Ram) (runs : list (Z * Z)) : list Z :=
  concat (map (fun run => read_bytes r run.1 (Z.to_nat run.2)) runs).

Fixpoint store_bytes (r : Ram) (runs : list (Z * Z)) (l : list Z) : Ram :=
  match runs with
  | [] => r
  | (p, n) :: runs => store_bytes (X86.write_bytes r p (take (Z.to_nat n) l)) runs (drop (Z.to_nat n) l)
  end.

Definition user_load (r : Ram) (l4 a n : Z) : result fault Z :=
  let! runs := user_range r l4 Read a n in
  Ok (from_le_bytes (load_bytes r runs) mod 256 ^ n).

Definition user_store_bytes (r : Ram) (l4 a n v : Z) : result fault Ram :=
  let! runs := user_range r l4 Write a n in
  Ok (store_bytes r runs (to_le_bytes (Z.to_nat n) v)).

(** The bytes at the instruction pointer, at most ten (the longest
    instruction), and the fault that cuts them short. *)
Definition fetch (r : Ram) (l4 rip : Z) : list Z * option fault :=
  match user_range r l4 Read rip 10 with
  | Ok runs => (load_bytes r runs, None)
  | Err f =>
      match user_range r l4 Read rip (4096 - rip mod 4096) with
      | Ok runs => if 4096 - rip mod 4096 <? 10 then (load_bytes r runs, Some f) else ([], Some f)
      | Err f => ([], Some f)
      end
  end.

(** *** One instruction *)

Inductive outcome : Type :=
| Continue (c : CpuState) (r : Ram)
| Trap (c : CpuState) (target : gate_target)
| Exception (c : CpuState) (f : fault)
| Unsupported.

Definition set_rip (c : CpuState) (rip : Z) : CpuState :=
  mkCpuState (regs c) (rip mod 2 ^ 64) (c_cs c) (c_rflags c) (c_ss c).

(** Of the flags, the programs use the zero flag. *)
Definition ZF : Z := 0x40.

Definition set_zf (c : CpuState) (z : Z) : CpuState :=
  mkCpuState (regs c) (c_rip c) (c_cs c)
    (if z =? 0 then Z.lor (c_rflags c) ZF else Z.ldiff (c_rflags c) ZF) (c_ss c).

Definition zf (c : CpuState) : bool := negb (Z.land (c_rflags c) ZF =? 0).

Definition effective_address (c : CpuState) (base : reg) (disp : Z) : Z := (regs c base + disp) mod 2 ^ 64.

Definition read_operand (r : Ram) (l4 : Z) (c : CpuState) (n : Z) (o : operand) : result fault Z :=
  match o with
  | Register x => Ok (regs c x mod 256 ^ n)
  | Memory base disp => user_load r l4 (effective_address c base disp) n
  end.

Definition write_operand (r : Ram) (l4 : Z) (c : CpuState) (n : Z) (o : operand) (v : Z) :
    result fault (CpuState * Ram) :=
  match o with
  | Register x => Ok (reg_set c x (v mod 2 ^ 64), r)
  | Memory base disp =>
      let! r := user_store_bytes r l4 (effective_address c base disp) n v in
      Ok (c, r)
  end.

(** Read, compute, write, and set the zero flag by the result. *)
Definition update_operand (r : Ram) (l4 : Z) (c : CpuState) (o : operand) (f : Z -> Z) :
    result fault (CpuState * Ram) :=
  let! v := read_operand r l4 c 8 o in
  let! p := write_operand r l4 c 8 o (f v mod 2 ^ 64) in
  Ok (set_zf p.1 (f v mod 2 ^ 64), p.2).

(** A comparison sets the zero flag by the difference modulo [256^n]. *)
Definition compare (c : CpuState) (r : Ram) (n a b : Z) : CpuState * Ram :=
  (set_zf c ((a - b) mod 256 ^ n), r).

(** The effect of an instruction other than a trap. *)
Definition run_instr (i : uinstr) (r : Ram) (l4 : Z) (c : CpuState) : result fault (CpuState * Ram) :=
  match i with
  | MovImm64 dst imm => Ok (reg_set c dst (imm mod 2 ^ 64), r)
  | MovImm dst imm => write_operand r l4 c 8 dst imm
  | MovImm8 dst imm => write_operand r l4 c 1 dst imm
  | MovRM dst src => let! v := read_operand r l4 c 8 src in Ok (reg_set c dst v, r)
  | MovMR dst src => write_operand r l4 c 8 dst (regs c src)
  | AddImm dst imm => update_operand r l4 c dst (fun v => v + imm)
  | Inc dst => update_operand r l4 c dst (fun v => v + 1)
  | XorMR dst src => update_operand r l4 c dst (fun v => Z.lxor v (regs c src))
  | CmpMR a b => let! v := read_operand r l4 c 8 a in Ok (compare c r 8 v (regs c b))
  | CmpRM a b => let! v := read_operand r l4 c 8 b in Ok (compare c r 8 (regs c a) v)
  | CmpImm32 a imm => let! v := read_operand r l4 c 4 a in Ok (compare c r 4 v imm)
  | CmpImm8 a imm => let! v := read_operand r l4 c 1 a in Ok (compare c r 1 v imm)
  | TestMR a b => let! v := read_operand r l4 c 8 a in Ok (set_zf c (Z.land v (regs c b)), r)
  | Jmp rel => Ok (set_rip c (c_rip c + rel), r)
  | Je rel => Ok (if zf c then set_rip c (c_rip c + rel) else c, r)
  | Jne rel => Ok (if zf c then c else set_rip c (c_rip c + rel), r)
  | Int _ | Hlt => Ok (c, r)
  end.

(** Fetch, decode and execute. An exception leaves the instruction pointer at
    the instruction, a trap past it. *)
Definition user_step (r : Ram) (l4 : Z) (c : CpuState) : outcome :=
  let '(bytes, cut) := fetch r l4 (c_rip c) in
  match decode bytes with
  | None => match cut with Some f => Exception c f | None => Unsupported end
  | Some (i, rest) =>
      let c1 := set_rip c (c_rip c + (vlen bytes - vlen rest)) in
      match i with
      | Hlt => Exception c (Protected 0)
      | Int v => match user_gate v with
                 | Some target => Trap c1 target
                 | None => Exception c (Protected (8 * v + 2))
                 end
      | _ => match run_instr i r l4 c1 with
             | Ok (c', r') => Continue c' r'
             | Err f => Exception c f
             end
      end
  end.

(** *** With the kernel *)

Definition unsupported : string := "instruction not modelled".

(** The handlers of interrupts.rs, on the machine without its tick counter. *)
Definition on_kernel {A} (op : ST Kernel A) : ST Machine A := fun m =>
  match op (mkKernel m 0 []) with
  | Done (a, k) => Done (a, machine k)
  | Panic msg => Panic msg
  end.

(** One instruction of the program that runs; [None] when the kernel goes
    back to the boot code. The gate's code segment and entry point and the
    registers a handler leaves do not matter for the program. *)
Definition user_round (c : CpuState) : ST Machine (option CpuState) :=
  let* m := st_get in
  match user_step (ram (mem m)) (cr3 (mem m)) c with
  | Continue c' r' => st_put (set_mem (set_ram r' (mem m)) m) ;;; st_ret (Some c')
  | Trap c' syscall_interrupt_entry =>
      interrupt_entry (cs_reg (cpu m)) 0 (fun rsp => on_kernel (syscall_interrupt_rust rsp)) c c'
  | Trap _ _ => st_panic unsupported
  | Exception c (PageFaulted a e) =>
      exception_entry (cs_reg (cpu m)) 0 e (fun rsp => on_kernel (page_fault_rust a rsp)) c c
  | Exception c (Protected e) =>
      exception_entry (cs_reg (cpu m)) 0 e (fun rsp => on_kernel (general_protection_rust rsp)) c c
  | Unsupported => st_panic unsupported
  end.

(** A timer interrupt between two instructions. *)
Definition timer_tick (c : CpuState) : ST Machine (option CpuState) :=
  let* m := st_get in
  interrupt_entry (cs_reg (cpu m)) 0 (fun rsp => on_kernel (timer_interrupt_rust rsp)) c c.
End cpu.

(** ** Decoding inverts encoding *)

Definition signed_ok (n : Z) (z : Z) : Prop := - (256 ^ n / 2) <= z < 256 ^ n / 2.

Definition operand_ok (o : operand) : Prop :=
  match o with
  | Register r => r ∈ low_regs
  | Memory b d => b ∈ low_regs /\ b <> RSP /\ (d = 0 -> b <> RBP) /\ signed_ok 1 d
  end.

(** The instructions the encoder is for. *)
Definition encodable (i : uinstr) : Prop :=
  match i with
  | MovImm64 dst imm => dst ∈ low_regs /\ is_u64 imm
  | MovImm o imm | AddImm o imm => operand_ok o /\ signed_ok 4 imm
  | MovImm8 o imm | CmpImm8 o imm => operand_ok o /\ is_memory o = true /\ signed_ok 1 imm
  | CmpImm32 o imm => operand_ok o /\ is_memory o = true /\ signed_ok 4 imm
  | MovRM r o | MovMR o r | XorMR o r | CmpMR o r | CmpRM r o | TestMR o r => operand_ok o /\ r ∈ low_regs
  | Inc o => operand_ok o
  | Jmp rel | Je rel | Jne rel => signed_ok 1 rel
  | Int v => is_byte v
  | Hlt => True
  end.

Lemma immediate_app n z rest :
  immediate n (to_le_bytes n z ++ rest) = Some (z mod 256 ^ Z.of_nat n, rest).
Proof.
  unfold immediate. rewrite length_app, length_to_le_bytes.
  rewrite (proj2 (Nat.leb_le _ _)) by lia.
  rewrite take_app_length', drop_app_length' by (by rewrite length_to_le_bytes). by rewrite from_to_le_bytes.
Qed.

Lemma signed_mod n z : 0 < n -> signed_ok n z -> signed n (z mod 256 ^ n) = z.
Proof.
  intros Hn [H1 H2]. unfold signed.
  assert (exists h, 256 ^ n = 2 * h /\ 0 < h) as (h & Eh & Hh).
  { exists (128 * 256 ^ (n - 1)). replace n with (1 + (n - 1)) at 1 by lia. rewrite Z.pow_add_r by lia.
    pose proof (Z.pow_pos_nonneg 256 (n - 1)). lia. }
  rewrite Eh in *. replace (2 * h / 2) with h in * by (rewrite Z.mul_comm, Z.div_mul; lia).
  destruct (Z.ltb_spec z 0).
  - rewrite <- (Z.mod_unique z (2 * h) (-1) (z + 2 * h)) by lia. destruct (Z.ltb_spec (z + 2 * h) h); lia.
  - rewrite Z.mod_small by lia. destruct (Z.ltb_spec z h); lia.
Qed.

Lemma signed_immediate_app n z rest :
  (0 < n)%nat -> signed_ok (Z.of_nat n) z -> signed_immediate n (to_le_bytes n z ++ rest) = Some (z, rest).
Proof.
  intros Hn Hz. unfold signed_immediate. rewrite immediate_app. cbn [option_map fst snd].
  by rewrite signed_mod by (done || lia).
Qed.

Lemma low_reg_number r : r ∈ low_regs -> 0 <= reg_number r < 8 /\ vget low_regs (reg_number r) = Some r.
Proof. destruct r; intros H; try by vm_compute; revert H; apply (bool_decide_unpack _). Qed.

(** The three fields of the operand byte. *)
Lemma modrm_fields m f n :
  0 <= f < 8 -> 0 <= n < 8 ->
  (64 * m + 8 * f + n) mod 8 = n /\ (64 * m + 8 * f + n) / 8 mod 8 = f /\ (64 * m + 8 * f + n) / 64 = m.
Proof. intros Hf Hn. Z.div_mod_to_equations. lia. Qed.

Lemma decode_modrm_app f o rest :
  0 <= f < 8 -> operand_ok o -> decode_modrm (modrm f o ++ rest) = Some (f, o, rest).
Proof.
  intros Hf Ho. destruct o as [r|b d]; cbn [operand_ok modrm] in *.
  - destruct (low_reg_number r Ho) as [Hn Hg]. destruct (modrm_fields 3 f _ Hf Hn) as (E1 & E2 & E3).
    change (0xc0 + 8 * f + reg_number r) with (64 * 3 + 8 * f + reg_number r). cbn [app decode_modrm].
    by rewrite E1, E2, E3, Hg.
  - destruct Ho as (Hb & Hs & Hp & Hd). destruct (low_reg_number b Hb) as [Hn Hg].
    destruct (Z.eqb_spec d 0) as [->|Hd0].
    + destruct (modrm_fields 0 f _ Hf Hn) as (E1 & E2 & E3).
      change (8 * f + reg_number b) with (64 * 0 + 8 * f + reg_number b). cbn [app decode_modrm].
      rewrite E1, E2, E3, Hg. rewrite decide_False; [done|]. specialize (Hp eq_refl). tauto.
    + destruct (modrm_fields 1 f _ Hf Hn) as (E1 & E2 & E3).
      change (0x40 + 8 * f + reg_number b) with (64 * 1 + 8 * f + reg_number b). cbn [app decode_modrm].
      rewrite E1, E2, E3, Hg, decide_False by done.
      change (d mod 256 :: rest) with (to_le_bytes 1 d ++ rest). by rewrite signed_immediate_app by (done || lia).
Qed.

Lemma decode_imm_app f n mem k o imm rest :
  0 <= f < 8 -> operand_ok o -> (mem = true -> is_memory o = true) -> (0 < n)%nat -> signed_ok (Z.of_nat n) imm ->
  decode_imm f n mem k (modrm f o ++ to_le_bytes n imm ++ rest) = Some (k o imm, rest).
Proof.
  intros Hf Ho Hm Hn Hi. unfold decode_imm. rewrite decode_modrm_app by done.
  rewrite Z.eqb_refl. cbn [andb]. assert (negb mem || is_memory o = true) as ->.
  { destruct mem; cbn; [by apply Hm|done]. }
  by rewrite signed_immediate_app by done.
Qed.

Lemma decode_reg_app k o r rest :
  operand_ok o -> r ∈ low_regs -> decode_reg k (modrm (reg_number r) o ++ rest) = Some (k o r, rest).
Proof.
  intros Ho Hr. destruct (low_reg_number r Hr) as [Hn Hg]. unfold decode_reg.
  rewrite decode_modrm_app by done. by rewrite Hg.
Qed.

Lemma decode_encode i rest : encodable i -> decode (encode i ++ rest) = Some (i, rest).
Proof.
  destruct i; cbn [encodable encode]; intros H; rewrite <- ?app_assoc;
    try (destruct H as (H1 & H2 & H3)); try (destruct H as (H1 & H2));
    cbn [app decode decode_wide];
    try (apply decode_imm_app; (done || lia)); try (by rewrite (decode_reg_app _ _ _ _ H1 H2)).
  - destruct (low_reg_number dst H1) as [Hn Hg].
    assert (decode_wide (0xb8 + reg_number dst :: to_le_bytes 8 imm ++ rest) =
      match vget low_regs (0xb8 + reg_number dst - 0xb8), immediate 8 (to_le_bytes 8 imm ++ rest) with
      | Some r, Some (imm, rest) => Some (MovImm64 r imm, rest)
      | _, _ => None
      end) as E by (by destruct dst).
    etrans; [exact E|]. rewrite immediate_app. replace (0xb8 + reg_number dst - 0xb8) with (reg_number dst) by lia.
    rewrite Hg. cbv [is_u64 U64_MAX] in H2. by rewrite Z.mod_small by (cbn; lia).
  - by rewrite decode_modrm_app by (done || lia).
  - by rewrite signed_immediate_app by (done || lia).
  - by rewrite signed_immediate_app by (done || lia).
  - by rewrite signed_immediate_app by (done || lia).
  - change (vector :: rest) with ([vector] ++ rest).
    replace [vector] with (to_le_bytes 1 vector) by (cbn; by rewrite Z.mod_small).
    rewrite immediate_app. cbn. by rewrite Z.mod_small.
  - done.
Qed.

(** A program decodes to itself. *)
Fixpoint disassemble (fuel : nat) (l : list Z) : option (list uinstr) :=
  match l with
  | [] => Some []
  | _ => match fuel with
         | O => None
         | S fuel => match decode l with
                     | Some (i, rest) => option_map (cons i) (disassemble fuel rest)
                     | None => None
                     end
         end
  end.

Lemma encode_nonempty i : exists b l, encode i = b :: l.
Proof. destruct i; cbn; eauto. Qed.

Lemma disassemble_encode l fuel :
  Forall encodable l -> (length l <= fuel)%nat -> disassemble fuel (concat (map encode l)) = Some l.
Proof.
  intros H. revert fuel. induction H as [|i l Hi _ IH]; intros fuel Hf; [by destruct fuel|].
  destruct fuel as [|fuel]; [cbn in Hf; lia|]. cbn [map concat].
  pose proof (decode_encode i (concat (map encode l)) Hi) as D.
  destruct (encode_nonempty i) as (b & k & E). rewrite E in *. cbn [app disassemble] in *.
  rewrite D, IH by (cbn in Hf; lia). done.
Qed.

(** ** What a program can reach *)

Section mmu.
Context {X : X86_64} {XS : X86_64_Spec X}.

Lemma contains_lor f a b : contains f a = true -> contains f b = true -> contains f (Z.lor a b) = true.
Proof. unfold contains. rewrite !Z.eqb_eq, Z.land_lor_distr_r. by intros -> ->. Qed.

Lemma page_walk_denied r access table indices f ok :
  page_walk r access table indices false = Some (f, ok) -> ok = false.
Proof.
  revert table. induction indices as [|i l IH]; intros table; cbn [page_walk]; [by intros [= _ <-]|].
  destruct (contains _ _); [|done]. destruct (entry_frame _); [|done]. apply IH.
Qed.

Lemma page_walk_step r access table i l f :
  page_walk r access table (i :: l) true = Some (f, true) ->
  let e := read_entry r table i in
  entry_allows_user (entry_flags e) = true /\ permits access (entry_flags e) = true /\
  exists next, entry_frame e = Some next /\ page_walk r access next l true = Some (f, true).
Proof.
  cbn [page_walk]. destruct (contains _ PRESENT) eqn:Hp; [|done].
  destruct (entry_frame _) as [next|]; [|done]. cbn [andb].
  destruct (permits _ _) eqn:Hq; intros H; [|by apply page_walk_denied in H].
  split; [|split; eauto]. apply contains_lor; [done|].
  unfold permits in Hq. by apply andb_true_iff in Hq as [? _].
Qed.

(** The processor's walk agrees with [translate]. *)
Lemma mmu_translate r l4 access a p :
  mmu r l4 access a = Ok p ->
  exists t, translate r l4 a = Some t /\ phys t = p /\
    (access = Write -> contains (flags t) WRITABLE = true).
Proof.
  unfold mmu, translate. destruct (page_walk _ _ _ _ _) as [[f []]|] eqn:E; [|done|done]. intros [= <-].
  apply page_walk_step in E as (-> & _ & l3 & -> & E). apply page_walk_step in E as (-> & _ & l2 & -> & E).
  apply page_walk_step in E as (-> & _ & l1 & -> & E). apply page_walk_step in E as (-> & Hq & g & -> & E).
  cbn in E. injection E as <-. eexists. split; [done|]. split; [done|]. intros ->.
  unfold permits in Hq. by apply andb_true_iff in Hq as [_ ?].
Qed.

(** The byte [x] of memory is behind a user address, writable if [access] is
    a write. *)
Definition reachable_byte (r : Ram) (l4 : Z) (access : Access) (x : Z) : Prop :=
  exists a t, translate r l4 a = Some t /\ phys t = x /\ (access = Write -> contains (flags t) WRITABLE = true).

Lemma mmu_run r l4 access a p n j :
  0 <= a -> mmu r l4 access a = Ok p -> n <= 4096 - a mod 4096 -> 0 <= j < n ->
  reachable_byte r l4 access (p + j).
Proof.
  intros Ha (t & Ht & <- & Hw)%mmu_translate Hn Hj. exists (a + j), (shift j t).
  rewrite translate_same_page, Ht by lia. split; [done|]. by split.
Qed.

Definition run_reachable (r : Ram) (l4 : Z) (access : Access) (run : Z * Z) : Prop :=
  forall j, 0 <= j < run.2 -> reachable_byte r l4 access (run.1 + j).

Lemma user_range_reachable r l4 access a n runs :
  0 <= a -> 0 <= n <= 4096 -> user_range r l4 access a n = Ok runs -> Forall (run_reachable r l4 access) runs.
Proof.
  intros Ha Hn. unfold user_range. destruct (_ && _); [|done]. cbn zeta. pose proof (Z.mod_pos_bound a 4096).
  destruct (mmu _ _ _ a) as [p|] eqn:Ep; [|done]. destruct (Z.eqb_spec (Z.min n (4096 - a mod 4096)) n) as [E|E].
  - intros [= <-]. constructor; [|done]. intros j Hj. cbn [fst snd] in *. eapply mmu_run; eauto. lia.
  - destruct (mmu _ _ _ (_ + _)) as [q|] eqn:Eq; [|done]. intros [= <-].
    assert (Z.min n (4096 - a mod 4096) = 4096 - a mod 4096) as E' by lia. rewrite E' in *.
    constructor; [|constructor; [|done]]; intros j Hj; cbn [fst snd] in *.
    + eapply mmu_run; eauto. lia.
    + assert ((a + (4096 - a mod 4096)) mod 4096 = 0) as E0.
      { apply Z.mod_divide; [lia|]. exists (a / 4096 + 1). pose proof (Z.div_mod a 4096). lia. }
      eapply mmu_run; [|exact Eq| |exact Hj]; [lia|rewrite E0; lia].
Qed.

Lemma store_bytes_change r runs l x :
  store_bytes r runs l x = r x \/ exists run, run ∈ runs /\ 0 <= x - run.1 < run.2.
Proof.
  revert r l. induction runs as [|[p n] runs IH]; intros r l; cbn [store_bytes]; [by left|].
  destruct (IH (X86.write_bytes r p (take (Z.to_nat n) l)) (drop (Z.to_nat n) l)) as [->|(run & Hr & Hx)].
  - rewrite write_bytes_at. destruct (vget _ _) as [b|] eqn:E; [right|by left].
    exists (p, n). split; [by left|]. apply vget_range in E. unfold vlen in E. rewrite length_take in E. cbn. lia.
  - right. exists run. split; [by right|done].
Qed.

Lemma user_store_reachable r l4 a n v r' x :
  0 <= a -> 0 <= n <= 4096 -> user_store_bytes r l4 a n v = Ok r' ->
  r' x = r x \/ reachable_byte r l4 Write x.
Proof.
  intros Ha Hn. unfold user_store_bytes. destruct (user_range _ _ _ _ _) as [runs|] eqn:E; [|done].
  intros [= <-]. destruct (store_bytes_change r runs (to_le_bytes (Z.to_nat n) v) x) as [->|(run & Hr & Hx)];
    [by left|right].
  pose proof (user_range_reachable _ _ _ _ _ _ Ha Hn E) as H. rewrite Forall_forall in H.
  specialize (H run Hr (x - run.1) Hx). by replace (run.1 + (x - run.1)) with x in H by lia.
Qed.
End mmu.

(** ** One instruction *)

Section user_step.
Context {X : X86_64} {XS : X86_64_Spec X}.

(** A state of the processor in ring 3: registers hold 64-bit words. *)
Record cpu_ok (c : CpuState) : Prop := mkCpuOk {
  cu_regs : forall r, is_u64 (regs c r);
  cu_rip : is_u64 (c_rip c);
  cu_ring : Z.land (c_cs c) 3 = 3
}.

(** The memory is changed at most where the program may write. *)
Definition stores_own (r : Ram) (l4 : Z) (r' : Ram) : Prop :=
  forall x, r' x = r x \/ reachable_byte r l4 Write x.

Lemma mod_u64 z : is_u64 (z mod 2 ^ 64).
Proof. by apply Z.mod_pos_bound. Qed.

Lemma cpu_ok_reg_set c r v : cpu_ok c -> is_u64 v -> cpu_ok (reg_set c r v).
Proof. intros [H1 H2 H3] Hv. constructor; cbn; [|done|done]. intros x. by destruct (decide (x = r)). Qed.

Lemma cpu_ok_set_zf c z : cpu_ok c -> cpu_ok (set_zf c z).
Proof. by intros []. Qed.

Lemma cpu_ok_set_rip c rip : cpu_ok c -> cpu_ok (set_rip c rip).
Proof. intros [H1 _ H3]. constructor; cbn; [done|apply mod_u64|done]. Qed.

Lemma small_mod_u64 z n : 0 <= n <= 8 -> is_u64 (z mod 256 ^ n).
Proof.
  intros Hn. pose proof (Z.pow_pos_nonneg 256 n). pose proof (Z.mod_pos_bound z (256 ^ n)).
  pose proof (Z.pow_le_mono_r 256 n 8). unfold is_u64. change (2 ^ 64) with (256 ^ 8). lia.
Qed.

Lemma read_operand_u64 r l4 c n o v : 0 <= n <= 8 -> read_operand r l4 c n o = Ok v -> is_u64 v.
Proof.
  intros Hn. destruct o; cbn [read_operand]; [intros [= <-]; by apply small_mod_u64|].
  unfold user_load. destruct (user_range _ _ _ _ _); [|done]. intros [= <-]. by apply small_mod_u64.
Qed.

Lemma write_operand_ok r l4 c n o v c' r' :
  cpu_ok c -> 0 <= n <= 8 -> write_operand r l4 c n o v = Ok (c', r') -> cpu_ok c' /\ stores_own r l4 r'.
Proof.
  intros Hc Hn. destruct o as [x|b d]; cbn [write_operand].
  - intros [= <- <-]. split; [apply cpu_ok_reg_set; [done|apply mod_u64]|by left].
  - destruct (user_store_bytes _ _ _ _ _) as [r1|] eqn:E; [|done]. intros [= <- <-]. split; [done|].
    intros x. refine (user_store_reachable _ _ _ _ _ _ _ _ _ E); [apply mod_u64|lia].
Qed.

Lemma update_operand_ok r l4 c o f c' r' :
  cpu_ok c -> update_operand r l4 c o f = Ok (c', r') -> cpu_ok c' /\ stores_own r l4 r'.
Proof.
  intros Hc. unfold update_operand. destruct (read_operand _ _ _ _ _) as [v|]; [|done]. cbn [result_bind].
  destruct (write_operand _ _ _ _ _ _) as [[c1 r1]|] eqn:E; [|done]. cbn. intros [= <- <-].
  apply write_operand_ok in E as [H1 H2]; [|done|lia]. split; [by apply cpu_ok_set_zf|done].
Qed.

Lemma run_instr_ok i r l4 c c' r' :
  cpu_ok c -> run_instr i r l4 c = Ok (c', r') -> cpu_ok c' /\ stores_own r l4 r'.
Proof.
  intros Hc. assert (stores_own r l4 r) as Hr by (by left).
  destruct i; cbn [run_instr];
    try (destruct (read_operand _ _ _ _ _) as [v|] eqn:E; [|done]); cbn [result_bind];
    try (by apply update_operand_ok); try (intros H; eapply write_operand_ok; [exact Hc| |exact H]; lia);
    intros [= <- <-]; (split; [|done]);
    auto using cpu_ok_set_zf, cpu_ok_reg_set, mod_u64; unfold compare;
    try (by apply cpu_ok_set_zf); try (by apply cpu_ok_set_rip); try (by destruct (zf c); try apply cpu_ok_set_rip).
  apply cpu_ok_reg_set; [done|]. eapply read_operand_u64; [|exact E]. lia.
Qed.

Lemma user_step_ok r l4 c :
  cpu_ok c ->
  match user_step r l4 c with
  | Continue c' r' => cpu_ok c' /\ stores_own r l4 r'
  | Trap c' target => target = syscall_interrupt_entry /\ cpu_ok c'
  | Exception c' _ => c' = c
  | Unsupported => True
  end.
Proof.
  intros Hc. unfold user_step. destruct (fetch r l4 (c_rip c)) as [bytes cut].
  destruct (decode bytes) as [[i rest]|]; [|by destruct cut].
  set (c1 := set_rip c _). assert (cpu_ok c1) as H1 by by apply cpu_ok_set_rip.
  assert (forall i, match run_instr i r l4 c1 with
    | Ok (c', r') => cpu_ok c' /\ stores_own r l4 r' | Err _ => True end) as Hi.
  { intros j. destruct (run_instr j r l4 c1) as [[c' r']|] eqn:E; [|done]. by eapply run_instr_ok. }
  destruct i; try (match goal with |- context [run_instr ?j _ _ _] => specialize (Hi j) end;
    by destruct (run_instr _ _ _ _) as [[c' r']|]); [|done].
  rewrite user_gate_spec. by destruct (_ =? _).
Qed.
End user_step.

(** ** With the kernel *)

Section user_round.
Context {X : X86_64} {XS : X86_64_Spec X} {XP : X86_64_Paging X}.

(** The pointer arguments of a system call are addresses. *)
Definition pointers_ok (c : CpuState) : Prop :=
  match from_raw (regs c RAX) with
  | Some SysWrite | Some SysRead => is_Some (VirtAddr_new (regs c RSI))
  | Some Open => is_Some (VirtAddr_new (regs c RDI))
  | Some WaitPid => regs c RSI <> 0 -> is_Some (VirtAddr_new (regs c RSI))
  | _ => True
  end.

(** The next instruction is one of those modelled and, if it is a system
    call, its pointers are addresses. *)
Definition round_allowed (m : Machine) (c : CpuState) : Prop :=
  match user_step (ram (mem m)) (cr3 (mem m)) c with
  | Unsupported => False
  | Trap c' _ => pointers_ok c'
  | _ => True
  end.

(** The next instruction is one of those modelled. *)
Definition modelled (m : Machine) (c : CpuState) : Prop :=
  user_step (ram (mem m)) (cr3 (mem m)) c <> Unsupported.

#[global] Instance pointers_ok_dec c : Decision (pointers_ok c).
Proof. unfold pointers_ok. destruct (from_raw _) as [[]|]; apply _. Qed.

#[global] Instance round_allowed_dec m c : Decision (round_allowed m c).
Proof. unfold round_allowed. destruct (user_step _ _ c); apply _. Qed.

Lemma on_kernel_machine {A} (op : ST Machine A) m : on_kernel (with_machine op) m = op m.
Proof. unfold on_kernel, with_machine, st_zoom. cbn [machine]. by destruct (op m) as [[a m']|]. Qed.

(** Popping registers and returning reads memory only. *)
Lemma resume_keeps c (k : KMem) : snd (exec_all entry_resume (c, k)) = k.
Proof. reflexivity. Qed.

Lemma confined_kmem m k : confined m -> confined (set_kmem k m).
Proof.
  intros Hm. eapply (conf_step m (Elsewhere (set_kmem k m))); [done| | |done].
  - split; [done|]. by split.
  - split; [done|]. by left.
Qed.

(** The machine stays confined, and the memory of a process outside [A] is as
    it was. *)
Definition contained (A : ProcessId -> Prop) (m m' : Machine) : Prop := confined m' /\ quiet A m m'.

Lemma event_contained e (m m' : Machine) :
  confined m -> enabled m e -> disciplined m e -> handle e m = Done (tt, m') -> contained (affected m e) m m'.
Proof.
  intros Hm He Hd E. split; [by eapply conf_step|].
  pose proof (handle_steps e m (reachable_ok m (confined_reachable m Hm)) (confined_isolated m Hm) He Hd
    (handled_accepted _ _ _ E)) as H.
  exact (proj2 (wp_result _ _ _ _ _ H E)).
Qed.

(** The path of every entry: the frame is built, the handler runs as the event
    [e], and the registers of the frame it chose are loaded. *)
Lemma run_entry_confined e handler left s c1 k1 m :
  confined m -> exec_all entry_save s = (c1, k1) ->
  let m1 := set_kmem k1 m in
  enabled m1 e -> disciplined m1 e -> accepted m1 e -> handle e m1 = discard (handler (regs c1 RDI)) m1 ->
  wp (run_entry handler left s) (fun _ m' => contained (affected m1 e) m m') m.
Proof.
  intros Hm Es m1 He Hd Ha Eh. pose proof (confined_kmem m k1 Hm) as H1. fold m1 in H1.
  pose proof (handle_run e m1 (reachable_ok _ (confined_reachable _ H1)) He Ha) as Hw.
  unfold run_entry. rewrite Es. wp_steps. fold m1.
  apply wp_done in Hw as ([] & m2 & E & _). pose proof (event_contained e m1 m2 H1 He Hd E) as H2.
  rewrite Eh in E. unfold discard, st_bind in E.
  destruct (handler (regs c1 RDI) m1) as [[next m2']|msg] eqn:Er; [|done]. injection E as <-.
  eapply wp_intro; [exact Er|]. destruct next as [rsp|]; [|by apply wp_ret]. wp_steps.
  pose proof (resume_keeps (reg_set left RAX rsp) (kmem m2')) as Hk.
  destruct (exec_all entry_resume _) as [c2 k2]. cbn [snd] in Hk. subst k2. wp_steps. by rewrite set_kmem_same.
Qed.

(** The arguments of a system call are the registers of the program. *)
Lemma frame_args m k frame_rsp c :
  read_frame k frame_rsp = frame_of c ->
  let m1 := set_kmem k m in
  arg_rax m1 frame_rsp = regs c RAX /\ arg_rdi m1 frame_rsp = regs c RDI /\
  arg_rsi m1 frame_rsp = regs c RSI /\ arg_rdx m1 frame_rsp = regs c RDX.
Proof. intros H. injection H. done. Qed.

Lemma syscall_enabled m k frame_rsp c :
  current (sched m) <> None -> read_frame k frame_rsp = frame_of c -> cpu_ok c ->
  enabled (set_kmem k m) (SyscallInt frame_rsp).
Proof.
  intros Hcur Hf Hc. destruct (frame_args m k frame_rsp c Hf) as (E1 & E2 & E3 & E4). split; [done|].
  unfold frame_words_ok. rewrite E2, E3, E4. split; [|split]; apply Hc.
Qed.

Lemma pointers_accepted m k frame_rsp c :
  read_frame k frame_rsp = frame_of c ->
  pointer_accepted (set_kmem k m) frame_rsp <-> pointers_ok c.
Proof.
  intros Hf. destruct (frame_args m k frame_rsp c Hf) as (E1 & E2 & E3 & E4).
  unfold pointer_accepted. by rewrite E1, E2, E3.
Qed.

(** A fault of the program is the event [UserFault]. *)
Lemma fault_handled m1 frame_rsp a :
  from_user (kmem m1) frame_rsp = true ->
  let e := kmem m1 (frame_rsp + OFF_ERROR_CODE) in
  on_kernel (page_fault_rust a frame_rsp) m1 =
    fail_current_with_fault frame_rsp (mkFaultInfo PageFault (Some a) e) m1 /\
  on_kernel (general_protection_rust frame_rsp) m1 =
    fail_current_with_fault frame_rsp (mkFaultInfo GeneralProtection None e) m1.
Proof.
  intros Hu. cbn zeta.
  rewrite <- (on_kernel_machine (fail_current_with_fault frame_rsp (mkFaultInfo PageFault _ _))).
  rewrite <- (on_kernel_machine (fail_current_with_fault frame_rsp (mkFaultInfo GeneralProtection _ _))).
  unfold page_fault_rust, general_protection_rust, on_kernel, st_bind, st_get. cbn [machine]. by rewrite Hu.
Qed.

Lemma discard_ext {A} (op op' : ST Machine A) m : op m = op' m -> discard op m = discard op' m.
Proof. intros H. unfold discard, st_bind. by rewrite H. Qed.

(** A system call of the program. *)
Lemma syscall_entry_confined c m cs left :
  confined m -> current (sched m) <> None -> cpu_ok c -> pointers_ok c ->
  TRAP_FRAME_SIZE + 8 <= interrupt_stack (tss_rsp0 (cpu m)) c < 2 ^ 64 ->
  wp (interrupt_entry cs 0 (fun rsp => on_kernel (syscall_interrupt_rust rsp)) left c)
    (fun _ m' => contained (involved m) m m') m.
Proof.
  intros Hm Hcur Hc Ha Hb. unfold interrupt_entry. wp_steps.
  assert (TRAP_FRAME_SIZE <= interrupt_stack (tss_rsp0 (cpu m)) c < 2 ^ 64) as Hb' by lia.
  destruct (entry_saves (tss_rsp0 (cpu m)) cs 0 c (kmem m) Hb') as [S1 S2 _ _].
  destruct (exec_all entry_save _) as [c1 k1] eqn:Es. cbn [fst snd] in S1, S2. rewrite <- S2 in S1.
  apply (run_entry_confined (SyscallInt (regs c1 RDI)) _ _ _ c1 k1); [done|done| |done| |].
  - by apply (syscall_enabled m k1 _ c).
  - by apply (pointers_accepted m k1 _ c).
  - apply discard_ext. symmetry. apply on_kernel_machine.
Qed.

(** A fault of the program. *)
Lemma fault_entry_confined c m cs left err handler info :
  confined m -> current (sched m) <> None -> cpu_ok c ->
  TRAP_FRAME_SIZE + 8 <= interrupt_stack (tss_rsp0 (cpu m)) c < 2 ^ 64 ->
  (forall m1 rsp, from_user (kmem m1) rsp = true -> handler rsp m1 = fail_current_with_fault rsp (info m1 rsp) m1) ->
  wp (exception_entry cs 0 err handler left c) (fun _ m' => contained (involved m) m m') m.
Proof.
  intros Hm Hcur Hc Hb Hh. unfold exception_entry. wp_steps.
  destruct (exception_saves (tss_rsp0 (cpu m)) cs 0 err c (kmem m) Hb) as (S1 & S2 & S3 & _).
  destruct (exec_all entry_save _) as [c1 k1] eqn:Es. cbn [fst snd] in S1, S2, S3. rewrite <- S1 in S3.
  apply (run_entry_confined (UserFault (regs c1 RDI) (info (set_kmem k1 m) (regs c1 RDI))) _ _ _ c1 k1);
    [done|done|done|done|done|].
  apply discard_ext. symmetry. apply Hh. unfold from_user. cbn [kmem set_kmem]. by rewrite S3, (cu_ring _ Hc).
Qed.

(** A timer interrupt, whatever runs. *)
Lemma timer_tick_run c m :
  confined m -> wp (timer_tick c) (fun _ m' => contained (fun _ => False) m m') m.
Proof.
  intros Hm. unfold timer_tick, interrupt_entry. wp_steps. set (s := cpu_interrupt _ _ _ _).
  destruct (exec_all entry_save s) as [c1 k1] eqn:Es.
  apply (run_entry_confined (TimerIrq (regs c1 RDI)) _ _ _ c1 k1); [done|done|done|done|done|].
  apply discard_ext. symmetry. unfold timer_interrupt_rust, on_kernel, with_machine, st_zoom, st_bind, st_modify.
  cbn [machine]. by destruct (on_timer_interrupt _ _) as [[r m']|].
Qed.

(** One instruction of the running program, system calls and faults included,
    keeps the machine confined. It can change the memory of the running process,
    and of its parent if that waits for it. *)
Lemma user_round_run c m :
  confined m -> current_proc m <> None -> cpu_ok c -> round_allowed m c ->
  TRAP_FRAME_SIZE + 8 <= align_16 (tss_rsp0 (cpu m)) < 2 ^ 64 ->
  wp (user_round c) (fun _ m' => contained (involved m) m m') m.
Proof.
  intros Hm Hp Hc Ha Hb. unfold user_round, round_allowed in *. wp_steps.
  assert (current (sched m) <> None) as Hcur by (unfold current_proc in Hp; by destruct (current (sched m))).
  assert (forall c, cpu_ok c -> TRAP_FRAME_SIZE + 8 <= interrupt_stack (tss_rsp0 (cpu m)) c < 2 ^ 64) as Hst.
  { intros c0 H0. unfold interrupt_stack. by rewrite (cu_ring _ H0). }
  pose proof (user_step_ok (ram (mem m)) (cr3 (mem m)) c Hc) as Hs.
  destruct (user_step _ _ c) as [c' r'|c' target|c' f|]; [| | |done].
  - destruct Hs as [_ Hs]. wp_steps. destruct (event_contained (Elsewhere (set_mem (set_ram r' (mem m)) m)) m
      (set_mem (set_ram r' (mem m)) m)) as [H1 H2]; [done| | |done|].
    + split; [done|]. by split.
    + split; [done|]. intros x _. destruct (Hs x) as [?|(a & t & Ht & Hx & Hw)]; [by left|right].
      split; [done|]. exists a, t. auto.
    + split; [done|]. intros q p Hq Hn. apply (H2 q p Hq). intros Ho. apply Hn. by left.
  - destruct Hs as [-> Hc']. apply syscall_entry_confined; auto.
  - subst c'. destruct f as [a e|e]; (eapply fault_entry_confined; auto); intros m1 rsp Hu.
    + exact (proj1 (fault_handled m1 rsp a Hu)).
    + exact (proj2 (fault_handled m1 rsp 0 Hu)).
Qed.
End user_round.
