(* ===== verification/Execution.v ===== *)
(** * User programs running under the kernel

    A machine whose tasks are user tasks executes: one instruction of the
    program that runs, with the system call or the fault it raises, or a timer
    interrupt between two instructions, any number of times. [executing] is
    the invariant of that execution. It adds to [confined] what the entry
    stubs rely on: every task has a kernel stack of its own, and a task that
    does not run has on it the frame it will resume from. The theorems: the
    execution panics only on a system call with a pointer that is not an
    address and stops only when every program has ended, and a
    program that is preempted finds its registers and its memory as it left
    them, whatever the others did in between. *)

From stdpp Require Import relations.
From S2P Require Import Prelude File Fd X86 Memory AddressSpace UserMemory Process Context.
From S2P Require Import Serial Task Syscall User Elf Scheduler SchedulerCalls Interrupts RoundRobin.
From S2P Require Import Invariant Switching Exit Calls Spawn System PageTables Spaces Isolation Handlers Stubs.
From S2P Require Import Loading Confinement UserCode.

Import ProcessTableFacts.

(** ** What the kernel does to saved frames *)

(** A task that neither runs nor has ended. *)
Definition parked (t : Task) : Prop := is_terminal t = false /\ t_state t <> Running.

(** The kernel stack and the owner of a task do not change. *)
Definition same_home (t t' : Task) : Prop :=
  t_kernel_stack t' = t_kernel_stack t /\ t_kernel_stack_top t' = t_kernel_stack_top t /\
  t_address_space t' = t_address_space t.

Lemma same_home_refl t : same_home t t.
Proof. done. Qed.

Lemma same_home_trans t1 t2 t3 : same_home t1 t2 -> same_home t2 t3 -> same_home t1 t3.
Proof. intros (? & ? & ?) (? & ? & ?). split; [|split]; congruence. Qed.

(** Task [cur] is left as it is or saved at [frame_rsp]; the others keep their
    saved frame, and none of them ends or starts to wait. *)
Record follows (cur : TaskId) (frame_rsp : Z) (ts ts' : list Task) : Prop := mkFollows {
  fw_len : vlen ts' = vlen ts;
  fw_task j t' : vget ts' j = Some t' -> exists t, vget ts j = Some t /\ same_home t t' /\
    if decide (j = cur) then saved_rsp t' = frame_rsp \/ t' = t
    else saved_rsp t' = saved_rsp t /\ is_terminal t' = is_terminal t /\
         (is_blocked t' = true -> is_blocked t = true)
}.

Lemma follows_refl cur rsp ts : follows cur rsp ts ts.
Proof.
  constructor; [done|]. intros j t Ht. exists t. split; [done|]. split; [done|]. case_decide; [by right|done].
Qed.

Lemma follows_saved cur rsp ts t t' :
  vget ts cur = Some t -> same_home t t' -> saved_rsp t' = rsp -> follows cur rsp ts (vset ts cur t').
Proof.
  intros Ht Hh Hs. constructor; [apply vlen_vset|]. intros j u. rewrite vget_vset. case_decide as D.
  - destruct D as [<- _]. intros [= <-]. exists t. split; [done|]. split; [done|].
    rewrite decide_True by done. by left.
  - apply (fw_task _ _ _ _ (follows_refl cur rsp ts)).
Qed.

(** Another task becomes ready or runs. *)
Lemma follows_state cur rsp ts ts1 n u s :
  follows cur rsp ts ts1 -> vget ts1 n = Some u -> n <> cur -> is_terminal u = false ->
  s = Ready \/ s = Running -> follows cur rsp ts (vset ts1 n (set_state u s)).
Proof.
  intros [L F] Hu Hne Ht Hs. constructor; [by rewrite vlen_vset|]. intros j t'. rewrite vget_vset.
  case_decide as D; [|apply F]. destruct D as [<- _]. intros [= <-]. destruct (F n u Hu) as (t & Hg & Hh & H).
  rewrite decide_False in H by done. destruct H as (H1 & H2 & H3).
  exists t. split; [done|]. split; [done|]. rewrite decide_False by done. split; [done|].
  rewrite <- H2, Ht. unfold is_terminal, is_blocked. by destruct Hs as [-> | ->].
Qed.

(** The words of kernel memory a handler may write: the return value of the
    current frame, and that of a blocked task. *)
Definition rax_slot (m : Machine) (cur : TaskId) (frame_rsp x : Z) : Prop :=
  x = frame_rsp + OFF_RAX \/
  exists w t, vget (tasks (sched m)) w = Some t /\ w <> cur /\ is_blocked t = true /\ x = saved_rsp t + OFF_RAX.

Definition rax_only (m : Machine) (cur : TaskId) (frame_rsp : Z) (k k' : KMem) : Prop :=
  forall x, k' x = k x \/ is_u64 (k' x) /\ rax_slot m cur frame_rsp x.

Lemma rax_only_refl m cur rsp k : rax_only m cur rsp k k.
Proof. by left. Qed.

Lemma rax_only_write m cur rsp k k1 a v :
  rax_only m cur rsp k k1 -> is_u64 v -> rax_slot m cur rsp a -> rax_only m cur rsp k (kwrite k1 a v).
Proof.
  intros H Hv Ha x. unfold kwrite. destruct (Z.eqb_spec x a) as [->|]; [by right|apply H].
Qed.

(** A process keeps its address space for life. *)
Definition same_spaces (pt pt' : ProcessTable) : Prop :=
  forall q p', ProcessTable.get pt' q = Some p' ->
    exists p, ProcessTable.get pt q = Some p /\ p_address_space p' = p_address_space p.

Lemma same_spaces_refl pt : same_spaces pt pt.
Proof. intros q p Hp. by exists p. Qed.

Lemma same_spaces_trans pt1 pt2 pt3 : same_spaces pt1 pt2 -> same_spaces pt2 pt3 -> same_spaces pt1 pt3.
Proof.
  intros H1 H2 q p3 H3. destruct (H2 q p3 H3) as (p2 & Hp2 & E2). destruct (H1 q p2 Hp2) as (p1 & Hp1 & E1).
  exists p1. by rewrite E2.
Qed.

Lemma shrunk_spaces pt pt' : shrunk pt pt' -> same_spaces pt pt'.
Proof. intros H q p' Hp'. destruct (H q p' Hp') as (p & Hp & E & _). by exists p. Qed.

Lemma with_process_spaces m pid p p' fs :
  ProcessTable.get (proc_table (sched m)) pid = Some p -> p_address_space p' = p_address_space p ->
  same_spaces (proc_table (sched m)) (proc_table (sched (with_process m pid p' fs))).
Proof.
  intros Hp E q r. cbn [with_process sched set_sched set_open_files set_proc_table proc_table].
  rewrite (get_update _ _ _ _ _ Hp). case_decide as D; [|by exists r]. intros [= <-]. subst q. by exists p.
Qed.

(** What a handler called with the frame of the current task leaves. *)
Record kernel_step (m : Machine) (cur : TaskId) (frame_rsp : Z) (r : Switch) (m' : Machine) : Prop :=
  mkKernelStep {
    ks_kmem : rax_only m cur frame_rsp (kmem m) (kmem m');
    ks_tasks : follows cur frame_rsp (tasks (sched m)) (tasks (sched m'));
    ks_spaces : same_spaces (proc_table (sched m)) (proc_table (sched m'));
    ks_next : match r with
      | Resume a => exists n t', current (sched m') = Some n /\ vget (tasks (sched m')) n = Some t' /\
          if decide (n = cur) then a = frame_rsp else a = saved_rsp t'
      | ToMain => current (sched m') = None /\ all_tasks_finished (tasks (sched m')) = true
      end
  }.

Lemma raw_return_u64 e : is_u64 (raw_return e).
Proof. pose proof (raw_return_range e). unfold is_u64. lia. Qed.

Lemma table_pid_u64 pt pid p : table_wf pt -> ProcessTable.get pt pid = Some p -> is_u64 pid.
Proof.
  intros Hwf Hp. destruct (wf_pid _ Hwf _ _ Hp) as [_ ?]. pose proof (wf_next _ Hwf).
  unfold is_u64, MAX_PROCESSES in *. lia.
Qed.

Section kernel_steps.
Context {X : X86_64} {XS : X86_64_Spec X}.

(** *** Switching *)

Lemma yielded_step m0 m cur t rsp r m' :
  ok m -> current (sched m) = Some cur -> vget (tasks (sched m)) cur = Some t ->
  sched m0 = sched m -> rax_only m0 cur rsp (kmem m0) (kmem m) ->
  yielded m cur t rsp r m' -> keeps m m' -> kernel_step m0 cur rsp r m'.
Proof.
  intros K Hc Ht E0 Hk Hy [_ _ _ Ek Ep _ _].
  assert (same_spaces (proc_table (sched m0)) (proc_table (sched m'))) as Hsp.
  { rewrite Ep, E0. apply same_spaces_refl. }
  pose proof (vget_range _ _ _ Ht) as Hr. unfold yielded in Hy.
  destruct (next_ready_after _ cur) as [n|] eqn:En.
  - destruct Hy as (u & Hu & Hne & -> & Hcur & Hts). destruct (next_ready_Some _ _ _ En) as [(u' & Hu' & Hst) _].
    assert (u' = u) as -> by congruence. constructor; [by rewrite Ek| |done|].
    + rewrite Hts, E0. apply follows_state; [by eapply follows_saved| |done| |by right].
      * by rewrite vget_vset_ne.
      * unfold is_terminal. by rewrite Hst.
    + exists n, (set_state u Running). split; [done|]. rewrite decide_False by done. split; [|done].
      rewrite Hts. apply vget_vset_eq. rewrite vlen_vset. by eapply vget_range.
  - destruct Hy as [-> ->]. constructor; [by rewrite Ek| |done|].
    + cbn. rewrite E0. by eapply follows_saved.
    + exists cur, (set_saved_rsp t rsp). split; [done|]. rewrite decide_True by done. split; [|done].
      by apply vget_vset_eq.
Qed.

(** The task that stopped is not ready, so another one is resumed. *)
Lemma switched_step m0 m1 cur rsp r m' tc :
  ok m' -> vget (tasks (sched m1)) cur = Some tc -> t_state tc <> Ready ->
  follows cur rsp (tasks (sched m0)) (tasks (sched m1)) -> rax_only m0 cur rsp (kmem m0) (kmem m1) ->
  same_spaces (proc_table (sched m0)) (proc_table (sched m1)) ->
  keeps m1 m' -> switched m1 cur r m' ->
  kernel_step m0 cur rsp r m' /\ vget (tasks (sched m')) cur = Some tc.
Proof.
  intros K' Hc Hst F Hk Hsp [_ _ _ Ek Ep _ _] Hs. rewrite <- Ep in Hsp.
  assert (r = ToMain -> all_tasks_finished (tasks (sched m')) = true) as Hmain.
  { apply (switched_to_main m1 cur r m' Hs (ok_core _ K')). intros E. rewrite E in Hc.
    apply vget_range in Hc. unfold vlen in Hc. cbn in Hc. lia. }
  unfold switched in Hs. destruct (next_ready_after _ cur) as [n|] eqn:En.
  - destruct (next_ready_Some _ _ _ En) as [(u & Hu & Hus) _]. destruct Hs as (u' & Hu' & -> & Hcur & Hts).
    assert (u' = u) as -> by congruence. assert (n <> cur) as Hne by (intros ->; congruence).
    split; [constructor; [by rewrite Ek| |done|]|].
    + rewrite Hts. apply follows_state; [done|done|done| |by right]. unfold is_terminal. by rewrite Hus.
    + exists n, (set_state u Running). split; [done|]. rewrite decide_False by done. split; [|done].
      rewrite Hts. apply vget_vset_eq. by eapply vget_range.
    + by rewrite Hts, vget_vset_ne.
  - destruct Hs as (-> & Hno & Hts & _). split; [|by rewrite Hts].
    constructor; [by rewrite Ek|by rewrite Hts|done|]. split; [done|by apply Hmain].
Qed.

(** *** Calls that return *)

(** A call that leaves tasks and kernel stacks alone, with a value for RAX. *)
Definition plain_call (m : Machine) (v : SysResult) (m1 : Machine) : Prop :=
  kmem m1 = kmem m /\ tasks (sched m1) = tasks (sched m) /\ current (sched m1) = current (sched m) /\
  same_spaces (proc_table (sched m)) (proc_table (sched m1)) /\ is_u64 (sys_return v).

Ltac plain :=
  split; [done|]; split; [done|]; split; [done|];
  split; [first [apply same_spaces_refl|by eapply with_process_spaces]|];
  first [done|apply raw_return_u64|unfold is_u64, MAX_FDS_PER_PROCESS in *; cbn; lia].

Lemma plain_same m v : is_u64 (sys_return v) -> plain_call m v m.
Proof. intros. plain. Qed.

Lemma plain_err m e : plain_call m (Err e) m.
Proof. apply plain_same, raw_return_u64. Qed.

Lemma write_plain m fd buf len v m1 : is_u64 len -> write_outcome m fd buf len v m1 -> plain_call m v m1.
Proof.
  intros Hl. unfold write_outcome. destruct (len =? 0); [intros [-> ->]; plain|].
  destruct (fd_file m fd) as [[[[pid p] e] f]|]; [|intros [-> ->]; plain].
  destruct (of_access f); [intros [-> ->]; plain|].
  assert (match read_user (ram (mem m)) (p_address_space p) buf (Z.to_nat len) with
    | Ok data => v = Ok len /\ exists s', m1 = set_serial s' m /\ printed (serial m) data s'
    | Err _ => v = Err Fault /\ m1 = m end -> plain_call m v m1) as Hw.
  { destruct (read_user _ _ _ _); [intros [-> (s' & -> & _)]; plain|intros [-> ->]; plain]. }
  destruct (of_kind f); try exact Hw; intros [-> ->]; plain.
Qed.

Lemma read_plain m fd buf len v m1 : is_u64 len -> read_outcome m fd buf len v m1 -> plain_call m v m1.
Proof.
  intros Hl. unfold read_outcome. destruct (Z.eqb_spec len 0); [intros [-> ->]; plain|].
  destruct (fd_file m fd) as [[[[pid p] e] f]|]; [|intros [-> ->]; plain].
  destruct (of_access f); [|intros [-> ->]; plain].
  destruct (of_kind f) as [| | |id]; [intros [-> ->]; plain|intros [-> ->]; plain..|].
  destruct (embedded_file id) as [file|]; [|intros [-> ->]; plain]. cbv zeta.
  destruct (Z.leb_spec (vlen (bytes file) - of_offset f) 0) as [|Hpos]; [intros [-> ->]; plain|].
  intros (copied & x & _ & H). destruct copied; destruct H as [-> ->]; plain.
Qed.

Lemma open_plain m path len fl v m1 : open_outcome m path len fl v m1 -> plain_call m v m1.
Proof.
  unfold open_outcome. destruct (open_request m path len fl) as [[pid id]|]; [|intros [-> ->]; plain].
  intros (p & fs & [Hp _] & H). destruct v as [fd|e].
  - destruct H as (i & Hfd & _ & _ & _ & _ & _ & ->). plain.
  - destruct H as (_ & _ & ->). plain.
Qed.

Lemma close_plain m fd v m1 : close_outcome m fd v m1 -> plain_call m v m1.
Proof.
  unfold close_outcome. destruct (current_proc m) as [pid|]; [|intros [-> ->]; plain].
  intros (p & [Hp _] & H). destruct (FdTable.get _ fd); destruct H as [-> ->]; plain.
Qed.

Lemma brk_plain m req v m1 : ok m -> is_u64 req -> brk_outcome m req v m1 -> plain_call m v m1.
Proof.
  intros K Hu. unfold brk_outcome. destruct (current_proc m) as [pid|]; [|intros [-> ->]; plain].
  intros (p & [Hp _] & H). revert H. unfold brk_process.
  destruct (req =? 0).
  { intros [-> ->]. destruct (ok_fds m pid p K Hp) as [_ [[H0 _] [H1 _] H2 _]]. plain. }
  destruct (_ <? _); [intros [-> ->]; plain|]. destruct (_ >? _); [intros [-> ->]; plain|].
  destruct (_ =? _); [intros [-> ->]; plain|]. intros (stop & moved & x & _ & _ & H).
  destruct moved; destruct H as [-> ->]; [|plain]. do 3 (split; [done|]).
  split; [by apply (with_process_spaces (set_mem x m) pid p)|done].
Qed.

Lemma plain_step m cur rsp v m1 t :
  current (sched m) = Some cur -> vget (tasks (sched m)) cur = Some t -> plain_call m v m1 ->
  kernel_step m cur rsp (Resume rsp) (set_rax m1 rsp (sys_return v)).
Proof.
  intros Hc Ht (Ek & Et & Ec & Hsp & Hv). constructor; [| |done|].
  - cbn. rewrite Ek. apply rax_only_write; [apply rax_only_refl|done|by left].
  - cbn. rewrite Et. apply follows_refl.
  - exists cur, t. cbn. rewrite Ec, Et, decide_True by done. done.
Qed.

(** *** waitpid, exit and faults *)

Lemma waited_kmem m t c ptr m' :
  waited m t c ptr m' -> is_u64 c ->
  exists v, is_u64 v /\ kmem m' = kwrite (kmem m) (saved_rsp t + OFF_RAX) v.
Proof.
  intros W Hc. destruct (wt_result _ _ _ _ _ W) as (pid & r & _ & _ & H). destruct r.
  - destruct H as (_ & _ & ->). by exists c.
  - destruct H as (_ & ->). exists (raw_return Fault). split; [apply raw_return_u64|done].
Qed.

Lemma waited_spaces m t c ptr m' :
  waited m t c ptr m' -> same_spaces (proc_table (sched m)) (proc_table (sched m')).
Proof.
  intros W. destruct (waited_table _ _ _ _ _ W) as [[R _]| ->]; [|apply same_spaces_refl].
  by eapply shrunk_spaces, shrunk_remove.
Qed.

Lemma woken_step m0 m cur rsp c m' t tc :
  vget (tasks (sched m0)) cur = Some t -> tasks (sched m) = vset (tasks (sched m0)) cur tc ->
  same_home t tc -> saved_rsp tc = rsp -> is_terminal tc = true -> is_u64 c -> kmem m = kmem m0 ->
  woken m c m' ->
  follows cur rsp (tasks (sched m0)) (tasks (sched m')) /\ rax_only m0 cur rsp (kmem m0) (kmem m') /\
  vget (tasks (sched m')) cur = Some tc /\ same_spaces (proc_table (sched m)) (proc_table (sched m')).
Proof.
  intros Ht Ets Hh Hs Hterm Hc Ek. pose proof (vget_range _ _ _ Ht) as Hr.
  assert (vget (tasks (sched m)) cur = Some tc) as Htc by (rewrite Ets; by apply vget_vset_eq).
  assert (follows cur rsp (tasks (sched m0)) (tasks (sched m))) as F by (rewrite Ets; by eapply follows_saved).
  intros [[_ ->]|(w & u & ptr & m1 & Hu & Hus & W & ->)].
  { rewrite Ek. split; [done|]. split; [apply rax_only_refl|]. split; [done|apply same_spaces_refl]. }
  assert (w <> cur) as Hne.
  { intros ->. assert (u = tc) as -> by congruence. unfold is_terminal in Hterm. by rewrite Hus in Hterm. }
  destruct (waited_kmem _ _ _ _ _ W Hc) as (v & Hv & Ek1). cbn. rewrite (wt_tasks _ _ _ _ _ W), Ek1, Ek.
  split; [|split; [|split; [by rewrite vget_vset_ne|by eapply waited_spaces]]].
  - apply follows_state; [done|done|done| |by left]. unfold is_terminal. by rewrite Hus.
  - apply rax_only_write; [apply rax_only_refl|done|right]. exists w, u. rewrite Ets, vget_vset_ne in Hu by done.
    split; [done|]. split; [done|]. split; [|done]. unfold is_blocked. by rewrite Hus.
Qed.

Lemma ended_home t rsp s code info :
  same_home t (ended t rsp s code info) /\ saved_rsp (ended t rsp s code info) = rsp.
Proof. by destruct code, info. Qed.

(** The end of the current task, by [exit] or by a fault. *)
Lemma finished_step m cur t rsp s code info e m1 r m' :
  ok m -> current (sched m) = Some cur -> vget (tasks (sched m)) cur = Some t -> s = Finished \/ s = Failed ->
  match process_id t with
  | Some pid => process_ended (with_task m cur (ended t rsp s code info)) pid e m1
  | None => m1 = with_task m cur (ended t rsp s code info)
  end ->
  ok m' -> keeps m1 m' -> switched m1 cur r m' ->
  kernel_step m cur rsp r m' /\ exists te, vget (tasks (sched m')) cur = Some te /\ is_terminal te = true.
Proof.
  intros K Hc Ht Hs H K' Kp Sw. destruct (ended_home t rsp s code info) as [Hh Hsv].
  set (te := ended t rsp s code info) in *. pose proof (vget_range _ _ _ Ht) as Hr.
  assert (t_state te = s) as Hst by apply ended_state.
  assert (is_terminal te = true) as Hterm by (unfold is_terminal; rewrite Hst; by destruct Hs as [-> | ->]).
  assert (follows cur rsp (tasks (sched m)) (tasks (sched m1)) /\ rax_only m cur rsp (kmem m) (kmem m1) /\
    vget (tasks (sched m1)) cur = Some te /\ same_spaces (proc_table (sched m)) (proc_table (sched m1)))
    as (F & Hk & Hte & Hsp).
  { destruct (process_id t) as [pid|] eqn:Hpid.
    2: { subst m1. split; [by eapply follows_saved|]. split; [apply rax_only_refl|].
         split; [by apply vget_vset_eq|apply same_spaces_refl]. }
    destruct H as (p & pt & fs & m2 & pt' & [Hp _] & Hex & _ & W & Hor & ->).
    apply (woken_step m _ cur rsp pid m2 t te) in W; try done.
    2: { eapply table_pid_u64; [apply (co_table _ _ _ _ _ (ok_core _ K))|done]. }
    destruct W as (F & Hk & Hte & Hsp). split; [done|]. split; [done|]. split; [done|].
    eapply same_spaces_trans; [by eapply shrunk_spaces, shrunk_exit|].
    eapply same_spaces_trans; [exact Hsp|]. by eapply shrunk_spaces, shrunk_reaped. }
  destruct (switched_step m m1 cur rsp r m' te) as [H1 H2]; try done; [by destruct Hs; congruence|].
  split; [done|]. by exists te.
Qed.

Lemma waitpid_step m rsp cur t pid p c ptr options r m' :
  ok m -> ok m' -> current (sched m) = Some cur -> vget (tasks (sched m)) cur = Some t -> is_u64 c ->
  waitpid_outcome m rsp cur t pid p c ptr options r m' -> kernel_step m cur rsp r m'.
Proof.
  intros K K' Hc Ht Hu. pose proof (vget_range _ _ _ Ht) as Hr. unfold waitpid_outcome.
  destruct (wait_error _ _ _ _ _ _) as [e|].
  { intros [-> ->]. apply (plain_step m cur rsp (Err e) m t Hc Ht), plain_err. }
  destruct (ProcessTable.state _ c) as [[|ex]|]; [|intros [-> W]|done].
  - destruct (_ =? WNOHANG); [intros [-> ->]; apply (plain_step m cur rsp (Ok 0) m t Hc Ht); plain|].
    intros [Kp Sw]. eapply (switched_step m _ cur rsp r m'); [done| | | | | |exact Kp|exact Sw].
    + by apply vget_vset_eq.
    + done.
    + by eapply follows_saved.
    + apply rax_only_refl.
    + apply same_spaces_refl.
  - destruct (waited_kmem _ _ _ _ _ W Hu) as (v & Hv & Ek). constructor; [| |by apply waited_spaces in W|].
    + rewrite Ek. apply rax_only_write; [apply rax_only_refl|done|by left].
    + rewrite (wt_tasks _ _ _ _ _ W). by eapply follows_saved.
    + exists cur, (set_saved_rsp t rsp). rewrite (wt_current _ _ _ _ _ W), (wt_tasks _ _ _ _ _ W), decide_True by done.
      split; [done|]. split; [by apply vget_vset_eq|done].
Qed.

(** *** The handlers *)

Lemma dispatch_step m cur rsp r m' :
  ok m -> ok m' -> current (sched m) = Some cur -> frame_words_ok m rsp ->
  syscall_outcome m rsp r m' -> kernel_step m cur rsp r m'.
Proof.
  intros K K' Hc (Hdi & Hsi & Hdx) H. destruct (ok_running m cur K Hc) as (t & Ht & _). unfold syscall_outcome in H.
  assert (forall (O : SysResult -> Machine -> Prop), (forall v m1, O v m1 -> plain_call m v m1) ->
    r = Resume rsp /\ (exists v m1, O v m1 /\ m' = set_rax m1 rsp (sys_return v)) -> kernel_step m cur rsp r m') as Hret.
  { intros O HO (-> & v & m1 & H1 & ->). eapply plain_step; eauto. }
  assert (forall cur', current (sched m) = Some cur' -> cur' = cur) as Hcur by congruence.
  destruct (from_raw (arg_rax m rsp)) as [[]|].
  - destruct H as (cur' & t' & E%Hcur & Ht' & Hy & Kp). subst cur'.
    apply (yielded_step m (set_rax m rsp 0) cur t' rsp); [by apply ok_set_kmem|done|done|done| |done|done].
    apply rax_only_write; [apply rax_only_refl|done|by left].
  - destruct H as (cur' & t' & m1 & E%Hcur & Ht' & Kp & Sw & H). subst cur'.
    eapply (finished_step m cur t' rsp Finished); eauto.
  - destruct H as (b & _ & H). eapply Hret; [|exact H]. intros v m1. by apply write_plain.
  - eapply Hret; [|exact H]. intros v m1 [-> ->]. apply plain_same. unfold current_proc. rewrite Hc, Ht.
    destruct (process_id t) as [pid|] eqn:Hp; [|apply raw_return_u64].
    destruct (ok_process m cur t pid K Hc Ht Hp) as (p & [Hg _] & _).
    eapply table_pid_u64; [apply (co_table _ _ _ _ _ (ok_core _ K))|done].
  - destruct H as (cur' & t' & E%Hcur & Ht' & H). subst cur'. destruct (process_id t') as [pid|].
    + destruct H as (p & _ & H). eapply waitpid_step; [..|exact H]; done.
    + destruct H as [-> ->]. apply (plain_step m cur rsp (Err Child) m t Hc Ht), plain_err.
  - destruct H as (b & _ & H). eapply Hret; [|exact H]. intros v m1. by apply open_plain.
  - destruct H as (b & _ & H). eapply Hret; [|exact H]. intros v m1. by apply read_plain.
  - eapply Hret; [|exact H]. intros v m1. by apply close_plain.
  - eapply Hret; [|exact H]. intros v m1. by apply brk_plain.
  - destruct H as [-> ->]. apply (plain_step m cur rsp (Err NoSys) m t Hc Ht), plain_err.
Qed.

(** A tick leaves the current task running, or ready with the frame of the
    tick. *)
Definition ticked (m : Machine) (cur : TaskId) (rsp : Z) (r : Switch) (m' : Machine) : Prop :=
  kmem m' = kmem m /\
  (r = Resume rsp /\ current (sched m') = Some cur \/
   exists t', vget (tasks (sched m')) cur = Some t' /\ t_state t' = Ready /\ saved_rsp t' = rsp).

Lemma timer_step m cur rsp :
  ok m -> current (sched m) = Some cur ->
  wp (on_timer_interrupt rsp) (fun r m' =>
    ok m' /\ kernel_step m cur rsp r m' /\ ticked m cur rsp r m') m.
Proof.
  intros K Hc. eapply wp_mono; [by apply on_timer_run|]. intros r m' (K' & Kp & H). split; [done|].
  rewrite Hc in H. destruct (ok_running m cur K Hc) as (t & Ht & _). pose proof (vget_range _ _ _ Ht) as Hr.
  pose proof (kp_kmem _ _ Kp) as Ek. destruct (preemption_enabled (sched m)).
  - destruct H as (t' & Ht' & Hy). split.
    { eapply (yielded_step m m cur t'); try done. apply rax_only_refl. }
    split; [done|]. unfold yielded in Hy. destruct (next_ready_after _ cur) as [n|].
    + destruct Hy as (u & _ & Hne & _ & _ & Hts). right. eexists. rewrite Hts, vget_vset_ne by done.
      by rewrite vget_vset_eq.
    + destruct Hy as [-> ->]. by left.
  - destruct H as [-> ->]. split; [|split; [done|by left]].
    constructor; [apply rax_only_refl|apply follows_refl|apply same_spaces_refl|].
    exists cur, t. by rewrite decide_True.
Qed.

Lemma fault_step m cur rsp info :
  ok m -> current (sched m) = Some cur ->
  wp (fail_current_with_fault rsp info) (fun r m' => ok m' /\ kernel_step m cur rsp r m' /\
    exists te, vget (tasks (sched m')) cur = Some te /\ is_terminal te = true) m.
Proof.
  intros K Hc. destruct (ok_running m cur K Hc) as (t & Ht & _). unfold fail_current_with_fault.
  eapply wp_mono; [eapply (finish_current_run rsp Failed None (Some info) m cur t); eauto|].
  intros r m' (K' & m1 & Kp & Sw & H). split; [done|].
  eapply (finished_step m cur t rsp Failed None (Some info) Faulted); eauto. by destruct (process_id t).
Qed.
End kernel_steps.

(** ** Kernel stacks and saved frames *)

(** The kernel stack of a task: the boxed bytes, used from their 16-byte
    aligned end downwards. *)
Record stack_ok (t : Task) : Prop := mkStackOk {
  sk_range : 0 <= t_kernel_stack t /\ t_kernel_stack t + TASK_STACK_SIZE < 2 ^ 64;
  sk_top : t_kernel_stack_top t = stack_top (t_kernel_stack t) TASK_STACK_SIZE
}.

Definition apart (a b : Z) : Prop := a + TASK_STACK_SIZE <= b \/ b + TASK_STACK_SIZE <= a.

(** No two tasks share stack bytes. *)
Record stacks_ok (ts : list Task) : Prop := mkStacksOk {
  so_each i t : vget ts i = Some t -> stack_ok t;
  so_apart i j t u : vget ts i = Some t -> vget ts j = Some u -> i <> j ->
    apart (t_kernel_stack t) (t_kernel_stack u)
}.

Definition on_stack (t : Task) (x : Z) : Prop := t_kernel_stack t <= x < t_kernel_stack_top t.

(** A frame at [a] lies on the stack of [t]. *)
Definition frame_on (t : Task) (a : Z) : Prop :=
  t_kernel_stack t <= a /\ a + TRAP_FRAME_SIZE <= t_kernel_stack_top t.

(** A frame that resumes in ring 3. *)
Record frame_ok (f : TrapFrame) : Prop := mkFrameOk {
  fk_regs : forall r, is_u64 (tf_reg f r);
  fk_rip : is_u64 (tf_rip f);
  fk_ring : Z.land (tf_cs f) 3 = 3
}.

Lemma frame_ok_cpu c : frame_ok (frame_of c) <-> cpu_ok c.
Proof.
  split; intros [H1 H2 H3]; constructor; try done; intros r; specialize (H1 r); by destruct r.
Qed.

Lemma resumes_cpu_ok f c : frame_ok f -> resumes f c -> cpu_ok c.
Proof. intros [F1 F2 F3] [R1 R2 R3 R4 R5]. constructor; [intros r; rewrite R1; apply F1|congruence|congruence]. Qed.

Lemma stack_bounds t :
  stack_ok t -> t_kernel_stack t + TASK_STACK_SIZE - 16 < t_kernel_stack_top t <= t_kernel_stack t + TASK_STACK_SIZE /\
  align_16 (t_kernel_stack_top t) = t_kernel_stack_top t.
Proof.
  intros [Hr Ht]. unfold stack_top in Ht.
  assert (is_u64 (t_kernel_stack t + TASK_STACK_SIZE)) as Hu by (unfold is_u64, TASK_STACK_SIZE in *; lia).
  rewrite Ht, align_16_again by done. split; [|done]. rewrite align_16_spec by done.
  pose proof (Z.mod_pos_bound (t_kernel_stack t + TASK_STACK_SIZE) 16). lia.
Qed.

Lemma frame_on_range t a : stack_ok t -> frame_on t a -> frame_in_range a.
Proof.
  intros H [H1 H2]. destruct (stack_bounds t H) as [Hb _]. destruct H as [Hr _]. unfold frame_in_range. lia.
Qed.

Lemma stacks_apart ts i j t u x y :
  stacks_ok ts -> vget ts i = Some t -> vget ts j = Some u -> i <> j -> on_stack t x -> on_stack u y -> x <> y.
Proof.
  intros [He Ha] Ht Hu Hne Hx Hy. destruct (stack_bounds t (He i t Ht)) as [B1 _].
  destruct (stack_bounds u (He j u Hu)) as [B2 _]. pose proof (Ha i j t u Ht Hu Hne) as Hap.
  unfold apart, on_stack in *. lia.
Qed.

(** Changing the return value of a frame. *)
Definition tf_set_rax (f : TrapFrame) (v : Z) : TrapFrame :=
  mkTrapFrame (tf_r15 f) (tf_r14 f) (tf_r13 f) (tf_r12 f) (tf_r11 f) (tf_r10 f) (tf_r9 f) (tf_r8 f)
    (tf_rsi f) (tf_rdi f) (tf_rbp f) (tf_rdx f) (tf_rcx f) (tf_rbx f) v
    (tf_rip f) (tf_cs f) (tf_rflags f) (tf_rsp f) (tf_ss f).

Lemma frame_ok_rax f v : frame_ok f -> is_u64 v -> frame_ok (tf_set_rax f v).
Proof. intros [H1 H2 H3] Hv. constructor; try done. intros r. specialize (H1 r). by destruct r. Qed.

Lemma read_frame_same (k k' : KMem) a :
  (forall x, a <= x < a + TRAP_FRAME_SIZE -> k' x = k x) -> read_frame k' a = read_frame k a.
Proof. intros H. unfold read_frame, TRAP_FRAME_SIZE in *. cbv zeta. f_equal; apply H; lia. Qed.

Lemma read_frame_rax (k k' : KMem) a :
  (forall x, a <= x < a + TRAP_FRAME_SIZE -> k' x = k x \/ x = a + OFF_RAX) ->
  read_frame k' a = tf_set_rax (read_frame k a) (k' (a + OFF_RAX)).
Proof.
  intros H. unfold TRAP_FRAME_SIZE, OFF_RAX in *.
  assert (forall i, 0 <= i < 20 -> i <> 14 -> k' (a + 8 * i) = k (a + 8 * i)) as Hw.
  { intros i Hi Hne. destruct (H (a + 8 * i)); [lia|done|lia]. }
  unfold tf_set_rax, read_frame at 1. cbv zeta.
  f_equal; [apply (Hw 0)|apply (Hw 1)|apply (Hw 2)|apply (Hw 3)|apply (Hw 4)|apply (Hw 5)|apply (Hw 6)|apply (Hw 7)
    |apply (Hw 8)|apply (Hw 9)|apply (Hw 10)|apply (Hw 11)|apply (Hw 12)|apply (Hw 13)|apply (Hw 15)
    |apply (Hw 16)|apply (Hw 17)|apply (Hw 18)|apply (Hw 19)]; lia.
Qed.

(** ** The invariant of execution *)

(** Every task has a stack of its own, the frame of a parked task is on it,
    and the tasks that have not ended are user tasks. *)
Record homes (m : Machine) : Prop := mkHomes {
  hm_stacks : stacks_ok (tasks (sched m));
  hm_saved i t : vget (tasks (sched m)) i = Some t -> parked t ->
    frame_on t (saved_rsp t) /\ frame_ok (read_frame (kmem m) (saved_rsp t));
  hm_user i t : vget (tasks (sched m)) i = Some t -> is_terminal t = false -> process_id t <> None
}.

(** The stub has pushed a frame at [rsp] on the stack of [t]; [k] is the
    kernel memory afterwards. *)
Record entered (m : Machine) (t : Task) (k : KMem) (rsp : Z) : Prop := mkEntered {
  en_frame : frame_on t rsp;
  en_other x : ~ on_stack t x -> k x = kmem m x
}.

Lemma blocked_parked t : is_blocked t = true -> parked t.
Proof. unfold is_blocked, parked, is_terminal. by destruct (t_state t). Qed.

Section saved_frames.
Context {X : X86_64} {XS : X86_64_Spec X}.
Variables (m : Machine) (cur : TaskId) (t : Task) (k1 : KMem) (rsp : Z) (r : Switch) (m' : Machine).
Hypothesis Hok : ok m.
Hypothesis Hhomes : homes m.
Hypothesis Hcur : current (sched m) = Some cur.
Hypothesis Ht : vget (tasks (sched m)) cur = Some t.
Hypothesis Hin : entered m t k1 rsp.
Hypothesis Hstep : kernel_step (set_kmem k1 m) cur rsp r m'.

Lemma rax_on_stack u a : frame_on u a -> on_stack u (a + OFF_RAX).
Proof. unfold frame_on, on_stack, TRAP_FRAME_SIZE, OFF_RAX. lia. Qed.

Lemma slot_on_stack x : rax_slot (set_kmem k1 m) cur rsp x ->
  x = rsp + OFF_RAX /\ on_stack t x \/
  exists w u, vget (tasks (sched m)) w = Some u /\ w <> cur /\ is_blocked u = true /\
    x = saved_rsp u + OFF_RAX /\ on_stack u x.
Proof.
  intros [->|(w & u & Hu & Hne & Hb & ->)]; [left|right].
  - split; [done|]. apply rax_on_stack, (en_frame _ _ _ _ Hin).
  - exists w, u. split; [done|]. split; [done|]. split; [done|]. split; [done|].
    apply rax_on_stack. by apply (hm_saved _ Hhomes w u Hu (blocked_parked _ Hb)).
Qed.

(** The frame of another task. *)
Lemma other_word j u x :
  vget (tasks (sched m)) j = Some u -> j <> cur -> on_stack u x ->
  kmem m' x = kmem m x \/ is_u64 (kmem m' x) /\ x = saved_rsp u + OFF_RAX /\ is_blocked u = true.
Proof.
  intros Hu Hne Hx. pose proof (hm_stacks _ Hhomes) as Hs.
  assert (k1 x = kmem m x) as Ek.
  { apply (en_other _ _ _ _ Hin). intros Hx'. by apply (stacks_apart _ j cur u t x x Hs Hu Ht Hne Hx Hx'). }
  destruct (ks_kmem _ _ _ _ _ Hstep x) as [E|[Hv Sl]]; [left; by rewrite E|].
  apply slot_on_stack in Sl as [[_ Hx']|(w & v & Hw & _ & Hb & E & Hx')].
  - by destruct (stacks_apart _ j cur u t x x Hs Hu Ht Hne Hx Hx').
  - destruct (decide (w = j)) as [->|Hwj].
    + assert (v = u) as -> by congruence. by right.
    + by destruct (stacks_apart _ w j v u x x Hs Hw Hu Hwj Hx' Hx).
Qed.

(** The frame of the current task. *)
Lemma own_word x :
  on_stack t x -> kmem m' x = k1 x \/ is_u64 (kmem m' x) /\ x = rsp + OFF_RAX.
Proof.
  intros Hx. destruct (ks_kmem _ _ _ _ _ Hstep x) as [E|[Hv Sl]]; [by left|right]. split; [done|].
  apply slot_on_stack in Sl as [[E _]|(w & v & Hw & Hne & _ & _ & Hx')]; [done|].
  by destruct (stacks_apart _ w cur v t x x (hm_stacks _ Hhomes) Hw Ht Hne Hx' Hx).
Qed.

Lemma other_frame j u :
  vget (tasks (sched m)) j = Some u -> j <> cur -> parked u ->
  frame_ok (read_frame (kmem m') (saved_rsp u)) /\
  (is_blocked u = false -> read_frame (kmem m') (saved_rsp u) = read_frame (kmem m) (saved_rsp u)).
Proof.
  intros Hu Hne Hp. destruct (hm_saved _ Hhomes j u Hu Hp) as [Hf Hok'].
  assert (forall x, saved_rsp u <= x < saved_rsp u + TRAP_FRAME_SIZE -> on_stack u x) as Hx.
  { intros x. destruct Hf. unfold on_stack. lia. }
  split.
  - rewrite (read_frame_rax (kmem m)).
    2: { intros x Hr. destruct (other_word j u x Hu Hne (Hx x Hr)) as [|(_ & ? & _)]; auto. }
    apply frame_ok_rax; [done|].
    destruct (other_word j u _ Hu Hne (rax_on_stack u _ Hf)) as [->|[? _]]; [|done].
    apply (fk_regs _ Hok' RAX).
  - intros Hb. apply read_frame_same. intros x Hr.
    destruct (other_word j u x Hu Hne (Hx x Hr)) as [|(_ & _ & ?)]; congruence.
Qed.

Lemma own_frame : frame_ok (read_frame k1 rsp) -> frame_ok (read_frame (kmem m') rsp).
Proof.
  intros Hf. pose proof (en_frame _ _ _ _ Hin) as Hr. rewrite (read_frame_rax k1).
  2: { intros x Hx. destruct (own_word x) as [|[_ ?]]; auto. destruct Hr. unfold on_stack. lia. }
  apply frame_ok_rax; [done|]. destruct (own_word _ (rax_on_stack t _ Hr)) as [->|[? _]]; [|done].
  apply (fk_regs _ Hf RAX).
Qed.

Hypothesis Hok' : ok m'.
Hypothesis Hframe : frame_ok (read_frame k1 rsp) \/
  exists te, vget (tasks (sched m')) cur = Some te /\ is_terminal te = true.

Lemma running_is_current (x : Machine) j u :
  ok x -> vget (tasks (sched x)) j = Some u -> t_state u = Running -> current (sched x) = Some j.
Proof. intros K Hu Hs. apply (ln_run _ _ _ _ (co_linked _ _ _ _ _ (ok_core _ K))). eauto. Qed.

(** Where the tasks of [m'] come from. *)
Lemma task_before j u' :
  vget (tasks (sched m')) j = Some u' -> is_terminal u' = false ->
  exists u, vget (tasks (sched m)) j = Some u /\ same_home u u' /\ is_terminal u = false /\
    (j <> cur -> parked u /\ saved_rsp u' = saved_rsp u /\ (is_blocked u' = true -> is_blocked u = true)) /\
    (j = cur -> parked u' -> saved_rsp u' = rsp).
Proof.
  intros Hu' Hn. destruct (ok_running m cur Hok Hcur) as (tc & Htc & Hrun).
  destruct (fw_task _ _ _ _ (ks_tasks _ _ _ _ _ Hstep) j u' Hu') as (u & Hu & Hh & H).
  change (sched (set_kmem k1 m)) with (sched m) in Hu. exists u. split; [done|]. split; [done|].
  destruct (decide (j = cur)) as [->|Hne].
  - assert (u = tc) as -> by congruence. split; [unfold is_terminal; by rewrite Hrun|]. split; [done|].
    intros _ [_ Hp]. destruct H as [H| ->]; [done|]. by destruct Hp.
  - destruct H as (H1 & H2 & H3). split; [congruence|]. split; [|done]. intros _. split; [|done].
    split; [congruence|]. intros Hr. pose proof (running_is_current m j u Hok Hu Hr). congruence.
Qed.

Lemma homes_step : homes m'.
Proof.
  pose proof (ks_tasks _ _ _ _ _ Hstep) as F. pose proof (hm_stacks _ Hhomes) as [He Ha]. constructor.
  - constructor.
    + intros i u' Hu'. destruct (fw_task _ _ _ _ F i u' Hu') as (u & Hu & (E1 & E2 & _) & _).
      destruct (He i u Hu) as [R T]. constructor; rewrite E1; [done|congruence].
    + intros i j u' v' Hu' Hv' Hne. destruct (fw_task _ _ _ _ F i u' Hu') as (u & Hu & (-> & _) & _).
      destruct (fw_task _ _ _ _ F j v' Hv') as (v & Hv & (-> & _) & _). by apply (Ha i j u v).
  - intros j u' Hu' Hp. destruct (task_before j u' Hu' (proj1 Hp)) as (u & Hu & (E1 & E2 & _) & _ & Ho & Hown).
    unfold frame_on. rewrite E1, E2. destruct (decide (j = cur)) as [->|Hne].
    + rewrite (Hown eq_refl Hp). assert (u = t) as -> by congruence. split; [apply (en_frame _ _ _ _ Hin)|].
      destruct Hframe as [Hf|(te & Hte & Hterm)]; [by apply own_frame|]. destruct Hp. congruence.
    + destruct (Ho Hne) as (Hpu & -> & _). split; [by apply (hm_saved _ Hhomes j u)|by eapply other_frame].
  - intros j u' Hu' Hn. destruct (task_before j u' Hu' Hn) as (u & Hu & (_ & _ & E3) & Hn' & _).
    pose proof (hm_user _ Hhomes j u Hu Hn') as Hpid. unfold process_id in *. by rewrite E3.
Qed.

(** The frame that is resumed. *)
Lemma next_frame a :
  r = Resume a -> current (sched m') <> None /\ frame_in_range a /\ frame_ok (read_frame (kmem m') a).
Proof.
  intros Er. pose proof (ks_next _ _ _ _ _ Hstep) as Hnx. rewrite Er in Hnx.
  destruct Hnx as (n & u' & Hn & Hu' & E). rewrite Hn. split; [done|].
  destruct (ok_running m' n Hok' Hn) as (v & Hv & Hrun). assert (v = u') as -> by congruence.
  assert (is_terminal u' = false) as Hnt by (unfold is_terminal; by rewrite Hrun).
  destruct (task_before n u' Hu' Hnt) as (u & Hu & _ & _ & Ho & _).
  pose proof (so_each _ (hm_stacks _ Hhomes)) as He. destruct (decide (n = cur)) as [->|Hne].
  - subst a. split; [eapply frame_on_range; [by apply (He cur t)|apply (en_frame _ _ _ _ Hin)]|].
    destruct Hframe as [Hf|(te & Hte & Hterm)]; [by apply own_frame|]. congruence.
  - destruct (Ho Hne) as (Hpu & Es & _). rewrite E, Es.
    split; [eapply frame_on_range; [by apply (He n u)|by apply (hm_saved _ Hhomes n u)]|by eapply other_frame].
Qed.

(** A task that is ready stays ready with the same frame, or resumes from it. *)
Definition ready_with (x : Machine) (j : TaskId) (f : TrapFrame) : Prop :=
  exists u, vget (tasks (sched x)) j = Some u /\ t_state u = Ready /\ read_frame (kmem x) (saved_rsp u) = f.

Lemma ready_step j f :
  ready_with m j f ->
  ready_with m' j f \/
  current (sched m') = Some j /\ exists a, r = Resume a /\ read_frame (kmem m') a = f.
Proof.
  intros (u & Hu & Hst & Hf). destruct (ok_running m cur Hok Hcur) as (tc & Htc & Hrun).
  assert (j <> cur) as Hne by (intros ->; congruence).
  destruct (vget_is_Some (tasks (sched m')) j) as [u' Hu'].
  { rewrite (fw_len _ _ _ _ (ks_tasks _ _ _ _ _ Hstep)). by eapply vget_range. }
  destruct (fw_task _ _ _ _ (ks_tasks _ _ _ _ _ Hstep) j u' Hu') as (v & Hv & _ & H).
  change (sched (set_kmem k1 m)) with (sched m) in Hv. assert (v = u) as -> by congruence.
  rewrite decide_False in H by done. destruct H as (H1 & H2 & H3).
  assert (read_frame (kmem m') (saved_rsp u') = f) as Hf'.
  { rewrite H1, <- Hf. eapply other_frame; [done|done| |].
    - split; [unfold is_terminal|]; by rewrite Hst.
    - unfold is_blocked. by rewrite Hst. }
  unfold is_terminal, is_blocked in *. rewrite Hst in *.
  destruct (t_state u') eqn:Hst'; try done; [left; by exists u'|right|by specialize (H3 eq_refl)].
  pose proof (running_is_current m' j u' Hok' Hu' Hst') as Hc'. split; [done|].
  pose proof (ks_next _ _ _ _ _ Hstep) as Hnx. destruct r as [a|]; [|destruct Hnx; congruence].
  destruct Hnx as (n & w & Hn & Hw & E). assert (n = j) as -> by congruence. rewrite decide_False in E by done.
  assert (w = u') as -> by congruence. exists a. split; [done|]. by rewrite E.
Qed.
End saved_frames.

(** ** One step of the execution *)

Section execution.
Context {X : X86_64} {XS : X86_64_Spec X} {XP : X86_64_Paging X}.

(** A user program runs, in state [c]. *)
Record executing (c : CpuState) (m : Machine) : Prop := mkExecuting {
  ex_confined : confined m;
  ex_current : current (sched m) <> None;
  ex_cpu : cpu_ok c;
  ex_homes : homes m
}.

(** No task changes hands. *)
Definition same_owners (ts ts' : list Task) : Prop :=
  forall j u', vget ts' j = Some u' -> exists u, vget ts j = Some u /\ process_id u' = process_id u.

Lemma follows_owners cur rsp ts ts' : follows cur rsp ts ts' -> same_owners ts ts'.
Proof.
  intros F j u' Hu'. destruct (fw_task _ _ _ _ F j u' Hu') as (u & Hu & (_ & _ & E) & _). exists u.
  split; [done|]. unfold process_id. by rewrite E.
Qed.

(** What a step leaves: [next] is the state the processor continues with. *)
Record progressed (m : Machine) (next : option CpuState) (m' : Machine) : Prop := mkProgressed {
  pg_homes : homes m';
  pg_spaces : same_spaces (proc_table (sched m)) (proc_table (sched m'));
  pg_owner : same_owners (tasks (sched m)) (tasks (sched m'));
  pg_next : match next with
    | Some c' => current (sched m') <> None /\ cpu_ok c'
    | None => current (sched m') = None /\ all_tasks_finished (tasks (sched m')) = true
    end;
  pg_ready j f : ready_with m j f ->
    ready_with m' j f \/ current (sched m') = Some j /\ exists c', next = Some c' /\ resumes f c'
}.

(** The processor continues with the frame the handler chose. *)
Definition continues (r : Switch) (m' : Machine) (next : option CpuState) : Prop :=
  match r with
  | Resume a => exists c', next = Some c' /\ resumes (read_frame (kmem m') a) c'
  | ToMain => next = None
  end.

Lemma entry_progress handler left s c1 k1 m cur t (P : Switch -> Machine -> Prop) :
  let rsp := regs c1 RDI in let m1 := set_kmem k1 m in
  ok m -> homes m -> current (sched m) = Some cur -> vget (tasks (sched m)) cur = Some t ->
  exec_all entry_save s = (c1, k1) -> entered m t k1 rsp ->
  wp (handler rsp) (fun r m' => ok m' /\ kernel_step m1 cur rsp r m' /\ P r m' /\
    (frame_ok (read_frame k1 rsp) \/ exists te, vget (tasks (sched m')) cur = Some te /\ is_terminal te = true)) m1 ->
  wp (run_entry handler left s) (fun next m' =>
    progressed m next m' /\ exists r, P r m' /\ continues r m' next) m.
Proof.
  intros rsp m1 K H Hc Ht Es En Hh. unfold run_entry. rewrite Es. wp_steps. fold m1.
  apply wp_done in Hh as (r & m2 & Er & K2 & S2 & HP & Hf). eapply wp_intro; [exact Er|].
  pose proof (homes_step m cur t k1 rsp r m2 K H Hc Ht En S2 Hf) as H2.
  pose proof (next_frame m cur t k1 rsp r m2 K H Hc Ht En S2 K2 Hf) as Hn.
  pose proof (ready_step m cur t k1 rsp r m2 K H Hc Ht En S2 K2) as Hr.
  destruct r as [a|].
  - destruct (Hn a eq_refl) as (Hcur & [Ha Hb] & Hfo). wp_steps.
    destruct (resume_run left (kmem m2) a Ha Hb) as [R1 R2]. destruct (exec_all entry_resume _) as [c2 k2].
    cbn [fst snd] in R1, R2. subst k2. wp_steps. rewrite set_kmem_same. split; [|exists (Resume a); split; [done|by exists c2]].
    constructor; [done|apply (ks_spaces _ _ _ _ _ S2)|exact (follows_owners _ _ _ _ (ks_tasks _ _ _ _ _ S2))
      |split; [done|by eapply resumes_cpu_ok]|].
    intros j f Hj. destruct (Hr j f Hj) as [?|[Hcj (a' & [= <-] & Hf')]]; [by left|right].
    split; [done|]. exists c2. rewrite <- Hf'. done.
  - wp_steps. split; [|by exists ToMain]. 
    constructor; [done|apply (ks_spaces _ _ _ _ _ S2)|exact (follows_owners _ _ _ _ (ks_tasks _ _ _ _ _ S2))
      |apply (ks_next _ _ _ _ _ S2)|].
    intros j f Hj. destruct (Hr j f Hj) as [?|[_ (a' & ? & _)]]; [by left|done].
Qed.

Lemma wp_same {A} (op op' : ST Machine A) Q m : op m = op' m -> wp op' Q m -> wp op Q m.
Proof. unfold wp. by intros ->. Qed.

Lemma on_kernel_timer rsp m : on_kernel (timer_interrupt_rust rsp) m = on_timer_interrupt rsp m.
Proof.
  unfold timer_interrupt_rust, on_kernel, with_machine, st_zoom, st_bind, st_modify.
  cbn [machine]. by destruct (on_timer_interrupt _ _) as [[r m']|].
Qed.

(** An interrupt of the running program uses the kernel stack of its task. *)
Lemma own_stack c m cur t :
  ok m -> homes m -> cpu_ok c -> current (sched m) = Some cur -> vget (tasks (sched m)) cur = Some t ->
  interrupt_stack (tss_rsp0 (cpu m)) c = t_kernel_stack_top t /\
  t_kernel_stack t + TRAP_FRAME_SIZE + 8 <= t_kernel_stack_top t < 2 ^ 64 /\ 0 <= t_kernel_stack t.
Proof.
  intros K H Hc Hcur Ht. destruct (ok_loaded _ K cur t Hcur Ht) as [E _].
  pose proof (so_each _ (hm_stacks _ H) cur t Ht) as Hs. destruct (stack_bounds t Hs) as [B A]. destruct Hs as [R _].
  unfold interrupt_stack. rewrite (cu_ring _ Hc), E. cbn. rewrite A.
  unfold TASK_STACK_SIZE, TRAP_FRAME_SIZE in *. split; [done|lia].
Qed.

Lemma interrupt_entered c m cur t cs c1 k1 :
  ok m -> homes m -> cpu_ok c -> current (sched m) = Some cur -> vget (tasks (sched m)) cur = Some t ->
  exec_all entry_save (cpu_interrupt (tss_rsp0 (cpu m)) cs 0 (c, kmem m)) = (c1, k1) ->
  entered m t k1 (regs c1 RDI) /\ read_frame k1 (regs c1 RDI) = frame_of c.
Proof.
  intros K H Hc Hcur Ht Es. destruct (own_stack c m cur t K H Hc Hcur Ht) as (Eb & Hb & H0).
  assert (TRAP_FRAME_SIZE <= interrupt_stack (tss_rsp0 (cpu m)) c < 2 ^ 64) as Hr by lia.
  destruct (entry_saves (tss_rsp0 (cpu m)) cs 0 c (kmem m) Hr) as [S1 S2 _ S4]. rewrite Es, Eb in *.
  cbn [fst snd] in *. rewrite S2. split; [|done]. constructor.
  - unfold frame_on. lia.
  - intros x Hx. apply S4. unfold on_stack in Hx. lia.
Qed.

Lemma exception_entered c m cur t cs err c1 k1 :
  ok m -> homes m -> cpu_ok c -> current (sched m) = Some cur -> vget (tasks (sched m)) cur = Some t ->
  exec_all entry_save (cpu_exception (tss_rsp0 (cpu m)) cs 0 err (c, kmem m)) = (c1, k1) ->
  entered m t k1 (regs c1 RDI) /\ from_user k1 (regs c1 RDI) = true.
Proof.
  intros K H Hc Hcur Ht Es. destruct (own_stack c m cur t K H Hc Hcur Ht) as (Eb & Hb & H0).
  assert (TRAP_FRAME_SIZE + 8 <= interrupt_stack (tss_rsp0 (cpu m)) c < 2 ^ 64) as Hr by lia.
  destruct (exception_saves (tss_rsp0 (cpu m)) cs 0 err c (kmem m) Hr) as (S1 & _ & S3 & S4). rewrite Es, Eb in *.
  cbn [fst snd] in *. rewrite S1. split; [constructor|].
  - unfold frame_on. lia.
  - intros x Hx. apply S4. unfold on_stack in Hx. lia.
  - unfold from_user. by rewrite S3, (cu_ring _ Hc).
Qed.

Lemma syscall_progress c m cs left :
  ok m -> homes m -> cpu_ok c -> pointers_ok c -> current (sched m) <> None ->
  wp (interrupt_entry cs 0 (fun rsp => on_kernel (syscall_interrupt_rust rsp)) left c) (fun next m' => progressed m next m') m.
Proof.
  intros K H Hc Hp Hne. destruct (current (sched m)) as [cur|] eqn:Hcur; [|by destruct Hne].
  destruct (ok_running m cur K Hcur) as (t & Ht & _). unfold interrupt_entry. wp_steps.
  destruct (exec_all entry_save (cpu_interrupt (tss_rsp0 (cpu m)) cs 0 (c, kmem m))) as [c1 k1] eqn:Es.
  destruct (interrupt_entered c m cur t cs c1 k1 K H Hc Hcur Ht Es) as [En Hf].
  eapply wp_mono; [apply (entry_progress _ _ _ c1 k1 m cur t (fun _ _ => True) K H Hcur Ht Es En)|by intros ? ? [? _]].
  eapply wp_same; [apply on_kernel_machine|].
  assert (enabled (set_kmem k1 m) (SyscallInt (regs c1 RDI))) as (Hc1 & Hw).
  { apply (syscall_enabled m k1 _ c); [by rewrite Hcur|done|done]. }
  pose proof (proj2 (pointers_accepted m k1 _ c Hf) Hp) as Hptr.
  eapply wp_mono; [apply dispatch_run; [by apply ok_set_kmem|done|done|done]|]. intros r m' [K' Ho].
  split; [done|]. split; [by apply dispatch_step; [apply ok_set_kmem|..]|]. split; [done|]. left.
  rewrite Hf. by apply frame_ok_cpu.
Qed.

Lemma fault_progress c m cs left err handler info :
  ok m -> homes m -> cpu_ok c -> current (sched m) <> None ->
  (forall m1 rsp, from_user (kmem m1) rsp = true -> handler rsp m1 = fail_current_with_fault rsp (info m1 rsp) m1) ->
  wp (exception_entry cs 0 err handler left c) (fun next m' => progressed m next m') m.
Proof.
  intros K H Hc Hne Hh. destruct (current (sched m)) as [cur|] eqn:Hcur; [|by destruct Hne].
  destruct (ok_running m cur K Hcur) as (t & Ht & _). unfold exception_entry. wp_steps.
  destruct (exec_all entry_save (cpu_exception (tss_rsp0 (cpu m)) cs 0 err (c, kmem m))) as [c1 k1] eqn:Es.
  destruct (exception_entered c m cur t cs err c1 k1 K H Hc Hcur Ht Es) as [En Hf].
  eapply wp_mono; [apply (entry_progress _ _ _ c1 k1 m cur t (fun _ _ => True) K H Hcur Ht Es En)|by intros ? ? [? _]].
  eapply wp_same; [by apply Hh|]. eapply wp_mono; [by apply fault_step; [apply ok_set_kmem|]|].
  intros r m' (K' & S & He). eauto.
Qed.

(** A program that is interrupted by the timer resumes at once, or is ready
    with its registers saved. *)
Lemma tick_progress c m cur :
  ok m -> homes m -> cpu_ok c -> current (sched m) = Some cur ->
  wp (timer_tick c) (fun next m' => progressed m next m' /\
    (current (sched m') = Some cur /\ (exists c', next = Some c' /\ resumes (frame_of c) c') \/
     ready_with m' cur (frame_of c))) m.
Proof.
  intros K H Hc Hcur. destruct (ok_running m cur K Hcur) as (t & Ht & _). unfold timer_tick, interrupt_entry. wp_steps.
  destruct (exec_all entry_save (cpu_interrupt (tss_rsp0 (cpu m)) (cs_reg (cpu m)) 0 (c, kmem m))) as [c1 k1] eqn:Es.
  destruct (interrupt_entered c m cur t _ c1 k1 K H Hc Hcur Ht Es) as [En Hf].
  eapply wp_mono.
  { apply (entry_progress _ _ _ c1 k1 m cur t (ticked (set_kmem k1 m) cur (regs c1 RDI)) K H Hcur Ht Es En).
    eapply wp_same; [apply on_kernel_timer|]. eapply wp_mono; [by apply timer_step; [apply ok_set_kmem|]|].
    intros r m' (K' & S & T). split; [done|]. split; [done|]. split; [done|]. left. rewrite Hf. by apply frame_ok_cpu. }
  intros next m' (Pg & r & [Ek T] & Hn). split; [done|]. change (kmem (set_kmem k1 m)) with k1 in Ek.
  destruct T as [[-> Hcur']|(t' & Ht' & Hst & Hs)]; [left|right].
  - split; [done|]. destruct Hn as (c' & -> & R). exists c'. split; [done|]. rewrite <- Hf, <- Ek. exact R.
  - exists t'. split; [done|]. split; [done|]. rewrite Ek, Hs. exact Hf.
Qed.

Lemma round_progress c m :
  ok m -> homes m -> cpu_ok c -> round_allowed m c -> current (sched m) <> None ->
  wp (user_round c) (fun next m' => progressed m next m') m.
Proof.
  intros K H Hc Ha Hne. unfold user_round, round_allowed in *. wp_steps.
  pose proof (user_step_ok (ram (mem m)) (cr3 (mem m)) c Hc) as Hs.
  destruct (user_step _ _ c) as [c' r'|c' target|c' f|]; [| | |done].
  - destruct Hs as [Hc' _]. wp_steps. constructor; [by destruct H|apply same_spaces_refl| |done|by left].
    intros j u Hu. by exists u.
  - destruct Hs as [-> Hc']. by apply syscall_progress.
  - subst c'. destruct f as [a e|e]; (eapply fault_progress; [done..|]); intros m1 rsp Hu.
    + exact (proj1 (fault_handled m1 rsp a Hu)).
    + exact (proj2 (fault_handled m1 rsp 0 Hu)).
Qed.

(** The step on the whole machine: what the program may do is what
    UserCode.v says, and the execution goes on. *)
Lemma executing_proc c m : executing c m -> current_proc m <> None.
Proof.
  intros [Hm Hc _ H]. pose proof (confined_ok m Hm) as K. unfold current_proc.
  destruct (current (sched m)) as [cur|] eqn:Hcur; [|done]. destruct (ok_running m cur K Hcur) as (t & Ht & Hr).
  rewrite Ht. apply (hm_user _ H cur t Ht). unfold is_terminal. by rewrite Hr.
Qed.

Lemma executing_round c m :
  executing c m -> round_allowed m c ->
  wp (user_round c) (fun next m' => progressed m next m' /\ contained (involved m) m m') m.
Proof.
  intros Ex Ha. pose proof (executing_proc c m Ex) as Hp. destruct Ex as [Hm Hne Hc H].
  pose proof (confined_ok m Hm) as K. apply wp_and; [by apply round_progress|].
  apply user_round_run; [done|done|done|done|].
  destruct (current (sched m)) as [cur|] eqn:Hcur; [|by destruct Hne].
  destruct (ok_running m cur K Hcur) as (t & Ht & _). destruct (own_stack c m cur t K H Hc Hcur Ht) as (E & B & B0).
  unfold interrupt_stack in E. rewrite (cu_ring _ Hc) in E. cbn in E. lia.
Qed.

Lemma executing_tick c m cur :
  executing c m -> current (sched m) = Some cur ->
  wp (timer_tick c) (fun next m' =>
    (progressed m next m' /\
     (current (sched m') = Some cur /\ (exists c', next = Some c' /\ resumes (frame_of c) c') \/
      ready_with m' cur (frame_of c))) /\ contained (fun _ => False) m m') m.
Proof.
  intros [Hm _ Hc H] Hcur. apply wp_and; [|by apply timer_tick_run]. apply tick_progress; [by apply confined_ok|done|done|done].
Qed.

Lemma progressed_executing m c' m' : progressed m (Some c') m' -> confined m' -> executing c' m'.
Proof. intros Pg Hm. destruct (pg_next _ _ _ Pg) as [Hc Hk]. constructor; [done|done|done|apply Pg]. Qed.

(** A system call with a pointer that is not an address panics the kernel. *)
Lemma syscall_rejected c m cs left :
  ok m -> homes m -> cpu_ok c -> ~ pointers_ok c -> current (sched m) <> None ->
  exists msg, interrupt_entry cs 0 (fun rsp => on_kernel (syscall_interrupt_rust rsp)) left c m = Panic msg.
Proof.
  intros K H Hc Hp Hne. destruct (current (sched m)) as [cur|] eqn:Hcur; [|by destruct Hne].
  destruct (ok_running m cur K Hcur) as (t & Ht & _). unfold interrupt_entry, run_entry, st_bind, st_get, st_put.
  destruct (exec_all entry_save (cpu_interrupt (tss_rsp0 (cpu m)) cs 0 (c, kmem m))) as [c1 k1] eqn:Es.
  destruct (interrupt_entered c m cur t cs c1 k1 K H Hc Hcur Ht Es) as [_ Hf].
  destruct (dispatch_rejects (regs c1 RDI) (set_kmem k1 m)) as [msg E].
  { by rewrite (pointers_accepted m k1 _ c Hf). }
  exists msg. unfold syscall_interrupt_rust. rewrite on_kernel_machine, E. done.
Qed.

Lemma round_rejected c m :
  executing c m -> modelled m c -> ~ round_allowed m c -> exists msg, user_round c m = Panic msg.
Proof.
  intros [Hm Hne Hc H] Hmod Ha. unfold user_round, round_allowed, modelled, st_bind, st_get in *.
  pose proof (user_step_ok (ram (mem m)) (cr3 (mem m)) c Hc) as Hs.
  destruct (user_step _ _ c) as [c' r'|c' target|c' f|]; [by destruct Ha| |by destruct Ha|done].
  destruct Hs as [-> Hc']. apply syscall_rejected; [by apply confined_ok|done|done|done|done].
Qed.

(** An instruction that was executed to the end was an allowed one. *)
Lemma round_done_allowed c m r : executing c m -> user_round c m = Done r -> round_allowed m c.
Proof.
  intros Ex E. destruct (decide (round_allowed m c)) as [|Hn]; [done|].
  assert (modelled m c) as Hmod.
  { intros Hu. unfold user_round, st_bind, st_get in E. rewrite Hu in E. discriminate E. }
  destruct (round_rejected c m Ex Hmod Hn) as [msg E']. rewrite E' in E. discriminate E.
Qed.

(** ** Any number of steps *)

(** One instruction of the running program, or a timer interrupt. *)
Inductive exec_step : CpuState * Machine -> CpuState * Machine -> Prop :=
| exec_instr c m c' m' : user_round c m = Done (Some c', m') -> exec_step (c, m) (c', m')
| exec_tick c m c' m' : timer_tick c m = Done (Some c', m') -> exec_step (c, m) (c', m').

Lemma exec_step_run c m c' m' :
  executing c m -> exec_step (c, m) (c', m') ->
  executing c' m' /\ progressed m (Some c') m' /\ quiet (involved m) m m'.
Proof.
  intros Ex St. inversion St as [? ? ? ? E|? ? ? ? E]; subst.
  - pose proof (round_done_allowed c m _ Ex E) as Ha.
    destruct (wp_result _ _ _ _ _ (executing_round c m Ex Ha) E) as [Pg [Cf Q]].
    split; [exact (progressed_executing _ _ _ Pg Cf)|exact (conj Pg Q)].
  - destruct (current (sched m)) as [cur|] eqn:Hcur; [|by destruct (ex_current _ _ Ex Hcur)].
    destruct (wp_result _ _ _ _ _ (executing_tick c m cur Ex Hcur) E) as [[Pg _] [Cf Q]].
    split; [exact (progressed_executing _ _ _ Pg Cf)|]. split; [exact Pg|]. intros q p Hq _. exact (Q q p Hq id).
Qed.

Lemma exec_steps_run s s' :
  rtc exec_step s s' -> executing s.1 s.2 -> executing s'.1 s'.2.
Proof.
  induction 1 as [|[c m] [c1 m1] s' St _ IH]; [done|]. intros Ex. apply IH. by eapply exec_step_run.
Qed.

(** ** A program does not notice the others *)

(** A step of another program than that of task [j]. *)
Definition others_step (j : TaskId) (s s' : CpuState * Machine) : Prop :=
  exec_step s s' /\ current (sched s.2) <> Some j.

(** The process of a ready task is not involved in what the running one does. *)
Lemma ready_not_involved m j u q :
  ok m -> vget (tasks (sched m)) j = Some u -> t_state u = Ready -> process_id u = Some q -> ~ involved m q.
Proof.
  intros K Hu Hst Hq. pose proof (co_linked _ _ _ _ _ (ok_core _ K)) as L.
  assert (forall i t, vget (tasks (sched m)) i = Some t -> process_id t = Some q -> is_terminal t = false -> t = u) as Huniq.
  { intros i t Ht Htq Hn. destruct (ln_task _ _ _ _ L i t q Ht Htq Hn) as (p & [Hp _] & E1).
    destruct (ln_task _ _ _ _ L j u q Hu Hq) as (p' & [Hp' _] & E2); [unfold is_terminal; by rewrite Hst|].
    congruence. }
  intros [Hc|(c & _ & w & t & ptr & Ht & Htq & Hb)].
  - unfold current_proc in Hc. destruct (current (sched m)) as [cur|] eqn:Hcur; [|done].
    destruct (ok_running m cur K Hcur) as (t & Ht & Hr). rewrite Ht in Hc.
    rewrite (Huniq cur t Ht Hc) in Hr; [congruence|]. unfold is_terminal. by rewrite Hr.
  - rewrite (Huniq w t Ht Htq) in Hb; [congruence|]. unfold is_terminal. by rewrite Hb.
Qed.

(** What is kept for the preempted task [j] of process [q]: it is ready with
    its frame [f], or runs again from it; its address space is [l]. *)
Record undisturbed (j : TaskId) (q : ProcessId) (f : TrapFrame) (l : Z) (m0 : Machine) (c : CpuState) (m : Machine) :
    Prop := mkUndisturbed {
  ud_frame : ready_with m j f \/ current (sched m) = Some j /\ resumes f c;
  ud_owner u : vget (tasks (sched m)) j = Some u -> process_id u = Some q;
  ud_root p : ProcessTable.get (proc_table (sched m)) q = Some p -> root p = l;
  ud_space : same_space l (mem m0) (mem m)
}.

Lemma undisturbed_step j q f l m0 c m c' m' :
  executing c m -> undisturbed j q f l m0 c m -> others_step j (c, m) (c', m') -> undisturbed j q f l m0 c' m'.
Proof.
  intros Ex [Hf Ho Hr Hs] [St Hne]. pose proof (confined_ok m (ex_confined _ _ Ex)) as K.
  destruct (exec_step_run c m c' m' Ex St) as (Ex' & Pg & Q). cbn [snd] in Hne.
  destruct Hf as [Hf|[? _]]; [|done]. constructor.
  - destruct (pg_ready _ _ _ Pg j f Hf) as [?|[Hc (c2 & [= <-] & R)]]; [by left|by right].
  - intros u' Hu'. destruct (pg_owner _ _ _ Pg j u' Hu') as (u & Hu & ->). by apply Ho.
  - intros p' Hp'. destruct (pg_spaces _ _ _ Pg q p' Hp') as (p & Hp & E). unfold root. rewrite E. by apply Hr.
  - destruct Hf as (u & Hu & Hst & _). pose proof (Ho u Hu) as Hq. eapply same_space_trans; [exact Hs|].
    destruct (ln_task _ _ _ _ (co_linked _ _ _ _ _ (ok_core _ K)) j u q Hu Hq) as (p & [Hp _] & _).
    { unfold is_terminal. by rewrite Hst. }
    rewrite <- (Hr p Hp). apply (Q q p Hp). by eapply ready_not_involved.
Qed.

Lemma undisturbed_steps j q f l m0 s s' :
  rtc (others_step j) s s' -> executing s.1 s.2 -> undisturbed j q f l m0 s.1 s.2 ->
  executing s'.1 s'.2 /\ undisturbed j q f l m0 s'.1 s'.2.
Proof.
  induction 1 as [|[c m] [c1 m1] s' St _ IH]; [done|]. intros Ex Ud. apply IH.
  - eapply exec_step_run; [exact Ex|apply St].
  - by eapply undisturbed_step.
Qed.

(** The preempted program resumes with its registers and finds its memory
    unchanged. *)
Lemma preempted_run c m j q p c1 m1 c2 m2 :
  executing c m -> current (sched m) = Some j -> current_proc m = Some q ->
  ProcessTable.get (proc_table (sched m)) q = Some p ->
  timer_tick c m = Done (Some c1, m1) -> rtc (others_step j) (c1, m1) (c2, m2) -> current (sched m2) = Some j ->
  executing c2 m2 /\ cpu_eq c2 c /\ same_space (root p) (mem m) (mem m2) /\ cr3 (mem m2) = root p.
Proof.
  intros Ex Hj Hq Hp E St Hj2. pose proof (confined_ok m (ex_confined _ _ Ex)) as K.
  destruct (wp_result _ _ _ _ _ (executing_tick c m j Ex Hj) E) as [[Pg Hown] [Cf Qt]]. clear E.
  pose proof (progressed_executing _ _ _ Pg Cf) as Ex1.
  assert (undisturbed j q (frame_of c) (root p) m c1 m1) as Ud.
  { constructor.
    - destruct Hown as [[Hc (c' & [= <-] & R)]|?]; [by right|by left].
    - intros u' Hu'. destruct (pg_owner _ _ _ Pg j u' Hu') as (u & Hu & ->).
      unfold current_proc in Hq. by rewrite Hj, Hu in Hq.
    - intros p' Hp'. destruct (pg_spaces _ _ _ Pg q p' Hp') as (p0 & Hp0 & E'). unfold root. rewrite E'.
      by assert (p0 = p) as -> by congruence.
    - exact (Qt q p Hp id). }
  destruct (undisturbed_steps _ _ _ _ _ _ _ St Ex1 Ud) as [Ex2 [Hf Ho Hr Hs]]. cbn [fst snd] in *.
  pose proof (confined_ok m2 (ex_confined _ _ Ex2)) as K2. destruct (ok_running m2 j K2 Hj2) as (u & Hu & Hst).
  split; [done|]. split; [|split; [done|]].
  - destruct Hf as [(u' & Hu' & Hst' & _)|[_ R]]; [congruence|by apply resumes_frame_of].
  - assert (current_proc m2 = Some q) as Hq2.
    { unfold current_proc. rewrite Hj2, Hu. by apply Ho. }
    destruct (current_proc_live m2 q K2 Hq2) as (p2 & [Hp2 _] & _). rewrite <- (Hr p2 Hp2).
    by apply (running_root m2 q p2).
Qed.
End execution.
