(* ===== verification/Startup.v ===== *)
(** * From boot to the first user instruction

    The boot code spawns user programs, each on a kernel stack that the
    allocator returned, and calls [run]. The machines it can build this way
    are [staged]; the one that [run] leaves executes, in the sense of
    Execution.v. *)

From stdpp Require Import relations.
From S2P Require Import Prelude File Fd X86 Memory AddressSpace UserMemory Process Context.
From S2P Require Import Serial Task Syscall User Elf Scheduler SchedulerCalls Interrupts RoundRobin.
From S2P Require Import Invariant Switching Exit Calls Spawn System PageTables Spaces Isolation Handlers Stubs.
From S2P Require Import Loading Confinement UserCode Execution.

Import ProcessTableFacts.

(** A stack from the allocator: inside the address space and apart from the
    stacks in use. *)
Record unused_stack (ts : list Task) (stack : Z) : Prop := mkUnusedStack {
  fs_range : 0 <= stack /\ stack + TASK_STACK_SIZE < 2 ^ 64;
  fs_apart i t : vget ts i = Some t -> apart (t_kernel_stack t) stack
}.

(** The start values of a user task. *)
Record start_ok (init : UserTaskInit) : Prop := mkStartOk {
  si_entry : is_u64 (init_entry_point init);
  si_top : 16 <= init_user_stack_top init < 2 ^ 64;
  si_arg : is_u64 (init_arg0 init)
}.

Section startup.
Context {X : X86_64} {XS : X86_64_Spec X} {XP : X86_64_Paging X}.

(** The task a spawn adds, with its first frame. *)
Definition new_task_of (m : Machine) (stack : Z) (init : UserTaskInit) (rflags : Z) (pid : ProcessId) : Task * KMem :=
  Task.new_user (kmem m) stack (vlen (tasks (sched m))) pid (init_entry_point init) (init_user_stack_top init)
    (init_arg0 init) rflags (user_code_selector (cpu m)) (user_data_selector (cpu m)).

(** What a spawn does to tasks and kernel memory. *)
Record launched (m : Machine) (stack : Z) (init : UserTaskInit) (rflags : Z) (m' : Machine) : Prop := mkLaunched {
  la_current : current (sched m') = current (sched m);
  la_cpu : cpu m' = cpu m;
  la_tasks : tasks (sched m') = tasks (sched m) /\ kmem m' = kmem m \/
    exists pid, let tk := new_task_of m stack init rflags pid in
      tasks (sched m') = tasks (sched m) ++ [tk.1] /\ kmem m' = tk.2
}.

Lemma spawn_launches stack parent init rf (m : Machine) :
  ok m -> wp (spawn_user_process_with stack parent init rf) (fun _ m' => launched m stack init rf m') m.
Proof.
  intros K. unfold spawn_user_process_with. st_steps.
  assert (forall m', current (sched m') = current (sched m) -> cpu m' = cpu m ->
    tasks (sched m') = tasks (sched m) -> kmem m' = kmem m -> launched m stack init rf m') as Hsame.
  { intros m' E1 E2 E3 E4. constructor; [done|done|by left]. }
  destruct (_ >=? _); [apply wp_ret; by apply Hsame|]. st_steps.
  destruct (ProcessTable.can_create _ _) as [[]|e]; cbn [map_err]; [|by apply Hsame].
  destruct (FdTable.new_with_stdio _) as [r fs]. do 4 st_step.
  destruct r as [fds|e]; cbn [map_err]; [|by apply Hsame]. st_step. apply wp_zoom.
  eapply wp_mono; [apply (create_spec (proc_table (sched m)) parent (init_address_space init) (init_heap init) fds
    (vlen (tasks (sched m))) (co_table _ _ _ _ _ (ok_core _ K)))|].
  intros r pt' _. st_steps. destruct r as [pid|e]; cbn [map_err]; [|by apply Hsame]. st_steps.
  destruct (Task.new_user _ _ _ _ _ _ _ _ _ _) as [t k] eqn:Et. unfold push_task. st_steps.
  constructor; [done|done|right]. exists pid.
  match type of Et with ?x = _ => change x with (new_task_of m stack init rf pid) in Et end. by rewrite Et.
Qed.

(** The first frame of a task resumes in ring 3. *)
Lemma first_frame_ok m stack init rf pid :
  start_ok init -> let tk := new_task_of m stack init rf pid in
  frame_ok (read_frame tk.2 (saved_rsp tk.1)).
Proof.
  intros [He Ht Ha]. cbn zeta. unfold new_task_of, Task.new_user, new_user_task. cbn [fst snd saved_rsp t_context rsp].
  rewrite read_write_frame. unfold user_code_selector. constructor; cbn [tf_rip tf_cs].
  - assert (is_u64 (align_16 (init_user_stack_top init) - 8)) as Hs.
    { unfold is_u64 in *. rewrite align_16_spec by (unfold is_u64; lia).
      pose proof (Z.mod_pos_bound (init_user_stack_top init) 16). pose proof (Z.div_mod (init_user_stack_top init) 16). lia. }
    intros r. by destruct r.
  - done.
  - rewrite set_rpl_spec by done. set (s := gdt_user_code (cpu m)).
    change 3 with (Z.ones 2) at 2. rewrite Z.land_ones by done. change (2 ^ 2) with 4.
    replace (s - s mod 4 + 3) with (3 + (s / 4) * 4) by (pose proof (Z.div_mod s 4); lia). by rewrite Z.mod_add.
Qed.

(** It is written on the new stack only. *)
Lemma first_frame_place m stack init rf pid :
  0 <= stack -> stack + TASK_STACK_SIZE < 2 ^ 64 ->
  let tk := new_task_of m stack init rf pid in
  stack_ok tk.1 /\ t_kernel_stack tk.1 = stack /\ frame_on tk.1 (saved_rsp tk.1) /\
  forall x, x < stack \/ stack + TASK_STACK_SIZE <= x -> tk.2 x = kmem m x.
Proof.
  intros H0 H1 tk. assert (stack_ok tk.1) as Hs by done. split; [done|]. split; [done|].
  destruct (stack_bounds tk.1 Hs) as [B _]. change (t_kernel_stack tk.1) with stack in B.
  assert (saved_rsp tk.1 = t_kernel_stack_top tk.1 - TRAP_FRAME_SIZE) as Es by done.
  change (frame_on tk.1 (saved_rsp tk.1)) with
    (stack <= saved_rsp tk.1 /\ saved_rsp tk.1 + TRAP_FRAME_SIZE <= t_kernel_stack_top tk.1).
  unfold TASK_STACK_SIZE, TRAP_FRAME_SIZE in *. split; [lia|]. intros x Hx.
  destruct Hx as [Hx|Hx]; [apply kwrite_words_out|apply kwrite_words_above];
    fold (align_16 (stack + TASK_STACK_SIZE));
    change (align_16 (stack + TASK_STACK_SIZE)) with (t_kernel_stack_top tk.1).
  - unfold TRAP_FRAME_SIZE. lia.
  - change (vlen (frame_words _)) with 20. unfold TRAP_FRAME_SIZE. lia.
Qed.

Lemma launched_homes m stack init rf m' :
  homes m -> (forall i t, vget (tasks (sched m)) i = Some t -> t_state t <> Running) ->
  unused_stack (tasks (sched m)) stack -> start_ok init -> launched m stack init rf m' -> homes m'.
Proof.
  intros [[He Ha] Hs Hu] Hidle [Fr Fa] Hi [_ _ [[Et Ek]|(pid & Et & Ek)]].
  { constructor; rewrite Et, ?Ek; [done|done|done]. }
  pose proof (first_frame_ok m stack init rf pid Hi) as Hf.
  destruct (first_frame_place m stack init rf pid (proj1 Fr) (proj2 Fr)) as (P1 & P2 & P3 & P4).
  assert (process_id (new_task_of m stack init rf pid).1 = Some pid) as P5 by done. cbn zeta in *.
  destruct (new_task_of m stack init rf pid) as [t0 k0]. cbn [fst snd] in *.
  assert (forall i t, vget (tasks (sched m')) i = Some t ->
    vget (tasks (sched m)) i = Some t /\ apart (t_kernel_stack t) stack \/ i = vlen (tasks (sched m)) /\ t = t0) as Hcase.
  { intros i t. rewrite Et. intros [Hti|[-> ->]]%vget_snoc_inv; [left|by right]. split; [done|by apply (Fa i)]. }
  constructor; [constructor|..].
  - intros i t [[Hti _]|[_ ->]]%Hcase; [by apply (He i)|done].
  - intros i j t u [[Hti A1]|[-> ->]]%Hcase [[Huj A2]|[-> ->]]%Hcase Hne; rewrite ?P2; [by apply (Ha i j)|done| |done].
    unfold apart in *. lia.
  - intros i t [[Hti A]|[_ ->]]%Hcase Hp; rewrite Ek; [|done]. destruct (Hs i t Hti Hp) as [F1 F2]. split; [done|].
    rewrite (read_frame_same (kmem m)); [done|]. intros x Hx. apply P4.
    destruct (stack_bounds t (He i t Hti)) as [B _]. unfold frame_on, apart in *. lia.
  - intros i t [[Hti _]|[_ ->]]%Hcase Hn; [by apply (Hu i)|by rewrite P5].
Qed.

(** ** The boot code *)

(** No task runs, and every task has its frame. *)
Definition idle (m : Machine) : Prop := current (sched m) = None /\ homes m.

Lemma idle_none_running m i t :
  ok m -> current (sched m) = None -> vget (tasks (sched m)) i = Some t -> t_state t <> Running.
Proof. intros K Hc Ht Hr. pose proof (running_is_current m i t K Ht Hr). congruence. Qed.

Lemma spawn_idle stack parent init rf (m : Machine) :
  ok m -> idle m -> unused_stack (tasks (sched m)) stack -> start_ok init ->
  wp (spawn_user_process_with stack parent init rf) (fun _ m' => idle m') m.
Proof.
  intros K [Hc H] Hf Hi. eapply wp_mono; [by apply spawn_launches|]. intros r m' L. split.
  - by rewrite (la_current _ _ _ _ _ L).
  - apply (launched_homes m stack init rf); try done. intros i t. by apply idle_none_running.
Qed.

Lemma elf_idle stack parent elf_bytes arg0 (m : Machine) :
  ok m -> isolated m -> idle m -> Forall is_byte elf_bytes -> is_u64 arg0 -> unused_stack (tasks (sched m)) stack ->
  wp (let? init := st_map_err ElfLoad (with_mem (load_user_elf elf_bytes arg0)) in
      let* m := st_get in
      spawn_user_process_with stack parent init (initial_rflags (cpu m))) (fun _ m' => idle m') m.
Proof.
  intros K Is Hi Hb Ha Hf. apply wp_try. unfold st_map_err. apply wp_bind, wp_zoom.
  destruct (parse_elf elf_bytes) as [elf|e] eqn:Hp.
  2: { eapply wp_intro; [by apply load_user_elf_rejected|]. cbn beta. apply wp_ret. by destruct Hi as [? []]. }
  eapply wp_mono.
  { apply wp_and; [exact (load_user_elf_safe elf_bytes arg0 Hb (mem m) (bo_mem _ (ok_base _ K)))|].
    apply (load_user_elf_run elf_bytes arg0 elf (mem m) _ Hb Hp (is_space _ Is) (is_table _ Is)). }
  intros r x [[Hx _] H]. cbn beta. apply wp_ret. pose proof (ok_set_mem m x K Hx) as Kx.
  assert (idle (set_mem x m)) as Hix by (by destruct Hi as [? []]).
  destruct r as [init|e]; cbn [map_err load_outcome] in *; [|done].
  destruct H as (_ & He & Ht & Harg & _). apply wp_bind, wp_get. apply spawn_idle; [done|done|done|].
  pose proof layout as (L1 & L2 & L3 & L4). destruct (parse_elf_ok _ _ Hb Hp) as [_ Hseg _ (s & Hs & _ & Hent)].
  rewrite Forall_forall in Hseg. destruct (Hseg s Hs) as [E1 _ [R1 R2] [S1 S2] S3 _ _].
  unfold is_u64 in *. constructor; rewrite ?He, ?Ht, ?Harg; unfold is_u64; lia.
Qed.

Lemma program_idle stack bytes arg0 test (m : Machine) :
  ok m -> isolated m -> idle m -> vlen bytes <= 4096 -> is_u64 arg0 -> unused_stack (tasks (sched m)) stack ->
  wp (handle (SpawnProgram stack bytes arg0 test)) (fun _ m' => idle m') m.
Proof.
  intros K Is Hi Hl Ha Hf. cbn [handle]. apply wp_bind, wp_zoom. eapply wp_mono.
  { apply wp_and; [exact (create_user_task_safe bytes arg0 test Hl (mem m) (bo_mem _ (ok_base _ K)))|].
    apply (create_user_task_run bytes arg0 test (mem m) _ Hl (is_space _ Is) (is_table _ Is)). }
  intros r x [[Hx _] H]. pose proof (ok_set_mem m x K Hx) as Kx.
  assert (idle (set_mem x m)) as Hix by (by destruct Hi as [? []]).
  destruct r as [init|e]; cbn [load_outcome] in H; [|by apply wp_ret].
  destruct H as (_ & He & Ht & Harg & _). apply wp_discard. unfold spawn_user, spawn_user_process. st_steps.
  eapply wp_mono; [apply (spawn_idle stack None init _ (set_mem x m) Kx Hix Hf)|].
  - pose proof layout as (_ & _ & _ & L4). constructor; rewrite ?He, ?Ht, ?Harg; [done|rewrite L4; lia|done].
  - intros r m' S. by apply wp_ret.
Qed.

(** What the boot code does before [run]: it spawns programs on fresh stacks
    with 64-bit arguments, sets options, and otherwise leaves the kernel stacks
    of the tasks alone. *)
Definition staging (m : Machine) (e : event) : Prop :=
  match e with
  | Elsewhere m' => mmu_respected m m' /\
      forall i t x, vget (tasks (sched m)) i = Some t -> on_stack t x -> kmem m' x = kmem m x
  | SpawnProgram stack _ arg0 _ | SpawnElf stack _ arg0 | SpawnChildElf stack _ _ arg0 =>
      unused_stack (tasks (sched m)) stack /\ is_u64 arg0
  | SetPreemption _ => True
  | _ => False
  end.

Inductive staged : Machine -> Prop :=
| staged_boot m : booted_memory m -> staged m
| staged_event m e m' : staged m -> staging m e -> enabled m e -> handle e m = Done (tt, m') -> staged m'.

Lemma staging_idle e (m : Machine) :
  ok m -> isolated m -> idle m -> staging m e -> enabled m e -> wp (handle e) (fun _ m' => idle m') m.
Proof.
  intros K Is Hi Hs He.
  destruct e as [m'|rsp|rsp|rsp|rsp info| |stack tr entry|stack init|stack bytes arg0 test|stack bytes arg0
                |stack parent bytes arg0|task arg0|b|rsp]; cbn [staging] in Hs; try done.
  - cbn [handle enabled] in *. apply wp_put. destruct He as (Es & _), Hs as [_ Hk], Hi as [Hc [So Sv Su]].
    split; [by rewrite Es|]. constructor; rewrite Es; [done| |done]. intros i t Ht Hp.
    destruct (Sv i t Ht Hp) as [F1 F2]. split; [done|]. rewrite (read_frame_same (kmem m)); [done|].
    intros x Hx. apply (Hk i t x Ht). unfold frame_on, on_stack in *. lia.
  - destruct Hs. by apply program_idle.
  - cbn [handle enabled] in *. destruct Hs. apply wp_discard. by apply (elf_idle stack None).
  - cbn [handle enabled] in *. destruct Hs. apply wp_discard. by apply (elf_idle stack (Some parent)).
  - cbn [handle]. destruct b; unfold enable_preemption, disable_preemption; st_steps; by destruct Hi as [? []].
Qed.

Lemma staged_run m : staged m -> confined m /\ idle m.
Proof.
  induction 1 as [m Hb|m e m' _ [Hm Hi] Hs He E].
  - split; [by apply conf_boot|]. destruct Hb as [[Hsc _] _ _].
    assert (forall i (t : Task), vget [] i = Some t -> False) as Hno.
    { intros i t Ht%vget_range. unfold vlen in Ht. cbn in Ht. lia. }
    split; [by rewrite Hsc|]. constructor; rewrite Hsc; [constructor|..]; intros i; intros; by destruct (Hno i t).
  - split.
    + eapply conf_step; [exact Hm|exact He| |exact E]. by destruct e; try done; destruct Hs.
    + refine (wp_result _ _ _ _ _ (staging_idle e m _ _ Hi Hs He) E); [by apply confined_ok|by apply confined_isolated].
Qed.

(** [run] on a staged machine starts the execution. *)
Lemma run_executes m main_rsp a m' c :
  staged m -> run main_rsp m = Done (Some a, m') -> resumes (read_frame (kmem m') a) c -> executing c m'.
Proof.
  intros [Hm [Hc H]]%staged_run E R. pose proof (confined_ok m Hm) as K.
  destruct (wp_result _ _ _ _ _ (run_run main_rsp m K Hc) E) as [K' O].
  destruct (first_ready (tasks (sched m))) as [n|] eqn:En; [|by destruct O].
  destruct O as (t & Ht & [= ->] & Hcur & _ & Hts & Kp). pose proof (kp_kmem _ _ Kp) as Ek.
  destruct (first_ready_Some _ _ En) as [(t' & Ht' & Hst) _]. assert (t' = t) as -> by congruence.
  destruct H as [So Sv Su]. assert (parked t) as Hp.
  { unfold parked, is_terminal. by rewrite Hst. }
  destruct (Sv n t Ht Hp) as [_ Hf]. pose proof (vget_range _ _ _ Ht) as Hr.
  assert (confined m') as Hm'.
  { eapply (conf_step m (Run main_rsp)); [done|done|done|]. cbn [handle]. unfold discard, st_bind. by rewrite E. }
  clear E. constructor; [done|by rewrite Hcur|rewrite Ek in R; by eapply resumes_cpu_ok|].
  assert (forall i u, vget (tasks (sched m')) i = Some u ->
    exists v, vget (tasks (sched m)) i = Some v /\ same_home v u /\ (u = v \/ t_state u = Running /\ is_terminal v = false)) as Hback.
  { intros i u. rewrite Hts. intros [[-> ->]|[_ Hu]]%(vget_set_state _ _ _ _ _ _ Ht); 
      [|exists u; split; [done|]; split; [done|by left]].
    exists t. split; [done|]. split; [done|]. right. split; [done|]. apply Hp. }
  constructor; [constructor|..].
  - intros i u (v & Hv & (E1 & E2 & _) & _)%Hback. destruct (so_each _ So i v Hv) as [S1 S2].
    constructor; rewrite E1; [done|congruence].
  - intros i j u w (v & Hv & (-> & _) & _)%Hback (x & Hx & (-> & _) & _)%Hback. by apply (so_apart _ So i j).
  - intros i u (v & Hv & _ & [->|[Hrun _]])%Hback Hpu; [rewrite Ek; by apply (Sv i)|by destruct Hpu].
  - intros i u (v & Hv & (_ & _ & E3) & Hcase)%Hback Hn. pose proof (Su i v Hv) as Hu. unfold process_id in *. rewrite E3.
    apply Hu. by destruct Hcase as [<-|[_ ?]].
Qed.

(** The induction principle of [executed] is never used. *)
Unset Elimination Schemes.

(** The states of the processor and the machine that the user programs reach:
    the boot code stages them, [run] picks the first, the stub loads its frame,
    and then any number of instructions and timer interrupts follow. *)
Inductive executed : CpuState -> Machine -> Prop :=
| executed_run m main_rsp a m1 c1 c m' :
    staged m -> run main_rsp m = Done (Some a, m1) -> resumes (read_frame (kmem m1) a) c1 ->
    rtc exec_step (c1, m1) (c, m') -> executed c m'.

Set Elimination Schemes.

Lemma executed_executing c m : executed c m -> executing c m.
Proof.
  intros [m0 main_rsp a m1 c1 c' m' Hs Hr Hf St]. refine (exec_steps_run _ _ St _).
  exact (run_executes m0 main_rsp a m1 c1 Hs Hr Hf).
Qed.

Lemma executed_step c m c' m' : executed c m -> exec_step (c, m) (c', m') -> executed c' m'.
Proof.
  intros [m0 main_rsp a m1 c1 c2 m2 Hs Hr Hf St] St'. eapply executed_run; [exact Hs|exact Hr|exact Hf|].
  by eapply rtc_r.
Qed.
End startup.
