(* ===== verification/X86Model.v ===== *)
(** * An implementation of the interface to the [x86_64] crate

    Executable definitions with the documented behaviour of the crate, and
    the proof that they satisfy [X86_64_Spec]: the hypotheses of the theorems
    about the kernel can be met. The concrete machines at the end are those
    the examples evaluate. *)

From S2P Require Import Prelude File Fd X86 Memory AddressSpace UserMemory Process Context.
From S2P Require Import Serial Task Syscall User Elf Scheduler Boot.

Module Model.
(** Sign extension of bit 47; a panic when bits 48 to 63 hold other data. *)
Definition virt_addr_new (a : Z) : option Z :=
  if a <? 2 ^ 47 then Some a
  else if a <? 2 ^ 48 then Some (a + (2 ^ 64 - 2 ^ 48))
  else if 2 ^ 64 - 2 ^ 47 <=? a then Some a
  else None.

Definition page_start (a : Z) : Z := a - a mod 4096.
Definition index (shift page : Z) : Z := (page / 2 ^ shift) mod 512.

(** Bits 12 to 51 of an entry are the frame, the others are flags. *)
Definition ADDR : Z := Z.shiftl (Z.ones 40) 12.
Definition addr (e : Z) : Z := Z.land e ADDR.
Definition flags_of (e : Z) : Z := Z.ldiff (Z.land e (Z.ones 64)) ADDR.
Definition frame (e : Z) : option Z :=
  if contains e PRESENT && negb (contains e HUGE_PAGE) then Some (addr e) else None.

(** The next-lower table, created when the entry is unused. *)
Definition next_table {A} (alloc : A -> option Z * A) (r : Ram) (a : A) (table i flags : Z) :
    result MapToError Z * Ram * A :=
  let e := read_entry r table i in
  if e =? 0 then
    match alloc a with
    | (None, a') => (Err MapFrameAllocationFailed, r, a')
    | (Some f, a') => (Ok f, fill_bytes (write_entry r table i (Z.lor f flags)) f 4096 0, a')
    end
  else if contains e HUGE_PAGE then (Err MapParentEntryHugePage, r, a)
  else (Ok (addr e), write_entry r table i (Z.land (Z.lor e flags) (Z.ones 64)), a).

Definition map_page {A} (alloc : A -> option Z * A) (r : Ram) (a : A) (l4 page frame flags : Z) :
    result MapToError unit * Ram * A :=
  let parent := Z.land flags (PRESENT + WRITABLE + USER_ACCESSIBLE) in
  match next_table alloc r a l4 (index 39 page) parent with
  | (Err e, r, a) => (Err e, r, a)
  | (Ok l3, r, a) =>
    match next_table alloc r a l3 (index 30 page) parent with
    | (Err e, r, a) => (Err e, r, a)
    | (Ok l2, r, a) =>
      match next_table alloc r a l2 (index 21 page) parent with
      | (Err e, r, a) => (Err e, r, a)
      | (Ok l1, r, a) =>
          let e := read_entry r l1 (index 12 page) in
          if e =? 0 then (Ok tt, write_entry r l1 (index 12 page) (Z.lor frame flags), a)
          else (Err (MapPageAlreadyMapped frame), r, a)
      end
    end
  end.

Definition lower (e : Z) : result UnmapError Z :=
  if negb (contains e PRESENT) then Err UnmapPageNotMapped
  else if contains e HUGE_PAGE then Err UnmapParentEntryHugePage
  else Ok (addr e).

Definition unmap_page (r : Ram) (l4 page : Z) : result UnmapError unit * Ram :=
  match lower (read_entry r l4 (index 39 page)) with
  | Err e => (Err e, r)
  | Ok l3 =>
    match lower (read_entry r l3 (index 30 page)) with
    | Err e => (Err e, r)
    | Ok l2 =>
      match lower (read_entry r l2 (index 21 page)) with
      | Err e => (Err e, r)
      | Ok l1 =>
        match lower (read_entry r l1 (index 12 page)) with
        | Err e => (Err e, r)
        | Ok _ => (Ok tt, write_entry r l1 (index 12 page) 0)
        end
      end
    end
  end.

(** *** Bits of an entry *)

Lemma ADDR_bit n : 0 <= n -> Z.testbit ADDR n = (12 <=? n) && (n <? 52).
Proof.
  intros Hn. unfold ADDR. rewrite Z.shiftl_spec by lia. destruct (Z.leb_spec 12 n).
  - rewrite Z.testbit_ones by lia. destruct (Z.leb_spec 0 (n - 12)); [|lia].
    destruct (Z.ltb_spec (n - 12) 40), (Z.ltb_spec n 52); lia || done.
  - by rewrite Z.testbit_neg_r by lia.
Qed.

Lemma ones_bit w n : 0 <= w -> 0 <= n -> Z.testbit (Z.ones w) n = (n <? w).
Proof. intros. rewrite Z.testbit_ones by lia. destruct (Z.leb_spec 0 n); [done|lia]. Qed.

(** An equation between masks, bit by bit. *)
Ltac bitwise :=
  apply Z.bits_inj'; let n := fresh "n" in let Hn := fresh "Hn" in intros n Hn;
  repeat first [rewrite Z.lor_spec | rewrite Z.ldiff_spec | rewrite Z.land_spec];
  rewrite ?ADDR_bit, ?ones_bit, ?Z.bits_0 by lia.

Lemma addr_phys e : phys_frame (addr e).
Proof.
  unfold phys_frame, addr, ADDR.
  assert (Z.land e (Z.shiftl (Z.ones 40) 12) = 4096 * Z.land (Z.shiftr e 12) (Z.ones 40)) as ->.
  { rewrite <- (Z.mul_comm _ 4096). change 4096 with (2 ^ 12). rewrite <- Z.shiftl_mul_pow2 by lia.
    apply Z.bits_inj'. intros n Hn. rewrite Z.land_spec, !Z.shiftl_spec by lia.
    destruct (Z.ltb_spec n 12); [by rewrite !(Z.testbit_neg_r _ (n - 12)), andb_false_r by lia|].
    rewrite Z.land_spec, Z.shiftr_spec by lia. by replace (n - 12 + 12) with n by lia. }
  rewrite Z.land_ones by lia. pose proof (Z.mod_pos_bound (Z.shiftr e 12) (2 ^ 40)).
  split; [rewrite Z.mul_comm; by apply Z.mod_mul|lia].
Qed.

(** A physical frame has address bits only. *)
Lemma phys_bit f n : phys_frame f -> 0 <= n -> Z.testbit f n = Z.testbit f n && ((12 <=? n) && (n <? 52)).
Proof.
  intros [Hm Hr] Hn. destruct (Z.leb_spec 12 n); cbn [andb]; [destruct (Z.ltb_spec n 52)|].
  - by rewrite andb_true_r.
  - rewrite <- (Z.mod_small f (2 ^ 52)), Z.mod_pow2_bits_high by lia. done.
  - rewrite andb_false_r, <- (Z.mod_pow2_bits_low f 12 n) by lia.
    change (2 ^ 12) with 4096. by rewrite Hm, Z.bits_0.
Qed.
End Model.


Definition x86_model : X86_64 := {|
  VirtAddr_new := Model.virt_addr_new;
  PhysFrame_containing_address := Model.page_start;
  Page_containing_address := Model.page_start;
  p4_index := Model.index 39;
  p3_index := Model.index 30;
  p2_index := Model.index 21;
  p1_index := Model.index 12;
  entry_flags := Model.flags_of;
  entry_frame := Model.frame;
  entry_is_unused e := e =? 0;
  entry_set_flags e f := Z.lor (Model.addr e) f;
  SegmentSelector_set_rpl s rpl := s - s mod 4 + rpl;
  map_to := @Model.map_page;
  unmap := Model.unmap_page
|}.

Lemma x86_model_spec : X86_64_Spec x86_model.
Proof.
  constructor; cbn -[Z.pow]; try done.
  - intros a Ha. unfold Model.virt_addr_new, canonical in *.
    destruct (Z.ltb_spec a (2 ^ 47)); [done|]. destruct (Z.ltb_spec a (2 ^ 48)); [lia|].
    destruct (Z.leb_spec (2 ^ 64 - 2 ^ 47) a); [done|lia].
  - intros a b Ha. unfold Model.virt_addr_new, canonical, is_u64 in *.
    destruct (Z.ltb_spec a (2 ^ 47)); [intros [= <-]; lia|].
    destruct (Z.ltb_spec a (2 ^ 48)); [intros [= <-]; lia|].
    destruct (Z.leb_spec (2 ^ 64 - 2 ^ 47) a); [intros [= <-]; lia|done].
  - intros a Ha Hb. unfold Model.virt_addr_new. destruct (Z.ltb_spec a (2 ^ 47)); [lia|].
    destruct (Z.ltb_spec a (2 ^ 48)); [lia|]. destruct (Z.leb_spec (2 ^ 64 - 2 ^ 47) a); [lia|done].
  - intros page. unfold Model.index.
    split; [|split; [|split]]; by apply Z.mod_pos_bound.
  - intros e f. unfold Model.frame. destruct (_ && _); [|done]. intros [= <-].
    destruct (Model.addr_phys e) as [H1 H2]. lia.
Qed.

(** *** The tables *)

Section model_paging.
#[local] Existing Instance x86_model.

Lemma contains_bit e k : 0 <= k -> contains e (2 ^ k) = Z.testbit e k.
Proof.
  intros Hk. unfold contains. destruct (Z.eqb_spec (Z.land e (2 ^ k)) (2 ^ k)) as [E|E].
  - apply (f_equal (fun x => Z.testbit x k)) in E.
    rewrite Z.land_spec, Z.pow2_bits_true, andb_true_r in E by lia. done.
  - destruct (Z.testbit e k) eqn:B; [|done]. destruct E. apply Z.bits_inj'. intros n Hn.
    rewrite Z.land_spec. destruct (decide (n = k)) as [->|]; [by rewrite B|].
    by rewrite Z.pow2_bits_false, andb_false_r by lia.
Qed.

Lemma u64_bits e : 0 <= e -> (forall n, 64 <= n -> Z.testbit e n = false) -> is_u64 e.
Proof.
  intros H0 H. split; [done|].
  assert (e = e mod 2 ^ 64) as ->; [|by apply Z.mod_pos_bound].
  apply Z.bits_inj'. intros n Hn. destruct (Z.ltb_spec n 64).
  - by rewrite Z.mod_pow2_bits_low by lia.
  - rewrite Z.mod_pow2_bits_high by lia. apply H. lia.
Qed.

Lemma small_bit fl w n : 0 <= fl < 2 ^ w -> 0 <= w <= n -> Z.testbit fl n = false.
Proof. intros Hf Hn. rewrite <- (Z.mod_small fl (2 ^ w)), Z.mod_pow2_bits_high by lia. done. Qed.

(** Facts about the bits of [fl] and [f], for [bitwise] goals. *)
Ltac bit_cases n :=
  destruct (Z.leb_spec 12 n), (Z.ltb_spec n 52), (Z.ltb_spec n 64); try lia; cbn [andb orb negb];
  rewrite ?andb_true_r, ?andb_false_r, ?orb_false_r, ?orb_true_r; try done.

Lemma set_frame_maps f fl :
  phys_frame f -> 0 <= fl < 128 -> contains fl PRESENT = true -> maps_frame (Z.lor f fl) f fl.
Proof.
  intros Hf Hfl HP. pose proof Hf as [Hm Hr].
  assert (forall n, 12 <= n -> Z.testbit fl n = false) as Hhi by (intros; apply (small_bit fl 12); lia).
  assert (forall n, 0 <= n < 12 \/ 52 <= n -> Z.testbit f n = false) as Hlo.
  { intros n Hn. rewrite Model.phys_bit by (done || lia). bit_cases n. }
  constructor.
  - apply u64_bits; [by apply Z.lor_nonneg; lia|]. intros n Hn. by rewrite Z.lor_spec, Hhi, Hlo by lia.
  - cbn [entry_frame x86_model]. unfold Model.frame.
    rewrite (contains_bit _ 0), (contains_bit _ 7), !Z.lor_spec, (Hlo 0), (Hlo 7), <- (contains_bit fl 0) by lia.
    change (2 ^ 0) with PRESENT. rewrite HP, (small_bit fl 7 7) by lia. cbn [andb orb negb].
    f_equal. unfold Model.addr. Model.bitwise. bit_cases n; rewrite ?Hhi, ?Hlo by lia; by rewrite ?orb_false_r.
  - cbn [entry_flags x86_model]. unfold Model.flags_of. Model.bitwise.
    bit_cases n; rewrite ?Hhi, ?Hlo by lia; done.
Qed.

Lemma extend_maps e pf :
  contains e HUGE_PAGE = false -> 0 <= pf < 128 -> contains pf PRESENT = true ->
  maps_frame (Z.land (Z.lor e pf) (Z.ones 64)) (Model.addr e) (Z.lor (Model.flags_of e) pf).
Proof.
  intros HH Hfl HP.
  assert (forall n, 7 <= n -> Z.testbit pf n = false) as Hhi by (intros; apply (small_bit pf 7); lia).
  constructor.
  - apply u64_bits; [rewrite Z.land_ones by lia; by apply Z.mod_pos_bound|]. intros n Hn.
    rewrite Z.land_spec, Model.ones_bit by lia. bit_cases n.
  - cbn [entry_frame x86_model]. unfold Model.frame.
    rewrite (contains_bit _ 0), (contains_bit _ 7), !Z.land_spec, !Z.lor_spec, !Model.ones_bit by lia.
    rewrite <- (contains_bit pf 0), <- (contains_bit e 7) by lia.
    change (2 ^ 0) with PRESENT. change (2 ^ 7) with HUGE_PAGE. rewrite HP, HH, (Hhi 7) by lia.
    rewrite orb_true_r. cbn [andb orb negb]. change (0 <? 64) with true. cbn [andb].
    f_equal. unfold Model.addr. Model.bitwise. bit_cases n; rewrite ?Hhi by lia; by rewrite ?orb_false_r.
  - cbn [entry_flags x86_model]. unfold Model.flags_of. Model.bitwise.
    bit_cases n; rewrite ?Hhi by lia; by rewrite ?orb_false_r.
Qed.

Lemma ram_eq_refl r : ram_eq r r.
Proof. done. Qed.

Lemma model_next_table {A} (alloc : A -> option Z * A) P r a table i pf :
  allocates_frames alloc P -> P a -> 0 <= pf < 128 -> contains pf PRESENT = true ->
  match Model.next_table alloc r a table i pf with
  | (Ok next, r', a') => next_table alloc pf r a table i next r' a' /\ P a'
  | (Err _, r', a') => gives_up alloc r a table i r' a'
  end.
Proof.
  intros HA Ha Hpf HP. unfold Model.next_table, next_table, gives_up.
  cbn [entry_is_unused entry_frame entry_flags x86_model].
  set (e := read_entry r table i). destruct (e =? 0) eqn:E.
  - specialize (HA a Ha). destruct (alloc a) as [[f|] a']; destruct HA as [HP' Hf].
    + split; [|done]. split; [done|]. exists (Z.lor f pf). split; [by apply set_frame_maps|done].
    + by left.
  - destruct (contains e HUGE_PAGE) eqn:EH.
    + right. split; [done|]. split; [done|]. split; [|by left].
      unfold Model.frame. by rewrite EH, andb_false_r.
    + split; [|done]. split; [done|]. split.
      * unfold Model.frame. rewrite EH. destruct (contains e PRESENT); by intros f [= <-].
      * right. exists (Z.land (Z.lor e pf) (Z.ones 64)). split; [by apply extend_maps|done].
Qed.

Lemma parent_flags fl :
  0 <= fl < 128 -> contains fl PRESENT = true ->
  0 <= Z.land fl (PRESENT + WRITABLE + USER_ACCESSIBLE) < 128 /\
  contains (Z.land fl (PRESENT + WRITABLE + USER_ACCESSIBLE)) PRESENT = true.
Proof.
  intros Hfl HP. change (PRESENT + WRITABLE + USER_ACCESSIBLE) with (Z.ones 3). split.
  - rewrite Z.land_ones by lia. change (2 ^ 3) with 8. pose proof (Z.mod_pos_bound fl 8). lia.
  - change PRESENT with (2 ^ 0) in *. rewrite contains_bit in * by lia.
    by rewrite Z.land_spec, HP.
Qed.

Lemma lower_frame e f : Model.lower e = Ok f -> Model.frame e = Some f.
Proof.
  unfold Model.lower, Model.frame. destruct (contains e PRESENT); [|done].
  destruct (contains e HUGE_PAGE); [done|]. by intros [= ->].
Qed.

Lemma frame_lower e f : Model.frame e = Some f -> Model.lower e = Ok f.
Proof.
  unfold Model.lower, Model.frame. destruct (contains e PRESENT); [|done].
  destruct (contains e HUGE_PAGE); [done|]. by intros [= ->].
Qed.

(** What a run of [map_page] does to the tables. *)
Lemma model_map_page {A} (alloc : A -> option Z * A) P r a l4 page fr fl :
  allocates_frames alloc P -> P a -> phys_frame fr -> 0 <= fl < 128 -> contains fl PRESENT = true ->
  let pf := Z.land fl (PRESENT + WRITABLE + USER_ACCESSIBLE) in
  match Model.map_page alloc r a l4 page fr fl with
  | (Ok _, r', a') =>
      exists r1 l1 e,
        descend alloc pf [p4_index page; p3_index page; p2_index page] r a l4 r1 a' l1 /\
        entry_is_unused (read_entry r1 l1 (p1_index page)) = true /\
        maps_frame e fr fl /\ ram_eq r' (write_entry r1 l1 (p1_index page) e)
  | (Err _, r', a') =>
      exists indices rest r1 a1 table,
        [p4_index page; p3_index page; p2_index page] = indices ++ rest /\
        descend alloc pf indices r a l4 r1 a1 table /\
        match rest with
        | [] => a' = a1 /\ ram_eq r' r1
        | i :: _ => gives_up alloc r1 a1 table i r' a'
        end
  end.
Proof.
  intros HA Ha Hf Hfl HP pf. destruct (parent_flags fl Hfl HP) as [Hpf HPP]. fold pf in Hpf, HPP.
  unfold Model.map_page. fold pf. cbn [p4_index p3_index p2_index p1_index x86_model].
  pose proof (model_next_table alloc P r a l4 (Model.index 39 page) pf HA Ha Hpf HPP) as H4.
  destruct (Model.next_table alloc r a l4 _ pf) as [[[l3|e] r3] a3].
  2: { exists [], [Model.index 39 page; Model.index 30 page; Model.index 21 page], r, a, l4.
       split; [done|]. split; [constructor|done]. }
  destruct H4 as [N4 Ha3].
  pose proof (model_next_table alloc P r3 a3 l3 (Model.index 30 page) pf HA Ha3 Hpf HPP) as H3.
  destruct (Model.next_table alloc r3 a3 l3 _ pf) as [[[l2|e] r2] a2].
  2: { exists [Model.index 39 page], [Model.index 30 page; Model.index 21 page], r3, a3, l3.
       split; [done|]. split; [econstructor; [done|constructor]|done]. }
  destruct H3 as [N3 Ha2].
  pose proof (model_next_table alloc P r2 a2 l2 (Model.index 21 page) pf HA Ha2 Hpf HPP) as H2.
  destruct (Model.next_table alloc r2 a2 l2 _ pf) as [[[l1|e] r1] a1].
  2: { exists [Model.index 39 page; Model.index 30 page], [Model.index 21 page], r2, a2, l2.
       split; [done|]. split; [econstructor; [done|econstructor; [done|constructor]]|done]. }
  destruct H2 as [N2 Ha1]. destruct (read_entry r1 l1 (Model.index 12 page) =? 0) eqn:E.
  - exists r1, l1, (Z.lor fr fl). split; [by do 3 (econstructor; [done|]); constructor|].
    split; [done|]. split; [by apply set_frame_maps|done].
  - exists [Model.index 39 page; Model.index 30 page; Model.index 21 page], [], r1, a1, l1.
    split; [done|]. split; [by do 3 (econstructor; [done|]); constructor|done].
Qed.

Lemma x86_model_paging : X86_64_Paging x86_model.
Proof.
  constructor.
  - done.
  - done.
  - done.
  - done.
  - intros e fl He Hfl. cbn [entry_set_flags entry_flags x86_model]. unfold remove, Model.flags_of, Model.addr.
    split.
    + apply u64_bits.
      * apply Z.lor_nonneg. split; [apply Z.land_nonneg; right; done|].
        do 2 (apply Z.ldiff_nonneg; left). apply Z.land_nonneg. by right.
      * intros n Hn. rewrite Z.lor_spec, !Z.ldiff_spec, !Z.land_spec, Model.ADDR_bit, Model.ones_bit by lia.
        bit_cases n.
    + Model.bitwise. bit_cases n.
  - intros A alloc P r a l4 page fr fl r' a' HA Ha Hf Hfl HP E.
    pose proof (model_map_page alloc P r a l4 page fr fl HA Ha Hf Hfl HP) as H.
    cbn [map_to x86_model] in E. by rewrite E in H.
  - intros A alloc P r a l4 page fr fl error r' a' HA Ha Hf Hfl HP E.
    pose proof (model_map_page alloc P r a l4 page fr fl HA Ha Hf Hfl HP) as H.
    cbn [map_to x86_model] in E. by rewrite E in H.
  - intros r l4 page r'. cbn [unmap x86_model]. unfold Model.unmap_page.
    destruct (Model.lower (read_entry r l4 _)) as [l3|] eqn:E4; [|done].
    destruct (Model.lower (read_entry r l3 _)) as [l2|] eqn:E3; [|done].
    destruct (Model.lower (read_entry r l2 _)) as [l1|] eqn:E2; [|done].
    destruct (Model.lower (read_entry r l1 _)) as [f|] eqn:E1; [|done]. intros [= <-].
    exists l3, l2, l1. cbn [entry_frame x86_model p4_index p3_index p2_index p1_index].
    rewrite (lower_frame _ _ E4), (lower_frame _ _ E3), (lower_frame _ _ E2), (lower_frame _ _ E1).
    done.
  - intros r l4 page error r'. cbn [unmap x86_model]. unfold Model.unmap_page.
    repeat (destruct (Model.lower _); [|by intros [= _ <-]]). done.
  - intros r l4 page l3 l2 l1 f. cbn [unmap x86_model entry_frame p4_index p3_index p2_index p1_index].
    unfold Model.unmap_page. intros ->%frame_lower ->%frame_lower ->%frame_lower ->%frame_lower.
    by eexists.
Qed.
End model_paging.

(** ** A descriptor table *)

(** The table by the number of words in use. *)
Definition segments_model : Segments := {|
  Gdt := Z;
  Gdt_new := 1;
  add_entry used d :=
    if used + descriptor_words d <=? 8
    then Some (8 * used + descriptor_ring d, used + descriptor_words d) else None
|}.

#[export] Instance segments_model_spec : Segments_Spec segments_model.
Proof.
  refine {| words_used := (fun g : @Gdt segments_model => g) |}; [done|].
  intros g d H. cbn [add_entry segments_model]. rewrite (proj2 (Z.leb_le _ _) H). by eexists.
Defined.

(** ** Example machines *)

(** The page tables of an example program: one writable page at 0x6000,
    mapped at [USER_CODE_BASE]. *)
Definition table_word (a : Z) : Z :=
  if a =? 0x2008 then 0x3007
  else if a =? 0x3000 then 0x4007
  else if a =? 0x4010 then 0x5007
  else if a =? 0x5000 then 0x6007
  else 0.

(** The page holds the path of an embedded file. *)
Definition example_path : list Z := [47; 109; 111; 116; 100].

Definition example_ram : Ram := fun x =>
  if x <? 0x6000 then (table_word (x - x mod 8) / 256 ^ (x mod 8)) mod 256
  else match vget example_path (x - 0x6000) with Some b => b | None => 0 end.

Definition example_space : AddressSpace := mkAddressSpace 0x2000.

(** A machine after boot: 4 MiB of usable memory, the kernel's level-4 table
    at 0x1000. *)
Definition boot_memory : Mem :=
  mkMem (Some (mkMemoryState 0x18000000000 0x1000
    (allocator_init [mkRegion 0 0x100000 false; mkRegion 0x100000 0x500000 true])))
    example_ram 0x1000.

Definition boot_machine : Machine :=
  mkMachine Scheduler_new boot_memory (fun _ => 0)
    (mkCpu true 0x8 0x10 0 0x23 0x1b) serial_init.

(** *** The example page tables keep data and tables apart *)

Section example_tables.
#[local] Existing Instance x86_model.
#[local] Existing Instance x86_model_spec.

Lemma table_word_cases a :
  (a = 0x2008 /\ table_word a = 0x3007) \/ (a = 0x3000 /\ table_word a = 0x4007) \/
  (a = 0x4010 /\ table_word a = 0x5007) \/ (a = 0x5000 /\ table_word a = 0x6007) \/
  (a <> 0x2008 /\ a <> 0x3000 /\ a <> 0x4010 /\ a <> 0x5000 /\ table_word a = 0).
Proof.
  unfold table_word. destruct (Z.eqb_spec a 0x2008); [auto|]. destruct (Z.eqb_spec a 0x3000); [auto|].
  destruct (Z.eqb_spec a 0x4010); [auto|]. destruct (Z.eqb_spec a 0x5000); auto 10.
Qed.

Lemma example_entry f i :
  f mod 4096 = 0 -> f < 0x6000 -> 0 <= i < 512 -> read_entry example_ram f i = table_word (f + 8 * i).
Proof.
  intros Hf Hlt Hi. unfold read_entry.
  assert (read_bytes example_ram (f + 8 * i) 8 = to_le_bytes 8 (table_word (f + 8 * i))) as ->.
  { assert (f + 8 * i + 8 <= 0x6000) as Htop by (pose proof (Z.div_mod f 4096); lia).
    assert (forall j, 0 <= j < 8 ->
      example_ram (f + 8 * i + j) = (table_word (f + 8 * i) / 256 ^ j) mod 256) as Hb.
    { intros j Hj. unfold example_ram. rewrite (proj2 (Z.ltb_lt _ _)) by lia.
      assert ((f + 8 * i + j) mod 8 = j) as ->.
      { rewrite <- (Z.mod_unique (f + 8 * i + j) 8 (f / 4096 * 512 + i) j); [done|lia|].
        pose proof (Z.div_mod f 4096). lia. }
      by replace (f + 8 * i + j - j) with (f + 8 * i) by lia. }
    cbn [read_bytes seq map to_le_bytes]. unfold read_bytes. cbn [seq map Z.of_nat Pos.of_succ_nat Pos.succ].
    rewrite !Hb by lia.
    destruct (table_word_cases (f + 8 * i)) as [[_ ->]|[[_ ->]|[[_ ->]|[[_ ->]|(_ & _ & _ & _ & ->)]]]]; reflexivity. }
  rewrite from_to_le_bytes.
  destruct (table_word_cases (f + 8 * i)) as [[_ ->]|[[_ ->]|[[_ ->]|[[_ ->]|(_ & _ & _ & _ & ->)]]]]; reflexivity.
Qed.

Lemma index_bound s p : 0 <= Model.index s p < 512.
Proof. by apply Z.mod_pos_bound. Qed.

(** Every walk goes through the four tables and ends in the page at 0x6000. *)
Lemma example_walk a :
  (forall f, f ∈ tables example_ram 0x2000 a -> f ∈ [0x2000; 0x3000; 0x4000; 0x5000]) /\
  (forall t, 0 <= a -> translate example_ram 0x2000 a = Some t ->
     phys t = 0x6000 + a mod 4096 /\ flags t = 7).
Proof.
  unfold tables, translate. cbn [Page_containing_address p4_index p3_index p2_index p1_index x86_model].
  set (p := Model.page_start a).
  pose proof (index_bound 39 p) as I4. pose proof (index_bound 30 p) as I3.
  pose proof (index_bound 21 p) as I2. pose proof (index_bound 12 p) as I1.
  rewrite (example_entry 0x2000) by done.
  destruct (table_word_cases (0x2000 + 8 * Model.index 39 p)) as [[_ ->]|[[? _]|[[? _]|[[? _]|(_ & _ & _ & _ & ->)]]]];
    [|lia|lia|lia|split; [intros f; rewrite !elem_of_cons; tauto|done]].
  change (entry_allows_user (entry_flags 0x3007)) with true. change (entry_frame 0x3007) with (Some 0x3000).
  cbn [negb]. rewrite (example_entry 0x3000) by done.
  destruct (table_word_cases (0x3000 + 8 * Model.index 30 p)) as [[? _]|[[_ ->]|[[? _]|[[? _]|(_ & _ & _ & _ & ->)]]]];
    [lia| |lia|lia|split; [intros f; rewrite !elem_of_cons; tauto|done]].
  change (entry_allows_user (entry_flags 0x4007)) with true. change (entry_frame 0x4007) with (Some 0x4000).
  cbn [negb]. rewrite (example_entry 0x4000) by done.
  destruct (table_word_cases (0x4000 + 8 * Model.index 21 p)) as [[? _]|[[? _]|[[_ ->]|[[? _]|(_ & _ & _ & _ & ->)]]]];
    [lia|lia| |lia|split; [intros f; rewrite !elem_of_cons; tauto|done]].
  change (entry_allows_user (entry_flags 0x5007)) with true. change (entry_frame 0x5007) with (Some 0x5000).
  cbn [negb]. rewrite (example_entry 0x5000) by done. split; [intros f; rewrite !elem_of_cons; tauto|].
  destruct (table_word_cases (0x5000 + 8 * Model.index 12 p)) as [[? _]|[[? _]|[[? _]|[[_ ->]|(_ & _ & _ & _ & ->)]]]];
    [lia|lia|lia| |done].
  intros t Ha. change (entry_allows_user (entry_flags 0x6007)) with true.
  change (entry_frame 0x6007) with (Some 0x6000). change (entry_flags 0x6007) with 7. cbn [negb].
  intros [= <-]. cbn [phys flags]. by rewrite land_fff.
Qed.

Lemma example_separated : separated example_ram (level_4_frame example_space).
Proof.
  intros a b t f Ha Ht Hf. apply example_walk in Hf. apply example_walk in Ht as [-> _]; [|done].
  pose proof (Z.mod_pos_bound a 4096). rewrite !elem_of_cons, elem_of_nil in Hf. lia.
Qed.

Lemma example_byte i access :
  0 <= i < 4096 -> user_byte example_ram example_space access (USER_CODE_BASE + i) = Ok (0x6000 + i).
Proof.
  intros Hi. apply user_byte_same_page; [lia| |by destruct access].
  change (USER_CODE_BASE mod 4096) with 0. lia.
Qed.
End example_tables.
