(* ===== verification/IntegrationTests.v ===== *)
(** * The integration tests of the repository (src/tests/*.rs)

    The test kernels, with their assertions, run on the model: the images of
    build.rs and the programs of user.rs are loaded into memory, their machine
    code is fetched through the page tables and executed, and every system
    call, fault and timer interrupt goes through the entry stubs into the
    kernel. A test panics when an assertion fails, so that [passes] is the
    result the test expects of the machine. The orchestrator of a test is a
    kernel task; its calls are made directly, and [yield_now] runs the other
    tasks until the scheduler comes back to it. The test functions of a test
    kernel run one after the other on the same machine, as its orchestrator
    calls them. A timer interrupt comes after a given number of instructions;
    [yield_now] returns how many there were, which is what the tick counter
    of interrupts.rs advances by. *)

From S2P Require Import Build.
From S2P Require Import Prelude File Fd X86 Memory AddressSpace UserMemory Process Context.
From S2P Require Import Serial Task Syscall User Elf Scheduler SchedulerCalls Interrupts Boot Stubs UserCode X86Model.

#[export] Instance fault_kind_eq_dec : EqDecision UserFaultKind.
Proof. solve_decision. Defined.
#[export] Instance process_exit_eq_dec : EqDecision ProcessExit.
Proof. solve_decision. Defined.
#[export] Instance process_state_eq_dec : EqDecision ProcessState.
Proof. solve_decision. Defined.

(** ** The test harness *)

Section harness.
Context {X : X86_64}.

Definition assert_true (b : bool) : ST Machine unit :=
  if b then st_ret tt else st_panic "assertion failed".

Definition assert_eq {A} `{EqDecision A} (a b : A) : ST Machine unit := assert_true (bool_decide (a = b)).

Definition expect {E A} (op : ST Machine (result E A)) : ST Machine A :=
  let* r := op in
  match r with Ok a => st_ret a | Err _ => st_panic "expect" end.

(** An image that build.rs generates. *)
Definition include_bytes (e : exec (list Z)) : list Z := match e with Done l => l | Panic _ => [] end.

(** Kernel stacks of 64 KiB, one per task. *)
Definition fresh_stack : ST Machine Z :=
  let* m := st_get in st_ret (0x444440000000 + 0x10000 * vlen (tasks (sched m))).

Definition spawn_elf (image : exec (list Z)) (arg0 : Z) : ST Machine UserProcessHandle :=
  let* stack := fresh_stack in expect (spawn_user_elf_process_with_arg stack (include_bytes image) arg0).

Definition spawn_child (parent : ProcessId) (image : exec (list Z)) : ST Machine UserProcessHandle :=
  let* stack := fresh_stack in expect (spawn_child_user_elf_process stack parent (include_bytes image)).

Definition spawn_program (p : UserProgram) (arg0 : Z) (test_page_value : option Z) : ST Machine TaskId :=
  let* init := expect (with_mem (create_user_task_with_test_page (program_bytes p) arg0 test_page_value)) in
  let* stack := fresh_stack in
  expect (spawn_user stack init).

(** The orchestrator is task 0. *)
Definition ORCHESTRATOR : TaskId := 0.

Definition orchestrator_runs (m : Machine) : bool := bool_decide (current (sched m) = Some ORCHESTRATOR).

(** Execute until the orchestrator runs again, with a timer interrupt after
    every [slice] instructions; the result adds them to [ticks]. *)
Fixpoint others_run (fuel slice rest : nat) (ticks : Z) (c : CpuState) : ST Machine Z :=
  match fuel with
  | O => st_panic out_of_fuel
  | S fuel =>
      let* m := st_get in
      if orchestrator_runs m then st_ret ticks
      else
        let* r := match rest with O => timer_tick c | S _ => user_round c end in
        let ticks := match rest with O => ticks + 1 | S _ => ticks end in
        match r with
        | Some c' => others_run fuel slice (match rest with O => slice | S n => n end) ticks c'
        | None => st_panic "no task left"
        end
  end.

(** [int YIELD_VECTOR] in the orchestrator, whose stack is the first one. *)
Definition orchestrator_cpu (m : Machine) : CpuState :=
  mkCpuState (fun r => if decide (r = RSP) then 0x444440008000 else 0) 0 (cs_reg (cpu m)) 0x202 (ss_reg (cpu m)).

(** A timer interrupt comes after [first] instructions and then after every
    [slice]. *)
Definition yield_until (fuel first slice : nat) : ST Machine Z :=
  let* m := st_get in
  let c := orchestrator_cpu m in
  let* r := interrupt_entry (cs_reg (cpu m)) 0 (fun rsp => on_kernel (yield_interrupt_rust rsp)) c c in
  match r with
  | Some c' => others_run fuel slice first 0 c'
  | None => st_panic "no task left"
  end.

Definition yield_now (fuel slice : nat) : ST Machine Z := yield_until fuel slice slice.

(** The boot code of a test kernel spawns the orchestrator and runs it. *)
Definition test_kernel (orchestrator : ST Machine unit) : ST Machine unit :=
  let* _ := expect (spawn 0x444440000000 0 0) in
  let* _ := run 0x5000 in
  orchestrator.

Definition assert_exit (task : TaskId) (code : option Z) : ST Machine unit :=
  let* m := st_get in assert_eq (task_exit_code (sched m) task) code.

Definition assert_user_u64 (task : TaskId) (address : Z) (value : option Z) : ST Machine unit :=
  let* v := task_read_user_u64 task address in assert_eq v value.

Definition assert_page_fault (task : TaskId) (address : Z) : ST Machine unit :=
  let* m := st_get in
  match task_fault_info (sched m) task with
  | Some info => assert_true (bool_decide (fault_kind info = PageFault) &&
                              bool_decide (fault_address info = Some address))
  | None => st_panic "task did not fault"
  end.

Definition assert_output (bytes : list Z) : ST Machine unit :=
  let* m := st_get in assert_true (output_contains (serial m) bytes).

Definition clear_output : ST Machine unit := st_modify (fun m => set_serial (clear_output_buffer (serial m)) m).

Definition assert_no_fault (task : TaskId) : ST Machine unit :=
  let* m := st_get in
  assert_true (match task_fault_info (sched m) task with None => true | Some _ => false end).

Definition assert_zombie (pid : ProcessId) (e : ProcessExit) : ST Machine unit :=
  let* m := st_get in assert_eq (process_state (sched m) pid) (Some (Zombie e)).

(** The word that [busy] counts up. *)
Definition assert_counted (busy : TaskId) (address : Z) : ST Machine unit :=
  let* v := task_read_user_u64 busy address in
  assert_true (match v with Some n => 0 <? n | None => false end).

(** ** elf_loader.rs *)

Definition elf_rejects_bad_magic : ST Machine unit :=
  let* r := with_mem (load_user_elf (bytes_of "not an elf") 0) in
  assert_true (match r with Err BadMagic => true | _ => false end).

Definition elf_rejects_bad_machine : ST Machine unit :=
  let* r := with_mem (load_user_elf (include_bytes bad_machine) 0) in
  assert_true (match r with Err UnsupportedMachine => true | _ => false end).

Definition elf_exit_code : ST Machine unit :=
  let* h := spawn_elf exit_42 0 in
  yield_now 20 100 ;;;
  assert_exit (handle_task_id h) (Some 42).

Definition elf_private_address_spaces : ST Machine unit :=
  let* a := spawn_elf write_private_data 0x11 in
  let* b := spawn_elf write_private_data 0x22 in
  yield_now 100 100 ;;;
  assert_exit (handle_task_id a) (Some 0x11) ;;;
  assert_exit (handle_task_id b) (Some 0x22) ;;;
  assert_user_u64 (handle_task_id a) User.USER_DATA_BASE (Some 0x11) ;;;
  assert_user_u64 (handle_task_id b) User.USER_DATA_BASE (Some 0x22).

Definition elf_readonly_segment_fault : ST Machine unit :=
  let* h := spawn_elf write_readonly_segment 0 in
  yield_now 20 100 ;;;
  assert_page_fault (handle_task_id h) User.USER_DATA_BASE ;;;
  assert_exit (handle_task_id h) None.

Definition timer_preemption_across_elf_processes : ST Machine unit :=
  let* busy := spawn_elf busy_counter 0 in
  let* ex := spawn_elf exit_42 0 in
  enable_preemption ;;;
  let* ticks := yield_now 100 16 in
  disable_preemption ;;;
  assert_true (0 <? ticks) ;;;
  assert_counted (handle_task_id busy) User.USER_DATA_BASE ;;;
  assert_exit (handle_task_id ex) (Some 42).

Definition elf_loader_orchestrator : ST Machine unit :=
  elf_rejects_bad_magic ;;;
  elf_rejects_bad_machine ;;;
  elf_exit_code ;;;
  elf_private_address_spaces ;;;
  elf_readonly_segment_fault ;;;
  timer_preemption_across_elf_processes.

(** ** user_syscalls.rs *)

Definition write_syscall_suite_test : ST Machine unit :=
  clear_output ;;;
  let* h := spawn_elf write_syscall_suite 0 in
  let* r := task_copy_to_user (handle_task_id h) User.USER_DATA_BASE [120] in
  assert_true (match r with Err NotWritable => true | _ => false end) ;;;
  yield_now 200 1000 ;;;
  assert_exit (handle_task_id h) (Some 0) ;;;
  assert_no_fault (handle_task_id h) ;;;
  assert_output suite_hello ;;;
  assert_output suite_stderr ;;;
  assert_output suite_cross.

Definition copy_to_user_accepts_writable_page : ST Machine unit :=
  let* h := spawn_elf read_data_exit 0 in
  let* _ := expect (task_copy_to_user (handle_task_id h) User.USER_DATA_BASE (to_le_bytes 8 0x55)) in
  yield_now 20 100 ;;;
  assert_exit (handle_task_id h) (Some 0x55).

Definition direct_readonly_write_still_faults : ST Machine unit :=
  let* h := spawn_elf write_readonly_segment 0 in
  yield_now 20 100 ;;;
  assert_page_fault (handle_task_id h) User.USER_DATA_BASE ;;;
  assert_exit (handle_task_id h) None.

Definition preemption_still_works_with_write_syscalls : ST Machine unit :=
  clear_output ;;;
  let* busy := spawn_elf busy_counter 0 in
  let* writer := spawn_elf write_hello 0 in
  enable_preemption ;;;
  let* ticks := yield_until 100 8 100 in
  disable_preemption ;;;
  assert_true (0 <? ticks) ;;;
  assert_counted (handle_task_id busy) User.USER_DATA_BASE ;;;
  assert_exit (handle_task_id writer) (Some 0) ;;;
  assert_output write_hello_message.

Definition user_syscalls_orchestrator : ST Machine unit :=
  write_syscall_suite_test ;;;
  copy_to_user_accepts_writable_page ;;;
  direct_readonly_write_still_faults ;;;
  preemption_still_works_with_write_syscalls.

(** ** file_descriptors.rs *)

Definition file_syscall_suite : ST Machine unit :=
  clear_output ;;;
  let* m := st_get in
  assert_eq (open_file_count (sched m)) 0 ;;;
  let* h := spawn_elf fd_syscall_suite 0 in
  let* m := st_get in
  assert_true (process_fd_is_open (sched m) (handle_pid h) 0 && process_fd_is_open (sched m) (handle_pid h) 1 &&
               process_fd_is_open (sched m) (handle_pid h) 2) ;;;
  assert_eq (process_open_fd_count (sched m) (handle_pid h)) 3 ;;;
  yield_now 2000 1000 ;;;
  let* m := st_get in
  assert_exit (handle_task_id h) (Some 0) ;;;
  assert_eq (process_open_fd_count (sched m) (handle_pid h)) 0 ;;;
  assert_eq (open_file_count (sched m)) 0 ;;;
  assert_output HELLO_FILE ;;;
  assert_output MOTD_FILE.

Definition per_process_fd_tables_are_private : ST Machine unit :=
  let* a := spawn_elf fd_first_open_exit 0 in
  let* b := spawn_elf fd_first_open_exit 0 in
  let* m := st_get in
  assert_eq (process_open_fd_count (sched m) (handle_pid a)) 3 ;;;
  assert_eq (process_open_fd_count (sched m) (handle_pid b)) 3 ;;;
  yield_now 100 1000 ;;;
  assert_exit (handle_task_id a) (Some 0) ;;;
  assert_exit (handle_task_id b) (Some 0) ;;;
  let* m := st_get in
  assert_eq (process_open_fd_count (sched m) (handle_pid a)) 0 ;;;
  assert_eq (process_open_fd_count (sched m) (handle_pid b)) 0 ;;;
  assert_eq (open_file_count (sched m)) 0.

Definition process_exit_closes_descriptors : ST Machine unit :=
  let* h := spawn_elf fd_open_leak_exit 0 in
  yield_now 100 1000 ;;;
  assert_exit (handle_task_id h) (Some 0) ;;;
  let* m := st_get in
  assert_eq (process_open_fd_count (sched m) (handle_pid h)) 0 ;;;
  assert_eq (open_file_count (sched m)) 0.

Definition preemption_still_works_across_file_syscalls : ST Machine unit :=
  clear_output ;;;
  let* busy := spawn_elf busy_counter 0 in
  let* file_task := spawn_elf fd_syscall_suite 0 in
  enable_preemption ;;;
  let* ticks := yield_until 2000 8 1000 in
  disable_preemption ;;;
  assert_true (0 <? ticks) ;;;
  assert_counted (handle_task_id busy) User.USER_DATA_BASE ;;;
  assert_exit (handle_task_id file_task) (Some 0) ;;;
  assert_output HELLO_FILE.

Definition file_descriptors_orchestrator : ST Machine unit :=
  file_syscall_suite ;;;
  per_process_fd_tables_are_private ;;;
  process_exit_closes_descriptors ;;;
  preemption_still_works_across_file_syscalls.

(** ** user_heap.rs *)

Definition shrink_unmaps_whole_pages : ST Machine unit :=
  let* h := spawn_elf brk_shrink_fault 0 in
  let* m := st_get in
  match process_heap_start (sched m) (handle_pid h) with
  | None => st_panic "missing heap start"
  | Some start =>
      yield_now 200 1000 ;;;
      assert_zombie (handle_pid h) Faulted ;;;
      assert_page_fault (handle_task_id h) (start + PAGE_SIZE) ;;;
      let* m := st_get in
      assert_eq (process_program_break (sched m) (handle_pid h)) (Some (start + PAGE_SIZE)) ;;;
      let* below := user_page_is_mapped (handle_pid h) start in
      let* above := user_page_is_mapped (handle_pid h) (start + PAGE_SIZE) in
      assert_true (below && negb above)
  end.

Definition same_virtual_heap_address_is_private_per_process : ST Machine unit :=
  let* a := spawn_elf brk_private_writer 0xaa in
  let* b := spawn_elf brk_private_writer 0xbb in
  let* m := st_get in
  match process_heap_start (sched m) (handle_pid a), process_heap_start (sched m) (handle_pid b) with
  | Some start_a, Some start_b =>
      assert_eq start_a start_b ;;;
      yield_now 200 1000 ;;;
      assert_exit (handle_task_id a) (Some 0) ;;;
      assert_exit (handle_task_id b) (Some 0) ;;;
      assert_user_u64 (handle_task_id a) start_a (Some 0xaa) ;;;
      assert_user_u64 (handle_task_id b) start_b (Some 0xbb)
  | _, _ => st_panic "missing heap start"
  end.

Definition heap_metadata_and_invalid_requests : ST Machine unit :=
  let* h := spawn_elf brk_query_invalid_suite 0 in
  let pid := handle_pid h in
  let* m := st_get in
  match process_heap_start (sched m) pid with
  | None => st_panic "missing heap start"
  | Some start =>
      assert_eq (process_program_break (sched m) pid) (Some start) ;;;
      assert_eq (process_heap_mapped_end (sched m) pid) (Some start) ;;;
      assert_eq (process_heap_limit (sched m) pid) (Some User.USER_HEAP_LIMIT) ;;;
      assert_true ((Z.land start (PAGE_SIZE - 1) =? 0) && (start <? User.USER_HEAP_LIMIT)) ;;;
      let* mapped := user_page_is_mapped pid start in
      assert_true (negb mapped) ;;;
      yield_now 200 1000 ;;;
      let* m := st_get in
      assert_exit (handle_task_id h) (Some 0) ;;;
      assert_eq (process_program_break (sched m) pid) (Some start) ;;;
      assert_eq (process_heap_mapped_end (sched m) pid) (Some start)
  end.

Definition growth_zeroing_and_write : ST Machine unit :=
  clear_output ;;;
  let* h := spawn_elf brk_growth_suite 0 in
  let pid := handle_pid h in
  let* m := st_get in
  match process_heap_start (sched m) pid with
  | None => st_panic "missing heap start"
  | Some start =>
      yield_now 500 1000 ;;;
      let* m := st_get in
      assert_exit (handle_task_id h) (Some 0) ;;;
      assert_output HEAP_MESSAGE ;;;
      assert_eq (process_program_break (sched m) pid) (Some (start + 3 * PAGE_SIZE + 1)) ;;;
      assert_eq (process_heap_mapped_end (sched m) pid) (Some (start + 4 * PAGE_SIZE)) ;;;
      let* first := user_page_is_mapped pid start in
      let* last := user_page_is_mapped pid (start + 3 * PAGE_SIZE) in
      assert_true (first && last)
  end.

Definition shrink_preserves_lower_heap : ST Machine unit :=
  let* h := spawn_elf brk_shrink_continue 0 in
  let pid := handle_pid h in
  let* m := st_get in
  match process_heap_start (sched m) pid with
  | None => st_panic "missing heap start"
  | Some start =>
      yield_now 200 1000 ;;;
      let* m := st_get in
      assert_exit (handle_task_id h) (Some 0) ;;;
      assert_eq (process_program_break (sched m) pid) (Some (start + 1)) ;;;
      assert_eq (process_heap_mapped_end (sched m) pid) (Some (start + PAGE_SIZE)) ;;;
      let* v := task_read_user_u64 (handle_task_id h) start in
      assert_eq (Z.land (match v with Some n => n | None => 0 end) 0xff) 0x77 ;;;
      let* above := user_page_is_mapped pid (start + PAGE_SIZE) in
      assert_true (negb above)
  end.

Definition preemption_still_works_across_brk : ST Machine unit :=
  let* h := spawn_elf brk_busy_counter 0 in
  let* m := st_get in
  match process_heap_start (sched m) (handle_pid h) with
  | None => st_panic "missing heap start"
  | Some start =>
      enable_preemption ;;;
      let* ticks := yield_now 100 60 in
      disable_preemption ;;;
      assert_true (0 <? ticks) ;;;
      assert_counted (handle_task_id h) start
  end.

Definition user_heap_orchestrator : ST Machine unit :=
  heap_metadata_and_invalid_requests ;;;
  growth_zeroing_and_write ;;;
  shrink_unmaps_whole_pages ;;;
  shrink_preserves_lower_heap ;;;
  same_virtual_heap_address_is_private_per_process ;;;
  preemption_still_works_across_brk.

(** ** userspace.rs *)

Definition userspace_markers : ST Machine unit :=
  let* t := spawn_program YieldThenExit User.USER_DATA_BASE None in
  yield_now 20 100 ;;;
  assert_user_u64 t User.USER_DATA_BASE (Some 1) ;;;
  assert_user_u64 t (User.USER_DATA_BASE + 8) (Some 0) ;;;
  yield_now 20 100 ;;;
  assert_user_u64 t (User.USER_DATA_BASE + 8) (Some 1) ;;;
  assert_exit t (Some 0).

Definition userspace_privileged_hlt : ST Machine unit :=
  let* t := spawn_program PrivilegedHlt User.USER_DATA_BASE None in
  yield_now 20 100 ;;;
  assert_user_u64 t (User.USER_DATA_BASE + 16) (Some 1) ;;;
  assert_user_u64 t (User.USER_DATA_BASE + 24) (Some 0) ;;;
  let* m := st_get in
  assert_true (match task_fault_info (sched m) t with
               | Some info => bool_decide (fault_kind info = GeneralProtection)
               | None => false
               end).

Definition userspace_preemption : ST Machine unit :=
  let* busy := spawn_program BusyCounter User.USER_DATA_BASE None in
  enable_preemption ;;;
  let* ticks := yield_now 100 16 in
  disable_preemption ;;;
  assert_true (0 <? ticks) ;;;
  assert_counted busy (User.USER_DATA_BASE + 4 * 8).

Definition userspace_orchestrator : ST Machine unit :=
  userspace_markers ;;;
  userspace_privileged_hlt ;;;
  userspace_preemption.

(** ** address_spaces.rs *)

Definition same_virtual_address_is_private : ST Machine unit :=
  let* a := spawn_program WriteReadAa User.USER_DATA_BASE None in
  let* b := spawn_program WriteReadBb User.USER_DATA_BASE None in
  yield_now 20 100 ;;;
  assert_user_u64 a User.USER_DATA_BASE (Some 0xaa) ;;;
  assert_user_u64 b User.USER_DATA_BASE (Some 0xbb) ;;;
  yield_now 20 100 ;;;
  assert_exit a (Some 0xaa) ;;;
  assert_exit b (Some 0xbb).

Definition unmapped_user_page_is_task_local : ST Machine unit :=
  let* a := spawn_program ReadArgExit User.USER_TEST_PAGE_BASE None in
  let* b := spawn_program ReadArgExit User.USER_TEST_PAGE_BASE (Some 0xcc) in
  yield_now 20 100 ;;;
  assert_page_fault a User.USER_TEST_PAGE_BASE ;;;
  assert_exit b (Some 0xcc).

(** The address of the orchestrator, in the kernel's part of the table. *)
Definition kernel_mapping_is_supervisor_only (kernel_address : Z) : ST Machine unit :=
  let* t := spawn_program ReadArgExit kernel_address None in
  yield_now 20 100 ;;;
  assert_page_fault t kernel_address.

Definition preemption_crosses_cr3_roots : ST Machine unit :=
  let* busy := spawn_program BusyCounter User.USER_DATA_BASE None in
  let* second := spawn_program WriteReadAa User.USER_DATA_BASE None in
  enable_preemption ;;;
  let* ticks := yield_now 100 16 in
  disable_preemption ;;;
  assert_true (0 <? ticks) ;;;
  assert_counted busy (User.USER_DATA_BASE + 4 * 8) ;;;
  assert_user_u64 second User.USER_DATA_BASE (Some 0xaa).

Definition address_spaces_orchestrator (kernel_address : Z) : ST Machine unit :=
  same_virtual_address_is_private ;;;
  unmapped_user_page_is_task_local ;;;
  kernel_mapping_is_supervisor_only kernel_address ;;;
  preemption_crosses_cr3_roots.

(** ** process_lifecycle.rs *)

(** The yields of the orchestrator until the parent has exited. *)
Fixpoint until_exited (n : nat) (parent : TaskId) : ST Machine unit :=
  match n with
  | O => st_ret tt
  | S n =>
      let* m := st_get in
      match task_exit_code (sched m) parent with
      | Some _ => st_ret tt
      | None => yield_now 300 1000 ;;; until_exited n parent
      end
  end.

Definition getpid_waitpid_zombies : ST Machine unit :=
  let* parent := spawn_elf process_wait_parent_suite 0 in
  let* delayed := spawn_child (handle_pid parent) delayed_exit_child in
  let* immediate := spawn_child (handle_pid parent) immediate_exit_child in
  let* faulting := spawn_child (handle_pid parent) faulting_child in
  let* non_child := spawn_elf immediate_exit_child 0 in
  let* m := st_get in
  assert_eq (task_process_id (sched m) (handle_task_id parent)) (Some (handle_pid parent)) ;;;
  assert_eq (process_parent (sched m) (handle_pid parent)) (Some None) ;;;
  assert_eq (process_parent (sched m) (handle_pid delayed)) (Some (Some (handle_pid parent))) ;;;
  assert_eq (process_parent (sched m) (handle_pid immediate)) (Some (Some (handle_pid parent))) ;;;
  assert_eq (process_parent (sched m) (handle_pid faulting)) (Some (Some (handle_pid parent))) ;;;
  assert_eq (process_parent (sched m) (handle_pid non_child)) (Some None) ;;;
  let table := concat (map (fun h => to_le_bytes 8 (handle_pid h)) [delayed; immediate; faulting; non_child]) in
  let* _ := expect (task_copy_to_user (handle_task_id parent) User.USER_DATA_BASE table) in
  yield_now 300 1000 ;;;
  assert_zombie (handle_pid immediate) (Exited 7) ;;;
  assert_zombie (handle_pid faulting) Faulted ;;;
  let* m := st_get in
  assert_true (process_exists (sched m) (handle_pid immediate)) ;;;
  assert_exit (handle_task_id parent) None ;;;
  yield_now 300 1000 ;;;
  assert_exit (handle_task_id parent) None ;;;
  let* m := st_get in
  assert_eq (process_state (sched m) (handle_pid delayed)) (Some PRunning) ;;;
  until_exited 8 (handle_task_id parent) ;;;
  assert_exit (handle_task_id parent) (Some 0) ;;;
  assert_zombie (handle_pid parent) (Exited 0) ;;;
  let* m := st_get in
  assert_true (negb (process_exists (sched m) (handle_pid delayed)) &&
               negb (process_exists (sched m) (handle_pid immediate)) &&
               negb (process_exists (sched m) (handle_pid faulting))) ;;;
  assert_zombie (handle_pid non_child) (Exited 7).
End harness.

(** ** The machine the tests run on *)

(** [frames] usable frames above 1 MiB, an empty kernel page table. *)
Definition test_machine (frames : Z) : Machine :=
  set_mem (mkMem (Some (mkMemoryState 0x18000000000 0x1000
    (allocator_init [mkRegion 0 0x100000 false; mkRegion 0x100000 (0x100000 + 4096 * frames) true])))
    (fun _ => 0) 0x1000) boot_machine.

Definition passes (orchestrator : ST Machine unit) (m : Machine) : bool :=
  match test_kernel orchestrator m with Done _ => true | Panic _ => false end.

(** The level-4 table leads to a page of kernel code at 2 MiB; the entries
    carry the user bit, as those of the bootloader may. *)
Definition kernel_table_word (a : Z) : Z :=
  if a =? 0x1000 then 0x2007
  else if a =? 0x2000 then 0x3007
  else if a =? 0x3008 then 0x4007
  else if a =? 0x4000 then 0x5007
  else 0.

Definition kernel_mapped_machine (frames : Z) : Machine :=
  set_mem (set_ram (fun x => (kernel_table_word (x - x mod 8) / 256 ^ (x mod 8)) mod 256)
    (mem (test_machine frames))) (test_machine frames).

(** ** The tests pass *)

#[local] Existing Instance x86_model.

Lemma elf_loader_passes : passes elf_loader_orchestrator (test_machine 200) = true.
Proof. vm_cast_no_check (eq_refl true). Qed.

Lemma user_syscalls_passes : passes user_syscalls_orchestrator (test_machine 200) = true.
Proof. vm_cast_no_check (eq_refl true). Qed.

Lemma file_descriptors_passes : passes file_descriptors_orchestrator (test_machine 200) = true.
Proof. vm_cast_no_check (eq_refl true). Qed.

Lemma user_heap_passes : passes user_heap_orchestrator (test_machine 200) = true.
Proof. vm_cast_no_check (eq_refl true). Qed.

Lemma userspace_passes : passes userspace_orchestrator (test_machine 200) = true.
Proof. vm_cast_no_check (eq_refl true). Qed.

(** The kernel's own walk reaches the page, the program's faults. *)
Lemma address_spaces_passes :
  is_Some (translate (ram (mem (kernel_mapped_machine 200))) 0x1000 0x200000) /\
  passes (address_spaces_orchestrator 0x200000) (kernel_mapped_machine 200) = true.
Proof. split; [by eexists; vm_compute|vm_cast_no_check (eq_refl true)]. Qed.

Lemma process_lifecycle_passes : passes getpid_waitpid_zombies (test_machine 200) = true.
Proof. vm_cast_no_check (eq_refl true). Qed.

(** The test kernels, each with its machine. *)
Definition integration_tests : list (ST Machine unit * Machine) :=
  [(elf_loader_orchestrator, test_machine 200); (user_syscalls_orchestrator, test_machine 200);
   (file_descriptors_orchestrator, test_machine 200); (user_heap_orchestrator, test_machine 200);
   (userspace_orchestrator, test_machine 200);
   (address_spaces_orchestrator 0x200000, kernel_mapped_machine 200); (getpid_waitpid_zombies, test_machine 200)].

Lemma integration_tests_run : Forall (fun t => passes t.1 t.2 = true) integration_tests.
Proof.
  unfold integration_tests.
  apply Forall_cons_2; cbn [fst snd]; [exact elf_loader_passes|].
  apply Forall_cons_2; cbn [fst snd]; [exact user_syscalls_passes|].
  apply Forall_cons_2; cbn [fst snd]; [exact file_descriptors_passes|].
  apply Forall_cons_2; cbn [fst snd]; [exact user_heap_passes|].
  apply Forall_cons_2; cbn [fst snd]; [exact userspace_passes|].
  apply Forall_cons_2; cbn [fst snd]; [exact (proj2 address_spaces_passes)|].
  apply Forall_cons_2; cbn [fst snd]; [exact process_lifecycle_passes|]. apply Forall_nil_2.
Qed.
