(* ===== verification/Properties.v ===== *)
(** * The properties of the kernel

    The theorems the development is for, each a consequence of the lemmas of
    the component files. Examples.v applies every theorem that has hypotheses
    at a concrete machine, file or image. *)

From S2P Require Import Prelude File Fd X86 Memory AddressSpace UserMemory Process Context.
From S2P Require Import Serial Task Syscall User Elf Scheduler SchedulerCalls Interrupts RoundRobin.
From S2P Require Import Invariant Switching Exit Calls Spawn System Fairness ProcessTree Handlers Stubs.

Import ProcessTableFacts.

Section kernel.
Context {X : X86_64} {XS : X86_64_Spec X}.

(** ** The whole system *)

(** C1: In every state the kernel can reach from boot by interrupts, system
    calls, faults, spawns, and arbitrary execution of user code, every event
    that the hardware or the boot code can raise is handled to completion, no
    panic and no exhausted loop, and the state afterwards again satisfies the
    machine invariant [ok]. There is one exception, and it is exact: a system
    call with a pointer argument that [VirtAddr::new] rejects always panics. *)
Theorem events_handled m e :
  reachable m -> enabled m e ->
  (accepted m e -> exists m', handle e m = Done (tt, m') /\ reachable m' /\ ok m') /\
  (~ accepted m e -> exists msg, handle e m = Panic msg).
Proof.
  intros Hm He. split; [|apply handle_rejects]. intros Ha.
  pose proof (handle_run e m (reachable_ok m Hm) He Ha) as H.
  apply wp_done in H as ([] & m' & E & K). exists m'. split; [done|]. split; [by eapply reach_step|done].
Qed.

(** C7: [dispatch] on the frame of a running task returns, with the result
    and the effects that [syscall_outcome] states for each of the nine call
    numbers and for unknown numbers. *)
Theorem dispatch_correct m frame_rsp :
  reachable m -> current (sched m) <> None -> frame_words_ok m frame_rsp ->
  pointer_accepted m frame_rsp ->
  exists r m', dispatch frame_rsp m = Done (r, m') /\ syscall_outcome m frame_rsp r m'.
Proof.
  intros Hm Hc Hw Hp. pose proof (dispatch_run frame_rsp m (reachable_ok m Hm) Hc Hw Hp) as H.
  apply wp_done in H as (r & m' & E & _ & O). eauto.
Qed.

(** C8: Scheduling is fair. Take any sequence of events from a state in which
    preemption is on and a task runs: timer interrupts and, between them,
    yields, system calls that block or exit, faults, returns of kernel
    tasks, spawns and execution of user code, with preemption never switched
    off. If it has at least as many ticks as there are tasks at its end,
    then a task that was ready has run before more ticks than that have
    passed. *)
Theorem round_robin_fair m l m' j cur :
  reachable m -> preemption_enabled (sched m) = true -> current (sched m) = Some cur ->
  ready_at (tasks (sched m)) j -> trace m l m' -> SetPreemption false ∉ l ->
  vlen (tasks (sched m')) <= ticks l ->
  exists l1 l2 m1, l = l1 ++ l2 /\ trace m l1 m1 /\ trace m1 l2 m' /\
    ticks l1 <= vlen (tasks (sched m')) /\ current (sched m1) = Some j.
Proof.
  intros Hm Hp Hc Hj T Hl Hn. pose proof (reachable_ok m Hm) as K.
  apply (fair m l m' (vlen (tasks (sched m')))); try done.
  split; [done|]. split; [done|]. split; [done|]. exists cur. split; [done|].
  pose proof (trace_len m l m' T K). pose proof (current_range m cur K Hc).
  pose proof (distance_in_pos (vlen (tasks (sched m'))) cur j). lia.
Qed.

(** C9: Tasks cannot deadlock. In a reachable state in which no task is
    ready or running, every task has ended: no task is left blocked in
    [waitpid]. *)
Theorem no_deadlock m i t :
  reachable m -> current (sched m) = None -> (forall j, ~ ready_at (tasks (sched m)) j) ->
  vget (tasks (sched m)) i = Some t -> is_terminal t = true.
Proof.
  intros Hm Hc Hr. pose proof (ok_core _ (reachable_ok m Hm)) as C. rewrite Hc in C.
  by eapply idle_all_terminal.
Qed.

(** A system call gives control back to the boot code only when all
    tasks have finished. *)
Theorem back_to_main_when_finished m frame_rsp m' :
  reachable m -> current (sched m) <> None -> frame_words_ok m frame_rsp ->
  pointer_accepted m frame_rsp -> dispatch frame_rsp m = Done (ToMain, m') ->
  all_tasks_finished (tasks (sched m')) = true.
Proof.
  intros Hm Hc Hw Hp E. pose proof (dispatch_run frame_rsp m (reachable_ok m Hm) Hc Hw Hp) as H.
  unfold wp in H. rewrite E in H. destruct H as [K' O]. by eapply outcome_to_main.
Qed.

(** C10: Whenever a user task runs, CR3 holds the page table of
    its own process and TSS.rsp0 the top of its own kernel stack; that process
    is live and the task is its main task. *)
Theorem running_task_loaded m i t pid :
  reachable m -> current (sched m) = Some i -> vget (tasks (sched m)) i = Some t ->
  process_id t = Some pid ->
  exists p, live (proc_table (sched m)) pid p /\ p_main_task p = i /\
    cr3 (mem m) = level_4_frame (p_address_space p) /\ tss_rsp0 (cpu m) = t_kernel_stack_top t.
Proof.
  intros Hm Hc Ht Hp. pose proof (reachable_ok m Hm) as K.
  destruct (ok_process m i t pid K Hc Ht Hp) as (p & Hl & Hmain).
  destruct (ok_loaded _ K i t Hc Ht) as [Hrsp Hsp]. exists p. split; [done|]. split; [done|].
  split; [|done]. unfold space_of, ProcessTable.address_space in Hsp. rewrite Hp in Hsp.
  rewrite (proj1 Hl) in Hsp. by injection Hsp.
Qed.

(** C12: Open files are reference-counted exactly. In every reachable state
    the count of an open file is the number of descriptors of all processes
    that name it, and every descriptor names a file that is open. *)
Theorem open_files_counted m id pid p fd e :
  reachable m ->
  OpenFileTable.rc (open_files (sched m)) id = total_refs (proc_table (sched m)) id /\
  (ProcessTable.get (proc_table (sched m)) pid = Some p -> FdTable.get (p_fd_table p) fd = Some e ->
   is_Some (OpenFileTable.get (open_files (sched m)) (open_file e))).
Proof.
  intros Hm. destruct (co_files _ _ _ _ _ (ok_core _ (reachable_ok m Hm))) as [[_ Htab] Href].
  split; [apply Href|]. intros Hp He. apply OpenFileTable.rc_pos; [done|]. rewrite Href.
  pose proof (FdTable.get_refs _ _ _ He). pose proof (total_refs_ge _ _ _ (open_file e) Hp). lia.
Qed.

(** C14: Limits. In every reachable state there are at most [MAX_TASKS] tasks; a
    process has a pid from 1 to [MAX_PROCESSES], a descriptor table of exactly
    [MAX_FDS_PER_PROCESS] slots whose entries index the open-file table, and a
    heap whose break and mapped pages lie between its start and its limit. *)
Theorem limits_respected m :
  reachable m ->
  vlen (tasks (sched m)) <= MAX_TASKS /\
  forall pid p, ProcessTable.get (proc_table (sched m)) pid = Some p ->
    1 <= pid <= MAX_PROCESSES /\ vlen (p_fd_table p) = MAX_FDS_PER_PROCESS /\
    (forall fd e, FdTable.get (p_fd_table p) fd = Some e -> 0 <= open_file e < MAX_OPEN_FILES) /\
    heap_start (p_heap p) <= heap_brk (p_heap p) <= heap_mapped_end (p_heap p) /\
    heap_mapped_end (p_heap p) <= heap_limit (p_heap p) < 2 ^ 46.
Proof.
  intros K%reachable_ok. pose proof (ok_core _ K) as C. split; [apply (ln_len _ _ _ _ (co_linked _ _ _ _ _ C))|].
  intros pid p Hp. destruct (ok_fds m pid p K Hp) as [Hsz [_ [Hl Hlm] Hb [Hm Hmm]]].
  destruct (wf_pid _ (co_table _ _ _ _ _ C) pid p Hp) as [_ Hpid]. pose proof (wf_next _ (co_table _ _ _ _ _ C)).
  split; [lia|]. split; [done|]. split.
  - intros fd e He. destruct (ok_open_file m pid p fd e K Hp He) as (f & Hf).
    apply OpenFileTable.file_get_vget, vget_range in Hf.
    destruct (co_files _ _ _ _ _ C) as [[[E|E] _] _]; [rewrite E in Hf; unfold vlen in Hf; cbn in Hf; lia|].
    by rewrite E in Hf.
  - split; [lia|]. split; [|done]. exact (page_end_below _ _ _ (proj2 Hb) Hm Hmm Hlm).
Qed.

(** C13: Process tree. In every reachable state a process's child list names
    exactly the processes of the table whose parent it is, each once and
    each with a larger pid, and an orphaned process has no parent. As long as
    children are spawned under running processes only (the code does not
    check it, and this is the one thing that depends on it), only running
    processes have children, and every parent is in the table. *)
Theorem process_tree m i p :
  reachable m -> ProcessTable.get (proc_table (sched m)) i = Some p ->
  NoDup (p_children p) /\
  (forall c, c ∈ p_children p <->
     exists q, ProcessTable.get (proc_table (sched m)) c = Some q /\ p_parent q = Some i) /\
  (forall c, c ∈ p_children p -> i < c) /\
  (p_orphaned p = true -> p_parent p = None) /\
  (orderly m ->
     (p_state p <> PRunning -> p_children p = []) /\
     forall i', p_parent p = Some i' -> exists r, ProcessTable.get (proc_table (sched m)) i' = Some r /\
       p_state r = PRunning /\ i ∈ p_children r).
Proof.
  intros Hm Hi. pose proof (co_table _ _ _ _ _ (ok_core _ (reachable_ok m Hm))) as W.
  split; [by apply (wf_children_nodup _ W i)|]. split.
  { intros c. split.
    - intros Hc. destruct (wf_children _ W i p c Hi Hc) as (_ & q & Hq & Hp & _). eauto.
    - intros (q & Hq & Hp). by apply (wf_parent _ W c q i). }
  split; [intros c Hc; apply (wf_children _ W i p c Hi Hc)|]. split; [by apply (wf_orphan _ W i)|].
  intros Ho%orderly_running_parents. split.
  - intros Hn. destruct (p_children p) as [|c cs] eqn:E; [done|]. destruct Hn.
    destruct (wf_children _ W i p c Hi) as (_ & q & Hq & Hp & _); [rewrite E; by apply list_elem_of_here|].
    destruct (Ho c q i Hq Hp) as (r & Hr & Hst). congruence.
  - intros i' Hp. destruct (Ho i p i' Hi Hp) as (r & Hr & Hst). exists r. split; [done|]. split; [done|].
    by apply (wf_parent _ W i p i').
Qed.

(** C15: Registers survive a context switch. An interrupt that yields stores
    the complete register state of the interrupted task in its saved frame,
    touches no other kernel memory, and continues with exactly the registers
    of the saved frame of the task that runs next. *)
Theorem context_switch_preserves_registers gate_cs gate_rip left c m cur :
  reachable m -> current (sched m) = Some cur ->
  TRAP_FRAME_SIZE <= interrupt_stack (tss_rsp0 (cpu m)) c < 2 ^ 64 ->
  (forall i u, vget (tasks (sched m)) i = Some u -> t_state u = Ready -> frame_in_range (saved_rsp u)) ->
  exists r m', interrupt_entry gate_cs gate_rip on_yield_interrupt left c m = Done (r, m') /\
    interrupted m cur c r m'.
Proof.
  intros Hm Hc Hb Hf.
  pose proof (yield_entry_run gate_cs gate_rip left c m cur (reachable_ok m Hm) Hc Hb Hf) as H.
  apply wp_done in H as (r & m' & E & _ & O). eauto.
Qed.
(** ** Processes *)

(** C16: [waitpid]. It fails with EINVAL, ECHILD or EFAULT exactly in the
    cases of [wait_error]; it reaps an exited child at once; with WNOHANG it
    returns 0 for a running child; otherwise the caller blocks on that child
    and the next ready task runs. *)
Theorem waitpid_correct m frame_rsp child ptr options cur t pid p :
  reachable m -> current (sched m) = Some cur -> vget (tasks (sched m)) cur = Some t ->
  process_id t = Some pid -> live (proc_table (sched m)) pid p ->
  (forall a, ptr = Some a -> canonical a) ->
  exists r m', waitpid_from_interrupt frame_rsp child ptr options m = Done (r, m') /\
    waitpid_outcome m frame_rsp cur t pid p child ptr options r m'.
Proof.
  intros Hm Hc Ht Hp [Hl _] Ha.
  pose proof (waitpid_run frame_rsp child ptr options m (reachable_ok m Hm) Ha) as H.
  apply wp_done in H as (r & m' & E & _ & [(cur' & t' & pid' & p' & H1 & H2 & H3 & [H4 _] & O)|[Hn _]]).
  - exists r, m'. split; [done|].
    assert (cur' = cur) as -> by congruence. assert (t' = t) as -> by congruence.
    assert (pid' = pid) as -> by congruence. assert (p' = p) as -> by congruence. done.
  - by rewrite (Hn cur t Hc Ht) in Hp.
Qed.

(** C17: Exit. The exiting process becomes a zombie with its code as a signed
    32-bit number and without descriptors and children; each open file loses
    exactly the references the process held, and is gone when none is left;
    its children lose their parent, and those that are zombies are removed;
    all other processes stay as they are. The parent blocked on it, if any,
    is woken with the status and the process is removed; an orphan is removed
    too. Then the next ready task runs, or the boot code if there is none. *)
Theorem exit_correct m frame_rsp code cur t pid :
  reachable m -> current (sched m) = Some cur -> vget (tasks (sched m)) cur = Some t ->
  process_id t = Some pid ->
  exists r m' m1, exit_current_from_interrupt frame_rsp code m = Done (r, m') /\
    process_ended (with_task m cur (ended t frame_rsp Finished (Some code) None)) pid
      (Exited (to_signed 32 code)) m1 /\
    keeps m1 m' /\ switched m1 cur r m'.
Proof.
  intros Hm Hc Ht Hp. unfold exit_current_from_interrupt.
  pose proof (finish_current_run frame_rsp Finished (Some code) None m cur t
    (reachable_ok m Hm) Hc Ht (or_introl eq_refl)) as H.
  apply wp_done in H as (r & m' & E & _ & m1 & H1 & H2 & H3). rewrite Hp in H3. exists r, m', m1.
  by split_and!.
Qed.

(** C18: A page fault in user mode ends the faulting process as [Faulted] and
    is otherwise an exit; the kernel keeps running. *)
Theorem user_fault_contained k cr2 frame_rsp :
  reachable (machine k) -> current (sched (machine k)) <> None ->
  from_user (kmem (machine k)) frame_rsp = true ->
  exists r k', page_fault_rust cr2 frame_rsp k = Done (r, k') /\ ok (machine k') /\
    fault_outcome (machine k) frame_rsp
      (mkFaultInfo PageFault (Some cr2) (kmem (machine k) (frame_rsp + OFF_ERROR_CODE))) (machine k').
Proof.
  intros Hm Hc Hu. pose proof (page_fault_run cr2 frame_rsp k (reachable_ok _ Hm) Hc Hu) as H.
  apply wp_done in H as (r & k' & E & K & O). eauto 10.
Qed.

(** C19: Every timer interrupt is counted once and acknowledged once, after
    the scheduling decision, and resumes some task: it preempts the running
    task exactly when preemption is on and another task is ready. *)
Theorem timer_handled k frame_rsp :
  reachable (machine k) ->
  exists rsp k', timer_interrupt_rust frame_rsp k = Done (Resume rsp, k') /\
    tick_outcome (machine k) frame_rsp (Resume rsp) (machine k') /\
    timer_ticks k' = (timer_ticks k + 1) mod 2 ^ 64 /\ eoi k' = eoi k ++ [as_u8 Timer].
Proof.
  intros Hm. pose proof (timer_handler_run frame_rsp k (reachable_ok _ Hm)) as H.
  apply wp_done in H as (r & k' & E & _ & O & H1 & H2).
  assert (exists rsp, r = Resume rsp) as [rsp ->]; [|eauto 10].
  unfold tick_outcome, yielded in O. destruct (current _) as [cur|]; [|destruct O; eauto].
  destruct (preemption_enabled _); [|destruct O; eauto]. destruct O as (t & _ & O).
  destruct (next_ready_after _ _); [destruct O as (u & _ & _ & ? & _)|destruct O]; eauto.
Qed.

(** C20: Spawning an ELF image returns for every byte string and changes
    memory only through the frame allocator. On success there is one new root
    process with the standard descriptors and one new task; on failure tasks,
    processes and open files are as before. *)
Theorem spawn_elf_correct m stack elf_bytes arg0 :
  reachable m -> Forall is_byte elf_bytes ->
  exists r m' x, spawn_user_elf_process_with_arg stack elf_bytes arg0 m = Done (r, m') /\
    same_ctl (mem m) x /\
    match r with
    | Err (ElfLoad e) => m' = set_mem x m
    | _ => exists init, heap_ok (init_heap init) /\ spawned (set_mem x m) None init r m'
    end.
Proof.
  intros Hm Hb. pose proof (spawn_elf_run stack None elf_bytes arg0 m (reachable_ok m Hm) Hb) as H.
  apply wp_done in H as (r & m' & E & _ & x & H1 & H2). eauto 10.
Qed.

(** ** Files *)

(** C26: [write]. On the standard output and error descriptors all bytes of
    the buffer are sent to the serial port, in order, if the whole buffer is
    readable, and none otherwise; other descriptors are EBADF. *)
Theorem write_correct m fd user_buf len :
  reachable m -> canonical user_buf -> 0 <= len ->
  exists r m', sys_write_current fd user_buf len m = Done (r, m') /\
    write_outcome m fd user_buf len r m'.
Proof.
  intros Hm Hb Hl. pose proof (sys_write_run fd user_buf len m (reachable_ok m Hm) Hb Hl) as H.
  apply wp_done in H as (r & m' & E & _ & O). eauto.
Qed.

(** C27: [read] on every branch: end of file, null input, an embedded file,
    a buffer that cannot be written, a descriptor that cannot be read. *)
Theorem read_correct m fd user_buf len :
  reachable m -> canonical user_buf ->
  exists r m', sys_read_current fd user_buf len m = Done (r, m') /\
    read_outcome m fd user_buf len r m'.
Proof.
  intros Hm Hb. pose proof (sys_read_run fd user_buf len m (reachable_ok m Hm) Hb) as H.
  apply wp_done in H as (r & m' & E & _ & O). eauto.
Qed.

(** What [read] delivers. If it returns a positive count, the process
    that then looks at its buffer finds that many bytes of the embedded file
    from the old offset on, and the offset has advanced by the count. *)
Theorem read_delivers m fd user_buf len pid p e f id file count m' :
  reachable m -> canonical user_buf ->
  fd_file m fd = Ok (pid, p, e, f) -> of_kind f = EmbeddedFileKind id -> embedded_file id = Some file ->
  separated (ram (mem m)) (level_4_frame (p_address_space p)) ->
  unaliased (ram (mem m)) (p_address_space p) user_buf len -> 0 <= of_offset f ->
  sys_read_current fd user_buf len m = Done (Ok count, m') -> 0 < count ->
  count = Z.min len (vlen (bytes file) - of_offset f) /\
  read_user (ram (mem m')) (p_address_space p) user_buf (Z.to_nat count) =
    Ok (slice (bytes file) (of_offset f) count) /\
  OpenFileTable.get (open_files (sched m')) (open_file e) = Some (set_offset f (of_offset f + count)).
Proof.
  intros Hm Hb Hfd Hk Hfile Hs Hu Ho E Hpos. pose proof (reachable_ok m Hm) as K.
  pose proof (sys_read_run fd user_buf len m K Hb) as H. unfold wp in H. rewrite E in H.
  destruct H as [_ H]. by eapply (read_delivered m fd user_buf len pid p e f id file).
Qed.

(** C30: [open] checks flags, length and path in that order, and otherwise
    returns the lowest free descriptor, naming a fresh open file at offset 0;
    a full table is ENFILE or EMFILE and leaves every slot as it was. *)
Theorem open_correct m path_ptr path_len flags :
  reachable m -> canonical path_ptr -> 0 <= path_len ->
  exists r m', sys_open_current path_ptr path_len flags m = Done (r, m') /\
    open_outcome m path_ptr path_len flags r m'.
Proof.
  intros Hm Hb Hl. pose proof (sys_open_run path_ptr path_len flags m (reachable_ok m Hm) Hb Hl) as H.
  apply wp_done in H as (r & m' & E & _ & O). eauto.
Qed.

(** [close] frees the descriptor and drops one reference of its file;
    a descriptor that is not open is EBADF and nothing changes. *)
Theorem close_correct m fd :
  reachable m ->
  exists r m', sys_close_current fd m = Done (r, m') /\ close_outcome m fd r m'.
Proof.
  intros Hm. pose proof (sys_close_run fd m (reachable_ok m Hm)) as H.
  apply wp_done in H as (r & m' & E & _ & O). eauto.
Qed.

(** C31: [brk]. Zero queries the break; requests outside the heap range are
    refused; otherwise the pages between the old and the new end are mapped or
    unmapped and the break moves exactly if that succeeded. The heap of every
    process stays well formed. *)
Theorem brk_correct m requested :
  reachable m -> is_u64 requested ->
  exists r m', sys_brk_current requested m = Done (r, m') /\ brk_outcome m requested r m' /\
    forall pid p, ProcessTable.get (proc_table (sched m')) pid = Some p -> heap_ok (p_heap p).
Proof.
  intros Hm Hu. pose proof (sys_brk_run requested m (reachable_ok m Hm) Hu) as H.
  apply wp_done in H as (r & m' & E & K & O). exists r, m'. split; [done|]. split; [done|].
  apply (co_heap _ _ _ _ _ (ok_core _ K)).
Qed.
End kernel.

Section components.
Context {X : X86_64} {XS : X86_64_Spec X}.

(** ** User memory *)

(** Bytes copied to an accessible range of user memory are read back by
    [copy_from_user], in pages or across pages. *)
Theorem user_copy_round_trip as_ dst src m :
  mem_ok m -> separated (ram m) (level_4_frame as_) -> canonical dst ->
  unaliased (ram m) as_ dst (vlen src) ->
  (forall i, 0 <= i < vlen src -> accessible (ram m) as_ Write (dst + i)) ->
  exists m', copy_to_user as_ dst src m = Done (Ok tt, m') /\
    copy_from_user as_ (vlen src) dst m' = Done (Ok src, m').
Proof. apply copy_round_trip. Qed.

(** C33: [copy_from_user], which copies page by page, is the byte-at-a-time
    copy: the same bytes, or the error of the first byte that fails. *)
Theorem copy_from_user_bytewise as_ len src m :
  mem_ok m -> 0 <= len -> canonical src ->
  copy_from_user as_ len src m = Done (read_user (ram m) as_ src (Z.to_nat len), m).
Proof. apply copy_from_user_run. Qed.

(** [copy_to_user] writes a prefix of the source, only to bytes that are
    user-accessible and writable; everything else in memory keeps its value.
    It fails exactly at the first byte that is not writable. *)
Theorem copy_to_user_contained as_ dst src m :
  mem_ok m -> separated (ram m) (level_4_frame as_) -> canonical dst ->
  exists r m', copy_to_user as_ dst src m = Done (r, m') /\ copied_to m as_ dst src r m'.
Proof.
  intros Hm Hs Hc. pose proof (copy_to_user_run as_ dst src m Hm Hs Hc) as H.
  apply wp_done in H as (r & m' & E & O). eauto.
Qed.

(** C34: [validate_user_range], which checks one address per page, accepts a
    range exactly when every byte of it is accessible, and changes nothing. *)
Theorem validate_user_range_exact as_ start len access m :
  mem_ok m -> is_u64 start -> 0 <= len ->
  exists r, validate_user_range as_ start len access m = Done (r, m) /\
    (r = Ok tt <-> forall i, 0 <= i < len -> accessible (ram m) as_ access (start + i)).
Proof. apply validate_user_range_run. Qed.

(** Translation is contiguous within a page, keeps the page offset, and
    has the same flags for all bytes of the page. *)
Theorem translate_contiguous r l4 a k t :
  0 <= a -> 0 <= k -> a mod 4096 + k < 4096 -> translate r l4 a = Some t ->
  translate r l4 (a + k) = Some (mkTranslation (phys t + k) (flags t)) /\
  phys t mod 4096 = a mod 4096.
Proof.
  intros Ha Hk Hp Ht. rewrite translate_same_page, Ht by done. split; [done|].
  by apply (translate_offset r l4).
Qed.

(** The frame allocator returns only frames of usable regions, and no
    frame twice, however often it is called. *)
Theorem frames_distinct n a i j f :
  map_ok (memory_map a) -> allocate_many n a !! i = Some (Some f) ->
  frame_usable (memory_map a) f /\ (allocate_many n a !! j = Some (Some f) -> i = j).
Proof. apply allocate_many_distinct. Qed.

(** ** ELF images *)

(** C24: An image that [parse_elf] accepts has at least one segment; its
    segments are page-aligned, inside the user load range, backed by the file
    and pairwise disjoint; its entry point lies in an executable segment. *)
Theorem elf_accepted image elf :
  Forall is_byte image -> parse_elf image = Ok elf -> elf_ok (vlen image) elf.
Proof. apply parse_elf_ok. Qed.

(** [load_user_elf] returns on every byte string, without touching CR3 or
    the kernel's page table; a loaded program has a well-formed heap. *)
Theorem elf_load_total image arg0 m :
  mem_ok m -> Forall is_byte image ->
  exists r m', load_user_elf image arg0 m = Done (r, m') /\ same_ctl m m' /\
    forall init, r = Ok init -> heap_ok (init_heap init).
Proof.
  intros Hm Hb. pose proof (load_user_elf_safe image arg0 Hb m Hm) as H.
  apply wp_done in H as (r & m' & E & C & O). exists r, m'. split; [done|]. split; [done|].
  by intros init ->.
Qed.
End components.

(** ** Scheduling and contexts *)

(** [next_ready_after] is round robin: it returns the ready task at the
    smallest cyclic distance after [start], and [None] exactly if no task is
    ready. *)
Theorem next_ready_round_robin ts start :
  match next_ready_after ts start with
  | Some i => ready_at ts i /\
      forall j, 0 <= j < vlen ts -> distance ts start j < distance ts start i -> ~ ready_at ts j
  | None => forall j, ~ ready_at ts j
  end.
Proof.
  destruct (next_ready_after ts start) eqn:E; [by apply next_ready_Some|].
  intros j (t & Ht & Hs). pose proof (vget_range _ _ _ Ht) as Hr.
  apply (next_ready_None _ _ _ E Hr). by exists t.
Qed.

(** [switch_from_main_to_task] and a later [restore_main_context] are a
    call and return: whatever runs in between, if the boot stack and the saved
    context are intact, the boot code continues after its call with its stack
    pointer and callee-saved registers. *)
Theorem main_context_round_trip c (k : KMem) c2 (k2 : KMem) :
  let sp := regs c RSP in
  let ctx := regs c RDI in
  let k1 := snd (exec_all main_save (c, k)) in
  48 <= sp -> sp + 8 < 2 ^ 64 -> (ctx < sp - 48 \/ sp + 8 <= ctx) ->
  (forall x, sp - 48 <= x < sp + 8 \/ x = ctx -> k2 x = k1 x) ->
  regs c2 RDI = ctx ->
  let c3 := fst (exec_all restore_main_context (c2, k2)) in
  regs c3 RSP = sp + 8 /\ c_rip c3 = k sp /\ forall r, r ∈ main_regs -> regs c3 r = regs c r.
Proof. exact (main_round_trip c k c2 k2). Qed.

(** C25: The first run of a user task. Restoring the frame that
    [new_user_task] builds enters the program at its entry point, with the
    user selectors, the given stack and argument, and all other registers
    zero. *)
Theorem first_user_entry k stack_ptr stack_len entry top code data rflags arg0 left :
  let '(ctx, k') := new_user_task k stack_ptr stack_len entry top code data rflags arg0 in
  frame_in_range (rsp ctx) ->
  let c := fst (exec_all entry_resume (reg_set left RAX (rsp ctx), k')) in
  c_rip c = entry /\ c_cs c = code /\ c_ss c = data /\ c_rflags c = Z.lor rflags 2 /\
  regs c RSP = align_16 top - 8 /\ regs c RDI = arg0 /\
  forall r, r <> RSP -> r <> RDI -> regs c r = 0.
Proof.
  unfold new_user_task. cbn [rsp]. intros [H0 Hb]. set (k' := write_frame _ _ _). cbn zeta.
  destruct (resume_run left k' _ H0 Hb) as [R _]. set (c := fst _) in *. clearbody c.
  subst k'. rewrite read_write_frame in R. destruct R as [R1 R2 R3 R4 R5].
  rewrite (R1 RSP), (R1 RDI), R2, R3, R4, R5.
  repeat (split; [done|]). intros r Hr Hd. rewrite R1. by destruct r.
Qed.

(** C37: The interrupt stubs build exactly the structs the Rust handlers read.
    After the pushes of the processor and the stub, RDI points to a [TrapFrame]
    that holds the interrupted state field by field, or, for an exception, to a
    [TrapFrameWithErrorCode] with the error code and the interrupted code
    selector where the handlers look for them; the stack is aligned for the
    call, and kernel memory outside the frame is untouched. *)
Theorem stub_builds_frame tss gate_cs gate_rip err c k :
  let base := interrupt_stack tss c in
  TRAP_FRAME_SIZE + 8 <= base < 2 ^ 64 ->
  (let s := exec_all entry_save (cpu_interrupt tss gate_cs gate_rip (c, k)) in
   saved_state base c k (fst s) (snd s)) /\
  (let s := exec_all entry_save (cpu_exception tss gate_cs gate_rip err (c, k)) in
   let frame := base - TRAP_FRAME_SIZE - 8 in
   regs (fst s) RDI = frame /\ snd s (frame + OFF_ERROR_CODE) = err /\
   snd s (frame + OFF_ERR_CS) = c_cs c /\ forall x, base <= x \/ x < frame -> snd s x = k x).
Proof.
  intros base Hb. split; [|exact (exception_saves tss gate_cs gate_rip err c k Hb)].
  apply (entry_saves tss gate_cs gate_rip c k). fold base. lia.
Qed.

(** ** Tables *)

(** [allocate_lowest] takes the lowest free descriptor and nothing else;
    it fails exactly on a full table. *)
Theorem lowest_descriptor t file r t' :
  FdTable.sized t -> FdTable.allocate_lowest t file = (r, t') ->
  match r with
  | Ok fd => 0 <= fd < MAX_FDS_PER_PROCESS /\ FdTable.get t fd = None /\
             FdTable.get t' fd = Some (mkFdEntry file) /\
             (forall j, j <> fd -> FdTable.get t' j = FdTable.get t j) /\
             (forall j, 0 <= j < fd -> FdTable.get t j <> None)
  | Err e => e = TooManyProcessFiles /\ t' = t /\
             forall j, 0 <= j < MAX_FDS_PER_PROCESS -> FdTable.get t j <> None
  end.
Proof.
  intros Hs E. destruct (FdTable.allocate_lowest_spec t file r t' Hs E) as [_ H].
  destruct r; [|done]. by destruct H as (? & ? & ? & ? & ? & _).
Qed.

(** A new descriptor table names three fresh open files: null input,
    standard output, standard error. When the open-file table fills up on the
    way, the files already allocated are released again. *)
Theorem stdio_all_or_nothing files r files' :
  OpenFileTable.table_ok files -> FdTable.new_with_stdio files = (r, files') ->
  match r with
  | Ok t => exists stdin stdout stderr, t = FdTable.stdio stdin stdout stderr /\
      OpenFileTable.get files' stdin = Some (mkOpenFile NullInput ReadOnly 0 1) /\
      OpenFileTable.get files' stdout = Some (mkOpenFile ConsoleStdout WriteOnly 0 1) /\
      OpenFileTable.get files' stderr = Some (mkOpenFile ConsoleStderr WriteOnly 0 1)
  | Err e => e = TooManySystemFiles /\
      forall id, OpenFileTable.get files' id = OpenFileTable.get files id
  end.
Proof.
  intros Hok E. destruct (FdTable.new_with_stdio_spec files r files' Hok E) as [_ H].
  destruct r; [|done]. by destruct H as (_ & _ & H).
Qed.

(** [mark_exited] closes the descriptors of the process, orphans its
    running children, removes its zombie children, and keeps the table well
    formed. *)
Theorem exit_keeps_table t pid p exit files r t' files' :
  table_wf t -> fds_wf t -> OpenFileTable.table_ok files -> ProcessTable.get t pid = Some p ->
  ProcessTable.mark_exited t pid exit files = (r, t', files') ->
  r = Ok tt /\ exit_step t pid p exit t' /\ table_wf t' /\ fds_wf t' /\
  FdTable.released files (FdTable.refs (p_fd_table p)) files'.
Proof.
  intros Hwf Hf Hok Hp E. pose proof (mark_exited_spec t pid p exit files Hwf Hf Hok Hp) as H.
  rewrite E in H. destruct H as (H1 & H2 & _ & H4 & _).
  destruct (exit_step_wf t pid p exit t' Hwf Hf Hp H2). done.
Qed.

(** [reap_child] removes exactly a zombie child of the caller and returns
    its exit status; it refuses a process that is not its child or still
    runs, and then changes nothing. *)
Theorem reap_child_exact t i c r t' :
  table_wf t -> fds_wf t -> ProcessTable.reap_child t i c = (r, t') ->
  match r with
  | Ok exit => ProcessTable.is_child t i c = true /\
      (exists z, ProcessTable.get t c = Some z /\ p_state z = Zombie exit) /\ remove_step t c t'
  | Err NotChild => ProcessTable.is_child t i c = false /\ t' = t
  | Err NotZombie => ProcessTable.is_child t i c = true /\
      ProcessTable.state t c = Some PRunning /\ t' = t
  | Err _ => False
  end.
Proof.
  intros Hwf Hf E. pose proof (reap_child_spec t i c Hwf Hf) as H. rewrite E in H.
  destruct r; [|done]. by destruct H as (? & ? & ? & _).
Qed.

(** System-call numbers decode uniquely, and error returns are distinct
    values in the top 4095 of a 64-bit register. *)
Theorem syscall_abi raw n e e' :
  (from_raw raw = Some n <-> raw = number_raw n) /\
  2 ^ 64 - 4096 < raw_return e < 2 ^ 64 /\ (raw_return e = raw_return e' -> e = e').
Proof. split; [apply from_raw_spec|]. split; [apply raw_return_range|apply raw_return_inj]. Qed.

(** The serial output buffer never exceeds its 4096 bytes: pushing keeps
    what was there and appends as much as still fits. *)
Theorem serial_buffer_bounded b bytes :
  buffer_ok b ->
  buffer_ok (push_bytes b bytes) /\
  contents (push_bytes b bytes) = take (Z.to_nat OUTPUT_BUFFER_SIZE) (contents b ++ bytes).
Proof. apply push_bytes_ok. Qed.

(** ** Where the code departs from its documentation *)



(** C40: A process that has exited is accepted as the parent of a new process.
    The new process is then the child of a zombie, against the rule that
    only running processes have children, and nothing will ever reap it. *)
Theorem zombie_parent_accepted aspace h :
  exists t parent pid t',
    table_wf t /\ fds_wf t /\ running_parents t /\
    ProcessTable.state t parent = Some (Zombie (Exited 0)) /\
    ProcessTable.create (Some parent) aspace h FdTable.empty 1 t = Done (Ok pid, t') /\
    ~ running_parents t'.
Proof.
  destruct zombie_root as (t & Hwf & Hf & Hrp & Hst & p & Hp & Hcc).
  pose proof (create_spec t (Some 1) aspace h FdTable.empty 1 Hwf) as H.
  apply wp_done in H as (r & t' & E & H). destruct r as [pid|e]; [|destruct H; congruence].
  exists t, 1, pid, t'. split; [done|]. split; [done|]. split; [done|]. split; [done|]. split; [done|].
  intros Hrp'. destruct H as (_ & -> & _ & _ & Hnew & Hold & _).
  destruct (Hrp' _ _ 1 Hnew eq_refl) as (q & Hq & Hrun).
  assert (1 <> next_pid t) as Hne by (destruct (wf_pid _ Hwf _ _ Hp); lia).
  rewrite Hold, Hp in Hq by done. injection Hq as <-. unfold adopt in Hrun.
  unfold ProcessTable.state in Hst. rewrite Hp in Hst. injection Hst as Hst.
  destruct (decide _); cbn in Hrun; congruence.
Qed.
