(* ===== verification/MemoryProperties.v ===== *)
(** * The properties of memory, programs and boot

    The theorems about what processes can reach, what programs find in
    their memory, how the images are written and read, and how the machine
    starts. Each is a consequence of the lemmas of the component files;
    MemoryExamples.v applies them to concrete machines. *)

From stdpp Require Import relations.
From S2P Require Import Prelude File Fd X86 Memory AddressSpace PageTables Spaces SpaceOps.
From S2P Require Import UserMemory Process Context Serial Vga Task Syscall User Elf Build Fixtures Loading.
From S2P Require Import Scheduler SchedulerCalls Interrupts Boot RoundRobin Invariant Switching Exit Calls.
From S2P Require Import Spawn System Isolation Confinement KernelHeap Handlers Stubs UserCode.
From S2P Require Import Execution Startup X86Model IntegrationTests.

Section confined.
Context {X : X86_64} {XS : X86_64_Spec X} {XP : X86_64_Paging X}.

(** ** Isolation *)

(** C4: Processes share no memory, in every state reached from boot. If an
    address of one process and an address of a process lead to the same byte
    of memory, then they are the same address of the same process. *)
Theorem process_memory_disjoint m q q' p p' a b t u :
  confined m -> ProcessTable.get (proc_table (sched m)) q = Some p ->
  ProcessTable.get (proc_table (sched m)) q' = Some p' ->
  translate (ram (mem m)) (root p) a = Some t -> translate (ram (mem m)) (root p') b = Some u ->
  0 <= a < 2 ^ 48 -> 0 <= b < 2 ^ 48 -> phys t = phys u -> q = q' /\ a = b.
Proof. intros Hm. by apply isolated_bytes, confined_isolated. Qed.

(** C5: Non-interference of events. In every confined state, an event that
    can occur is handled and leaves the memory of every process outside
    [affected] as it is: the same translations and the same bytes. Affected
    are only the process that runs, and for a system call or a fault also the
    parent that waits for the running process. A system call with a rejected
    pointer panics instead. Events are taken as [disciplined] says: what
    runs outside the kernel's code stores through the page tables in CR3,
    and user tasks come from the two loaders, not from a hand-made
    [UserTaskInit]. *)
Theorem event_affects_only m e :
  confined m -> enabled m e -> disciplined m e ->
  (accepted m e -> exists m', handle e m = Done (tt, m') /\ confined m' /\
     forall q p, ProcessTable.get (proc_table (sched m)) q = Some p -> ~ affected m e q ->
       same_space (root p) (mem m) (mem m')) /\
  (~ accepted m e -> exists msg, handle e m = Panic msg).
Proof.
  intros Hm He Hd. split; [|apply handle_rejects]. intros Ha.
  pose proof (handle_run e m (confined_ok m Hm) He Ha) as H.
  apply wp_done in H as ([] & m' & E & _). exists m'. split; [done|].
  exact (event_contained e m m' Hm He Hd E).
Qed.



(** C3: Preemption is transparent. A program that the timer interrupts finds,
    whenever it runs again, its registers, its instruction pointer and its
    flags as they were, its own page table in CR3 and every byte of its memory
    unchanged, whatever the other programs did in between, for any number of
    instructions, system calls, faults, exits and ticks. *)
Theorem preemption_transparent c m j q p c1 m1 c2 m2 :
  executed c m -> current (sched m) = Some j -> current_proc m = Some q ->
  ProcessTable.get (proc_table (sched m)) q = Some p ->
  timer_tick c m = Done (Some c1, m1) -> rtc (others_step j) (c1, m1) (c2, m2) -> current (sched m2) = Some j ->
  cpu_eq c2 c /\ cr3 (mem m2) = root p /\ same_space (root p) (mem m) (mem m2).
Proof.
  intros Ex%executed_executing Hj Hq Hp E St Hj2.
  destruct (preempted_run c m j q p c1 m1 c2 m2 Ex Hj Hq Hp E St Hj2) as (_ & H1 & H2 & H3).
  exact (conj H1 (conj H3 H2)).
Qed.

(** C11: Page tables are out of reach. No byte that a process can address is
    a byte of a page table, of its own or of another process, or of the
    kernel's level-4 table. *)
Theorem page_tables_unreachable m q p a t :
  confined m -> ProcessTable.get (proc_table (sched m)) q = Some p ->
  translate (ram (mem m)) (root p) a = Some t ->
  (forall q' p' b f, ProcessTable.get (proc_table (sched m)) q' = Some p' ->
     f ∈ tables (ram (mem m)) (root p') b -> ~ (f <= phys t < f + 4096)) /\
  forall s, memory_state (mem m) = Some s ->
    ~ (ms_kernel_level_4_frame s <= phys t < ms_kernel_level_4_frame s + 4096).
Proof.
  intros Hm%confined_isolated Hp Ht. split.
  - intros q' p' b f Hp' Hf. by eapply (isolated_tables m q q' p p' a b).
  - intros s Hs. by eapply (isolated_kernel_table m q p a).
Qed.

(** ** Programs *)

(** C21: A spawned ELF program finds its image. If the spawn succeeds, the new
    process sees, at every address of the lower half, exactly the bytes and
    access rights of its segments and a zeroed stack, and nothing else; its
    heap is empty. The memory of all other processes is unchanged. *)
Theorem elf_image_shown m stack elf_bytes elf arg0 :
  confined m -> Forall is_byte elf_bytes -> parse_elf elf_bytes = Ok elf ->
  exists r m', spawn_user_elf_process_with_arg stack elf_bytes arg0 m = Done (r, m') /\
    elf_spawned elf r m' /\
    forall q p, ProcessTable.get (proc_table (sched m)) q = Some p -> same_space (root p) (mem m) (mem m').
Proof.
  intros Hm Hb Hp.
  pose proof (spawn_elf_image stack elf_bytes elf arg0 m (confined_ok m Hm) (confined_isolated m Hm) Hb Hp) as H.
  apply wp_done in H as (r & m' & E & O & Q). exists r, m'. split; [done|]. split; [done|].
  intros q p Hq. apply (Q q p Hq). by intros [].
Qed.

(** C22: A built-in program finds its code. [create_user_task_with_test_page]
    returns a space that shows the machine code of the program read-only at
    [USER_CODE_BASE], the data page, the test page if asked for, and a zeroed
    stack; or it fails and leaves every process as it was. The machine code
    disassembles to the instructions of the program. *)
Theorem builtin_program_shown m program arg0 test_page_value :
  confined m ->
  exists r x, create_user_task_with_test_page (program_bytes program) arg0 test_page_value (mem m) = Done (r, x) /\
    load_outcome (roots (proc_table (sched m))) (builtin_image (program_bytes program) test_page_value)
      USER_CODE_BASE arg0 (mem m) r x /\
    disassemble 64 (program_bytes program) = Some (program_code program).
Proof.
  intros Hm%confined_isolated.
  assert (vlen (program_bytes program) <= 4096) as Hl by (by destruct program).
  pose proof (create_user_task_run (program_bytes program) arg0 test_page_value (mem m) _ Hl
    (is_space _ Hm) (is_table _ Hm)) as H.
  apply wp_done in H as (r & x & E & O). exists r, x. split; [done|]. split; [done|]. by destruct program.
Qed.

(** C28: What [read] delivers. If it returns a positive count, the process
    that then looks at its buffer finds that many bytes of the embedded file
    from the old offset on, and the offset has advanced by the count. *)
Theorem file_bytes_delivered m fd user_buf len pid p e f id file count m' :
  confined m -> canonical user_buf ->
  fd_file m fd = Ok (pid, p, e, f) -> of_kind f = EmbeddedFileKind id -> embedded_file id = Some file ->
  0 <= of_offset f -> sys_read_current fd user_buf len m = Done (Ok count, m') -> 0 < count ->
  count = Z.min len (vlen (bytes file) - of_offset f) /\
  read_user (ram (mem m')) (p_address_space p) user_buf (Z.to_nat count) =
    Ok (slice (bytes file) (of_offset f) count) /\
  OpenFileTable.get (open_files (sched m')) (open_file e) = Some (set_offset f (of_offset f + count)).
Proof.
  intros Hm Hb Hfd Hk Hfile Ho E Hpos. pose proof (confined_ok m Hm) as K.
  pose proof (confined_isolated m Hm) as Is. destruct (fd_file_Ok m fd pid p e f K Hfd) as (_ & [Hp _] & _).
  pose proof (sys_read_run fd user_buf len m K Hb) as H. apply (wp_result _ _ _ _ _ H) in E as [_ O].
  eapply (read_delivered m fd user_buf len pid p e f id file); try done.
  - by eapply isolated_separated.
  - by eapply isolated_unaliased.
Qed.

(** C29: What [waitpid] delivers. For an exited child and a pointer that
    [wait_error] accepts, the call returns the pid of the child, the caller
    reads the encoded exit status at its pointer, and the child is gone. *)
Theorem wait_status_delivered m frame_rsp child a options cur t pid p e :
  confined m -> current (sched m) = Some cur -> vget (tasks (sched m)) cur = Some t ->
  process_id t = Some pid -> ProcessTable.get (proc_table (sched m)) pid = Some p -> canonical a ->
  wait_error m pid p child (Some a) options = None ->
  ProcessTable.state (proc_table (sched m)) child = Some (Zombie e) ->
  exists m', waitpid_from_interrupt frame_rsp child (Some a) options m = Done (Resume frame_rsp, m') /\
    kmem m' (frame_rsp + OFF_RAX) = child /\
    read_user (ram (mem m')) (p_address_space p) a 8 = Ok (wait_status_bytes e) /\
    ProcessTable.get (proc_table (sched m')) child = None.
Proof.
  intros Hm Hc Ht Hpid Hp. eapply waitpid_status; try done; [by apply confined_ok|by apply confined_isolated].
Qed.

(** C32: What [brk] does to memory. The process keeps its address space; where
    the heap grew it finds zeroed writable pages, where it shrank it finds
    nothing, and at all other addresses what was there before. A refused
    request changes nothing. *)
Theorem brk_moves_heap m requested pid p :
  confined m -> is_u64 requested -> current_proc m = Some pid ->
  ProcessTable.get (proc_table (sched m)) pid = Some p ->
  exists r m' p', sys_brk_current requested m = Done (r, m') /\
    ProcessTable.get (proc_table (sched m')) pid = Some p' /\ root p' = root p /\
    forall a, 0 <= a < 2 ^ 48 -> view (ram (mem m')) (root p) a =
      if decide (heap_mapped_end (p_heap p) <= a < heap_mapped_end (p_heap p')) then Some (0, true)
      else if decide (heap_mapped_end (p_heap p') <= a < heap_mapped_end (p_heap p)) then None
      else view (ram (mem m)) (root p) a.
Proof.
  intros Hm Hu Hc Hp. pose proof (sys_brk_run requested m (confined_ok m Hm) Hu) as H.
  apply wp_done in H as (r & m' & E & _ & O). exists r, m'.
  destruct (brk_view m requested r m' pid p (confined_isolated m Hm) Hu Hc Hp O) as (p' & H1 & H2 & H3). eauto.
Qed.

(** ** Boot *)

(** C35: The boot code starts the machine that the other theorems are about.
    From a machine as the bootloader hands it over, mapping the kernel heap
    and [memory::init_global] lead to a state with [booted_memory], in which
    the 25 pages of the heap are mapped to fresh, different frames, through
    entries without the user bit; or the heap cannot be mapped and the boot
    stops. *)
Theorem boot_memory_ready offset map m :
  handed_over map m ->
  (exists error e,
     init_heap (cr3 (mem m)) (mkEarly (ram (mem m)) (allocator_init map) None) = Done (Err error, e)) \/
  exists m' e frames, boot_memory_init offset map m = Done (tt, m') /\ booted_memory m' /\
    ram (mem m') = early_ram e /\ ALLOCATOR e = Some (HEAP_START, HEAP_SIZE) /\
    heap_mapped_at (cr3 (mem m)) (ram (mem m')) (early_alloc e) frames.
Proof. apply boot_memory_init_run. Qed.
End confined.

(** C36: Segments and gates. [gdt::init] leaves five different selectors, the
    kernel's in ring 0 and loaded, the user's in ring 3, and a stack for
    double faults; and the only vector through which ring 3 can enter the
    kernel by [int] is the system call gate. *)
Theorem ring3_entries {X : X86_64} {XS : X86_64_Spec X} {G : Segments} {GS : Segments_Spec G} stack cs ss tr v :
  (exists t, gdt_init stack (tables_initial cs ss tr) = Done (tt, t) /\ tables_ready stack t) /\
  user_gate v = if v =? as_u8 SyscallIndex then Some syscall_interrupt_entry else None.
Proof.
  split; [|apply user_gate_spec]. pose proof (gdt_init_run stack cs ss tr) as H.
  apply wp_done in H as ([] & t & E & O). eauto.
Qed.

(** ** Images and code *)

(** C23: The ELF writer of build.rs and the kernel's loader agree: from any
    list of segments that can be loaded, the writer produces an image that
    [parse_elf] accepts, with the entry point and the segments it was given. *)
Theorem elf_round_trip entry segs :
  image_ok entry segs ->
  exists image, elf entry segs = Done image /\
    parse_elf image = Ok (mkParsedElf entry (map load_segment segs)).
Proof. apply elf_parse. Qed.

(** Decoding inverts encoding: the machine code of any sequence of
    encodable instructions disassembles to that sequence. *)
Theorem code_round_trip l fuel :
  Forall encodable l -> (length l <= fuel)%nat -> disassemble fuel (concat (map encode l)) = Some l.
Proof. apply disassemble_encode. Qed.

(** ** The screen *)

(** C38: The VGA writer is a terminal of 25 lines. After writing any text to a
    screen that held [r], every cell of the screen is determined: each row up
    to the current one shows the corresponding line among the last 25 of the
    text, wrapped at 80 columns; the rest of a row is blank for lines that
    scrolling brought in, and for the first 25 lines what their row held
    before; rows below are untouched. The cursor is at the end of the last
    line, text has the writer's colour, and no memory outside the screen is
    written. *)
Theorem screen_shows_text text r :
  let v := write_string text (mkVga WRITER r) in
  shown r v (term_string text (mkTerminal [] [])) /\ writer_ok (writer v) /\ same_outside r (vga_ram v).
Proof.
  cbn zeta. split; [apply write_string_shown, writer_shown|]. by apply (write_string_ok text (mkVga WRITER r)).
Qed.

(** ** The integration tests *)

(** The test kernels that run user programs pass on the model: the images
    that build.rs writes are executed instruction by instruction, and the
    assertions of elf_loader.rs, user_syscalls.rs, file_descriptors.rs,
    user_heap.rs, userspace.rs, address_spaces.rs and process_lifecycle.rs
    hold. This is a computation, a check of the model against the tests. *)
Theorem integration_tests_pass : Forall (fun t => passes t.1 t.2 = true) integration_tests.
Proof. exact integration_tests_run. Qed.
