(* ===== verification/Examples.v ===== *)
(** * The properties on concrete machines

    Every theorem of Properties.v that has hypotheses is applied here to a
    concrete input, over the implementation of the x86_64 interface in
    X86Model.v: a machine that boots, spawns two programs, runs them and
    takes their system calls. *)

From S2P Require Import Prelude File Fd X86 Memory AddressSpace UserMemory Process Context.
From S2P Require Import Serial Task Syscall User Elf Scheduler SchedulerCalls Interrupts RoundRobin.
From S2P Require Import Invariant Switching Exit Calls Spawn System Fairness ProcessTree Handlers Stubs.
From S2P Require Import X86Model Properties.

Import ProcessTableFacts.

#[local] Existing Instance x86_model.
#[local] Existing Instance x86_model_spec.

(** ** Machines *)

Definition after (e : event) (m : Machine) : Machine :=
  match handle e m with Done (_, m') => m' | Panic _ => m end.

Lemma reachable_after e m : reachable m -> enabled m e -> reachable (after e m).
Proof.
  intros Hm He. unfold after. destruct (handle e m) as [[[] m']|] eqn:E; [|done]. by eapply reach_step.
Qed.

Lemma handle_after e m : reachable m -> enabled m e -> accepted m e -> handle e m = Done (tt, after e m).
Proof.
  intros Hm He Ha. pose proof (handle_run e m (reachable_ok m Hm) He Ha) as H.
  apply wp_done in H as ([] & m' & E & _). unfold after. by rewrite E.
Qed.

Lemma reachable_boot : reachable boot_machine.
Proof. apply reach_boot. constructor; [done|]. by eexists. Qed.

Definition example_init : UserTaskInit :=
  mkUserTaskInit example_space USER_CODE_BASE USER_STACK_TOP
    (mkUserHeap USER_DATA_BASE USER_DATA_BASE USER_HEAP_LIMIT USER_DATA_BASE) 7.

Lemma example_heap_ok : heap_ok (init_heap example_init).
Proof. by constructor. Qed.

(** One program, running. *)
Definition one : Machine :=
  after (Run 0x5000) (after (SpawnUser 0x444440000000 example_init) boot_machine).

(** Two programs, the first running, with preemption. *)
Definition two : Machine :=
  after (SetPreemption true) (after (Run 0x5000)
    (after (SpawnUser 0x444440010000 example_init)
      (after (SpawnUser 0x444440000000 example_init) boot_machine))).

Lemma reachable_one : reachable one.
Proof.
  apply reachable_after; [|by vm_compute]. apply reachable_after; [|apply example_heap_ok].
  apply reachable_boot.
Qed.

Lemma reachable_two : reachable two.
Proof.
  apply reachable_after; [|done]. apply reachable_after; [|by vm_compute].
  do 2 (apply reachable_after; [|apply example_heap_ok]). apply reachable_boot.
Qed.

(** A trap frame at 0x9000 with the arguments of a system call. *)
Definition calling (m : Machine) (rax rdi rsi rdx : Z) : Machine :=
  set_kmem (kwrite (kwrite (kwrite (kwrite (kmem m) (0x9000 + OFF_RAX) rax) (0x9000 + OFF_RDI) rdi)
    (0x9000 + OFF_RSI) rsi) (0x9000 + OFF_RDX) rdx) m.

Lemma kmem_enabled m k : enabled m (Elsewhere (set_kmem k m)).
Proof. split; [done|]. by split. Qed.

Lemma reachable_kmem m k : reachable m -> reachable (set_kmem k m).
Proof. intros Hm. by eapply (reach_step m (Elsewhere (set_kmem k m))); [|apply kmem_enabled|]. Qed.

Lemma reachable_calling m rax rdi rsi rdx : reachable m -> reachable (calling m rax rdi rsi rdx).
Proof. apply reachable_kmem. Qed.

(** The first program prints its page, exits, opens and reads a file. *)
Definition writing : Machine := calling two 2 1 USER_CODE_BASE 5.
Definition exiting : Machine := calling one 1 3 0 0.
Definition opening : Machine := calling one 5 USER_CODE_BASE 5 0.

Lemma opening_enabled : enabled opening (SyscallInt 0x9000).
Proof. split; by vm_compute. Qed.

Definition opened_file : Machine := after (SyscallInt 0x9000) opening.

Lemma reachable_opened : reachable opened_file.
Proof.
  apply reachable_after; [|apply opening_enabled]. apply reachable_calling, reachable_one.
Qed.

Lemma code_base_canonical i : 0 <= i < 4096 -> canonical (USER_CODE_BASE + i).
Proof. intros Hi. apply user_canonical. change USER_CODE_BASE with (USER_BASE + 0x400000).
  change USER_STACK_TOP with (USER_BASE + 0x800000). lia. Qed.

(** ** The whole system *)

(** A call of [write] with a pointer that is no address. *)
Definition misdirected : Machine := calling two 2 1 (2 ^ 50) 5.

Lemma events_handled_witness :
  reachable two /\ (exists m', handle (TimerIrq 0x9000) two = Done (tt, m') /\ reachable m' /\ ok m') /\
  exists msg, handle (SyscallInt 0x9000) misdirected = Panic msg.
Proof.
  split; [apply reachable_two|]. split.
  - apply (events_handled two (TimerIrq 0x9000)); [apply reachable_two|exact I|exact I].
  - apply (events_handled misdirected (SyscallInt 0x9000)).
    + apply reachable_calling, reachable_two.
    + split; by vm_compute.
    + intros [a Ha]. vm_compute in Ha. discriminate Ha.
Defined.

Lemma dispatch_correct_witness :
  from_raw (arg_rax writing 0x9000) = Some SysWrite /\
  exists r m', dispatch 0x9000 writing = Done (r, m') /\ syscall_outcome writing 0x9000 r m'.
Proof.
  split; [reflexivity|]. apply dispatch_correct.
  - apply reachable_calling, reachable_two.
  - by vm_compute.
  - by vm_compute.
  - by eexists.
Defined.

(** The first program asks for its pid and yields to the second, which is
    interrupted, and so is the first. *)
Definition asks_pid : Machine := calling two 3 0 0 0.
Definition turns : list event :=
  [Elsewhere asks_pid; SyscallInt 0x9000; YieldInt 0x9000; TimerIrq 0x9000; TimerIrq 0x9000].

Fixpoint after_all (l : list event) (m : Machine) : Machine :=
  match l with
  | [] => m
  | e :: l => after_all l (after e m)
  end.

Lemma trace_after e l m m' :
  reachable m -> enabled m e -> accepted m e -> (reachable (after e m) -> trace (after e m) l m') ->
  trace m (e :: l) m'.
Proof.
  intros Hm He Ha T. eapply trace_cons; [done|by apply handle_after|]. apply T. by apply reachable_after.
Qed.

Lemma asking_enabled : enabled (after (Elsewhere asks_pid) two) (SyscallInt 0x9000).
Proof. split; by vm_compute. Qed.

Lemma asking_accepted : accepted (after (Elsewhere asks_pid) two) (SyscallInt 0x9000).
Proof. vm_compute. exact I. Qed.

Lemma turns_trace : trace two turns (after_all turns two).
Proof.
  unfold turns. cbn [after_all].
  apply trace_after; [apply reachable_two|apply kmem_enabled|exact I|intros H1].
  apply trace_after; [exact H1|apply asking_enabled|apply asking_accepted|intros H2].
  apply trace_after; [exact H2|exact I|exact I|intros H3].
  apply trace_after; [exact H3|exact I|exact I|intros H4].
  apply trace_after; [exact H4|exact I|exact I|intros _]. apply trace_nil.
Qed.

Lemma turns_count : vlen (tasks (sched (after_all turns two))) = 2.
Proof. vm_compute. reflexivity. Qed.

Lemma round_robin_fair_witness :
  current (sched two) = Some 0 /\
  exists l1 l2 m1, turns = l1 ++ l2 /\ trace two l1 m1 /\ trace m1 l2 (after_all turns two) /\
    ticks l1 <= vlen (tasks (sched (after_all turns two))) /\ current (sched m1) = Some 1.
Proof.
  split; [reflexivity|].
  apply (round_robin_fair two turns (after_all turns two) 1 0).
  - apply reachable_two.
  - reflexivity.
  - reflexivity.
  - eexists. split; [reflexivity|reflexivity].
  - apply turns_trace.
  - intros H. repeat (apply elem_of_cons in H as [H|H]; [discriminate H|]). by apply elem_of_nil in H.
  - rewrite turns_count. vm_compute. discriminate.
Defined.

(** The only program has exited. *)
Lemma exiting_enabled : enabled exiting (SyscallInt 0x9000).
Proof. split; by vm_compute. Qed.

Definition finished : Machine := after (SyscallInt 0x9000) exiting.

Lemma reachable_exiting : reachable exiting.
Proof. apply reachable_calling, reachable_one. Qed.

Lemma reachable_finished : reachable finished.
Proof. apply reachable_after; [apply reachable_exiting|apply exiting_enabled]. Qed.

Lemma none_ready ts j : forallb (fun t => negb (is_ready t)) ts = true -> ~ ready_at ts j.
Proof.
  intros H (t & Ht & Hs). rewrite forallb_forall in H. apply vget_elem_of, list_elem_of_In, H in Ht.
  by rewrite (proj2 (is_ready_spec t) Hs) in Ht.
Qed.

Lemma no_deadlock_witness :
  vlen (tasks (sched finished)) = 1 /\
  forall t, vget (tasks (sched finished)) 0 = Some t -> is_terminal t = true.
Proof.
  split; [by vm_compute|]. intros t. apply (no_deadlock finished 0 t).
  - apply reachable_finished.
  - by vm_compute.
  - intros j. apply none_ready. by vm_compute.
Defined.

Lemma back_to_main_witness :
  exists m', dispatch 0x9000 exiting = Done (ToMain, m') /\ all_tasks_finished (tasks (sched m')) = true.
Proof.
  assert (match dispatch 0x9000 exiting with Done (ToMain, _) => True | _ => False end) as H
    by (vm_compute; exact I).
  destruct (dispatch 0x9000 exiting) as [[[|] m']|] eqn:E; try contradiction.
  exists m'. split; [reflexivity|]. destruct exiting_enabled as (E1 & E2).
  exact (back_to_main_when_finished exiting 0x9000 m' reachable_exiting E1 E2 I E).
Defined.

(** The task that runs in [two]. *)
Definition first_task : Task :=
  match vget (tasks (sched two)) 0 with Some t => t | None => fst (new_kernel (fun _ => 0) 0 0 0 0 0 0 0) end.

Lemma running_task_loaded_witness :
  process_id first_task = Some 1 /\
  exists p, live (proc_table (sched two)) 1 p /\ p_main_task p = 0 /\
    cr3 (mem two) = level_4_frame (p_address_space p) /\ tss_rsp0 (cpu two) = t_kernel_stack_top first_task.
Proof.
  split; [by vm_compute|]. apply (running_task_loaded two 0 first_task 1).
  - apply reachable_two.
  - by vm_compute.
  - by vm_compute.
  - by vm_compute.
Defined.

Definition first_process (m : Machine) : Process :=
  match ProcessTable.get (proc_table (sched m)) 1 with
  | Some p => p
  | None => new_process 1 None example_space (init_heap example_init) FdTable.empty 0
  end.

Lemma open_files_counted_witness :
  OpenFileTable.rc (open_files (sched two)) 1 = total_refs (proc_table (sched two)) 1 /\
  is_Some (OpenFileTable.get (open_files (sched two)) 1).
Proof.
  destruct (open_files_counted two 1 1 (first_process two) 1 (mkFdEntry 1) reachable_two) as [H1 H2].
  split; [exact H1|]. apply H2; by vm_compute.
Defined.

Lemma limits_respected_witness :
  vlen (tasks (sched two)) <= MAX_TASKS /\ vlen (p_fd_table (first_process two)) = MAX_FDS_PER_PROCESS.
Proof.
  destruct (limits_respected two reachable_two) as [H1 H2]. split; [exact H1|].
  apply (H2 1 (first_process two)). by vm_compute.
Defined.

(** A processor state in ring 3. *)
Definition user_cpu : CpuState := mkCpuState (fun r => if decide (r = RSP) then 0x8000007ff0 else 42)
  USER_CODE_BASE 0x23 0x202 0x1b.

Lemma ready_frames_in_range ts :
  forallb (fun t => (0 <=? saved_rsp t) && (saved_rsp t + TRAP_FRAME_SIZE <? 2 ^ 64)) ts = true ->
  forall i u, vget ts i = Some u -> t_state u = Ready -> frame_in_range (saved_rsp u).
Proof.
  rewrite forallb_forall. intros H i u Hu _. apply vget_elem_of, list_elem_of_In, H in Hu.
  bool_to_prop. done.
Qed.

Lemma context_switch_witness :
  exists r m', interrupt_entry 8 0xffff on_yield_interrupt user_cpu user_cpu two = Done (r, m') /\
    interrupted two 0 user_cpu r m'.
Proof.
  apply context_switch_preserves_registers.
  - apply reachable_two.
  - by vm_compute.
  - split; [by vm_compute|by vm_compute].
  - apply ready_frames_in_range. by vm_compute.
Defined.

(** ** Processes *)

Lemma live_first : live (proc_table (sched two)) 1 (first_process two).
Proof. split; by vm_compute. Qed.

Lemma waitpid_correct_witness :
  exists r m', waitpid_from_interrupt 0x9000 2 None 0 two = Done (r, m') /\
    waitpid_outcome two 0x9000 0 first_task 1 (first_process two) 2 None 0 r m'.
Proof.
  apply waitpid_correct.
  - apply reachable_two.
  - by vm_compute.
  - by vm_compute.
  - by vm_compute.
  - apply live_first.
  - done.
Defined.

Lemma exit_correct_witness :
  exists r m' m1, exit_current_from_interrupt 0x9000 3 two = Done (r, m') /\
    process_ended (with_task two 0 (ended first_task 0x9000 Finished (Some 3) None)) 1
      (Exited (to_signed 32 3)) m1 /\ keeps m1 m' /\ switched m1 0 r m'.
Proof.
  apply exit_correct.
  - apply reachable_two.
  - by vm_compute.
  - by vm_compute.
  - by vm_compute.
Defined.

(** A fault frame whose code selector is that of ring 3. *)
Definition faulting : Kernel :=
  mkKernel (set_kmem (kwrite (kmem two) (0x9000 + OFF_ERR_CS) 0x23) two) 0 [].

Lemma reachable_faulting : reachable (machine faulting).
Proof. apply reachable_kmem, reachable_two. Qed.

Lemma user_fault_contained_witness :
  exists r k', page_fault_rust 0x1234 0x9000 faulting = Done (r, k') /\ ok (machine k') /\
    fault_outcome (machine faulting) 0x9000
      (mkFaultInfo PageFault (Some 0x1234) (kmem (machine faulting) (0x9000 + OFF_ERROR_CODE))) (machine k').
Proof.
  apply user_fault_contained.
  - apply reachable_faulting.
  - by vm_compute.
  - by vm_compute.
Defined.

Lemma timer_handled_witness :
  exists rsp k', timer_interrupt_rust 0x9000 (mkKernel two 41 []) = Done (Resume rsp, k') /\
    tick_outcome two 0x9000 (Resume rsp) (machine k') /\ timer_ticks k' = 42 /\ eoi k' = [32].
Proof. apply (timer_handled (mkKernel two 41 []) 0x9000). apply reachable_two. Defined.

(** A 120-byte image: the ELF header, one program header that loads the file. *)
Definition example_image : list Z :=
  [0x7f; 0x45; 0x4c; 0x46; 2; 1; 1] ++ replicate 9 0 ++ to_le_bytes 2 2 ++ to_le_bytes 2 62 ++
  to_le_bytes 4 1 ++ to_le_bytes 8 USER_CODE_BASE ++ to_le_bytes 8 64 ++ to_le_bytes 8 0 ++
  to_le_bytes 4 0 ++ to_le_bytes 2 64 ++ to_le_bytes 2 56 ++ to_le_bytes 2 1 ++ to_le_bytes 6 0 ++
  to_le_bytes 4 1 ++ to_le_bytes 4 7 ++ to_le_bytes 8 0 ++ to_le_bytes 8 USER_CODE_BASE ++
  to_le_bytes 8 USER_CODE_BASE ++ to_le_bytes 8 120 ++ to_le_bytes 8 120 ++ to_le_bytes 8 4096.

Lemma bytes_ok l : forallb (fun b => (0 <=? b) && (b <? 256)) l = true -> Forall is_byte l.
Proof.
  rewrite forallb_forall, Forall_forall. intros H b Hb%list_elem_of_In%H. unfold is_byte. bool_to_prop. lia.
Qed.

Lemma spawn_elf_correct_witness :
  exists r m' x, spawn_user_elf_process_with_arg 0x444440020000 example_image 7 two = Done (r, m') /\
    same_ctl (mem two) x /\
    match r with
    | Err (ElfLoad e) => m' = set_mem x two
    | _ => exists init, heap_ok (init_heap init) /\ spawned (set_mem x two) None init r m'
    end.
Proof. apply spawn_elf_correct; [apply reachable_two|]. apply bytes_ok. by vm_compute. Defined.

(** ** Files *)

Lemma write_correct_witness :
  exists r m', sys_write_current 1 (USER_CODE_BASE + 0) 5 two = Done (r, m') /\
    write_outcome two 1 (USER_CODE_BASE + 0) 5 r m'.
Proof. apply write_correct; [apply reachable_two|by apply code_base_canonical|done]. Defined.

Lemma read_correct_witness :
  exists r m', sys_read_current 3 (USER_CODE_BASE + 256) 8 opened_file = Done (r, m') /\
    read_outcome opened_file 3 (USER_CODE_BASE + 256) 8 r m'.
Proof. apply read_correct; [apply reachable_opened|by apply code_base_canonical]. Defined.

(** Descriptor 3 of [opened_file] is the file that was opened. *)
Definition motd : OpenFile := mkOpenFile (EmbeddedFileKind 1) ReadOnly 0 1.

Definition motd_file : EmbeddedFile :=
  match embedded_file 1 with Some f => f | None => mkEmbeddedFile [] [] end.

Lemma opened_descriptor :
  fd_file opened_file 3 = Ok (1, first_process opened_file, mkFdEntry 3, motd).
Proof. by vm_compute. Qed.

Lemma opened_memory : mem opened_file = set_cr3 0x2000 boot_memory.
Proof. reflexivity. Qed.

Lemma opened_space : p_address_space (first_process opened_file) = example_space.
Proof. by vm_compute. Qed.

Lemma example_unaliased start n :
  0 <= start -> start + n <= 4096 -> unaliased example_ram example_space (USER_CODE_BASE + start) n.
Proof.
  intros Hs Hn i j x Hi Hj. rewrite <- !Z.add_assoc, !example_byte by lia. intros [= <-] [= Hx]. lia.
Qed.

Lemma read_delivers_witness :
  exists m', sys_read_current 3 (USER_CODE_BASE + 256) 8 opened_file = Done (Ok 8, m') /\
    read_user (ram (mem m')) (p_address_space (first_process opened_file)) (USER_CODE_BASE + 256) 8 =
      Ok [116; 105; 110; 121; 32; 107; 101; 114].
Proof.
  assert (match sys_read_current 3 (USER_CODE_BASE + 256) 8 opened_file with
          | Done (Ok n, _) => n = 8 | _ => False end) as H by (vm_compute; reflexivity).
  destruct (sys_read_current 3 (USER_CODE_BASE + 256) 8 opened_file) as [[[n|] m']|] eqn:E;
    try contradiction. subst n. exists m'. split; [reflexivity|].
  destruct (read_delivers opened_file 3 (USER_CODE_BASE + 256) 8 1 (first_process opened_file)
    (mkFdEntry 3) motd 1 motd_file 8 m') as (_ & Hread & _).
  - apply reachable_opened.
  - apply code_base_canonical; lia.
  - apply opened_descriptor.
  - reflexivity.
  - reflexivity.
  - rewrite opened_memory, opened_space. apply example_separated.
  - rewrite opened_memory, opened_space. apply example_unaliased; lia.
  - apply Z.le_refl.
  - exact E.
  - reflexivity.
  - exact Hread.
Defined.

Lemma open_correct_witness :
  exists r m', sys_open_current (USER_CODE_BASE + 0) 5 0 two = Done (r, m') /\
    open_outcome two (USER_CODE_BASE + 0) 5 0 r m'.
Proof. apply open_correct; [apply reachable_two|by apply code_base_canonical|done]. Defined.

Lemma close_correct_witness :
  exists r m', sys_close_current 3 opened_file = Done (r, m') /\ close_outcome opened_file 3 r m'.
Proof. apply close_correct, reachable_opened. Defined.

Lemma brk_correct_witness :
  exists r m', sys_brk_current (USER_DATA_BASE + 100) two = Done (r, m') /\
    brk_outcome two (USER_DATA_BASE + 100) r m' /\
    forall pid p, ProcessTable.get (proc_table (sched m')) pid = Some p -> heap_ok (p_heap p).
Proof. apply brk_correct; [apply reachable_two|done]. Defined.

(** ** User memory *)

Lemma boot_mem_ok : mem_ok boot_memory.
Proof. by eexists. Qed.

Lemma example_accessible start n access :
  0 <= start -> start + n <= 4096 ->
  forall i, 0 <= i < n -> accessible example_ram example_space access (USER_CODE_BASE + start + i).
Proof.
  intros Hs Hn i Hi. exists (0x6000 + (start + i)). rewrite <- Z.add_assoc. apply example_byte. lia.
Qed.

Lemma user_copy_round_trip_witness :
  exists m', copy_to_user example_space (USER_CODE_BASE + 16) [1; 2; 3] boot_memory = Done (Ok tt, m') /\
    copy_from_user example_space 3 (USER_CODE_BASE + 16) m' = Done (Ok [1; 2; 3], m').
Proof.
  apply (user_copy_round_trip example_space (USER_CODE_BASE + 16) [1; 2; 3] boot_memory).
  - apply boot_mem_ok.
  - apply example_separated.
  - by apply code_base_canonical.
  - by apply example_unaliased.
  - by apply example_accessible.
Defined.

Lemma copy_from_user_bytewise_witness :
  copy_from_user example_space 5 (USER_CODE_BASE + 0) boot_memory = Done (Ok example_path, boot_memory).
Proof.
  rewrite (copy_from_user_bytewise example_space 5 (USER_CODE_BASE + 0) boot_memory boot_mem_ok).
  - reflexivity.
  - lia.
  - by apply code_base_canonical.
Defined.

Lemma copy_to_user_contained_witness :
  exists r m', copy_to_user example_space (USER_CODE_BASE + 4094) [1; 2; 3] boot_memory = Done (r, m') /\
    copied_to boot_memory example_space (USER_CODE_BASE + 4094) [1; 2; 3] r m'.
Proof.
  apply copy_to_user_contained; [apply boot_mem_ok|apply example_separated|by apply code_base_canonical].
Defined.

Lemma validate_user_range_exact_witness :
  exists r, validate_user_range example_space USER_CODE_BASE 4096 Write boot_memory = Done (r, boot_memory) /\
    (r = Ok tt <-> forall i, 0 <= i < 4096 -> accessible example_ram example_space Write (USER_CODE_BASE + i)).
Proof.
  apply (validate_user_range_exact example_space USER_CODE_BASE 4096 Write boot_memory);
    [apply boot_mem_ok|done|done].
Defined.

Lemma translate_contiguous_witness :
  translate example_ram 0x2000 (USER_CODE_BASE + 7) = Some (mkTranslation 0x6007 7) /\
  0x6000 mod 4096 = USER_CODE_BASE mod 4096.
Proof.
  apply (translate_contiguous example_ram 0x2000 USER_CODE_BASE 7 (mkTranslation 0x6000 7));
    [done|done|done|reflexivity].
Defined.

Lemma frames_distinct_witness :
  frame_usable [mkRegion 0 0x2000 false; mkRegion 0x2000 0x4000 true] 0x3000 /\ (1 = 1)%nat.
Proof.
  destruct (frames_distinct 3 (allocator_init [mkRegion 0 0x2000 false; mkRegion 0x2000 0x4000 true])
    1 1 0x3000) as [H1 H2].
  - split; repeat constructor. done.
  - reflexivity.
  - split; [exact H1|]. apply H2. reflexivity.
Defined.

(** ** ELF images *)

Lemma elf_accepted_witness :
  exists elf, parse_elf example_image = Ok elf /\ elf_ok 120 elf.
Proof.
  eexists. split; [vm_compute; reflexivity|].
  apply (elf_accepted example_image); [apply bytes_ok|]; vm_compute; reflexivity.
Defined.

Lemma elf_load_total_witness :
  exists r m', load_user_elf example_image 7 boot_memory = Done (r, m') /\ same_ctl boot_memory m' /\
    forall init, r = Ok init -> heap_ok (init_heap init).
Proof. apply elf_load_total; [apply boot_mem_ok|]. apply bytes_ok. by vm_compute. Defined.

(** ** Contexts *)

(** The boot code calls [switch_from_main_to_task] with its stack at 0x8000. *)
Definition boot_cpu : CpuState :=
  mkCpuState (fun r => match r with RSP => 0x8000 | RDI => 0x100 | RBP => 1 | RBX => 2 | R12 => 3
                       | R13 => 4 | R14 => 5 | R15 => 6 | _ => 9 end) 0x1111 8 2 16.

(** Another processor state, about to restore the context at 0x100. *)
Definition leaving_cpu : CpuState :=
  mkCpuState (fun r => if decide (r = RDI) then 0x100 else 77) 0x2222 8 2 16.

Definition boot_words : KMem := fun a => if a =? 0x8000 then 0x4321 else 0.

Lemma main_context_round_trip_witness :
  let c := fst (exec_all restore_main_context (leaving_cpu, snd (exec_all main_save (boot_cpu, boot_words)))) in
  regs c RSP = 0x8008 /\ c_rip c = 0x4321 /\ forall r, r ∈ main_regs -> regs c r = regs boot_cpu r.
Proof.
  apply (main_context_round_trip boot_cpu boot_words leaving_cpu
           (snd (exec_all main_save (boot_cpu, boot_words)))).
  - cbn. lia.
  - cbn. lia.
  - cbn. lia.
  - intros x Hx. reflexivity.
  - reflexivity.
Defined.

Lemma first_user_entry_witness :
  let '(ctx, k') := new_user_task boot_words 0x10000 TASK_STACK_SIZE USER_CODE_BASE USER_STACK_TOP
                      0x23 0x1b 0x200 7 in
  let c := fst (exec_all entry_resume (reg_set boot_cpu RAX (rsp ctx), k')) in
  c_rip c = USER_CODE_BASE /\ c_cs c = 0x23 /\ c_ss c = 0x1b /\ c_rflags c = 0x202 /\
  regs c RSP = USER_STACK_TOP - 8 /\ regs c RDI = 7 /\
  forall r, r <> RSP -> r <> RDI -> regs c r = 0.
Proof.
  apply (first_user_entry boot_words 0x10000 TASK_STACK_SIZE USER_CODE_BASE USER_STACK_TOP 0x23 0x1b
           0x200 7 boot_cpu).
  split; [vm_compute; discriminate|reflexivity].
Defined.

Lemma stub_builds_frame_witness :
  let s := exec_all entry_save (cpu_interrupt 0x10000 8 0xffff (user_cpu, boot_words)) in
  saved_state 0x10000 user_cpu boot_words (fst s) (snd s).
Proof.
  apply (stub_builds_frame 0x10000 8 0xffff 6 user_cpu boot_words).
  split; [vm_compute; discriminate|reflexivity].
Defined.

(** ** Tables *)

Lemma lowest_descriptor_witness :
  let t := FdTable.stdio 0 1 2 in
  FdTable.get t 3 = None /\ forall j, 0 <= j < 3 -> FdTable.get t j <> None.
Proof.
  destruct (lowest_descriptor (FdTable.stdio 0 1 2) 5 (Ok 3)
    (snd (FdTable.allocate_lowest (FdTable.stdio 0 1 2) 5))) as (_ & H1 & _ & _ & H2).
  - reflexivity.
  - reflexivity.
  - exact (conj H1 H2).
Defined.

Lemma stdio_all_or_nothing_witness :
  exists t, fst (FdTable.new_with_stdio OpenFileTable.new) = Ok t /\
  exists stdin stdout stderr, t = FdTable.stdio stdin stdout stderr /\
    OpenFileTable.get (snd (FdTable.new_with_stdio OpenFileTable.new)) stdin =
      Some (mkOpenFile NullInput ReadOnly 0 1) /\
    OpenFileTable.get (snd (FdTable.new_with_stdio OpenFileTable.new)) stdout =
      Some (mkOpenFile ConsoleStdout WriteOnly 0 1) /\
    OpenFileTable.get (snd (FdTable.new_with_stdio OpenFileTable.new)) stderr =
      Some (mkOpenFile ConsoleStderr WriteOnly 0 1).
Proof.
  eexists. split; [reflexivity|].
  apply (stdio_all_or_nothing OpenFileTable.new (Ok _) (snd (FdTable.new_with_stdio OpenFileTable.new))).
  - apply OpenFileTable.new_ok.
  - reflexivity.
Defined.

(** The process table of [two]. *)
Definition table_two : ProcessTable := proc_table (sched two).

Lemma table_two_wf : table_wf table_two /\ fds_wf table_two /\ OpenFileTable.table_ok (open_files (sched two)).
Proof.
  destruct (ok_core _ (reachable_ok two reachable_two)) as [H1 H2 _ _ [H3 _]]. done.
Qed.

Lemma exit_keeps_table_witness :
  exists t', exit_step table_two 1 (first_process two) (Exited 3) t' /\ table_wf t'.
Proof.
  destruct table_two_wf as (H1 & H2 & H3).
  destruct (ProcessTable.mark_exited table_two 1 (Exited 3) (open_files (sched two))) as [[r t'] files'] eqn:E.
  exists t'.
  destruct (exit_keeps_table table_two 1 (first_process two) (Exited 3) (open_files (sched two)) r t' files'
    H1 H2 H3 (proj1 live_first) E) as (_ & X1 & X2 & _).
  exact (conj X1 X2).
Defined.

Lemma reap_child_exact_witness :
  ProcessTable.is_child table_two 1 2 = false /\ snd (ProcessTable.reap_child table_two 1 2) = table_two.
Proof.
  destruct table_two_wf as (H1 & H2 & _).
  apply (reap_child_exact table_two 1 2 (Err NotChild) (snd (ProcessTable.reap_child table_two 1 2)) H1 H2).
  vm_compute. reflexivity.
Defined.

Lemma serial_buffer_bounded_witness :
  contents (push_bytes (output_buffer serial_init) [104; 105]) = [104; 105].
Proof.
  destruct (serial_buffer_bounded (output_buffer serial_init) [104; 105] serial_init_ok) as [_ ->].
  vm_compute. reflexivity.
Defined.

