(* ===== verification/MemoryExamples.v ===== *)
(** * The properties of memory on concrete machines

    The theorems of MemoryProperties.v applied to a machine that boots, loads
    a built-in program and two ELF programs, and runs them. *)

From stdpp Require Import relations.
From S2P Require Import Prelude File Fd X86 Memory AddressSpace PageTables Spaces SpaceOps.
From S2P Require Import UserMemory Process Context Serial Vga Task Syscall User Elf Build Fixtures Loading.
From S2P Require Import Scheduler SchedulerCalls Interrupts Boot RoundRobin Invariant Switching Exit Calls.
From S2P Require Import Spawn System Fairness ProcessTree Isolation Confinement KernelHeap KernelMain Handlers Stubs UserCode.
From S2P Require Import Execution Startup X86Model IntegrationTests Properties MemoryProperties Examples.

#[local] Existing Instance x86_model.
#[local] Existing Instance x86_model_spec.
#[local] Existing Instance x86_model_paging.
#[local] Existing Instance segments_model.

(** ** Machines *)

Lemma confined_after e m : confined m -> enabled m e -> disciplined m e -> confined (after e m).
Proof.
  intros Hm He Hd. unfold after. destruct (handle e m) as [[[] m']|] eqn:E; [|done]. by eapply conf_step.
Qed.

(** The map of a machine with 60 usable frames from 1 MiB on. *)
Definition example_map : MemoryMap := [mkRegion 0 0x100000 false; mkRegion 0x100000 0x13c000 true].

Lemma example_alloc : alloc_ok 0x1000 (allocator_init example_map).
Proof.
  constructor; [|done| |].
  - split; repeat constructor; done.
  - by repeat constructor.
  - split; [done|]. by apply (bool_decide_unpack _).
Qed.

Lemma test_booted : booted_memory (test_machine 60).
Proof.
  constructor; [constructor; [done|by eexists]|eexists; split; [done|apply example_alloc]|].
  eexists. split; [done|]. by intros x _.
Qed.

(** An image of one writable segment, the file itself followed by [payload]. *)
Definition image_with (payload : list Z) : list Z :=
  [0x7f; 0x45; 0x4c; 0x46; 2; 1; 1] ++ replicate 9 0 ++ to_le_bytes 2 2 ++ to_le_bytes 2 62 ++
  to_le_bytes 4 1 ++ to_le_bytes 8 USER_CODE_BASE ++ to_le_bytes 8 64 ++ to_le_bytes 8 0 ++
  to_le_bytes 4 0 ++ to_le_bytes 2 64 ++ to_le_bytes 2 56 ++ to_le_bytes 2 1 ++ to_le_bytes 6 0 ++
  to_le_bytes 4 1 ++ to_le_bytes 4 7 ++ to_le_bytes 8 0 ++ to_le_bytes 8 USER_CODE_BASE ++
  to_le_bytes 8 USER_CODE_BASE ++ to_le_bytes 8 (120 + vlen payload) ++ to_le_bytes 8 (120 + vlen payload) ++
  to_le_bytes 8 4096 ++ payload.

(** A program with the path of a file, a child of it, and a built-in program. *)
Definition path_image : list Z := image_with example_path.

Lemma path_image_bytes : Forall is_byte path_image.
Proof. apply bytes_ok. by vm_compute. Qed.

Definition parent_spawned : Machine := after (SpawnElf 0x444440000000 path_image 0) (test_machine 60).
Definition child_spawned : Machine := after (SpawnChildElf 0x444440010000 1 path_image 0) parent_spawned.
Definition all_spawned : Machine :=
  after (SpawnProgram 0x444440020000 (program_bytes BusyCounter) 0 None) child_spawned.

(** The parent runs. *)
Definition running : Machine := after (SetPreemption true) (after (Run 0x5000) all_spawned).

Lemma confined_parent : confined parent_spawned.
Proof.
  apply confined_after; [apply conf_boot, test_booted|apply path_image_bytes|done].
Qed.

Lemma parent_runs m :
  ProcessTable.state (proc_table (sched m)) 1 = Some PRunning -> parent_live (proc_table (sched m)) (Some 1).
Proof. intros H q p [= <-] Hp. unfold ProcessTable.state in H. rewrite Hp in H. by injection H. Qed.

Lemma confined_child : confined child_spawned.
Proof.
  apply confined_after; [apply confined_parent|apply path_image_bytes|done].
Qed.

Lemma confined_running : confined running.
Proof.
  apply confined_after; [|done|done]. apply confined_after; [|by vm_compute|done].
  apply confined_after; [apply confined_child|by vm_compute|done].
Qed.

(** Trap frames at 0x9000 with the arguments of a system call. *)
Lemma confined_calling m rax rdi rsi rdx : confined m -> confined (calling m rax rdi rsi rdx).
Proof. apply confined_kmem. Qed.

(** The parent opens the file; the child, which runs next, exits with 3. *)
Definition asking : Machine := calling running 5 (USER_CODE_BASE + 120) 5 0.
Definition file_open : Machine := after (SyscallInt 0x9000) asking.
Definition child_runs : Machine := after (TimerIrq 0x9000) running.
Definition child_exiting : Machine := calling child_runs 1 3 0 0.
Definition child_gone : Machine := after (SyscallInt 0x9000) child_exiting.
Definition parent_back : Machine := after (TimerIrq 0x9000) child_gone.

Lemma confined_file_open : confined file_open.
Proof.
  apply confined_after; [apply confined_calling, confined_running| |done]. split; by vm_compute.
Qed.

Lemma confined_parent_back : confined parent_back.
Proof.
  apply confined_after; [|done|done]. apply confined_after; [| |done].
  - apply confined_calling, confined_after; [apply confined_running|done|done].
  - split; by vm_compute.
Qed.

(** The processes of the machines. *)
Definition process_of (m : Machine) (pid : ProcessId) : Process :=
  match ProcessTable.get (proc_table (sched m)) pid with Some p => p | None => first_process two end.

(** ** Processes *)

Lemma orderly_after e m : orderly m -> enabled m e -> lawful_spawn m e -> orderly (after e m).
Proof.
  intros Hm He Hl. unfold after. destruct (handle e m) as [[[] m']|] eqn:E; [|done]. by eapply orderly_step.
Qed.

Lemma orderly_child : orderly child_spawned.
Proof.
  apply orderly_after; [|apply path_image_bytes|apply parent_runs; by vm_compute].
  apply orderly_after; [|apply path_image_bytes|done]. apply orderly_boot, test_booted.
Qed.

Lemma process_tree_witness :
  p_children (process_of child_spawned 1) = [2] /\
  exists q, ProcessTable.get (proc_table (sched child_spawned)) 2 = Some q /\ p_parent q = Some 1 /\
    exists r, ProcessTable.get (proc_table (sched child_spawned)) 1 = Some r /\ p_state r = PRunning /\
      2 ∈ p_children r.
Proof.
  split; [vm_compute; reflexivity|].
  assert (reachable child_spawned) as Hm by (apply orderly_reachable, orderly_child).
  destruct (process_tree child_spawned 1 (process_of child_spawned 1) Hm) as (_ & H & _); [vm_compute; reflexivity|].
  destruct (proj1 (H 2)) as (q & Hq & Hp); [vm_compute; apply list_elem_of_here|].
  exists q. split; [exact Hq|]. split; [exact Hp|].
  destruct (process_tree child_spawned 2 q Hm Hq) as (_ & _ & _ & _ & Ho).
  exact (proj2 (Ho orderly_child) 1 Hp).
Defined.

(** ** Isolation *)

Lemma process_memory_disjoint_witness :
  translate (ram (mem running)) (root (process_of running 1)) USER_CODE_BASE = Some (mkTranslation 0x101000 7) /\
  forall b u, translate (ram (mem running)) (root (process_of running 2)) b = Some u -> 0 <= b < 2 ^ 48 ->
    phys u <> 0x101000.
Proof.
  split; [vm_compute; reflexivity|]. intros b u Hu Hb E.
  assert (1 = 2 /\ USER_CODE_BASE = b) as [H _]; [|discriminate H].
  apply (process_memory_disjoint running 1 2 (process_of running 1) (process_of running 2) USER_CODE_BASE b
    (mkTranslation 0x101000 7) u).
  - apply confined_running.
  - vm_compute. reflexivity.
  - vm_compute. reflexivity.
  - vm_compute. reflexivity.
  - exact Hu.
  - split; [discriminate|reflexivity].
  - exact Hb.
  - symmetry. exact E.
Defined.

(** When no task waits, only the running process is involved. *)
Lemma not_involved m q :
  forallb (fun t => match t_state t with Blocked _ => false | _ => true end) (tasks (sched m)) = true ->
  current_proc m <> Some q -> ~ involved m q.
Proof.
  rewrite forallb_forall. intros H Hq [|(c & _ & w & t & ptr & Ht & _ & Hs)]; [done|].
  apply vget_elem_of, list_elem_of_In, H in Ht. by rewrite Hs in Ht.
Qed.

Lemma event_affects_only_witness :
  exists m', handle (SyscallInt 0x9000) asking = Done (tt, m') /\ confined m' /\
    same_space (root (process_of asking 2)) (mem asking) (mem m').
Proof.
  destruct (event_affects_only asking (SyscallInt 0x9000)) as [H _].
  - apply confined_calling, confined_running.
  - split; by vm_compute.
  - exact I.
  - destruct H as (m' & E & Hm & Hq); [by eexists|].
    exists m'. split; [exact E|]. split; [exact Hm|]. apply (Hq 2).
    + vm_compute. reflexivity.
    + apply not_involved; by vm_compute.
Defined.

(** The built-in program runs, with the processor at its first instruction. *)
Definition counter_spawned : Machine :=
  after (SpawnProgram 0x444440000000 (program_bytes BusyCounter) USER_DATA_BASE None) (test_machine 60).





(** Two programs that count are staged and started. *)
Definition two_counters : Machine :=
  after (SetPreemption true)
    (after (SpawnProgram 0x444440010000 (program_bytes BusyCounter) USER_DATA_BASE None) counter_spawned).

Lemma staged_after e m : staged m -> staging m e -> enabled m e -> staged (after e m).
Proof.
  intros Hm Hs He. unfold after. destruct (handle e m) as [[[] m']|] eqn:E; [|done]. by eapply staged_event.
Qed.

Definition stack_free (stack : Z) (t : Task) : bool :=
  (t_kernel_stack t + TASK_STACK_SIZE <=? stack) || (stack + TASK_STACK_SIZE <=? t_kernel_stack t).

Lemma stack_is_unused ts stack :
  (0 <=? stack) && (stack + TASK_STACK_SIZE <? 2 ^ 64) && forallb (stack_free stack) ts = true -> unused_stack ts stack.
Proof.
  rewrite !andb_true_iff, forallb_forall, Z.leb_le, Z.ltb_lt. intros [[H1 H2] H]. constructor; [done|].
  intros i t Ht%vget_elem_of%list_elem_of_In%H. unfold stack_free in Ht. unfold apart.
  rewrite orb_true_iff, !Z.leb_le in Ht. lia.
Qed.

Lemma staged_two_counters : staged two_counters.
Proof.
  apply staged_after; [apply staged_after; [apply staged_after; [apply staged_boot, test_booted|..]|..]|..].
  - split; [apply stack_is_unused; by vm_compute|done].
  - by vm_compute.
  - split; [apply stack_is_unused; by vm_compute|done].
  - by vm_compute.
  - done.
  - done.
Qed.

Definition after_run (main_rsp : Z) (m : Machine) : Machine :=
  match run main_rsp m with Done (_, m') => m' | Panic _ => m end.

Lemma run_after_run main_rsp m n a :
  staged m -> first_ready (tasks (sched m)) = Some n ->
  option_map saved_rsp (vget (tasks (sched m)) n) = Some a ->
  run main_rsp m = Done (Some a, after_run main_rsp m).
Proof.
  intros [Hm [Hc _]]%staged_run En Ea.
  destruct (wp_done _ _ _ (run_run main_rsp m (confined_ok _ Hm) Hc)) as (r & m' & E & _ & O).
  rewrite En in O. destruct O as (t & Ht & -> & _). rewrite Ht in Ea. injection Ea as <-.
  unfold after_run. by rewrite E.
Qed.

Definition started : Machine := after_run 0x5000 two_counters.

(** The processor state a frame describes. *)
Definition cpu_of (f : TrapFrame) : CpuState := mkCpuState (tf_reg f) (tf_rip f) (tf_cs f) (tf_rflags f) (tf_ss f).

Definition first_counter : CpuState := cpu_of (read_frame (kmem started) 0x444440001f60).

Lemma run_started : run 0x5000 two_counters = Done (Some 0x444440001f60, started).
Proof.
  apply (run_after_run 0x5000 two_counters 0); [apply staged_two_counters|vm_compute; reflexivity..].
Qed.

Lemma executed_started : executed first_counter started.
Proof.
  eapply executed_run; [apply staged_two_counters|apply run_started| |apply rtc_refl]. by constructor.
Qed.

(** The state after a step that continues in user mode. *)
Definition continues_with (op : CpuState -> ST Machine (option CpuState)) (s : CpuState * Machine) : bool :=
  match op s.1 s.2 with Done (Some _, _) => true | _ => false end.
Definition next_state (op : CpuState -> ST Machine (option CpuState)) (s : CpuState * Machine) : CpuState * Machine :=
  match op s.1 s.2 with Done (Some c, m) => (c, m) | _ => s end.

Lemma next_state_eq op c m :
  continues_with op (c, m) = true -> op c m = Done (Some (next_state op (c, m)).1, (next_state op (c, m)).2).
Proof. unfold continues_with, next_state. cbn [fst snd]. by destruct (op c m) as [[[c'|] m']|]. Qed.

Lemma tick_step s : continues_with timer_tick s = true -> exec_step s (next_state timer_tick s).
Proof.
  destruct s as [c m]. intros H%next_state_eq. destruct (next_state timer_tick (c, m)) as [c' m'].
  exact (exec_tick c m c' m' H).
Qed.

Lemma instr_step s :
  continues_with user_round s = true -> exec_step s (next_state user_round s).
Proof.
  destruct s as [c m]. intros H%next_state_eq. destruct (next_state user_round (c, m)) as [c' m'].
  exact (exec_instr c m c' m' H).
Qed.

(** The first program is interrupted, the second runs one instruction and is
    interrupted too. *)
Definition second_runs : CpuState * Machine := next_state timer_tick (first_counter, started).
Definition second_counts : CpuState * Machine := next_state user_round second_runs.
Definition first_again : CpuState * Machine := next_state timer_tick second_counts.

Lemma first_interrupted : timer_tick first_counter started = Done (Some second_runs.1, second_runs.2).
Proof. unfold second_runs. apply next_state_eq. vm_compute. reflexivity. Qed.

Lemma others_ran : rtc (others_step 0) second_runs first_again.
Proof.
  apply (rtc_l _ second_runs second_counts first_again).
  { split; [|vm_compute; discriminate]. apply instr_step. vm_compute. reflexivity. }
  apply (rtc_l _ second_counts first_again first_again); [|apply rtc_refl].
  split; [|vm_compute; discriminate]. apply tick_step. vm_compute. reflexivity.
Qed.



Lemma preemption_transparent_witness :
  cpu_eq first_again.1 first_counter /\
  same_space (root (process_of started 1)) (mem started) (mem first_again.2).
Proof.
  destruct (preemption_transparent first_counter started 0 1 (process_of started 1) second_runs.1 second_runs.2
    first_again.1 first_again.2) as (H1 & _ & H2).
  - apply executed_started.
  - vm_compute. reflexivity.
  - vm_compute. reflexivity.
  - vm_compute. reflexivity.
  - exact first_interrupted.
  - rewrite <- (surjective_pairing second_runs), <- (surjective_pairing first_again). exact others_ran.
  - vm_compute. reflexivity.
  - exact (conj H1 H2).
Defined.

Lemma page_tables_unreachable_witness :
  translate (ram (mem running)) (root (process_of running 1)) USER_CODE_BASE = Some (mkTranslation 0x101000 7) /\
  (forall b f, f ∈ tables (ram (mem running)) (root (process_of running 2)) b -> ~ (f <= 0x101000 < f + 4096)).
Proof.
  split; [vm_compute; reflexivity|].
  destruct (page_tables_unreachable running 1 (process_of running 1) USER_CODE_BASE
    (mkTranslation 0x101000 7)) as [H _].
  - apply confined_running.
  - vm_compute. reflexivity.
  - vm_compute. reflexivity.
  - intros b f. apply (H 2 (process_of running 2) b f). vm_compute. reflexivity.
Defined.

(** ** Programs *)

Definition path_elf : ParsedElf :=
  match parse_elf path_image with Ok elf => elf | Err _ => mkParsedElf 0 [] end.

Lemma elf_image_shown_witness :
  exists r m', spawn_user_elf_process_with_arg 0x444440000000 path_image 0 (test_machine 60) = Done (r, m') /\
    elf_spawned path_elf r m'.
Proof.
  destruct (elf_image_shown (test_machine 60) 0x444440000000 path_image path_elf 0) as (r & m' & E & H & _).
  - apply conf_boot, test_booted.
  - apply path_image_bytes.
  - vm_compute. reflexivity.
  - exists r, m'. exact (conj E H).
Defined.

Lemma builtin_program_shown_witness :
  exists r x, create_user_task_with_test_page (program_bytes ReadArgExit) 5 (Some 9) (mem (test_machine 60)) =
      Done (r, x) /\
    load_outcome (roots (proc_table Scheduler_new)) (builtin_image (program_bytes ReadArgExit) (Some 9))
      USER_CODE_BASE 5 (mem (test_machine 60)) r x /\
    disassemble 64 (program_bytes ReadArgExit) = Some (program_code ReadArgExit).
Proof. apply (builtin_program_shown (test_machine 60) ReadArgExit 5 (Some 9)), conf_boot, test_booted. Defined.

Lemma file_bytes_delivered_witness :
  exists m', sys_read_current 3 (USER_CODE_BASE + 256) 8 file_open = Done (Ok 8, m') /\
    read_user (ram (mem m')) (p_address_space (process_of file_open 1)) (USER_CODE_BASE + 256) 8 =
      Ok [116; 105; 110; 121; 32; 107; 101; 114].
Proof.
  assert (match sys_read_current 3 (USER_CODE_BASE + 256) 8 file_open with
          | Done (Ok n, _) => n = 8 | _ => False end) as H by (vm_compute; reflexivity).
  destruct (sys_read_current 3 (USER_CODE_BASE + 256) 8 file_open) as [[[n|] m']|] eqn:E;
    try contradiction. subst n. exists m'. split; [reflexivity|].
  assert (fd_file file_open 3 = Ok (1, process_of file_open 1, mkFdEntry 9, motd)) as Hfd by (vm_compute; reflexivity).
  destruct (file_bytes_delivered file_open 3 (USER_CODE_BASE + 256) 8 1 (process_of file_open 1)
    (mkFdEntry 9) motd 1 motd_file 8 m') as (_ & Hread & _).
  - apply confined_file_open.
  - apply code_base_canonical; lia.
  - exact Hfd.
  - reflexivity.
  - reflexivity.
  - apply Z.le_refl.
  - exact E.
  - reflexivity.
  - exact Hread.
Defined.

Definition task_of (m : Machine) (i : Z) : Task :=
  match vget (tasks (sched m)) i with Some t => t | None => first_task end.

Lemma wait_status_delivered_witness :
  exists m', waitpid_from_interrupt 0x9000 2 (Some (USER_CODE_BASE + 256)) 0 parent_back = Done (Resume 0x9000, m') /\
    kmem m' (0x9000 + OFF_RAX) = 2 /\
    read_user (ram (mem m')) (p_address_space (process_of parent_back 1)) (USER_CODE_BASE + 256) 8 =
      Ok (wait_status_bytes (Exited 3)) /\
    ProcessTable.get (proc_table (sched m')) 2 = None.
Proof.
  apply (wait_status_delivered parent_back 0x9000 2 (USER_CODE_BASE + 256) 0 0 (task_of parent_back 0) 1
    (process_of parent_back 1) (Exited 3)).
  - apply confined_parent_back.
  - vm_compute. reflexivity.
  - vm_compute. reflexivity.
  - vm_compute. reflexivity.
  - vm_compute. reflexivity.
  - apply code_base_canonical; lia.
  - vm_compute. reflexivity.
  - vm_compute. reflexivity.
Defined.

Lemma brk_moves_heap_witness :
  exists r m' p', sys_brk_current (heap_start (p_heap (process_of running 1)) + 100) running = Done (r, m') /\
    ProcessTable.get (proc_table (sched m')) 1 = Some p' /\ root p' = root (process_of running 1).
Proof.
  destruct (brk_moves_heap running (heap_start (p_heap (process_of running 1)) + 100) 1 (process_of running 1))
    as (r & m' & p' & H1 & H2 & H3 & _).
  - apply confined_running.
  - split; [vm_compute; discriminate|vm_compute; reflexivity].
  - vm_compute. reflexivity.
  - vm_compute. reflexivity.
  - exists r, m', p'. exact (conj H1 (conj H2 H3)).
Defined.

(** ** Boot *)

(** The machine as the bootloader leaves it. *)
Definition power_on : Machine := set_mem (mkMem None (fun _ => 0) 0x1000) boot_machine.

Lemma boot_memory_ready_witness :
  exists m' e frames, boot_memory_init 0x18000000000 example_map power_on = Done (tt, m') /\ booted_memory m' /\
    ram (mem m') = early_ram e /\ ALLOCATOR e = Some (HEAP_START, HEAP_SIZE) /\
    heap_mapped_at 0x1000 (ram (mem m')) (early_alloc e) frames.
Proof.
  destruct (boot_memory_ready 0x18000000000 example_map power_on) as [(error & e & E)|H]; [| |exact H].
  - constructor; [reflexivity|apply example_alloc|reflexivity|]. intros x _. split; [discriminate|reflexivity].
  - assert (match init_heap 0x1000 (mkEarly (fun _ => 0) (allocator_init example_map) None) with
            | Done (Ok _, _) => True | _ => False end) as Hok by (vm_compute; exact I).
    change (ram (mem power_on)) with (fun _ : Z => 0) in E. change (cr3 (mem power_on)) with 0x1000 in E.
    rewrite E in Hok. contradiction.
Defined.

Lemma ring3_entries_witness :
  (exists t, gdt_init 0x30000 (tables_initial 0 0 0) = Done (tt, t) /\ tables_ready 0x30000 t) /\
  user_gate 0x80 = Some syscall_interrupt_entry.
Proof. apply (ring3_entries 0x30000 0 0 0 0x80). Defined.

(** ** Images and code *)

Lemma elf_round_trip_witness :
  exists image, elf Build.USER_CODE_BASE [code_segment (assemble exit_42_code)] = Done image /\
    parse_elf image =
      Ok (mkParsedElf Build.USER_CODE_BASE (map load_segment [code_segment (assemble exit_42_code)])).
Proof. apply elf_round_trip. by apply code_image_ok; vm_compute. Defined.

Lemma code_round_trip_witness :
  disassemble 64 (concat (map encode userspace_busy_counter_entry)) = Some userspace_busy_counter_entry.
Proof.
  apply (code_round_trip userspace_busy_counter_entry 64).
  - repeat constructor; try discriminate.
  - vm_compute. lia.
Defined.

(** ** The boot of the shipped kernel *)

(** The addresses of the statics and functions that [kernel_main] names. *)
Definition example_layout : Layout := mkLayout 0x10000 0x20000 0x30000 0x21000 0x22000 0x23000
  0x555555550000 0x555555555000 (fun i => 0x555555553000 + 0x5000 * i) 0x40000.

Definition at_power_on : BootState := mkBootState _ power_on (tables_initial 0 0 0) Idt_new [] None [] [].

(** [kernel_main] runs through: the interrupt controllers and the timer are
    programmed, the heap is handed to the allocator, the selectors are loaded,
    and the two demo tasks alternate until both have returned. *)
Lemma kernel_main_runs :
  match kernel_main example_layout (mkBootInfo 0x18000000000 example_map) (fun a b => VirtAddr_new (a + b))
          (fun _ _ a => Some a) at_power_on with
  | Done (_, b) =>
      bs_io b = [PicsInitialize 32 40; PicsWriteMasks 252 255; PortWrite 67 54; PortWrite 64 155; PortWrite 64 46] /\
      bs_heap b = Some (HEAP_START, HEAP_SIZE) /\
      current (sched (bs_machine b)) = None /\ all_tasks_finished (tasks (sched (bs_machine b))) = true /\
      drop (length (bs_log b) - 6) (bs_log b) =
        [Text "Starting cooperative task demo"; Text "task A: 0"; Text "task B: 0";
         Text "task A: 1"; Text "task B: 1"; Text "Cooperative task demo complete"]
  | Panic _ => False
  end.
Proof.
  vm_compute. repeat split.
Qed.
